(** * OSPFS: a shallow embedding of ospfsmod.c

    The file system lives in one flat byte array, [ospfs_data].  Every C
    pointer into it is modelled by its byte offset from [&ospfs_data[0]];
    32-bit fields are little-endian words assembled from four bytes.  The
    functions below follow ospfsmod.c function by function and thread the
    image explicitly. *)

From Stdlib Require Import ZArith List Lia Bool.
Import ListNotations.
Local Open Scope Z_scope.

(** ** The raw image *)

Module Image.

(** [ospfs_data]: byte offset to byte.  The array is not bounded in the
model: an access past [ospfs_length] is an ordinary cell. *)
Definition image := Z -> Z.

Definition load8 (d : image) (a : Z) : Z := d a mod 256.

Definition store8 (d : image) (a v : Z) : image :=
fun x => if x =? a then v mod 256 else d x.

Definition load32 (d : image) (a : Z) : Z :=
load8 d a + 256 * load8 d (a + 1)
+ 65536 * load8 d (a + 2) + 16777216 * load8 d (a + 3).

Definition store32 (d : image) (a v : Z) : image :=
store8 (store8 (store8 (store8 d a v) (a + 1) (v / 256))
 (a + 2) (v / 65536)) (a + 3) (v / 16777216).

(** Arithmetic of [uint32_t]. *)
Definition u32 (x : Z) : Z := x mod 4294967296.

(** Copy of a byte string to consecutive cells ([copy_from_user], and the
character loops that fill names). *)
Fixpoint store_bytes (d : image) (a : Z) (bs : list Z) : image :=
match bs with
| [] => d
| b :: bs' => store_bytes (store8 d a b) (a + 1) bs'
end.

(** The [n] bytes from [a] on ([copy_to_user]). *)
Fixpoint load_bytes (d : image) (a : Z) (n : nat) : list Z :=
match n with
| O => []
| S n' => load8 d a :: load_bytes d (a + 1) n'
end.

(** The image with every cell zero. *)
Definition blank : image := fun _ => 0.

End Image.
Export Image.

(** ** Constants and record layouts of ospfs.h *)

Module Layout.

(** Modelled from the spec: ospfs.h is not among the sources.  The spec
gives the block size B = 1024, ND = 10 direct pointers, NI = B/4
entries per index block, a directory-entry stride of 128, a name limit
of 56 and a bitmap that holds 8*B bits per block; the source says the
bitmap starts at block 2 and the superblock at byte [OSPFS_BLKSIZE]. *)
Definition OSPFS_BLKSIZE : Z := 1024.
Definition OSPFS_BLKBITSIZE : Z := OSPFS_BLKSIZE * 8.
Definition OSPFS_FREEMAP_BLK : Z := 2.
Definition OSPFS_NDIRECT : Z := 10.
Definition OSPFS_NINDIRECT : Z := OSPFS_BLKSIZE / 4.
Definition OSPFS_DIRENTRY_SIZE : Z := 128.
Definition OSPFS_MAXNAMELEN : Z := 56.
Definition OSPFS_INODESIZE : Z := 64.

(** Modelled from the spec: the file types of ospfs.h (regular,
directory, symlink), numbered in that order. *)
Definition OSPFS_FTYPE_REG : Z := 0.
Definition OSPFS_FTYPE_DIR : Z := 1.
Definition OSPFS_FTYPE_SYMLINK : Z := 2.

(** Modelled from the spec: [ospfs_super_t] holds the magic number, the
block count, the inode count and the first inode block, one word
each, at [&ospfs_data[OSPFS_BLKSIZE]]. *)
Definition ospfs_super : Z := OSPFS_BLKSIZE.
Definition OS_NBLOCKS : Z := 4.
Definition OS_NINODES : Z := 8.
Definition OS_FIRSTINOB : Z := 12.

(** Modelled from the spec: [ospfs_inode_t] is size, type, link count,
mode, ND direct pointers, indirect and indirect2, one word each;
[ospfs_symlink_inode_t] shares the first three words and keeps the
link text in the rest of the slot. *)
Definition OI_SIZE : Z := 0.
Definition OI_FTYPE : Z := 4.
Definition OI_NLINK : Z := 8.
Definition OI_MODE : Z := 12.
Definition OI_DIRECT : Z := 16.
Definition OI_INDIRECT : Z := 56.
Definition OI_INDIRECT2 : Z := 60.
Definition OI_SYMLINK : Z := 12.
Definition OSPFS_MAXSYMLINKLEN : Z := OSPFS_INODESIZE - 13.

(** Modelled from the spec: [ospfs_direntry_t] is the inode number
followed by the null-terminated name. *)
Definition OD_INO : Z := 0.
Definition OD_NAME : Z := 4.

(** Linux error numbers. *)
Definition ENOENT : Z := 2.
Definition EIO : Z := 5.
Definition ENOMEM : Z := 12.
Definition EFAULT : Z := 14.
Definition EEXIST : Z := 17.
Definition ENOSPC : Z := 28.
Definition ENAMETOOLONG : Z := 36.

End Layout.
Export Layout.

(** ** Bitvector operations *)

(** [vector[i / 32] |= (1 << (i % 32))] on 32-bit words; [i] is an [int],
    so the quotient and remainder truncate. *)
Definition bitvector_set (d : image) (vector i : Z) : image :=
  let w := vector + 4 * Z.quot i 32 in
  store32 d w (Z.lor (load32 d w) (u32 (Z.shiftl 1 (Z.rem i 32)))).

(** [vector[i / 32] &= ~(1 << (i % 32))]. *)
Definition bitvector_clear (d : image) (vector i : Z) : image :=
  let w := vector + 4 * Z.quot i 32 in
  store32 d w (Z.land (load32 d w) (u32 (Z.lnot (Z.shiftl 1 (Z.rem i 32))))).

(** [(vector[i / 32] & (1 << (i % 32))) != 0]. *)
Definition bitvector_test (d : image) (vector i : Z) : bool :=
  let w := vector + 4 * Z.quot i 32 in
  negb (Z.land (load32 d w) (u32 (Z.shiftl 1 (Z.rem i 32))) =? 0).

(** ** Helper functions *)

Definition ospfs_size2nblocks (size : Z) : Z :=
  u32 (size + OSPFS_BLKSIZE - 1) / OSPFS_BLKSIZE.

(** [&ospfs_data[blockno * OSPFS_BLKSIZE]]: the index is computed in
    [uint32_t]. *)
Definition ospfs_block (blockno : Z) : Z := u32 (blockno * OSPFS_BLKSIZE).

Definition os_nblocks (d : image) : Z := load32 d (ospfs_super + OS_NBLOCKS).
Definition os_ninodes (d : image) : Z := load32 d (ospfs_super + OS_NINODES).
Definition os_firstinob (d : image) : Z := load32 d (ospfs_super + OS_FIRSTINOB).

(** [ospfs_inode]: [None] is the null pointer. *)
Definition ospfs_inode (d : image) (ino : Z) : option Z :=
  if ino >=? os_ninodes d then None
  else Some (ospfs_block (os_firstinob d) + ino * OSPFS_INODESIZE).

Definition oi_size (d : image) (oi : Z) : Z := load32 d (oi + OI_SIZE).
Definition oi_ftype (d : image) (oi : Z) : Z := load32 d (oi + OI_FTYPE).
Definition oi_nlink (d : image) (oi : Z) : Z := load32 d (oi + OI_NLINK).
Definition oi_mode (d : image) (oi : Z) : Z := load32 d (oi + OI_MODE).
Definition oi_direct (d : image) (oi k : Z) : Z := load32 d (oi + OI_DIRECT + 4 * k).
Definition oi_indirect (d : image) (oi : Z) : Z := load32 d (oi + OI_INDIRECT).
Definition oi_indirect2 (d : image) (oi : Z) : Z := load32 d (oi + OI_INDIRECT2).

(** Entry [k] of the block-number array that starts at byte [blk]. *)
Definition word_at (d : image) (blk k : Z) : Z := load32 d (blk + 4 * k).

(** [ospfs_inode_blockno(oi, offset)]; [offset] is a [uint32_t]. *)
Definition ospfs_inode_blockno (d : image) (oi offset : Z) : Z :=
  let blockno := offset / OSPFS_BLKSIZE in
  if (offset >=? oi_size d oi) || (oi_ftype d oi =? OSPFS_FTYPE_SYMLINK) then 0
  else if blockno >=? OSPFS_NDIRECT + OSPFS_NINDIRECT then
    let blockoff := blockno - (OSPFS_NDIRECT + OSPFS_NINDIRECT) in
    let indirect2_block := ospfs_block (oi_indirect2 d oi) in
    let indirect_block :=
      ospfs_block (word_at d indirect2_block (blockoff / OSPFS_NINDIRECT)) in
    word_at d indirect_block (blockoff mod OSPFS_NINDIRECT)
  else if blockno >=? OSPFS_NDIRECT then
    let indirect_block := ospfs_block (oi_indirect d oi) in
    word_at d indirect_block (blockno - OSPFS_NDIRECT)
  else oi_direct d oi blockno.

Definition ospfs_inode_data (d : image) (oi offset : Z) : Z :=
  let blockno := ospfs_inode_blockno d oi offset in
  ospfs_block blockno + offset mod OSPFS_BLKSIZE.

(** ** Free-block bitmap *)

(** The scan of [allocate_block]: [idx] runs up to [os_nblocks - 1]; the
    first argument counts the iterations that are left.  [idx] is an [int]
    in the source; the model follows it for block counts below 2^31. *)
Fixpoint allocate_block_scan (left : nat) (d : image)
    (freemap freemap_idx idx : Z) : Z * image :=
  match left with
  | O => (0, d)
  | S left' =>
      if bitvector_test d freemap (Z.rem idx OSPFS_BLKBITSIZE) then
        (idx, bitvector_clear d freemap (Z.rem idx OSPFS_BLKBITSIZE))
      else if idx =? OSPFS_BLKBITSIZE then
        allocate_block_scan left' d
          ((OSPFS_FREEMAP_BLK + (freemap_idx + 1)) * OSPFS_BLKSIZE)
          (freemap_idx + 1) (idx + 1)
      else allocate_block_scan left' d freemap freemap_idx (idx + 1)
  end.

(** The first block of the free-block bitmap. *)
Definition freemap0 : Z := OSPFS_FREEMAP_BLK * OSPFS_BLKSIZE.

(** [allocate_block()]: the block number, or 0 when the disk is full. *)
Definition allocate_block (d : image) : Z * image :=
  allocate_block_scan (Z.to_nat (os_nblocks d - os_firstinob d)) d
    freemap0 0 (os_firstinob d).

(** Bit [i] of the first bitmap block: block [i] is free. *)
Definition block_is_free (d : image) (i : Z) : bool := bitvector_test d freemap0 i.

Definition free_block (d : image) (blockno : Z) : image :=
  let freemap_idx := blockno / OSPFS_BLKBITSIZE in
  let freemap := (OSPFS_FREEMAP_BLK + freemap_idx) * OSPFS_BLKSIZE in
  bitvector_set d freemap (blockno mod OSPFS_BLKBITSIZE).

(** ** Position of a file block in the index tree *)

Definition indir2_index (b : Z) : Z :=
  if b <? OSPFS_NINDIRECT + OSPFS_NDIRECT then -1
  else if b <? OSPFS_NINDIRECT * OSPFS_NINDIRECT + OSPFS_NINDIRECT + OSPFS_NDIRECT
  then 0
  else -2.

Definition indir_index (b : Z) : Z :=
  if b <? OSPFS_NDIRECT then -1
  else if b <? OSPFS_NINDIRECT + OSPFS_NDIRECT then 0
  else if b <? OSPFS_NINDIRECT * OSPFS_NINDIRECT + OSPFS_NINDIRECT + OSPFS_NDIRECT
  then (b - (OSPFS_NINDIRECT + OSPFS_NDIRECT)) / OSPFS_NINDIRECT
  else -2.

Definition direct_index (b : Z) : Z :=
  if b <? OSPFS_NDIRECT then b
  else if b <? OSPFS_NDIRECT + OSPFS_NINDIRECT then b - OSPFS_NDIRECT
  else if b <? OSPFS_NDIRECT + OSPFS_NINDIRECT + OSPFS_NINDIRECT * OSPFS_NINDIRECT
  then (b - OSPFS_NDIRECT - OSPFS_NINDIRECT) mod OSPFS_NINDIRECT
  else -1.

(** ** Growing and shrinking a file *)

(** The loop that sets the [OSPFS_BLKSIZE] bytes of a block to zero. *)
Definition zero_block (d : image) (blk : Z) : image :=
  store_bytes d blk (repeat 0 (Z.to_nat OSPFS_BLKSIZE)).

Definition set_oi_size (d : image) (oi v : Z) : image :=
  store32 d (oi + OI_SIZE) (u32 v).

(** The allocation loop of [add_block]: one [allocate_block()] per needed
    block, stored in [allocated] in order; when one returns 0 the blocks
    obtained so far are released, the last one first. *)
Fixpoint allocate_all (new_blocks : nat) (d : image) (allocated : list Z)
    : option (list Z) * image :=
  match new_blocks with
  | O => (Some allocated, d)
  | S k =>
      let '(b, d1) := allocate_block d in
      if b =? 0 then (None, fold_left free_block (rev allocated) d1)
      else allocate_all k d1 (allocated ++ [b])
  end.

(** [add_block(oi)]: the return value and the image afterwards. *)
Definition add_block (d : image) (oi : Z) : Z * image :=
  let n := ospfs_size2nblocks (oi_size d oi) in
  if n =? 0 then
    let '(b, d1) := allocate_block d in
    let d2 := store32 d1 (oi + OI_DIRECT) b in
    if b =? 0 then (- ENOSPC, d2)
    else
      let d3 := zero_block d2 (ospfs_block (oi_direct d2 oi 0)) in
      (0, set_oi_size d3 oi (oi_size d3 oi + OSPFS_BLKSIZE))
  else
    let new_blocks :=
      if negb (indir2_index n =? indir2_index (u32 (n - 1))) then 3%nat
      else if negb (indir_index n =? indir_index (u32 (n - 1))) then 2%nat
      else 1%nat in
    match allocate_all new_blocks d [] with
    | (None, d1) => (- ENOSPC, d1)
    | (Some allocated, d1) =>
        let a0 := nth 0 allocated 0 in
        let a1 := nth 1 allocated 0 in
        let a2 := nth 2 allocated 0 in
        let d2 := fold_left (fun d' a => zero_block d' (ospfs_block a)) allocated d1 in
        let d3 :=
          match new_blocks with
          | 3%nat =>
              let e1 := store32 d2 (oi + OI_INDIRECT2) a2 in
              let e2 := store32 e1 (ospfs_block a2) a1 in
              store32 e2 (ospfs_block a1) a0
          | 2%nat =>
              let e1 := store32 d2 (ospfs_block a1) a0 in
              if indir2_index n =? 0 then
                store32 e1 (ospfs_block (oi_indirect2 e1 oi) + 4 * indir_index n) a1
              else store32 e1 (ospfs_block (oi_indirect e1 oi)) a1
          | _ =>
              if indir2_index n =? 0 then
                store32 d2
                  (ospfs_block (word_at d2 (ospfs_block (oi_indirect2 d2 oi)) (indir_index n))
                   + 4 * direct_index n) a0
              else if negb (indir_index n =? -1) then
                store32 d2 (ospfs_block (oi_indirect d2 oi) + 4 * direct_index n) a0
              else store32 d2 (oi + OI_DIRECT + 4 * direct_index n) a0
          end in
        (0, set_oi_size d3 oi (oi_size d3 oi + OSPFS_BLKSIZE))
    end.

(** [remove_block(oi)]. *)
Definition remove_block (d : image) (oi : Z) : Z * image :=
  let n := ospfs_size2nblocks (oi_size d oi) in
  let n1 := u32 (n - 1) in
  let d1 :=
    if negb (indir2_index n =? indir2_index n1) then
      let a2 := oi_indirect2 d oi in
      let a1 := word_at d (ospfs_block a2) 0 in
      let a0 := word_at d (ospfs_block a1) 0 in
      let e0 := free_block d a0 in
      let e1 := free_block e0 a1 in
      free_block e1 a2
    else if negb (indir_index n =? indir_index n1) then
      let '(a1, a0) :=
        if indir2_index n =? 0 then
          let a2 := oi_indirect2 d oi in
          let a1 := word_at d (ospfs_block a2) (indir_index n1) in
          (a1, word_at d (ospfs_block a1) (direct_index n1))
        else
          let a1 := oi_indirect d oi in
          (a1, word_at d (ospfs_block a1) (direct_index n1)) in
      let e0 := free_block d a0 in
      free_block e0 a1
    else
      let a0 :=
        if indir2_index n =? 0 then
          let a2 := oi_indirect2 d oi in
          let a1 := word_at d (ospfs_block a2) (indir_index n1) in
          word_at d (ospfs_block a1) (direct_index n1)
        else if negb (indir_index n =? -1) then
          let a1 := oi_indirect d oi in
          word_at d (ospfs_block a1) (direct_index n1)
        else oi_direct d oi (direct_index n1) in
      free_block d a0 in
  let d2 := set_oi_size d1 oi (oi_size d1 oi - oi_size d1 oi mod OSPFS_BLKSIZE) in
  let d3 :=
    if (oi_size d2 oi mod OSPFS_BLKSIZE =? 0) && negb (oi_size d2 oi =? 0)
    then set_oi_size d2 oi (oi_size d2 oi - OSPFS_BLKSIZE)
    else d2 in
  (0, d3).

(** The first loop of [change_size]: [add_block] while the file has fewer
    blocks than [new_size] needs.  [None]: the loop is still running after
    [fuel] rounds. *)
Fixpoint change_size_grow (fuel : nat) (d : image) (oi new_size : Z)
    : option (Z * image) :=
  if ospfs_size2nblocks (oi_size d oi) <? ospfs_size2nblocks new_size then
    match fuel with
    | O => None
    | S fuel' =>
        let '(r, d1) := add_block d oi in
        if r <? 0 then Some (r, d1) else change_size_grow fuel' d1 oi new_size
    end
  else Some (0, d).

(** The second loop: [remove_block] while the file has more blocks. *)
Fixpoint change_size_shrink (fuel : nat) (d : image) (oi new_size : Z)
    : option (Z * image) :=
  if ospfs_size2nblocks (oi_size d oi) >? ospfs_size2nblocks new_size then
    match fuel with
    | O => None
    | S fuel' =>
        let '(r, d1) := remove_block d oi in
        if r <? 0 then Some (r, d1) else change_size_shrink fuel' d1 oi new_size
    end
  else Some (0, d).

(** [change_size(oi, new_size)].  Each loop gets as many rounds as the
    block counts on entry differ, which is what it takes unless a store
    lands on [oi->oi_size] itself.  [None] records that case, in which
    the loops of the source go on; wherever the result is [Some], it is
    what the source returns. *)
Definition change_size (d : image) (oi new_size : Z) : option (Z * image) :=
  let fuel :=
    Z.to_nat (Z.abs (ospfs_size2nblocks new_size
                     - ospfs_size2nblocks (oi_size d oi))) in
  match change_size_grow fuel d oi new_size with
  | None => None
  | Some (r, d1) =>
      if r <? 0 then Some (r, d1)
      else
        match change_size_shrink fuel d1 oi new_size with
        | None => None
        | Some (r', d2) =>
            if r' <? 0 then Some (r', d2)
            else Some (0, set_oi_size d2 oi new_size)
        end
  end.

(** ** File read and write *)

(** The copy loop of [ospfs_read]: every round moves at least one byte, so
    [left] rounds are given for [count] bytes.  The user buffer is the
    list of bytes copied out so far; [copy_to_user] is taken to succeed.
    The result is the return value, the buffer and the file position. *)
Fixpoint ospfs_read_loop (left : nat) (d : image) (oi count amount f_pos : Z)
    (buffer : list Z) : Z * list Z * Z :=
  match left with
  | O => (amount, buffer, f_pos)
  | S left' =>
      if amount <? count then
        let blockno := ospfs_inode_blockno d oi (u32 f_pos) in
        if blockno =? 0 then (- EIO, buffer, f_pos)
        else
          let data := ospfs_block blockno in
          let n := if count - amount >? OSPFS_BLKSIZE then OSPFS_BLKSIZE
                   else count - amount in
          ospfs_read_loop left' d oi count (amount + n) (f_pos + n)
            (buffer ++ load_bytes d data (Z.to_nat n))
      else (amount, buffer, f_pos)
  end.

(** [ospfs_read(filp, buffer, count, f_pos)] on the file with inode number
    [ino].  [None]: [ospfs_inode] returned the null pointer, which the
    source dereferences. *)
Definition ospfs_read (d : image) (ino count f_pos : Z)
    : option (Z * list Z * Z) :=
  match ospfs_inode d ino with
  | None => None
  | Some oi =>
      let rest := u32 (oi_size d oi - u32 f_pos) in
      let count := if count <? rest then count else rest in
      Some (ospfs_read_loop (Z.to_nat (count / OSPFS_BLKSIZE + 1))
              d oi count 0 f_pos [])
  end.

(** The copy loop of [ospfs_write]; [buffer] is what is left of the user
    buffer and [copy_from_user] is taken to succeed. *)
Fixpoint ospfs_write_loop (left : nat) (d : image)
    (oi count amount f_pos init_offset : Z) (buffer : list Z)
    : Z * image * Z :=
  match left with
  | O => (amount, d, f_pos)
  | S left' =>
      if amount <? count then
        let blockno := ospfs_inode_blockno d oi (u32 f_pos) in
        if blockno =? 0 then (- EIO, d, f_pos)
        else
          let data := ospfs_block blockno in
          let n := if count - amount >? OSPFS_BLKSIZE then OSPFS_BLKSIZE
                   else count - amount in
          let d1 := store_bytes d (data + init_offset)
                      (firstn (Z.to_nat n) buffer) in
          ospfs_write_loop left' d1 oi count (amount + n) (f_pos + n) 0
            (skipn (Z.to_nat n) buffer)
      else (amount, d, f_pos)
  end.

(** [ospfs_write(filp, buffer, count, f_pos)] with [count] the length of
    [buffer]; [append] says whether [O_APPEND] is set. *)
Definition ospfs_write (d : image) (ino : Z) (append : bool)
    (buffer : list Z) (f_pos : Z) : option (Z * image * Z) :=
  match ospfs_inode d ino with
  | None => None
  | Some oi =>
      let count := Z.of_nat (length buffer) in
      let f_pos := if append then oi_size d oi else f_pos in
      let init_offset := f_pos mod OSPFS_BLKSIZE in
      let loop d1 :=
        Some (ospfs_write_loop (Z.to_nat (count / OSPFS_BLKSIZE + 1))
                d1 oi count 0 f_pos init_offset buffer) in
      if u32 (u32 count + u32 f_pos) >=? oi_size d oi then
        match change_size d oi (u32 (u32 count + u32 f_pos)) with
        | None => None
        | Some (r, d1) => if r <? 0 then Some (r, d1, f_pos) else loop d1
        end
      else loop d
  end.

(** ** Directory entries *)

Definition od_ino (d : image) (od : Z) : Z := load32 d (od + OD_INO).

Fixpoint bytes_eqb (xs ys : list Z) : bool :=
  match xs, ys with
  | [], [] => true
  | x :: xs', y :: ys' => (x =? y) && bytes_eqb xs' ys'
  | _, _ => false
  end.

(** [strlen(s) == n] for the C string at [s]: the first [n] bytes are not
    null and the next one is. *)
Definition strlen_is (d : image) (s : Z) (n : nat) : bool :=
  forallb (fun b => negb (b =? 0)) (load_bytes d s n)
  && (load8 d (s + Z.of_nat n) =? 0).

(** [strlen(od->od_name) == namelen
     && memcmp(od->od_name, name, namelen) == 0]. *)
Definition name_matches (d : image) (od : Z) (name : list Z) : bool :=
  strlen_is d (od + OD_NAME) (length name)
  && bytes_eqb (load_bytes d (od + OD_NAME) (length name)) name.

(** The loop of [find_direntry]. *)
Fixpoint find_direntry_loop (left : nat) (d : image) (dir_oi : Z)
    (name : list Z) (off : Z) : option Z :=
  match left with
  | O => None
  | S left' =>
      if off <? oi_size d dir_oi then
        let od := ospfs_inode_data d dir_oi off in
        if negb (od_ino d od =? 0) && name_matches d od name then Some od
        else find_direntry_loop left' d dir_oi name (off + OSPFS_DIRENTRY_SIZE)
      else None
  end.

(** The number of rounds a scan over the entries of a directory takes. *)
Definition dir_rounds (d : image) (dir_oi : Z) : nat :=
  Z.to_nat ((oi_size d dir_oi + OSPFS_DIRENTRY_SIZE - 1) / OSPFS_DIRENTRY_SIZE).

(** [find_direntry(dir_oi, name, namelen)] with [namelen] the length of
    [name]; [None] is the null pointer. *)
Definition find_direntry (d : image) (dir_oi : Z) (name : list Z) : option Z :=
  find_direntry_loop (dir_rounds d dir_oi) d dir_oi name 0.

(** A pointer or an [ERR_PTR]. *)
Inductive ptr_or_err : Type :=
| Ptr (a : Z)
| ErrPtr (errno : Z).

(** The search loop of [create_blank_direntry]: a blank entry, or the
    position at which the block lookup gave 0. *)
Fixpoint blank_scan (left : nat) (d : image) (dir_oi dir_pos : Z) : Z + Z :=
  match left with
  | O => inr dir_pos
  | S left' =>
      if negb (ospfs_inode_blockno d dir_oi dir_pos =? 0) then
        let dir_entry := ospfs_inode_data d dir_oi dir_pos in
        if od_ino d dir_entry =? 0 then inl dir_entry
        else blank_scan left' d dir_oi (u32 (dir_pos + OSPFS_DIRENTRY_SIZE))
      else inr dir_pos
  end.

(** [create_blank_direntry(dir_oi)].  [None]: [change_size] did not
    finish. *)
Definition create_blank_direntry (d : image) (dir_oi : Z)
    : option (ptr_or_err * image) :=
  match blank_scan (S (dir_rounds d dir_oi)) d dir_oi 0 with
  | inl dir_entry => Some (Ptr dir_entry, d)
  | inr dir_pos =>
      match change_size d dir_oi (u32 (dir_pos + OSPFS_DIRENTRY_SIZE)) with
      | None => None
      | Some (r, d1) =>
          if r <? 0 then Some (ErrPtr (- ENOSPC), d1)
          else Some (Ptr (ospfs_inode_data d1 dir_oi dir_pos), d1)
      end
  end.

(** The loops that copy a name into [od->od_name] and terminate it. *)
Definition set_od_name (d : image) (od : Z) (name : list Z) : image :=
  store8 (store_bytes d (od + OD_NAME) name)
         (od + OD_NAME + Z.of_nat (length name)) 0.

Definition set_od_ino (d : image) (od v : Z) : image := store32 d (od + OD_INO) v.
Definition set_oi_nlink (d : image) (oi v : Z) : image := store32 d (oi + OI_NLINK) (u32 v).

(** [ospfs_mk_linux_inode(sb, ino)]: [Some false] is the null result,
    returned when [ospfs_inode] is null or the kernel's [new_inode] fails
    ([new_inode_ok] false); [Some true] is a Linux inode, made for a
    regular file, a directory or a symbolic link; for any other
    [oi_ftype] the function calls [panic] and does not return, which is
    [None]. *)
Definition ospfs_mk_linux_inode (d : image) (ino : Z) (new_inode_ok : bool)
    : option bool :=
  match ospfs_inode d ino with
  | None => Some false
  | Some oi =>
      if negb new_inode_ok then Some false
      else if oi_ftype d oi =? OSPFS_FTYPE_REG then Some true
      else if oi_ftype d oi =? OSPFS_FTYPE_DIR then Some true
      else if oi_ftype d oi =? OSPFS_FTYPE_SYMLINK then Some true
      else None
  end.

(** ** Namespace operations *)

(** [ospfs_unlink]: [dir_ino] is the parent directory, [ino] the inode the
    entry points to, [name] the entry's name.  The loop returns the offset
    at which it stopped and the entry last looked at. *)
Fixpoint unlink_scan (left : nat) (d : image) (dir_oi : Z) (name : list Z)
    (entry_off : Z) (od : option Z) : Z * option Z :=
  match left with
  | O => (entry_off, od)
  | S left' =>
      if entry_off <? oi_size d dir_oi then
        let od' := ospfs_inode_data d dir_oi entry_off in
        if (od_ino d od' >? 0) && name_matches d od' name then (entry_off, Some od')
        else unlink_scan left' d dir_oi name (entry_off + OSPFS_DIRENTRY_SIZE) (Some od')
      else (entry_off, od)
  end.

Definition ospfs_unlink (d : image) (dir_ino ino : Z) (name : list Z)
    : option (Z * image) :=
  match ospfs_inode d dir_ino with
  | None => None
  | Some dir_oi =>
      let '(entry_off, od) :=
        unlink_scan (dir_rounds d dir_oi) d dir_oi name 0 None in
      if entry_off =? oi_size d dir_oi then Some (- ENOENT, d)
      else
        match od, ospfs_inode d ino with
        | Some od, Some oi =>
            let d1 := set_od_ino d od 0 in
            Some (0, set_oi_nlink d1 oi (oi_nlink d1 oi - 1))
        | _, _ => None
        end
  end.

(** [ospfs_link(src_dentry, dir, dst_dentry)]: [src_ino] is the inode
    number of the source, [name] the new name. *)
Definition ospfs_link (d : image) (src_ino dir_ino : Z) (name : list Z)
    : option (Z * image) :=
  if Z.of_nat (length name) >? OSPFS_MAXNAMELEN then Some (- ENAMETOOLONG, d)
  else
    match ospfs_inode d dir_ino with
    | None => None
    | Some dir_oi =>
        match find_direntry d dir_oi name with
        | Some _ => Some (- EEXIST, d)
        | None =>
            match create_blank_direntry d dir_oi with
            | None => None
            | Some (ErrPtr e, d1) => Some (e, d1)
            | Some (Ptr od, d1) =>
                let d2 := set_od_name d1 od name in
                let d3 := set_od_ino d2 od src_ino in
                match ospfs_inode d src_ino with
                | None => None
                | Some src_oi =>
                    Some (0, set_oi_nlink d3 src_oi (oi_nlink d3 src_oi + 1))
                end
            end
        end
    end.

(** The inode search of [ospfs_create], from inode 2 on: the number and
    address of the first inode with no links, or [None] when
    [ospfs_inode] gives the null pointer first. *)
Fixpoint create_inode_scan (left : nat) (d : image) (entry_ino : Z)
    : option (Z * Z) :=
  match left with
  | O => None
  | S left' =>
      match ospfs_inode d entry_ino with
      | None => None
      | Some file_new_oi =>
          if oi_nlink d file_new_oi =? 0 then Some (entry_ino, file_new_oi)
          else create_inode_scan left' d (entry_ino + 1)
      end
  end.

(** [ospfs_create(dir, dentry, mode, nd)].  The result of
    [create_blank_direntry] is used unchecked: an [ERR_PTR] is written
    through, which is [None] here, as is a panic of
    [ospfs_mk_linux_inode]. *)
Definition ospfs_create (d : image) (dir_ino : Z) (name : list Z) (mode : Z)
    (new_inode_ok : bool) : option (Z * image) :=
  match ospfs_inode d dir_ino with
  | None => None
  | Some dir_oi =>
      match find_direntry d dir_oi name with
      | Some _ => Some (- EEXIST, d)
      | None =>
          match create_blank_direntry d dir_oi with
          | None | Some (ErrPtr _, _) => None
          | Some (Ptr dir_new_entry, d1) =>
              let d2 := set_od_name d1 dir_new_entry name in
              match create_inode_scan (Z.to_nat (os_ninodes d2)) d2 2 with
              | None => Some (- ENOSPC, d2)
              | Some (entry_ino, file_new_oi) =>
                  let d3 := set_oi_nlink d2 file_new_oi (oi_nlink d2 file_new_oi + 1) in
                  let d4 := store32 d3 (file_new_oi + OI_MODE) mode in
                  let d5 := store32 d4 (file_new_oi + OI_FTYPE) OSPFS_FTYPE_REG in
                  if Z.of_nat (length name) >? OSPFS_MAXNAMELEN
                  then Some (- ENAMETOOLONG, d5)
                  else
                    let d6 := set_od_name d5 dir_new_entry name in
                    let d7 := set_od_ino d6 dir_new_entry entry_ino in
                    match ospfs_mk_linux_inode d7 entry_ino new_inode_ok with
                    | None => None
                    | Some true => Some (0, d7)
                    | Some false => Some (- ENOMEM, d7)
                    end
              end
          end
      end
  end.

(** The inode search of [ospfs_symlink], from inode 0 on: the first inode
    number with no links, or [os_ninodes]. *)
Fixpoint symlink_inode_scan (left : nat) (d : image) (entry_ino : Z) : Z :=
  match left with
  | O => entry_ino
  | S left' =>
      match ospfs_inode d entry_ino with
      | None => entry_ino
      | Some sym_oi =>
          if oi_nlink d sym_oi =? 0 then entry_ino
          else symlink_inode_scan left' d (entry_ino + 1)
      end
  end.

(** [ospfs_symlink(dir, dentry, symname)]; [symname] is the link text
    without its terminator.  [None] is a null inode dereferenced or a
    panic of [ospfs_mk_linux_inode]. *)
Definition ospfs_symlink (d : image) (dir_ino : Z) (name symname : list Z)
    (new_inode_ok : bool) : option (Z * image) :=
  let len := Z.of_nat (length symname) in
  if (len >? OSPFS_MAXSYMLINKLEN)
     || (Z.of_nat (length name) >? OSPFS_MAXSYMLINKLEN)
  then Some (- ENAMETOOLONG, d)
  else
    match ospfs_inode d dir_ino with
    | None => None
    | Some dir_oi =>
        match find_direntry d dir_oi name with
        | Some _ => Some (- EEXIST, d)
        | None =>
            let entry_ino := symlink_inode_scan (Z.to_nat (os_ninodes d)) d 0 in
            if entry_ino =? os_ninodes d then Some (- ENOSPC, d)
            else
              match ospfs_inode d entry_ino, create_blank_direntry d dir_oi with
              | None, _ | _, None => None
              | _, Some (ErrPtr e, d1) => Some (e, d1)
              | Some sym_oi, Some (Ptr od, d1) =>
                  let d2 := store32 d1 (sym_oi + OI_SIZE) len in
                  let d3 := store32 d2 (sym_oi + OI_FTYPE) OSPFS_FTYPE_SYMLINK in
                  let d4 := store32 d3 (sym_oi + OI_NLINK) 1 in
                  let d5 := store8 (store_bytes d4 (sym_oi + OI_SYMLINK) symname)
                              (sym_oi + OI_SYMLINK + len) 0 in
                  let d6 := set_od_name d5 od name in
                  let d7 := set_od_ino d6 od entry_ino in
                  match ospfs_mk_linux_inode d7 entry_ino new_inode_ok with
                  | None => None
                  | Some true => Some (0, d7)
                  | Some false => Some (- ENOMEM, d7)
                  end
              end
        end
    end.

(** ** Following symbolic links *)

(** What [nd_set_link] receives: the text stored in the inode, or a fresh
    buffer with the given characters and a terminator. *)
Inductive link_target : Type :=
| Stored (text : Z)
| Buffer (chars : list Z).

(** [while ( *p != c) p++]: the first address from [p] on that holds [c];
    [None] when there is none among the next [fuel] bytes. *)
Fixpoint scan_for (fuel : nat) (d : image) (p c : Z) : option Z :=
  match fuel with
  | O => None
  | S fuel' => if load8 d p =? c then Some p else scan_for fuel' d (p + 1) c
  end.

(** The characters "root?". *)
Definition root_prefix : list Z := [114; 111; 111; 116; 63].
Definition colon : Z := 58.

(** [ospfs_follow_link(dentry, nd)] for the caller [uid].  [None]: the
    inode pointer is null or a scan passes [fuel] bytes. *)
Definition ospfs_follow_link (fuel : nat) (d : image) (ino uid : Z)
    : option link_target :=
  match ospfs_inode d ino with
  | None => None
  | Some oi =>
      if negb (bytes_eqb root_prefix (load_bytes d (oi + OI_SYMLINK) 5))
      then Some (Stored (oi + OI_SYMLINK))
      else
        let start := oi + OI_SYMLINK + 5 in
        let start_endchar :=
          if uid =? 0 then Some (start, colon)
          else match scan_for fuel d start colon with
               | None => None
               | Some p => Some (p + 1, 0)
               end in
        match start_endchar with
        | None => None
        | Some (start, endchar) =>
            match scan_for fuel d start endchar with
            | None => None
            | Some e =>
                let end_ := e - 1 in
                Some (Buffer (load_bytes d start (Z.to_nat (end_ - start + 1))))
            end
        end
  end.

(** The characters of the C string at [s], when it ends within [fuel]
    bytes. *)
Fixpoint cstring (fuel : nat) (d : image) (s : Z) : option (list Z) :=
  match fuel with
  | O => None
  | S fuel' =>
      if load8 d s =? 0 then Some []
      else option_map (cons (load8 d s)) (cstring fuel' d (s + 1))
  end.

(** The text a link target stands for. *)
Definition link_text (fuel : nat) (d : image) (t : link_target) : option (list Z) :=
  match t with
  | Stored s => cstring fuel d s
  | Buffer chars => Some chars
  end.

(** ** Directories in the image: slots and separation *)

(** The address of the directory entry at byte offset [off]. *)
Definition slot (d : image) (dir_oi off : Z) : Z := ospfs_inode_data d dir_oi off.

(** The entry at [off] is taken and carries [name]: the test of
    [find_direntry] and of [ospfs_unlink]. *)
Definition entry_matches (d : image) (dir_oi : Z) (name : list Z) (off : Z) : bool :=
  negb (od_ino d (slot d dir_oi off) =? 0)
  && name_matches d (slot d dir_oi off) name.

(** The words the block map reads for file block [b], besides the size
    and the type of the inode. *)
Definition map_words (d : image) (oi b : Z) : list Z :=
  if b <? OSPFS_NDIRECT then [oi + OI_DIRECT + 4 * b]
  else if b <? OSPFS_NDIRECT + OSPFS_NINDIRECT then
    [oi + OI_INDIRECT;
     ospfs_block (oi_indirect d oi) + 4 * (b - OSPFS_NDIRECT)]
  else
    let blockoff := b - (OSPFS_NDIRECT + OSPFS_NINDIRECT) in
    [oi + OI_INDIRECT2;
     ospfs_block (oi_indirect2 d oi) + 4 * (blockoff / OSPFS_NINDIRECT);
     ospfs_block (word_at d (ospfs_block (oi_indirect2 d oi))
                    (blockoff / OSPFS_NINDIRECT))
     + 4 * (blockoff mod OSPFS_NINDIRECT)].

(** The bytes that say where the entries of a directory of [n] blocks
    are and which inode a name is linked to: the inode counts of the
    superblock, the directory's inode, the words of its block map, and the
    link count of the inode [f_oi]. *)
Definition in_meta (d : image) (dir_oi f_oi n a : Z) : Prop :=
  ospfs_super + OS_NINODES <= a < ospfs_super + OS_FIRSTINOB + 4
  \/ dir_oi <= a < dir_oi + OSPFS_INODESIZE
  \/ f_oi + OI_NLINK <= a < f_oi + OI_NLINK + 4
  \/ exists b w, 0 <= b < n /\ In w (map_words d dir_oi b) /\ w <= a < w + 4.

(** Number of the [b]-th block of the file. *)
Definition file_block (d : image) (oi b : Z) : Z :=
  ospfs_inode_blockno d oi (b * OSPFS_BLKSIZE).

(** A directory whose blocks are its own: the size is a whole number of
    entries, the blocks below the size have distinct, nonzero numbers that
    address the image without wrap-around, none of them overlaps the
    bytes of [in_meta], the link count of [f_oi] is not part of the
    directory's inode or block map, the words of the block map outside
    the inode do not overlap it, and the inode is not in the superblock. *)
Record dir_sep (d : image) (dir_oi f_oi : Z) : Prop := {
  sep_type : oi_ftype d dir_oi <> OSPFS_FTYPE_SYMLINK;
  sep_aligned : oi_size d dir_oi mod OSPFS_DIRENTRY_SIZE = 0;
  sep_small : oi_size d dir_oi <= 4294967296 - OSPFS_BLKSIZE;
  sep_blocks :
    forall b, 0 <= b < ospfs_size2nblocks (oi_size d dir_oi) ->
      0 < file_block d dir_oi b < 4194304
      /\ forall a, ospfs_block (file_block d dir_oi b) <= a
                   < ospfs_block (file_block d dir_oi b) + OSPFS_BLKSIZE ->
                   ~ in_meta d dir_oi f_oi (ospfs_size2nblocks (oi_size d dir_oi)) a;
  sep_distinct :
    forall b b', 0 <= b < ospfs_size2nblocks (oi_size d dir_oi) ->
      0 <= b' < ospfs_size2nblocks (oi_size d dir_oi) ->
      b <> b' -> file_block d dir_oi b <> file_block d dir_oi b';
  sep_nlink :
    forall a, f_oi + OI_NLINK <= a < f_oi + OI_NLINK + 4 ->
      ~ (ospfs_super + OS_NINODES <= a < ospfs_super + OS_FIRSTINOB + 4)
      /\ ~ (dir_oi <= a < dir_oi + OSPFS_INODESIZE)
      /\ forall b w, 0 <= b < ospfs_size2nblocks (oi_size d dir_oi) ->
           In w (map_words d dir_oi b) -> ~ (w <= a < w + 4);
  sep_index :
    forall b w, 0 <= b < ospfs_size2nblocks (oi_size d dir_oi) ->
      In w (tl (map_words d dir_oi b)) ->
      w + 4 <= dir_oi \/ dir_oi + OSPFS_INODESIZE <= w;
  sep_super :
    dir_oi + OSPFS_INODESIZE <= ospfs_super + OS_NINODES
    \/ ospfs_super + OS_FIRSTINOB + 4 <= dir_oi
}.

(** The word outside the inode and outside the blocks it has just
    allocated that [add_block] sets for a file of [n] blocks: an entry of
    the indirect block, of the doubly indirect block, or of the indirect
    block that the doubly indirect block names.  None when the new
    pointer goes into the inode. *)
Definition next_words (d : image) (oi n : Z) : list Z :=
  if n <? OSPFS_NDIRECT then []
  else if n <? OSPFS_NDIRECT + OSPFS_NINDIRECT then
    [ospfs_block (oi_indirect d oi) + 4 * (n - OSPFS_NDIRECT)]
  else
    let blockoff := n - (OSPFS_NDIRECT + OSPFS_NINDIRECT) in
    if blockoff =? 0 then []
    else if blockoff mod OSPFS_NINDIRECT =? 0 then
      [ospfs_block (oi_indirect2 d oi) + 4 * (blockoff / OSPFS_NINDIRECT)]
    else
      [ospfs_block (word_at d (ospfs_block (oi_indirect2 d oi))
                      (blockoff / OSPFS_NINDIRECT))
       + 4 * (blockoff mod OSPFS_NINDIRECT)].

(** What growing the directory by a block needs: the bitmap fits one
    block; the directory is below the largest file size; every block the
    allocator may hand out lies apart from the bytes of [in_meta], from
    the bitmap block and from the directory's blocks; so does the bitmap
    block; and the word of [next_words] lies apart from the bytes of
    [in_meta], from the directory's blocks and from the free blocks. *)
Record can_grow (d : image) (dir_oi f_oi : Z) : Prop := {
  grow_bitmap : os_nblocks d <= OSPFS_BLKBITSIZE;
  grow_max :
    ospfs_size2nblocks (oi_size d dir_oi)
    < OSPFS_NDIRECT + OSPFS_NINDIRECT + OSPFS_NINDIRECT * OSPFS_NINDIRECT;
  grow_free :
    forall b, os_firstinob d <= b < os_nblocks d -> block_is_free d b = true ->
      OSPFS_FREEMAP_BLK < b
      /\ (forall a, ospfs_block b <= a < ospfs_block b + OSPFS_BLKSIZE ->
                    ~ in_meta d dir_oi f_oi (ospfs_size2nblocks (oi_size d dir_oi)) a)
      /\ forall b', 0 <= b' < ospfs_size2nblocks (oi_size d dir_oi) ->
                    file_block d dir_oi b' <> b;
  grow_map :
    forall a, freemap0 <= a < freemap0 + OSPFS_BLKSIZE ->
      ~ in_meta d dir_oi f_oi (ospfs_size2nblocks (oi_size d dir_oi)) a
      /\ forall b', 0 <= b' < ospfs_size2nblocks (oi_size d dir_oi) ->
                    file_block d dir_oi b' <> OSPFS_FREEMAP_BLK;
  grow_next :
    forall w x, In w (next_words d dir_oi (ospfs_size2nblocks (oi_size d dir_oi))) ->
      w <= x < w + 4 ->
      ~ in_meta d dir_oi f_oi (ospfs_size2nblocks (oi_size d dir_oi)) x
      /\ (forall b', 0 <= b' < ospfs_size2nblocks (oi_size d dir_oi) ->
            ~ (ospfs_block (file_block d dir_oi b') <= x
               < ospfs_block (file_block d dir_oi b') + OSPFS_BLKSIZE))
      /\ forall b, os_firstinob d <= b < os_nblocks d -> block_is_free d b = true ->
           ~ (ospfs_block b <= x < ospfs_block b + OSPFS_BLKSIZE)
}.

(** [lw] is a pointer word of the inode that the block map of the
    directory does not read yet. *)
Definition inode_word_new (d : image) (dir_oi lw : Z) : Prop :=
  dir_oi + OI_DIRECT <= lw /\ lw + 4 <= dir_oi + OSPFS_INODESIZE
  /\ forall b w, 0 <= b < ospfs_size2nblocks (oi_size d dir_oi) ->
       In w (map_words d dir_oi b) -> w + 4 <= lw \/ lw + 4 <= w.

(** The blocks [bs] are free in [d], distinct, and none is block 0. *)
Definition fresh_blocks (d : image) (bs : list Z) : Prop :=
  NoDup bs
  /\ forall b, In b bs ->
       b <> 0 /\ os_firstinob d <= b < os_nblocks d /\ block_is_free d b = true.

(** The image after the allocator has handed out the blocks [bs] and
    [add_block] has zeroed them. *)
Definition claimed (d : image) (bs : list Z) : image :=
  fold_left (fun e a => zero_block e (ospfs_block a)) bs
    (fold_left (fun e b => bitvector_clear e freemap0 b) bs d).

(** A byte of a block of the directory below its size, or of the link
    count of [f_oi]: what linking and unlinking a name may write. *)
Definition data_or_nlink (d : image) (dir_oi f_oi a : Z) : Prop :=
  f_oi + OI_NLINK <= a < f_oi + OI_NLINK + 4
  \/ exists b, 0 <= b < ospfs_size2nblocks (oi_size d dir_oi)
               /\ ospfs_block (file_block d dir_oi b) <= a
                  < ospfs_block (file_block d dir_oi b) + OSPFS_BLKSIZE.

(** [off] is the offset of an entry of the directory. *)
Definition entry_off (d : image) (dir_oi off : Z) : Prop :=
  0 <= off < oi_size d dir_oi /\ off mod OSPFS_DIRENTRY_SIZE = 0.

(** The characters of a file name: bytes other than the terminator. *)
Definition name_chars (name : list Z) : Prop := Forall (fun c => 0 < c < 256) name.

(** The directory has no room left in its last block and no blank entry:
    the next entry needs a new block. *)
Definition dir_full (d : image) (dir_oi : Z) : Prop :=
  oi_size d dir_oi mod OSPFS_BLKSIZE = 0
  /\ forall off, entry_off d dir_oi off -> od_ino d (slot d dir_oi off) <> 0.

(** What [create_blank_direntry] owes its callers when it returns the
    entry [od] in the image [d1]: [od] is an entry of the directory, blank
    if it was there before and the last one otherwise; the directory is
    still separated; the old entries, the inode numbering and the link
    count of [f_oi] are as before. *)
Definition blank_post (d d1 : image) (dir_oi f_oi od : Z) : Prop :=
  exists off_b,
    entry_off d1 dir_oi off_b
    /\ od = slot d1 dir_oi off_b
    /\ dir_sep d1 dir_oi f_oi
    /\ (forall ino, ospfs_inode d1 ino = ospfs_inode d ino)
    /\ oi_nlink d1 f_oi = oi_nlink d f_oi
    /\ (forall off, entry_off d dir_oi off ->
          entry_off d1 dir_oi off
          /\ slot d1 dir_oi off = slot d dir_oi off
          /\ od_ino d1 (slot d dir_oi off) = od_ino d (slot d dir_oi off)
          /\ forall name : list Z,
               Z.of_nat (length name) <= OSPFS_DIRENTRY_SIZE - 5 ->
               entry_matches d1 dir_oi name off = entry_matches d dir_oi name off)
    /\ (forall off, entry_off d1 dir_oi off -> entry_off d dir_oi off \/ off = off_b)
    /\ (entry_off d dir_oi off_b -> od_ino d (slot d dir_oi off_b) = 0)
    /\ (~ entry_off d dir_oi off_b ->
        forall off, entry_off d dir_oi off -> off < off_b).

(** ** Directory lookup and listing, attribute changes *)

(** Further errno values. *)
Definition EPERM : Z := 1.
Definition EINVAL : Z := 22.

(** The outcome of [ospfs_dir_lookup]: an error pointer, the dentry with
    the inode of number [ino] attached, or a negative dentry. *)
Inductive lookup_result : Type :=
| LookupErr (errno : Z)
| LookupFound (ino : Z)
| LookupNegative.

(** The search loop of [ospfs_dir_lookup]: the entry at which it
    breaks. *)
Fixpoint lookup_scan (left : nat) (d : image) (dir_oi : Z) (name : list Z)
    (entry_off : Z) : option Z :=
  match left with
  | O => None
  | S left' =>
      if entry_off <? oi_size d dir_oi then
        let od := ospfs_inode_data d dir_oi entry_off in
        if (od_ino d od >? 0) && name_matches d od name then Some od
        else lookup_scan left' d dir_oi name (entry_off + OSPFS_DIRENTRY_SIZE)
      else None
  end.

(** [ospfs_dir_lookup(dir, dentry, ignore)]: [dir_ino] is the directory's
    inode number and [name] the name looked up.  What [d_splice_alias]
    does with the inode is the kernel's.  [None] is a null directory
    inode dereferenced or a panic of [ospfs_mk_linux_inode]. *)
Definition ospfs_dir_lookup (d : image) (dir_ino : Z) (name : list Z)
    (new_inode_ok : bool) : option lookup_result :=
  if Z.of_nat (length name) >? OSPFS_MAXNAMELEN
  then Some (LookupErr (- ENAMETOOLONG))
  else
    match ospfs_inode d dir_ino with
    | None => None
    | Some dir_oi =>
        match lookup_scan (dir_rounds d dir_oi) d dir_oi name 0 with
        | Some od =>
            match ospfs_mk_linux_inode d (od_ino d od) new_inode_ok with
            | None => None
            | Some true => Some (LookupFound (od_ino d od))
            | Some false => Some (LookupErr (- EINVAL))
            end
        | None => Some LookupNegative
        end
    end.

(** The last argument of [filldir], and one call of it: the name, the
    file position, the inode number and the type. *)
Inductive dirent_type : Type := DT_DIR | DT_REG | DT_LNK.

Record dirent_call : Type := {
  fc_name : list Z;
  fc_pos : Z;
  fc_ino : Z;
  fc_type : dirent_type
}.

(** The names "." and "..". *)
Definition dot : list Z := [46].
Definition dotdot : list Z := [46; 46].

(** The type [ospfs_dir_readdir] reports for an inode. *)
Definition dirent_type_of (d : image) (entry_oi : Z) : dirent_type :=
  if oi_ftype d entry_oi =? OSPFS_FTYPE_REG then DT_REG
  else if oi_ftype d entry_oi =? OSPFS_FTYPE_DIR then DT_DIR
  else DT_LNK.

(** The entry loop of [ospfs_dir_readdir].  The callback [filldir] is a
    function of its state (what [dirent] points to) and of the call; it
    returns its result and its new state.  The loop returns [r], the file
    position and the callback's state; [None]: a null inode pointer is
    read through, or a name or the loop does not end within [fuel]. *)
Fixpoint readdir_loop (S : Type) (filldir : S -> dirent_call -> Z * S)
    (fuel : nat) (d : image) (dir_oi f_pos : Z) (st : S) : option (Z * Z * S) :=
  match fuel with
  | O => None
  | Datatypes.S fuel' =>
      if f_pos >=? 2 then
        let entry_off := u32 ((f_pos - 2) * OSPFS_DIRENTRY_SIZE) in
        if ospfs_inode_blockno d dir_oi entry_off =? 0 then Some (1, f_pos, st)
        else
          let od := ospfs_inode_data d dir_oi entry_off in
          if od_ino d od <=? 0
          then readdir_loop S filldir fuel' d dir_oi (u32 (f_pos + 1)) st
          else
            match ospfs_inode d (od_ino d od), cstring fuel d (od + OD_NAME) with
            | Some entry_oi, Some name =>
                let '(ok_so_far, st') :=
                  filldir st {| fc_name := name; fc_pos := f_pos;
                                fc_ino := od_ino d od;
                                fc_type := dirent_type_of d entry_oi |} in
                if ok_so_far >=? 0
                then readdir_loop S filldir fuel' d dir_oi (u32 (f_pos + 1)) st'
                else Some (0, f_pos, st')
            | _, _ => None
            end
      else Some (0, f_pos, st)
  end.

(** [ospfs_dir_readdir(filp, dirent, filldir)] for the directory
    [dir_ino] whose parent is [parent_ino], from the position [f_pos0]. *)
Definition ospfs_dir_readdir (S : Type) (filldir : S -> dirent_call -> Z * S)
    (fuel : nat) (d : image) (dir_ino parent_ino f_pos0 : Z) (st : S)
    : option (Z * Z * S) :=
  let f_pos := u32 f_pos0 in
  let '(ok1, f_pos1, st1) :=
    if f_pos =? 0 then
      let '(ok, st') :=
        filldir st {| fc_name := dot; fc_pos := f_pos; fc_ino := dir_ino;
                      fc_type := DT_DIR |} in
      (ok, if ok >=? 0 then u32 (f_pos + 1) else f_pos, st')
    else (0, f_pos, st) in
  let '(ok2, f_pos2, st2) :=
    if (ok1 >=? 0) && (f_pos1 =? 1) then
      let '(ok, st') :=
        filldir st1 {| fc_name := dotdot; fc_pos := f_pos1;
                       fc_ino := parent_ino; fc_type := DT_DIR |} in
      (ok, if ok >=? 0 then u32 (f_pos1 + 1) else f_pos1, st')
    else (ok1, f_pos1, st1) in
  if (ok2 >=? 0) && (f_pos2 >=? 2) then
    match ospfs_inode d dir_ino with
    | None => None
    | Some dir_oi => readdir_loop S filldir fuel d dir_oi f_pos2 st2
    end
  else Some (0, f_pos2, st2).

(** [change_size(oi, new_size)] with the number of rounds that each of
    its loops may take given from outside.  [None] says that a loop is
    still running after [rounds] rounds: a run of the function that
    returns is [change_size_rounds] for every large enough [rounds].
    [change_size] above is this function at as many rounds as the block
    counts differ on entry. *)
Definition change_size_rounds (rounds : nat) (d : image) (oi new_size : Z)
    : option (Z * image) :=
  match change_size_grow rounds d oi new_size with
  | None => None
  | Some (r, d1) =>
      if r <? 0 then Some (r, d1)
      else
        match change_size_shrink rounds d1 oi new_size with
        | None => None
        | Some (r', d2) =>
            if r' <? 0 then Some (r', d2)
            else Some (0, set_oi_size d2 oi new_size)
        end
  end.

(** [ospfs_notify_change(dentry, attr)] on the inode [ino]: [ia_size] and
    [ia_mode] are given when [ATTR_SIZE] and [ATTR_MODE] are set;
    [change_ok] and [setattr] are what the kernel's [inode_change_ok] and
    [inode_setattr] return; [rounds] is passed to [change_size_rounds].
    [None] is a null inode dereferenced, or loops of [change_size] that
    need more rounds. *)
Definition ospfs_notify_change (rounds : nat) (d : image) (ino : Z)
    (ia_size ia_mode : option Z) (change_ok setattr : Z) : option (Z * image) :=
  let finish (e : image) :=
    if change_ok <? 0 then (change_ok, e) else (setattr, e) in
  match ia_size, ia_mode, ospfs_inode d ino with
  | None, None, _ => Some (finish d)
  | _, _, None => None
  | _, _, Some oi =>
      let sized : option (Z * image + image) :=
        match ia_size with
        | None => Some (inr d)
        | Some s =>
            if oi_ftype d oi =? OSPFS_FTYPE_DIR then Some (inl (- EPERM, d))
            else
              match change_size_rounds rounds d oi (u32 s) with
              | None => None
              | Some (r, d1) => if r <? 0 then Some (inl (r, d1)) else Some (inr d1)
              end
        end in
      match sized with
      | None => None
      | Some (inl res) => Some res
      | Some (inr d1) =>
          Some (finish match ia_mode with
                       | None => d1
                       | Some m => store32 d1 (oi + OI_MODE) m
                       end)
      end
  end.

(** ** What a file and a directory hold *)

(** Byte [o] of the file, and the [n] bytes from [pos] on. *)
Definition file_byte (d : image) (oi o : Z) : Z := load8 d (ospfs_inode_data d oi o).

Definition file_bytes (d : image) (oi pos : Z) (n : nat) : list Z :=
  map (fun i => file_byte d oi (pos + Z.of_nat i)) (seq 0 n).

(** Two images that read the same everywhere. *)
Definition same_bytes (d e : image) : Prop := forall a, load8 d a = load8 e a.

(** The call [ospfs_dir_readdir] makes for entry number [i] of the
    directory, none for a blank entry. *)
Definition entry_call (fuel : nat) (d : image) (dir_oi : Z) (i : nat)
    : list dirent_call :=
  let od := ospfs_inode_data d dir_oi (OSPFS_DIRENTRY_SIZE * Z.of_nat i) in
  if od_ino d od =? 0 then []
  else
    [{| fc_name := match cstring fuel d (od + OD_NAME) with
                   | Some name => name
                   | None => []
                   end;
        fc_pos := 2 + Z.of_nat i;
        fc_ino := od_ino d od;
        fc_type := match ospfs_inode d (od_ino d od) with
                   | Some entry_oi => dirent_type_of d entry_oi
                   | None => DT_LNK
                   end |}].

(** The calls for "." and ".." and for the first [k] entries. *)
Definition dir_listing (fuel : nat) (d : image) (dir_ino parent_ino dir_oi : Z)
    (k : nat) : list dirent_call :=
  {| fc_name := dot; fc_pos := 0; fc_ino := dir_ino; fc_type := DT_DIR |}
  :: {| fc_name := dotdot; fc_pos := 1; fc_ino := parent_ino; fc_type := DT_DIR |}
  :: flat_map (entry_call fuel d dir_oi) (seq 0 k).

(** What the allocator needs to leave an inode alone: the bitmap fits one
    block, the inode lies outside the bitmap block, and every free block
    that can be handed out lies past the bitmap block and apart from the
    inode. *)
Definition inode_apart (d : image) (oi : Z) : Prop :=
  os_nblocks d <= OSPFS_BLKBITSIZE
  /\ (oi + OSPFS_INODESIZE <= freemap0 \/ freemap0 + OSPFS_BLKSIZE <= oi)
  /\ forall b, os_firstinob d <= b < os_nblocks d -> block_is_free d b = true ->
       OSPFS_FREEMAP_BLK < b
       /\ (ospfs_block b + OSPFS_BLKSIZE <= oi
           \/ oi + OSPFS_INODESIZE <= ospfs_block b).

(** The bytes that say where the entries of a directory are: the inode
    counts of the superblock, the directory's inode and the words of its
    block map. *)
Definition dir_meta (d : image) (dir_oi a : Z) : Prop :=
  ospfs_super + OS_NINODES <= a < ospfs_super + OS_FIRSTINOB + 4
  \/ dir_oi <= a < dir_oi + OSPFS_INODESIZE
  \/ exists b w, 0 <= b < ospfs_size2nblocks (oi_size d dir_oi)
                 /\ In w (map_words d dir_oi b) /\ w <= a < w + 4.

(** The inodes other than the directory's are apart from the directory:
    each of their words can play the part of the link count in [dir_sep]
    and, when the directory is full, in [can_grow]. *)
Definition inodes_apart (d : image) (dir_ino dir_oi : Z) : Prop :=
  forall ino oi w, 0 <= ino -> ino <> dir_ino -> ospfs_inode d ino = Some oi ->
    oi <= w -> w + 4 <= oi + OSPFS_INODESIZE ->
    dir_sep d dir_oi (w - OI_NLINK)
    /\ (dir_full d dir_oi -> can_grow d dir_oi (w - OI_NLINK)).

(** ** Sample images *)

Module Sample.

(** A 32-block image: boot block, superblock, one bitmap block and one
block of 16 inodes; the blocks from 4 on are free.  Inode 1 is the
root directory, still empty. *)
Definition mkfs : image :=
let d := store32 blank (ospfs_super + OS_NBLOCKS) 32 in
let d := store32 d (ospfs_super + OS_NINODES) 16 in
let d := store32 d (ospfs_super + OS_FIRSTINOB) 3 in
let d := store32 d freemap0 4294967280 in
let d := store32 d (3 * OSPFS_BLKSIZE + 1 * OSPFS_INODESIZE + OI_FTYPE)
 OSPFS_FTYPE_DIR in
store32 d (3 * OSPFS_BLKSIZE + 1 * OSPFS_INODESIZE + OI_NLINK) 1.

(** Inode 2 and its address. *)
Definition file_ino : Z := 2.
Definition file_oi : Z := 3 * OSPFS_BLKSIZE + 2 * OSPFS_INODESIZE.

(** [mkfs] with inode 2 an empty regular file. *)
Definition with_file : image := store32 mkfs (file_oi + OI_NLINK) 1.

(** [with_file] with block 4 the only free block. *)
Definition one_free : image := store32 with_file freemap0 16.

(** [with_file] with the bit of block 3, the inode block, set as well. *)
Definition inode_block_free : image := store32 with_file freemap0 4294967288.

(** What the claims look at in an inode: size, the first two direct
pointers, indirect, indirect2, and the first bitmap word. *)
Definition view (d : image) (oi : Z) : Z * Z * Z * Z * Z * Z :=
(oi_size d oi, oi_direct d oi 0, oi_direct d oi 1,
 oi_indirect d oi, oi_indirect2 d oi, load32 d freemap0).

(** The characters of "hello" and of "0123456789". *)
Definition hello : list Z := [104; 101; 108; 108; 111].
Definition digits : list Z := [48; 49; 50; 51; 52; 53; 54; 55; 56; 57].

(** A name of 57 letters, one more than [OSPFS_MAXNAMELEN]. *)
Definition long_name : list Z := repeat 97 57.

(** The root directory's inode. *)
Definition root_ino : Z := 1.
Definition root_oi : Z := 3 * OSPFS_BLKSIZE + 1 * OSPFS_INODESIZE.

(** [with_file] after five bytes were stored in block 7 as the file's
only block. *)
Definition five_bytes : image :=
store32 (store32 with_file (file_oi + OI_SIZE) 5) (file_oi + OI_DIRECT) 7.

(** The link texts "root?/etc/a:/home/u/a" and "/tmp/x", and the two
halves of the first. *)
Definition etc_a : list Z := [47; 101; 116; 99; 47; 97].
Definition home_u_a : list Z := [47; 104; 111; 109; 101; 47; 117; 47; 97].
Definition tmp_x : list Z := [47; 116; 109; 112; 47; 120].

(** Inode 3 (resp. 4) made a symlink with the given text. *)
Definition link_oi (ino : Z) : Z := 3 * OSPFS_BLKSIZE + ino * OSPFS_INODESIZE.
Definition with_symlink (d : image) (ino : Z) (text : list Z) : image :=
let d := store32 d (link_oi ino + OI_SIZE) (Z.of_nat (length text)) in
let d := store32 d (link_oi ino + OI_FTYPE) OSPFS_FTYPE_SYMLINK in
let d := store32 d (link_oi ino + OI_NLINK) 1 in
store_bytes d (link_oi ino + OI_SYMLINK) (text ++ [0]).
Definition with_links : image :=
with_symlink
(with_symlink mkfs 3 (root_prefix ++ etc_a ++ colon :: home_u_a))
4 tmp_x.

(** The image an operation leaves, when it returns. *)
Definition image_of (r : option (Z * image)) : image :=
match r with
| Some (_, e) => e
| None => blank
end.

(** The root directory after "hello" was created in it; after the seven
files "a" to "g" were created as well, which fills its block; and
after "hello" was then linked as "0123456789". *)
Definition created : image := image_of (ospfs_create mkfs root_ino hello 420 true).
Definition letters : list (list Z) := [[97]; [98]; [99]; [100]; [101]; [102]; [103]].
Definition crowded : image :=
fold_left (fun e name => image_of (ospfs_create e root_ino name 420 true))
letters created.
Definition linked : image := image_of (ospfs_link crowded file_ino root_ino digits).

(** [one_free] with the file of inode 2 ten blocks long: the next block
needs an indirect block as well, and one block is free. *)
Definition ten_blocks : image :=
store32 one_free (file_oi + OI_SIZE) (10 * OSPFS_BLKSIZE).

(** [with_file] after the file has grown to 1025 bytes, two blocks. *)
Definition two_blocks : image := image_of (change_size with_file file_oi 1025).

(** [with_file] after the file has grown to 2048 bytes, two whole
blocks. *)
Definition two_full : image := image_of (change_size with_file file_oi 2048).

(** [crowded] with a link count of 1 in inode 0. *)
Definition reserved : image := store32 crowded (3 * OSPFS_BLKSIZE + OI_NLINK) 1.

(** The address of inode 9, and a link text of five characters, the
last of them 4: stored in a symlink inode, the fifth character and the
terminator lie on the inode's first direct pointer. *)
Definition ninth_ino : Z := 9.
Definition ninth_oi : Z := link_oi 9.
Definition text_4 : list Z := [97; 97; 97; 97; 4].

(** A run of the public operations on [mkfs].  The symlink "p" takes
inode 0 and the root directory takes block 4; the symlink "q" with the
text [text_4] takes inode 2; "q" is unlinked; the file "x" is created
and gets inode 2 again, with the size 5 and the first direct pointer 4
the symlink left there; "x" is truncated to no bytes, which marks
block 4 free while the directory holds it; the files "b" to "g" are
created, after which the directory has seven entries, all in block
4. *)
Definition reused : image :=
let d := image_of (ospfs_symlink mkfs root_ino [112] tmp_x true) in
let d := image_of (ospfs_symlink d root_ino [113] text_4 true) in
let d := image_of (ospfs_unlink d root_ino file_ino [113]) in
let d := image_of (ospfs_create d root_ino [120] 420 true) in
let d := image_of (ospfs_notify_change 1 d file_ino (Some 0) None 0 0) in
fold_left (fun e name => image_of (ospfs_create e root_ino name 420 true))
[[98]; [99]; [100]; [101]; [102]; [103]] d.

End Sample.

(** * Properties *)

(** ** Loads and stores *)

Section LoadStore.

Implicit Types (d : image) (a b v x : Z).

Lemma load8_range d a : 0 <= load8 d a < 256.
Proof. unfold load8. apply Z.mod_pos_bound. lia. Qed.

Lemma load32_range d a : 0 <= load32 d a < 4294967296.
Proof.
unfold load32.
pose proof (load8_range d a). pose proof (load8_range d (a + 1)).
pose proof (load8_range d (a + 2)). pose proof (load8_range d (a + 3)).
lia.
Qed.

Lemma load8_store8_same d a v : load8 (store8 d a v) a = v mod 256.
Proof.
unfold load8, store8. rewrite Z.eqb_refl. apply Z.mod_mod. lia.
Qed.

Lemma load8_store8_other d a v x :
x <> a -> load8 (store8 d a v) x = load8 d x.
Proof.
intros H. unfold load8, store8.
destruct (Z.eqb_spec x a); [contradiction | reflexivity].
Qed.

Lemma store32_outside d a v x :
x < a \/ a + 4 <= x -> store32 d a v x = d x.
Proof.
intros H. unfold store32, store8.
repeat match goal with
 | |- context [?p =? ?q] => destruct (Z.eqb_spec p q); [lia |]
 end.
reflexivity.
Qed.

Lemma load8_store32_other d a v x :
x < a \/ a + 4 <= x -> load8 (store32 d a v) x = load8 d x.
Proof. intros H. unfold load8. now rewrite store32_outside. Qed.

Lemma load32_store32_other d a v b :
b + 4 <= a \/ a + 4 <= b -> load32 (store32 d a v) b = load32 d b.
Proof.
intros H. unfold load32. rewrite !load8_store32_other by lia. reflexivity.
Qed.

Lemma load32_store32_same d a v : load32 (store32 d a v) a = u32 v.
Proof.
unfold load32, store32.
rewrite !(load8_store8_other _ _ _ a) by lia.
rewrite load8_store8_same.
rewrite !(load8_store8_other _ _ _ (a + 1)) by lia.
rewrite load8_store8_same.
rewrite !(load8_store8_other _ _ _ (a + 2)) by lia.
rewrite !load8_store8_same.
unfold u32.
replace (v / 65536) with (v / 256 / 256)
by (rewrite Z.div_div by lia; reflexivity).
replace (v / 16777216) with (v / 256 / 256 / 256)
by (rewrite !Z.div_div by lia; reflexivity).
pose proof (Z.div_mod v 256 ltac:(lia)) as E0.
pose proof (Z.div_mod (v / 256) 256 ltac:(lia)) as E1.
pose proof (Z.div_mod (v / 256 / 256) 256 ltac:(lia)) as E2.
pose proof (Z.div_mod (v / 256 / 256 / 256) 256 ltac:(lia)) as E3.
pose proof (Z.mod_pos_bound v 256 ltac:(lia)).
pose proof (Z.mod_pos_bound (v / 256) 256 ltac:(lia)).
pose proof (Z.mod_pos_bound (v / 256 / 256) 256 ltac:(lia)).
pose proof (Z.mod_pos_bound (v / 256 / 256 / 256) 256 ltac:(lia)).
apply (Z.mod_unique_pos _ _ (v / 256 / 256 / 256 / 256)); lia.
Qed.

Lemma u32_small v : 0 <= v < 4294967296 -> u32 v = v.
Proof. intros H. unfold u32. apply Z.mod_small. exact H. Qed.

End LoadStore.

(** Unfolding of the layout constants, for linear arithmetic. *)
Ltac consts :=
  cbv [OSPFS_NINDIRECT OSPFS_NDIRECT OSPFS_BLKSIZE OSPFS_BLKBITSIZE
       OSPFS_FREEMAP_BLK OSPFS_DIRENTRY_SIZE OSPFS_INODESIZE] in *;
  change (1024 / 4) with 256 in *;
  change (1024 * 8) with 8192 in *.

(** ** The block map *)

Section BlockMap.

Variables (d : image) (oi : Z).

Lemma blockno_direct o :
o < oi_size d oi -> oi_ftype d oi <> OSPFS_FTYPE_SYMLINK ->
o / OSPFS_BLKSIZE < OSPFS_NDIRECT ->
ospfs_inode_blockno d oi o = oi_direct d oi (o / OSPFS_BLKSIZE).
Proof.
intros Hs Ht Hb. unfold ospfs_inode_blockno.
destruct (Z.geb_spec o (oi_size d oi)); [lia |].
destruct (Z.eqb_spec (oi_ftype d oi) OSPFS_FTYPE_SYMLINK); [contradiction |].
cbn [orb].
destruct (Z.geb_spec (o / OSPFS_BLKSIZE) (OSPFS_NDIRECT + OSPFS_NINDIRECT));
[consts; lia |].
destruct (Z.geb_spec (o / OSPFS_BLKSIZE) OSPFS_NDIRECT); [lia | reflexivity].
Qed.

Lemma blockno_indirect o :
o < oi_size d oi -> oi_ftype d oi <> OSPFS_FTYPE_SYMLINK ->
OSPFS_NDIRECT <= o / OSPFS_BLKSIZE < OSPFS_NDIRECT + OSPFS_NINDIRECT ->
ospfs_inode_blockno d oi o =
word_at d (ospfs_block (oi_indirect d oi)) (o / OSPFS_BLKSIZE - OSPFS_NDIRECT).
Proof.
intros Hs Ht Hb. unfold ospfs_inode_blockno.
destruct (Z.geb_spec o (oi_size d oi)); [lia |].
destruct (Z.eqb_spec (oi_ftype d oi) OSPFS_FTYPE_SYMLINK); [contradiction |].
cbn [orb].
destruct (Z.geb_spec (o / OSPFS_BLKSIZE) (OSPFS_NDIRECT + OSPFS_NINDIRECT));
[lia |].
destruct (Z.geb_spec (o / OSPFS_BLKSIZE) OSPFS_NDIRECT); [reflexivity | lia].
Qed.

Lemma blockno_indirect2 o :
o < oi_size d oi -> oi_ftype d oi <> OSPFS_FTYPE_SYMLINK ->
OSPFS_NDIRECT + OSPFS_NINDIRECT <= o / OSPFS_BLKSIZE ->
ospfs_inode_blockno d oi o =
word_at d
(ospfs_block
 (word_at d (ospfs_block (oi_indirect2 d oi))
((o / OSPFS_BLKSIZE - OSPFS_NDIRECT - OSPFS_NINDIRECT) / OSPFS_NINDIRECT)))
((o / OSPFS_BLKSIZE - OSPFS_NDIRECT - OSPFS_NINDIRECT) mod OSPFS_NINDIRECT).
Proof.
intros Hs Ht Hb. unfold ospfs_inode_blockno.
destruct (Z.geb_spec o (oi_size d oi)); [lia |].
destruct (Z.eqb_spec (oi_ftype d oi) OSPFS_FTYPE_SYMLINK); [contradiction |].
cbn [orb].
destruct (Z.geb_spec (o / OSPFS_BLKSIZE) (OSPFS_NDIRECT + OSPFS_NINDIRECT));
[| lia].
replace (o / OSPFS_BLKSIZE - (OSPFS_NDIRECT + OSPFS_NINDIRECT))
with (o / OSPFS_BLKSIZE - OSPFS_NDIRECT - OSPFS_NINDIRECT) by lia.
reflexivity.
Qed.

End BlockMap.

(** C3 (as amended).  For a regular file and a byte offset [o] below the
    file size, with [b = o / B]: the block map returns [direct[b]] when
    [b < ND]; entry [b - ND] of the block addressed by [indirect] when
    [ND <= b < ND + NI]; and, when [ND + NI <= b < ND + NI + NI * NI], entry
    [(b - ND - NI) mod NI] of the block whose number is entry
    [(b - ND - NI) / NI] of the block addressed by [indirect2].  The result
    is the stored entry itself, whatever its value. *)
Theorem ospfs_inode_blockno_tiers (d : image) (oi o : Z) :
  oi_ftype d oi = OSPFS_FTYPE_REG ->
  0 <= o < oi_size d oi ->
  let b := o / OSPFS_BLKSIZE in
  (b < OSPFS_NDIRECT -> ospfs_inode_blockno d oi o = oi_direct d oi b)
  /\ (OSPFS_NDIRECT <= b < OSPFS_NDIRECT + OSPFS_NINDIRECT ->
      ospfs_inode_blockno d oi o =
      word_at d (ospfs_block (oi_indirect d oi)) (b - OSPFS_NDIRECT))
  /\ (OSPFS_NDIRECT + OSPFS_NINDIRECT <= b
      < OSPFS_NDIRECT + OSPFS_NINDIRECT + OSPFS_NINDIRECT * OSPFS_NINDIRECT ->
      ospfs_inode_blockno d oi o =
      word_at d
        (ospfs_block
           (word_at d (ospfs_block (oi_indirect2 d oi))
              ((b - OSPFS_NDIRECT - OSPFS_NINDIRECT) / OSPFS_NINDIRECT)))
        ((b - OSPFS_NDIRECT - OSPFS_NINDIRECT) mod OSPFS_NINDIRECT)).
Proof.
  intros Ht Ho b.
  assert (Hn : oi_ftype d oi <> OSPFS_FTYPE_SYMLINK)
    by (rewrite Ht; discriminate).
  repeat split; intros Hb.
  - apply blockno_direct; [lia | exact Hn | exact Hb].
  - apply blockno_indirect; [lia | exact Hn | exact Hb].
  - apply blockno_indirect2; [lia | exact Hn | lia].
Qed.

(** ** Changing the size within the same number of blocks *)

Lemma size2nblocks_ceil (s : Z) :
  0 <= s <= 4294967296 - OSPFS_BLKSIZE ->
  ospfs_size2nblocks s = (s + OSPFS_BLKSIZE - 1) / OSPFS_BLKSIZE.
Proof.
  intros H. unfold ospfs_size2nblocks.
  rewrite u32_small; [reflexivity |].
  unfold OSPFS_BLKSIZE in *. lia.
Qed.

Lemma size2nblocks_wrapped (s : Z) :
  4294967296 - OSPFS_BLKSIZE < s < 4294967296 ->
  ospfs_size2nblocks s = 0.
Proof.
  intros H. unfold ospfs_size2nblocks, u32, OSPFS_BLKSIZE in *.
  replace (s + 1024 - 1) with (s + 1023 - 4294967296 + 1 * 4294967296) by lia.
  rewrite Z.mod_add by lia.
  rewrite Z.mod_small by lia.
  apply Z.div_small. lia.
Qed.

Lemma same_ceil_same_nblocks (s t : Z) :
  0 <= s < 4294967296 -> 0 <= t < 4294967296 ->
  (s + OSPFS_BLKSIZE - 1) / OSPFS_BLKSIZE = (t + OSPFS_BLKSIZE - 1) / OSPFS_BLKSIZE ->
  ospfs_size2nblocks s = ospfs_size2nblocks t.
Proof.
  intros Hs Ht E.
  destruct (Z_le_gt_dec s (4294967296 - OSPFS_BLKSIZE)) as [Ls | Ls];
    destruct (Z_le_gt_dec t (4294967296 - OSPFS_BLKSIZE)) as [Lt | Lt].
  - rewrite !size2nblocks_ceil by lia. exact E.
  - exfalso. unfold OSPFS_BLKSIZE in *.
    assert (4194304 <= (t + 1024 - 1) / 1024)
      by (apply Z.div_le_lower_bound; lia).
    assert ((s + 1024 - 1) / 1024 < 4194304)
      by (apply Z.div_lt_upper_bound; lia).
    lia.
  - exfalso. unfold OSPFS_BLKSIZE in *.
    assert (4194304 <= (s + 1024 - 1) / 1024)
      by (apply Z.div_le_lower_bound; lia).
    assert ((t + 1024 - 1) / 1024 < 4194304)
      by (apply Z.div_lt_upper_bound; lia).
    lia.
  - rewrite !size2nblocks_wrapped by lia. reflexivity.
Qed.

(** With equal block counts both loops of [change_size] are idle. *)
Lemma change_size_idle (d : image) (oi new_size : Z) :
  ospfs_size2nblocks new_size = ospfs_size2nblocks (oi_size d oi) ->
  change_size d oi new_size = Some (0, set_oi_size d oi new_size).
Proof.
  intros E. unfold change_size. rewrite E, Z.sub_diag. cbn [Z.abs Z.to_nat].
  cbn [change_size_grow]. rewrite E, Z.ltb_irrefl.
  cbn [Z.ltb Z.compare change_size_shrink].
  rewrite E, Z.gtb_ltb, Z.ltb_irrefl. reflexivity.
Qed.

(** C10.  When [new_size] needs as many blocks as the file has,
    [change_size] returns 0, sets [oi_size] to [new_size] and changes no
    other byte of the image: bitmap, block pointers, data and index blocks
    and the other inodes stay as they were. *)
Theorem change_size_same_block_count (d : image) (oi new_size : Z) :
  0 <= new_size < 4294967296 ->
  (new_size + OSPFS_BLKSIZE - 1) / OSPFS_BLKSIZE
  = (oi_size d oi + OSPFS_BLKSIZE - 1) / OSPFS_BLKSIZE ->
  exists d',
    change_size d oi new_size = Some (0, d')
    /\ oi_size d' oi = new_size
    /\ forall a, a < oi + OI_SIZE \/ oi + OI_SIZE + 4 <= a -> d' a = d a.
Proof.
  intros Hn Hc.
  assert (E : ospfs_size2nblocks new_size = ospfs_size2nblocks (oi_size d oi)).
  { apply same_ceil_same_nblocks; [exact Hn | apply load32_range | exact Hc]. }
  exists (set_oi_size d oi new_size).
  split; [| split].
  - now apply change_size_idle.
  - unfold oi_size, set_oi_size. rewrite load32_store32_same.
    rewrite !(u32_small new_size) by lia. reflexivity.
  - intros a Ha. unfold set_oi_size. now apply store32_outside.
Qed.

(** ** The free-block bitmap *)

Section Bitvector.

Implicit Types (d : image) (vector i j k w : Z).

Lemma u32_testbit w k : 0 <= k < 32 -> Z.testbit (u32 w) k = Z.testbit w k.
Proof.
intros H. unfold u32. change 4294967296 with (2 ^ 32).
apply Z.mod_pow2_bits_low. lia.
Qed.

Lemma land_bit_zero w k :
0 <= k < 32 ->
(Z.land w (u32 (Z.shiftl 1 k)) =? 0) = negb (Z.testbit w k).
Proof.
intros H. rewrite Z.shiftl_1_l.
assert (E : u32 (2 ^ k) = 2 ^ k).
{ apply u32_small. split; [apply Z.pow_nonneg; lia |].
change 4294967296 with (2 ^ 32). apply Z.pow_lt_mono_r; lia. }
rewrite E.
destruct (Z.testbit w k) eqn:T; cbn [negb].
- apply Z.eqb_neq. intros C.
apply (f_equal (fun x => Z.testbit x k)) in C.
rewrite Z.land_spec, T, Z.pow2_bits_eqb, Z.eqb_refl, Z.bits_0 in C by lia.
discriminate.
- apply Z.eqb_eq. apply Z.bits_inj'. intros n Hn.
rewrite Z.land_spec, Z.pow2_bits_eqb, Z.bits_0 by lia.
destruct (Z.eqb_spec k n); [subst; rewrite T; reflexivity |].
apply andb_false_r.
Qed.

(** The test reads bit [i mod 32] of word [i / 32]. *)
Lemma bitvector_test_bit d vector i :
0 <= i ->
bitvector_test d vector i
= Z.testbit (load32 d (vector + 4 * (i / 32))) (i mod 32).
Proof.
intros H. unfold bitvector_test.
rewrite Z.quot_div_nonneg, Z.rem_mod_nonneg by lia.
rewrite land_bit_zero by (apply Z.mod_pos_bound; lia).
apply negb_involutive.
Qed.

Lemma bitvector_test_clear d vector i j :
0 <= i -> 0 <= j ->
bitvector_test (bitvector_clear d vector i) vector j
= bitvector_test d vector j && negb (j =? i).
Proof.
intros Hi Hj. rewrite !bitvector_test_bit by lia.
unfold bitvector_clear.
rewrite Z.quot_div_nonneg, Z.rem_mod_nonneg by lia.
pose proof (Z.mod_pos_bound i 32 ltac:(lia)) as Bi.
pose proof (Z.mod_pos_bound j 32 ltac:(lia)) as Bj.
pose proof (Z.div_mod i 32 ltac:(lia)) as Di.
pose proof (Z.div_mod j 32 ltac:(lia)) as Dj.
destruct (Z.eq_dec (j / 32) (i / 32)) as [Q | Q].
- rewrite Q, load32_store32_same.
rewrite u32_testbit, Z.land_spec, u32_testbit, Z.lnot_spec by lia.
rewrite Z.shiftl_1_l, Z.pow2_bits_eqb by lia.
f_equal. f_equal.
destruct (Z.eqb_spec (i mod 32) (j mod 32));
destruct (Z.eqb_spec j i); try reflexivity; lia.
- rewrite load32_store32_other by lia.
destruct (Z.eqb_spec j i); [subst; contradiction |].
cbn [negb]. now rewrite andb_true_r.
Qed.

Lemma bitvector_test_set d vector i j :
0 <= i -> 0 <= j ->
bitvector_test (bitvector_set d vector i) vector j
= bitvector_test d vector j || (j =? i).
Proof.
intros Hi Hj. rewrite !bitvector_test_bit by lia.
unfold bitvector_set.
rewrite Z.quot_div_nonneg, Z.rem_mod_nonneg by lia.
pose proof (Z.mod_pos_bound i 32 ltac:(lia)) as Bi.
pose proof (Z.mod_pos_bound j 32 ltac:(lia)) as Bj.
pose proof (Z.div_mod i 32 ltac:(lia)) as Di.
pose proof (Z.div_mod j 32 ltac:(lia)) as Dj.
destruct (Z.eq_dec (j / 32) (i / 32)) as [Q | Q].
- rewrite Q, load32_store32_same.
rewrite u32_testbit, Z.lor_spec, u32_testbit by lia.
rewrite Z.shiftl_1_l, Z.pow2_bits_eqb by lia.
f_equal.
destruct (Z.eqb_spec (i mod 32) (j mod 32));
destruct (Z.eqb_spec j i); try reflexivity; lia.
- rewrite load32_store32_other by lia.
destruct (Z.eqb_spec j i); [subst; contradiction |].
now rewrite orb_false_r.
Qed.

End Bitvector.

(** The scan stops at the first set bit when it stays inside one bitmap
    block. *)
Lemma allocate_block_scan_first (left : nat) :
  forall (d : image) (freemap freemap_idx idx : Z),
    0 <= idx -> idx + Z.of_nat left <= OSPFS_BLKBITSIZE ->
    (exists b,
        idx <= b < idx + Z.of_nat left
        /\ bitvector_test d freemap b = true
        /\ (forall i, idx <= i < b -> bitvector_test d freemap i = false)
        /\ allocate_block_scan left d freemap freemap_idx idx
           = (b, bitvector_clear d freemap b))
    \/ ((forall i, idx <= i < idx + Z.of_nat left ->
                   bitvector_test d freemap i = false)
        /\ allocate_block_scan left d freemap freemap_idx idx = (0, d)).
Proof.
  induction left as [| left IH]; intros d freemap freemap_idx idx H0 Hle.
  - right. split; [intros i Hi; lia | reflexivity].
  - cbn [allocate_block_scan].
    assert (R : Z.rem idx OSPFS_BLKBITSIZE = idx).
    { rewrite Z.rem_mod_nonneg by (consts; lia). apply Z.mod_small. lia. }
    rewrite R.
    destruct (bitvector_test d freemap idx) eqn:T.
    + left. exists idx.
      split; [lia |]. split; [exact T |]. split; [intros i Hi; lia | reflexivity].
    + destruct (Z.eqb_spec idx OSPFS_BLKBITSIZE) as [E | E]; [lia |].
      destruct (IH d freemap freemap_idx (idx + 1) ltac:(lia) ltac:(lia))
        as [(b & Hb & Tb & Hlow & Hres) | (Hnone & Hres)].
      * left. exists b.
        split; [lia |]. split; [exact Tb |]. split; [| exact Hres].
        intros i Hi. destruct (Z.eq_dec i idx); [subst; exact T |].
        apply Hlow. lia.
      * right. split; [| exact Hres].
        intros i Hi. destruct (Z.eq_dec i idx); [subst; exact T |].
        apply Hnone. lia.
Qed.

(** C5 (as amended).  On an image whose bitmap fits one block
    ([os_nblocks <= 8 * B]), [allocate_block] scans the block numbers from
    [os_firstinob] up to [os_nblocks - 1]: it returns the smallest one
    whose bit is 1 and clears exactly that bit, or returns 0 and leaves the
    image alone when no bit in the range is 1. *)
Theorem allocate_block_first_free (d : image) :
  os_nblocks d <= OSPFS_BLKBITSIZE ->
  (exists b,
      os_firstinob d <= b < os_nblocks d
      /\ block_is_free d b = true
      /\ (forall i, os_firstinob d <= i < b -> block_is_free d i = false)
      /\ allocate_block d = (b, bitvector_clear d freemap0 b)
      /\ block_is_free (bitvector_clear d freemap0 b) b = false
      /\ (forall j, 0 <= j -> j <> b ->
                    block_is_free (bitvector_clear d freemap0 b) j
                    = block_is_free d j))
  \/ ((forall i, os_firstinob d <= i < os_nblocks d -> block_is_free d i = false)
      /\ allocate_block d = (0, d)).
Proof.
  intros Hn. unfold allocate_block, block_is_free.
  pose proof (load32_range d (ospfs_super + OS_FIRSTINOB)) as Hf.
  fold (os_firstinob d) in Hf.
  destruct (Z_le_gt_dec (os_nblocks d) (os_firstinob d)) as [Hempty | Hsome].
  { right. split; [intros i Hi; lia |].
    replace (Z.to_nat (os_nblocks d - os_firstinob d)) with O by lia.
    reflexivity. }
  assert (Hle : os_firstinob d + Z.of_nat (Z.to_nat (os_nblocks d - os_firstinob d))
                <= OSPFS_BLKBITSIZE) by lia.
  destruct (allocate_block_scan_first
              (Z.to_nat (os_nblocks d - os_firstinob d)) d
              freemap0 0 (os_firstinob d) (proj1 Hf) Hle)
    as [(b & Hb & Tb & Hlow & Hres) | (Hnone & Hres)].
  - left. exists b. split; [lia |]. split; [exact Tb |].
    split; [exact Hlow |]. split; [exact Hres |]. split.
    + rewrite bitvector_test_clear by lia.
      rewrite Z.eqb_refl. apply andb_false_r.
    + intros j Hj Hne. rewrite bitvector_test_clear by lia.
      destruct (Z.eqb_spec j b); [contradiction |].
      apply andb_true_r.
  - right. split; [| exact Hres].
    intros i Hi. apply Hnone. lia.
Qed.

(** ** Byte strings in the image *)

Section Bytes.

Implicit Types (d : image) (a c : Z) (xs ys : list Z).

Lemma load_bytes_length d a n : length (load_bytes d a n) = n.
Proof. revert a; induction n; intros a; cbn; [reflexivity | now rewrite IHn]. Qed.

Lemma load_bytes_app d a n m :
load_bytes d a (n + m)
= load_bytes d a n ++ load_bytes d (a + Z.of_nat n) m.
Proof.
revert a; induction n as [| n IH]; intros a.
- cbn. now rewrite Z.add_0_r.
- cbn [Nat.add load_bytes app]. rewrite IH. do 3 f_equal. lia.
Qed.

Lemma app_same_length (us vs xs ys : list Z) :
length us = length xs -> us ++ vs = xs ++ ys -> us = xs /\ vs = ys.
Proof.
revert xs; induction us as [| u us IH]; intros [| x xs] L E;
try discriminate L.
- now split.
- cbn in L, E. injection L as L. injection E as -> E.
destruct (IH xs L E) as [-> ->]. now split.
Qed.

(** A list stored at [a] splits into its two halves. *)
Lemma stored_app d a xs ys :
load_bytes d a (length (xs ++ ys)) = xs ++ ys ->
load_bytes d a (length xs) = xs
/\ load_bytes d (a + Z.of_nat (length xs)) (length ys) = ys.
Proof.
rewrite length_app, load_bytes_app. intros H.
apply app_same_length in H; [exact H |].
apply load_bytes_length.
Qed.

Lemma bytes_eqb_eq xs ys : bytes_eqb xs ys = true <-> xs = ys.
Proof.
revert ys; induction xs as [| x xs IH]; intros [| y ys]; cbn;
try (split; [discriminate | discriminate]); [tauto |].
rewrite andb_true_iff, Z.eqb_eq, IH. split.
- intros [-> ->]; reflexivity.
- intros E; injection E; auto.
Qed.

(** The scan passes the bytes that differ from [c] and stops at [c]. *)
Lemma scan_for_skips fuel d p c xs :
load_bytes d p (length xs) = xs ->
~ In c xs ->
load8 d (p + Z.of_nat (length xs)) = c ->
(length xs < fuel)%nat ->
scan_for fuel d p c = Some (p + Z.of_nat (length xs)).
Proof.
revert fuel p; induction xs as [| x xs IH]; intros fuel p Hs Hn Hc Hf.
- destruct fuel; [cbn in Hf; lia |].
cbn in *. rewrite Z.add_0_r in *. now rewrite Hc, Z.eqb_refl.
- destruct fuel; [cbn in Hf; lia |].
cbn [length load_bytes] in Hs. injection Hs as Hx Hxs.
cbn [scan_for]. rewrite Hx.
destruct (Z.eqb_spec x c) as [-> | _]; [exfalso; apply Hn; now left |].
rewrite (IH fuel (p + 1)); [f_equal; cbn [length]; lia | exact Hxs | | |].
+ intros Hin. apply Hn. now right.
+ rewrite <- Hc. f_equal. cbn [length]. lia.
+ cbn [length] in Hf. lia.
Qed.

Lemma cstring_stored fuel d s xs :
load_bytes d s (length xs) = xs ->
~ In 0 xs ->
load8 d (s + Z.of_nat (length xs)) = 0 ->
(length xs < fuel)%nat ->
cstring fuel d s = Some xs.
Proof.
revert fuel s; induction xs as [| x xs IH]; intros fuel s Hs Hn Hc Hf.
- destruct fuel; [cbn in Hf; lia |].
cbn in *. rewrite Z.add_0_r in *. now rewrite Hc.
- destruct fuel; [cbn in Hf; lia |].
cbn [length load_bytes] in Hs. injection Hs as Hx Hxs.
cbn [cstring]. rewrite Hx.
destruct (Z.eqb_spec x 0) as [-> | _]; [exfalso; apply Hn; now left |].
rewrite (IH fuel (s + 1)); [reflexivity | exact Hxs | | |].
+ intros Hin. apply Hn. now right.
+ rewrite <- Hc. f_equal. cbn [length]. lia.
+ cbn [length] in Hf. lia.
Qed.

End Bytes.

(** ** Conditional symbolic links *)

Section FollowLink.

Variables (d : image) (ino oi : Z).
Hypothesis Hoi : ospfs_inode d ino = Some oi.

(** The link text [root?A:B] gives [A] to uid 0 and [B] to the others. *)
Lemma follow_link_conditional (A B : list Z) (uid : Z) (fuel : nat) :
let text := root_prefix ++ A ++ colon :: B in
load_bytes d (oi + OI_SYMLINK) (length text) = text ->
load8 d (oi + OI_SYMLINK + Z.of_nat (length text)) = 0 ->
~ In colon A -> ~ In 0 B ->
(length text < fuel)%nat ->
ospfs_follow_link fuel d ino uid
= Some (Buffer (if uid =? 0 then A else B)).
Proof.
intros text Hs Hz HA HB Hf. subst text.
apply stored_app in Hs as [Hp Hs].
apply stored_app in Hs as [Hsa Hs].
change (colon :: B) with ([colon] ++ B) in Hs.
apply stored_app in Hs as [Hsc Hsb].
rewrite !length_app in *. cbn [length] in *.
change (length root_prefix) with 5%nat in *.
cbn [load_bytes] in Hsc. injection Hsc as Hsc.
change (Z.of_nat 5) with 5 in *. change (Z.of_nat 1) with 1 in *.
unfold ospfs_follow_link. rewrite Hoi.
change (load_bytes d (oi + OI_SYMLINK) 5) with
(load_bytes d (oi + OI_SYMLINK) (length root_prefix)).
cbn [length root_prefix]. rewrite Hp.
change (bytes_eqb root_prefix root_prefix) with true. cbn [negb].
assert (Hcolon : scan_for fuel d (oi + OI_SYMLINK + 5) colon
   = Some (oi + OI_SYMLINK + 5 + Z.of_nat (length A))).
{ apply scan_for_skips; [exact Hsa | exact HA | exact Hsc | lia]. }
destruct (Z.eqb_spec uid 0) as [U | U].
- rewrite Hcolon.
replace (Z.to_nat (oi + OI_SYMLINK + 5 + Z.of_nat (length A) - 1
       - (oi + OI_SYMLINK + 5) + 1))
with (length A) by lia.
now rewrite Hsa.
- rewrite Hcolon.
rewrite (scan_for_skips fuel d _ 0 B); [| exact Hsb | exact HB | | lia].
+ replace (Z.to_nat (oi + OI_SYMLINK + 5 + Z.of_nat (length A) + 1
         + Z.of_nat (length B) - 1
         - (oi + OI_SYMLINK + 5 + Z.of_nat (length A) + 1) + 1))
with (length B) by lia.
now rewrite Hsb.
+ rewrite <- Hz. f_equal. lia.
Qed.

(** Any other text is handed over as it is stored. *)
Lemma follow_link_plain (text : list Z) (uid : Z) (fuel : nat) :
load_bytes d (oi + OI_SYMLINK) (length text) = text ->
load8 d (oi + OI_SYMLINK + Z.of_nat (length text)) = 0 ->
~ In 0 text ->
firstn 5 text <> root_prefix ->
ospfs_follow_link fuel d ino uid = Some (Stored (oi + OI_SYMLINK))
/\ ((length text < fuel)%nat ->
link_text fuel d (Stored (oi + OI_SYMLINK)) = Some text).
Proof.
intros Hs Hz Hn Hp. split.
- unfold ospfs_follow_link. rewrite Hoi.
destruct (bytes_eqb root_prefix (load_bytes d (oi + OI_SYMLINK) 5)) eqn:E;
[| reflexivity].
exfalso. apply bytes_eqb_eq in E.
destruct (Nat.le_gt_cases 5 (length text)) as [L | L].
+ apply Hp. rewrite <- Hs.
replace (length text) with (5 + (length text - 5))%nat by lia.
rewrite load_bytes_app, firstn_app, load_bytes_length.
rewrite Nat.sub_diag, firstn_O, app_nil_r.
rewrite <- (load_bytes_length d (oi + OI_SYMLINK) 5) at 1.
rewrite firstn_all. now symmetry.
+ assert (Hin : In (load8 d (oi + OI_SYMLINK + Z.of_nat (length text)))
      (load_bytes d (oi + OI_SYMLINK) 5)).
{ replace 5%nat with (length text + S (4 - length text))%nat by lia.
rewrite load_bytes_app. apply in_or_app. right.
cbn [load_bytes]. now left. }
rewrite Hz, <- E in Hin. cbn in Hin.
repeat (destruct Hin as [Hin | Hin]; [discriminate |]).
exact Hin.
- intros Hf. cbn [link_text]. now apply cstring_stored.
Qed.

End FollowLink.

(** C8.  A symlink whose stored text is [root?], a segment [A] (up to the
    first colon), a colon and a segment [B] is followed to exactly [A] by
    uid 0 and to exactly [B] by every other uid; a stored text that does
    not begin with [root?] is handed over unchanged, whoever asks. *)
Theorem follow_link_by_uid (d : image) (ino oi : Z) :
  ospfs_inode d ino = Some oi ->
  (forall (A B : list Z) (uid : Z) (fuel : nat),
      let text := root_prefix ++ A ++ colon :: B in
      load_bytes d (oi + OI_SYMLINK) (length text) = text ->
      load8 d (oi + OI_SYMLINK + Z.of_nat (length text)) = 0 ->
      A <> [] -> B <> [] -> ~ In colon A -> ~ In 0 B ->
      (length text < fuel)%nat ->
      ospfs_follow_link fuel d ino uid
      = Some (Buffer (if uid =? 0 then A else B)))
  /\ (forall (text : list Z) (uid : Z) (fuel : nat),
         load_bytes d (oi + OI_SYMLINK) (length text) = text ->
         load8 d (oi + OI_SYMLINK + Z.of_nat (length text)) = 0 ->
         ~ In 0 text ->
         firstn 5 text <> root_prefix ->
         (length text < fuel)%nat ->
         ospfs_follow_link fuel d ino uid = Some (Stored (oi + OI_SYMLINK))
         /\ link_text fuel d (Stored (oi + OI_SYMLINK)) = Some text).
Proof.
  intros Hoi. split.
  - intros A B uid fuel text Hs Hz _ _ HA HB Hf.
    now apply (follow_link_conditional d ino oi Hoi).
  - intros text uid fuel Hs Hz Hn Hp Hf.
    destruct (follow_link_plain d ino oi Hoi text uid fuel Hs Hz Hn Hp)
      as [H1 H2].
    split; [exact H1 | now apply H2].
Qed.

(** ** Images that agree on what is read *)

Section Agreement.

Implicit Types (d e : image) (a oi off : Z).

Lemma store8_outside d a v x : x <> a -> store8 d a v x = d x.
Proof.
intros H. unfold store8. destruct (Z.eqb_spec x a); [contradiction | reflexivity].
Qed.

Lemma store_bytes_outside bs : forall d a x,
x < a \/ a + Z.of_nat (length bs) <= x -> store_bytes d a bs x = d x.
Proof.
induction bs as [| b bs IH]; intros d a x H; [reflexivity |].
cbn [store_bytes length] in *. rewrite IH by lia.
apply store8_outside. lia.
Qed.

Lemma load8_agree d d' a : d' a = d a -> load8 d' a = load8 d a.
Proof. intros H. unfold load8. now rewrite H. Qed.

Lemma load32_agree d d' a :
(forall x, a <= x < a + 4 -> d' x = d x) -> load32 d' a = load32 d a.
Proof.
intros H. unfold load32.
rewrite (load8_agree d d' a), (load8_agree d d' (a + 1)),
(load8_agree d d' (a + 2)), (load8_agree d d' (a + 3));
try reflexivity; apply H; lia.
Qed.

Lemma load_bytes_agree d d' n : forall a,
(forall x, a <= x < a + Z.of_nat n -> d' x = d x) ->
load_bytes d' a n = load_bytes d a n.
Proof.
induction n as [| n IH]; intros a H; [reflexivity |].
cbn [load_bytes]. rewrite (load8_agree d d' a) by (apply H; lia).
rewrite IH; [reflexivity |]. intros x Hx. apply H. lia.
Qed.

Lemma load_store_bytes bs : forall d a,
Forall (fun b => 0 <= b < 256) bs ->
load_bytes (store_bytes d a bs) a (length bs) = bs.
Proof.
induction bs as [| b bs IH]; intros d a Hb; [reflexivity |].
inversion Hb as [| ? ? Hb0 Hbs]; subst.
cbn [store_bytes length load_bytes]. rewrite IH by exact Hbs.
f_equal. unfold load8. rewrite store_bytes_outside by lia.
unfold store8. rewrite Z.eqb_refl. rewrite Z.mod_mod by lia.
apply Z.mod_small. exact Hb0.
Qed.

(** The block map depends on the size, the type and the map words. *)
Lemma blockno_agree d d' oi off :
(off >=? oi_size d' oi) = (off >=? oi_size d oi) ->
oi_ftype d' oi = oi_ftype d oi ->
(off < oi_size d oi ->
 forall w x, In w (map_words d oi (off / OSPFS_BLKSIZE)) ->
 w <= x < w + 4 -> d' x = d x) ->
ospfs_inode_blockno d' oi off = ospfs_inode_blockno d oi off.
Proof.
intros Hs Ht Hw. unfold ospfs_inode_blockno. rewrite Hs, Ht.
destruct (Z.geb_spec off (oi_size d oi)) as [G | G]; [reflexivity |].
cbn [orb]. destruct (oi_ftype d oi =? OSPFS_FTYPE_SYMLINK); [reflexivity |].
specialize (Hw G). unfold map_words in Hw.
destruct (Z.geb_spec (off / OSPFS_BLKSIZE) (OSPFS_NDIRECT + OSPFS_NINDIRECT))
as [G2 | G2].
- destruct (Z.ltb_spec (off / OSPFS_BLKSIZE) OSPFS_NDIRECT) as [L | L];
[consts; lia |].
destruct (Z.ltb_spec (off / OSPFS_BLKSIZE) (OSPFS_NDIRECT + OSPFS_NINDIRECT))
as [L2 | L2]; [lia |].
cbv zeta in Hw.
assert (E1 : oi_indirect2 d' oi = oi_indirect2 d oi).
{ apply load32_agree. intros x Hx.
apply (Hw (oi + OI_INDIRECT2)); [now left | exact Hx]. }
rewrite E1.
assert (E2 : forall k,
 k = (off / OSPFS_BLKSIZE - (OSPFS_NDIRECT + OSPFS_NINDIRECT))
   / OSPFS_NINDIRECT ->
 word_at d' (ospfs_block (oi_indirect2 d oi)) k
 = word_at d (ospfs_block (oi_indirect2 d oi)) k).
{ intros k ->. apply load32_agree. intros x Hx.
eapply Hw; [right; left; reflexivity | exact Hx]. }
rewrite (E2 _ eq_refl).
apply load32_agree. intros x Hx.
eapply Hw; [right; right; left; reflexivity | exact Hx].
- destruct (Z.geb_spec (off / OSPFS_BLKSIZE) OSPFS_NDIRECT) as [G1 | G1].
+ destruct (Z.ltb_spec (off / OSPFS_BLKSIZE) OSPFS_NDIRECT) as [L | L];
[lia |].
destruct (Z.ltb_spec (off / OSPFS_BLKSIZE) (OSPFS_NDIRECT + OSPFS_NINDIRECT))
as [L2 | L2]; [| lia].
assert (E1 : oi_indirect d' oi = oi_indirect d oi).
{ apply load32_agree. intros x Hx.
apply (Hw (oi + OI_INDIRECT)); [now left | exact Hx]. }
rewrite E1.
apply load32_agree. intros x Hx.
eapply Hw; [right; left; reflexivity | exact Hx].
+ destruct (Z.ltb_spec (off / OSPFS_BLKSIZE) OSPFS_NDIRECT) as [L | L];
[| lia].
apply load32_agree. intros x Hx.
eapply Hw; [left; reflexivity | exact Hx].
Qed.

End Agreement.

(** ** The scans over the entries of a directory *)

Section Scans.

Variables (d : image) (dir_oi : Z).

Let size := oi_size d dir_oi.
Let stride := OSPFS_DIRENTRY_SIZE.

Lemma find_loop_none_inv name : forall left off,
find_direntry_loop left d dir_oi name off = None ->
forall i : nat, (i < left)%nat -> off + stride * Z.of_nat i < size ->
entry_matches d dir_oi name (off + stride * Z.of_nat i) = false.
Proof.
subst size stride.
induction left as [| left IH]; intros off H i Hi Hlt; [lia |].
cbn [find_direntry_loop] in H.
destruct (Z.ltb_spec off (oi_size d dir_oi)) as [L | L]; [| consts; lia].
fold (slot d dir_oi off) in H.
destruct (negb (od_ino d (slot d dir_oi off) =? 0)
&& name_matches d (slot d dir_oi off) name) eqn:M; [discriminate |].
destruct i as [| i].
- rewrite Z.mul_0_r, Z.add_0_r. exact M.
- replace (off + OSPFS_DIRENTRY_SIZE * Z.of_nat (S i))
with (off + OSPFS_DIRENTRY_SIZE + OSPFS_DIRENTRY_SIZE * Z.of_nat i) in * by lia.
apply IH; [exact H | lia | exact Hlt].
Qed.

Lemma find_loop_some_inv name : forall left off od,
find_direntry_loop left d dir_oi name off = Some od ->
exists i : nat,
(i < left)%nat /\ off + stride * Z.of_nat i < size
/\ (forall j : nat, (j < i)%nat ->
entry_matches d dir_oi name (off + stride * Z.of_nat j) = false)
/\ entry_matches d dir_oi name (off + stride * Z.of_nat i) = true
/\ od = slot d dir_oi (off + stride * Z.of_nat i).
Proof.
subst size stride.
induction left as [| left IH]; intros off od H; [discriminate |].
cbn [find_direntry_loop] in H.
destruct (Z.ltb_spec off (oi_size d dir_oi)) as [L | L]; [| discriminate].
fold (slot d dir_oi off) in H.
destruct (negb (od_ino d (slot d dir_oi off) =? 0)
&& name_matches d (slot d dir_oi off) name) eqn:M.
- injection H as <-. exists O.
rewrite Z.mul_0_r, Z.add_0_r.
repeat split; try lia; try assumption.
- destruct (IH _ _ H) as (i & Hi & Hlt & Hno & Hyes & Hod).
exists (S i).
replace (off + OSPFS_DIRENTRY_SIZE * Z.of_nat (S i))
with (off + OSPFS_DIRENTRY_SIZE + OSPFS_DIRENTRY_SIZE * Z.of_nat i) by lia.
repeat split; try lia; try assumption.
intros [| j] Hj.
+ rewrite Z.mul_0_r, Z.add_0_r. exact M.
+ replace (off + OSPFS_DIRENTRY_SIZE * Z.of_nat (S j))
with (off + OSPFS_DIRENTRY_SIZE + OSPFS_DIRENTRY_SIZE * Z.of_nat j) by lia.
apply Hno. lia.
Qed.

Lemma find_loop_first name : forall left off (i : nat),
(i < left)%nat -> off + stride * Z.of_nat i < size ->
(forall j : nat, (j < i)%nat ->
 entry_matches d dir_oi name (off + stride * Z.of_nat j) = false) ->
entry_matches d dir_oi name (off + stride * Z.of_nat i) = true ->
find_direntry_loop left d dir_oi name off
= Some (slot d dir_oi (off + stride * Z.of_nat i)).
Proof.
subst size stride.
induction left as [| left IH]; intros off i Hi Hlt Hno Hyes; [lia |].
cbn [find_direntry_loop].
destruct (Z.ltb_spec off (oi_size d dir_oi)) as [L | L]; [| consts; lia].
fold (slot d dir_oi off).
destruct i as [| i].
- rewrite Z.mul_0_r, Z.add_0_r in *. unfold entry_matches in Hyes.
now rewrite Hyes.
- pose proof (Hno O ltac:(lia)) as M.
rewrite Z.mul_0_r, Z.add_0_r in M. unfold entry_matches in M. rewrite M.
replace (off + OSPFS_DIRENTRY_SIZE * Z.of_nat (S i))
with (off + OSPFS_DIRENTRY_SIZE + OSPFS_DIRENTRY_SIZE * Z.of_nat i) in * by lia.
apply IH; [lia | exact Hlt | | exact Hyes].
intros j Hj. specialize (Hno (S j) ltac:(lia)).
replace (off + OSPFS_DIRENTRY_SIZE * Z.of_nat (S j))
with (off + OSPFS_DIRENTRY_SIZE + OSPFS_DIRENTRY_SIZE * Z.of_nat j) in Hno by lia.
exact Hno.
Qed.

(** The scan of [ospfs_unlink] stops at the first matching entry. *)
Lemma unlink_scan_first name : forall left off (i : nat) od0,
(i < left)%nat -> off + stride * Z.of_nat i < size ->
(forall j : nat, (j < i)%nat ->
 entry_matches d dir_oi name (off + stride * Z.of_nat j) = false) ->
entry_matches d dir_oi name (off + stride * Z.of_nat i) = true ->
unlink_scan left d dir_oi name off od0
= (off + stride * Z.of_nat i,
 Some (slot d dir_oi (off + stride * Z.of_nat i))).
Proof.
subst size stride.
assert (G : forall od, (od_ino d od >? 0) = negb (od_ino d od =? 0)).
{ intros od. pose proof (load32_range d (od + OD_INO)) as R.
unfold od_ino.
destruct (Z.gtb_spec (load32 d (od + OD_INO)) 0);
destruct (Z.eqb_spec (load32 d (od + OD_INO)) 0); try reflexivity; lia. }
induction left as [| left IH]; intros off i od0 Hi Hlt Hno Hyes; [lia |].
cbn [unlink_scan].
destruct (Z.ltb_spec off (oi_size d dir_oi)) as [L | L]; [| consts; lia].
fold (slot d dir_oi off). rewrite G.
destruct i as [| i].
- rewrite Z.mul_0_r, Z.add_0_r in *. unfold entry_matches in Hyes.
now rewrite Hyes.
- pose proof (Hno O ltac:(lia)) as M.
rewrite Z.mul_0_r, Z.add_0_r in M. unfold entry_matches in M. rewrite M.
replace (off + OSPFS_DIRENTRY_SIZE * Z.of_nat (S i))
with (off + OSPFS_DIRENTRY_SIZE + OSPFS_DIRENTRY_SIZE * Z.of_nat i) in * by lia.
apply IH; [lia | exact Hlt | | exact Hyes].
intros j Hj. specialize (Hno (S j) ltac:(lia)).
replace (off + OSPFS_DIRENTRY_SIZE * Z.of_nat (S j))
with (off + OSPFS_DIRENTRY_SIZE + OSPFS_DIRENTRY_SIZE * Z.of_nat j) in Hno by lia.
exact Hno.
Qed.

(** A blank entry found by [create_blank_direntry] lies below the size. *)
Lemma blank_scan_inl : forall left pos od,
0 <= pos -> size <= 4294967296 - 2 * OSPFS_BLKSIZE ->
blank_scan left d dir_oi pos = inl od ->
exists i : nat,
pos + stride * Z.of_nat i < size
/\ od = slot d dir_oi (pos + stride * Z.of_nat i)
/\ od_ino d od = 0.
Proof.
subst size stride.
induction left as [| left IH]; intros pos od Hp Hs H; [discriminate |].
cbn [blank_scan] in H.
destruct (ospfs_inode_blockno d dir_oi pos =? 0) eqn:B; [discriminate |].
cbn [negb] in H. fold (slot d dir_oi pos) in H.
assert (L : pos < oi_size d dir_oi).
{ unfold ospfs_inode_blockno in B.
destruct (Z.geb_spec pos (oi_size d dir_oi)); [discriminate | lia]. }
destruct (od_ino d (slot d dir_oi pos) =? 0) eqn:E.
- injection H as <-. exists O. rewrite Z.mul_0_r, Z.add_0_r.
repeat split; [exact L |]. now apply Z.eqb_eq.
- rewrite u32_small in H by (consts; lia).
assert (Hp' : 0 <= pos + OSPFS_DIRENTRY_SIZE) by (consts; lia).
destruct (IH _ _ Hp' Hs H) as (i & Hlt & Hod & Hz).
exists (S i).
replace (pos + OSPFS_DIRENTRY_SIZE * Z.of_nat (S i))
with (pos + OSPFS_DIRENTRY_SIZE + OSPFS_DIRENTRY_SIZE * Z.of_nat i) by lia.
repeat split; assumption.
Qed.

(** Without a blank entry the scan ends where the block lookup first
gives 0, past taken entries only. *)
Lemma blank_scan_inr : forall left pos p,
0 <= pos -> size <= 4294967296 - 2 * OSPFS_BLKSIZE ->
blank_scan left d dir_oi pos = inr p ->
exists i : nat,
p = pos + stride * Z.of_nat i /\ (i <= left)%nat
/\ (forall j : nat, (j < i)%nat ->
ospfs_inode_blockno d dir_oi (pos + stride * Z.of_nat j) <> 0
/\ od_ino d (slot d dir_oi (pos + stride * Z.of_nat j)) <> 0)
/\ ((i < left)%nat -> ospfs_inode_blockno d dir_oi p = 0).
Proof.
subst size stride.
induction left as [| left IH]; intros pos p Hp Hs H.
- injection H as <-. exists O. rewrite Z.mul_0_r, Z.add_0_r.
repeat split; lia.
- cbn [blank_scan] in H.
destruct (ospfs_inode_blockno d dir_oi pos =? 0) eqn:B.
+ injection H as <-. exists O. rewrite Z.mul_0_r, Z.add_0_r.
split; [lia |]. split; [lia |]. split; [intros j Hj; lia |].
intros _. now apply Z.eqb_eq.
+ cbn [negb] in H.
assert (L : pos < oi_size d dir_oi).
{ unfold ospfs_inode_blockno in B.
destruct (Z.geb_spec pos (oi_size d dir_oi)); [discriminate | lia]. }
fold (slot d dir_oi pos) in H.
destruct (od_ino d (slot d dir_oi pos) =? 0) eqn:E; [discriminate |].
rewrite u32_small in H by (consts; lia).
assert (Hp' : 0 <= pos + OSPFS_DIRENTRY_SIZE) by (consts; lia).
destruct (IH _ _ Hp' Hs H) as (i & Hpi & Hi & Hnz & Hz).
exists (S i).
replace (pos + OSPFS_DIRENTRY_SIZE * Z.of_nat (S i))
with (pos + OSPFS_DIRENTRY_SIZE + OSPFS_DIRENTRY_SIZE * Z.of_nat i) by lia.
split; [exact Hpi |]. split; [lia |].
split; [| intros; apply Hz; lia].
intros [| j] Hj.
* rewrite Z.mul_0_r, Z.add_0_r.
split; [now apply Z.eqb_neq | now apply Z.eqb_neq].
* replace (pos + OSPFS_DIRENTRY_SIZE * Z.of_nat (S j))
with (pos + OSPFS_DIRENTRY_SIZE + OSPFS_DIRENTRY_SIZE * Z.of_nat j) by lia.
apply Hnz. lia.
Qed.

End Scans.

(** ** Entries of a separated directory *)

Lemma block_no_wrap (blk : Z) :
  0 <= blk < 4194304 -> ospfs_block blk = blk * OSPFS_BLKSIZE.
Proof. intros H. unfold ospfs_block. apply u32_small. consts. lia. Qed.

(** The first word the block map reads is a pointer of the inode. *)
Lemma map_words_hd (d : image) (oi b w : Z) :
  0 <= b -> In w (map_words d oi b) ->
  (oi + OI_DIRECT <= w /\ w + 4 <= oi + OSPFS_INODESIZE)
  \/ In w (tl (map_words d oi b)).
Proof.
  intros Hb. unfold map_words.
  destruct (Z.ltb_spec b OSPFS_NDIRECT).
  - intros [<- | []]. left. unfold OI_DIRECT. consts. lia.
  - destruct (Z.ltb_spec b (OSPFS_NDIRECT + OSPFS_NINDIRECT)).
    + intros [<- | Hw]; [left | now right].
      unfold OI_DIRECT, OI_INDIRECT. consts. lia.
    + cbv zeta. intros [<- | Hw]; [left | now right].
      unfold OI_DIRECT, OI_INDIRECT2. consts. lia.
Qed.

Section Separated.

Variables (d : image) (dir_oi f_oi : Z).
Hypothesis Hsep : dir_sep d dir_oi f_oi.

Let n := ospfs_size2nblocks (oi_size d dir_oi).

Lemma sep_nblocks : n = (oi_size d dir_oi + OSPFS_BLKSIZE - 1) / OSPFS_BLKSIZE.
Proof.
subst n. apply size2nblocks_ceil.
pose proof (load32_range d (dir_oi + OI_SIZE)) as R. fold (oi_size d dir_oi) in R.
pose proof (sep_small _ _ _ Hsep). consts. lia.
Qed.

(** A word of the block map is a pointer of the inode or lies outside
the inode. *)
Lemma map_word_place b w :
0 <= b < n -> In w (map_words d dir_oi b) ->
(dir_oi + OI_DIRECT <= w /\ w + 4 <= dir_oi + OSPFS_INODESIZE)
\/ w + 4 <= dir_oi \/ dir_oi + OSPFS_INODESIZE <= w.
Proof.
intros Hb Hw.
destruct (map_words_hd d dir_oi b w ltac:(lia) Hw) as [H | H]; [now left |].
right. exact (sep_index _ _ _ Hsep b w Hb H).
Qed.

Lemma entry_off_block off :
entry_off d dir_oi off ->
0 <= off / OSPFS_BLKSIZE < n
/\ 0 <= off mod OSPFS_BLKSIZE <= OSPFS_BLKSIZE - OSPFS_DIRENTRY_SIZE.
Proof.
intros [Ho Ha]. rewrite sep_nblocks. consts.
pose proof (Z.div_mod off 1024 ltac:(lia)) as D.
pose proof (Z.mod_pos_bound off 1024 ltac:(lia)) as B.
pose proof (Z.div_mod off 128 ltac:(lia)) as D8.
assert (M : off mod 1024 = 128 * ((off / 128) mod 8)).
{ replace 1024 with (128 * 8) by reflexivity.
rewrite Z.rem_mul_r by lia. lia. }
pose proof (Z.mod_pos_bound (off / 128) 8 ltac:(lia)) as B8.
split; [| lia].
split; [apply Z.div_pos; lia |].
apply Z.div_lt_upper_bound; [lia |].
assert (1024 * ((oi_size d dir_oi + 1024 - 1) / 1024) >= oi_size d dir_oi)
by (pose proof (Z.div_mod (oi_size d dir_oi + 1024 - 1) 1024 ltac:(lia));
pose proof (Z.mod_pos_bound (oi_size d dir_oi + 1024 - 1) 1024 ltac:(lia));
lia).
lia.
Qed.

(** The block map only looks at the block index of an offset below the
size. *)
Lemma blockno_file_block off :
0 <= off < oi_size d dir_oi ->
ospfs_inode_blockno d dir_oi off = file_block d dir_oi (off / OSPFS_BLKSIZE).
Proof.
intros Ho. unfold file_block, ospfs_inode_blockno.
assert (L : off / OSPFS_BLKSIZE * OSPFS_BLKSIZE <= off).
{ consts. pose proof (Z.div_mod off 1024 ltac:(lia)).
pose proof (Z.mod_pos_bound off 1024 ltac:(lia)). lia. }
destruct (Z.geb_spec off (oi_size d dir_oi)); [lia |].
destruct (Z.geb_spec (off / OSPFS_BLKSIZE * OSPFS_BLKSIZE) (oi_size d dir_oi));
[lia |].
rewrite Z.div_mul by (consts; lia). reflexivity.
Qed.

(** An entry lies inside its block. *)
Lemma slot_in_block off :
entry_off d dir_oi off ->
let blk := file_block d dir_oi (off / OSPFS_BLKSIZE) in
0 < blk < 4194304
/\ slot d dir_oi off = ospfs_block blk + off mod OSPFS_BLKSIZE
/\ ospfs_block blk <= slot d dir_oi off
/\ slot d dir_oi off + OSPFS_DIRENTRY_SIZE <= ospfs_block blk + OSPFS_BLKSIZE.
Proof.
intros He blk. destruct (entry_off_block off He) as [Hb Hm].
destruct (sep_blocks _ _ _ Hsep _ Hb) as [Hr _]. fold blk in Hr.
split; [exact Hr |].
assert (E : slot d dir_oi off = ospfs_block blk + off mod OSPFS_BLKSIZE).
{ unfold slot, ospfs_inode_data. rewrite blockno_file_block by apply He.
reflexivity. }
split; [exact E |]. rewrite E. lia.
Qed.

Lemma slot_data off a :
entry_off d dir_oi off ->
slot d dir_oi off <= a < slot d dir_oi off + OSPFS_DIRENTRY_SIZE ->
data_or_nlink d dir_oi f_oi a.
Proof.
intros He Ha. right. exists (off / OSPFS_BLKSIZE).
destruct (entry_off_block off He) as [Hb _].
destruct (slot_in_block off He) as (_ & _ & L & U).
split; [exact Hb | lia].
Qed.

(** No entry overlaps the link count of [f_oi]. *)
Lemma slot_not_nlink off a :
entry_off d dir_oi off ->
slot d dir_oi off <= a < slot d dir_oi off + OSPFS_DIRENTRY_SIZE ->
~ (f_oi + OI_NLINK <= a < f_oi + OI_NLINK + 4).
Proof.
intros He Ha Hl.
destruct (entry_off_block off He) as [Hb _].
destruct (slot_in_block off He) as (_ & _ & L & U).
destruct (sep_blocks _ _ _ Hsep _ Hb) as [_ Hnot].
apply (Hnot a); [lia |]. right; right; now left.
Qed.

(** Two entries do not overlap. *)
Lemma slots_apart off off' :
entry_off d dir_oi off -> entry_off d dir_oi off' -> off <> off' ->
slot d dir_oi off + OSPFS_DIRENTRY_SIZE <= slot d dir_oi off'
\/ slot d dir_oi off' + OSPFS_DIRENTRY_SIZE <= slot d dir_oi off.
Proof.
intros He He' Hne.
destruct (slot_in_block off He) as (R & E & _ & _).
destruct (slot_in_block off' He') as (R' & E' & _ & _).
destruct (entry_off_block off He) as [Hb Hm].
destruct (entry_off_block off' He') as [Hb' Hm'].
rewrite E, E'. rewrite !block_no_wrap by lia.
destruct He as [Ho Ha]. destruct He' as [Ho' Ha'].
destruct (Z.eq_dec (off / OSPFS_BLKSIZE) (off' / OSPFS_BLKSIZE)) as [Q | Q].
- rewrite Q. consts.
pose proof (Z.div_mod off 1024 ltac:(lia)).
pose proof (Z.div_mod off' 1024 ltac:(lia)).
pose proof (Z.div_mod off 128 ltac:(lia)).
pose proof (Z.div_mod off' 128 ltac:(lia)).
lia.
- pose proof (sep_distinct _ _ _ Hsep _ _ Hb Hb' Q) as Hd.
consts. lia.
Qed.

(** The bytes of [in_meta] other than the link count are neither data
nor link count. *)
Lemma meta_not_data a :
in_meta d dir_oi f_oi n a ->
~ (f_oi + OI_NLINK <= a < f_oi + OI_NLINK + 4) ->
~ data_or_nlink d dir_oi f_oi a.
Proof.
intros Hm Hn [Hl | (b & Hb & Hr)]; [contradiction |].
destruct (sep_blocks _ _ _ Hsep _ Hb) as [_ Hnot].
exact (Hnot a Hr Hm).
Qed.

Lemma meta_word_not_data w a :
w <= a < w + 4 ->
(w = ospfs_super + OS_NINODES \/ w = ospfs_super + OS_FIRSTINOB
 \/ (dir_oi <= w /\ w + 4 <= dir_oi + OSPFS_INODESIZE)
 \/ exists b, 0 <= b < n /\ In w (map_words d dir_oi b)) ->
~ data_or_nlink d dir_oi f_oi a.
Proof.
intros Ha Hw.
assert (Hm : in_meta d dir_oi f_oi n a).
{ destruct Hw as [-> | [-> | [Hw | (b & Hb & Hw)]]].
- left. unfold OS_NINODES, OS_FIRSTINOB in *. lia.
- left. unfold OS_NINODES, OS_FIRSTINOB in *. lia.
- right; left. lia.
- right; right; right. exists b, w. now repeat split. }
apply meta_not_data; [exact Hm |].
intros Hl. destruct (sep_nlink _ _ _ Hsep a Hl) as (N1 & N2 & N3).
destruct Hw as [-> | [-> | [Hw | (b & Hb & Hw)]]].
- apply N1. unfold OS_NINODES, OS_FIRSTINOB in *. lia.
- apply N1. unfold OS_NINODES, OS_FIRSTINOB in *. lia.
- apply N2. lia.
- exact (N3 b w Hb Hw Ha).
Qed.

End Separated.

(** ** Writes to entries and to the link count *)

Section Frame.

Variables (d d' : image) (dir_oi f_oi : Z).
Hypothesis Hsep : dir_sep d dir_oi f_oi.
Hypothesis Hch : forall a, ~ data_or_nlink d dir_oi f_oi a -> d' a = d a.

Let n := ospfs_size2nblocks (oi_size d dir_oi).

Lemma frame_inode_word w :
dir_oi <= w -> w + 4 <= dir_oi + OSPFS_INODESIZE -> load32 d' w = load32 d w.
Proof.
intros L U. apply load32_agree. intros x Hx. apply Hch.
apply (meta_word_not_data d dir_oi f_oi Hsep w x Hx).
right; right; left. lia.
Qed.

Lemma frame_size : oi_size d' dir_oi = oi_size d dir_oi.
Proof. apply frame_inode_word; unfold OI_SIZE; consts; lia. Qed.

Lemma frame_ftype : oi_ftype d' dir_oi = oi_ftype d dir_oi.
Proof. apply frame_inode_word; unfold OI_FTYPE; consts; lia. Qed.

Lemma frame_map_word b w x :
0 <= b < n -> In w (map_words d dir_oi b) -> w <= x < w + 4 -> d' x = d x.
Proof.
intros Hb Hw Hx. apply Hch.
apply (meta_word_not_data d dir_oi f_oi Hsep w x Hx).
right; right; right. now exists b.
Qed.

Lemma frame_blockno off :
0 <= off -> ospfs_inode_blockno d' dir_oi off = ospfs_inode_blockno d dir_oi off.
Proof.
intros H0.
apply blockno_agree; [now rewrite frame_size | apply frame_ftype |].
intros Hlt w x Hw Hx.
apply (frame_map_word (off / OSPFS_BLKSIZE) w x); [| exact Hw | exact Hx].
split; [apply Z.div_pos; consts; lia |].
subst n. rewrite (sep_nblocks d dir_oi f_oi Hsep).
apply Z.div_lt_upper_bound; [consts; lia |].
pose proof (Z.div_mod (oi_size d dir_oi + OSPFS_BLKSIZE - 1) OSPFS_BLKSIZE
ltac:(consts; lia)) as D.
pose proof (Z.mod_pos_bound (oi_size d dir_oi + OSPFS_BLKSIZE - 1) OSPFS_BLKSIZE
ltac:(consts; lia)) as B.
consts. lia.
Qed.

Lemma frame_slot off : 0 <= off -> slot d' dir_oi off = slot d dir_oi off.
Proof.
intros H0. unfold slot, ospfs_inode_data. now rewrite frame_blockno.
Qed.

Lemma frame_file_block b : 0 <= b -> file_block d' dir_oi b = file_block d dir_oi b.
Proof. intros Hb. unfold file_block. apply frame_blockno. consts. lia. Qed.

Lemma frame_inode ino : ospfs_inode d' ino = ospfs_inode d ino.
Proof.
unfold ospfs_inode, os_ninodes, os_firstinob.
rewrite (load32_agree d d' (ospfs_super + OS_NINODES)),
(load32_agree d d' (ospfs_super + OS_FIRSTINOB)); [reflexivity | |].
- intros x Hx. apply Hch.
apply (meta_word_not_data d dir_oi f_oi Hsep _ x Hx). right; now left.
- intros x Hx. apply Hch.
apply (meta_word_not_data d dir_oi f_oi Hsep _ x Hx). now left.
Qed.

Lemma frame_map_words b : 0 <= b < n -> map_words d' dir_oi b = map_words d dir_oi b.
Proof.
intros Hb. unfold map_words.
destruct (Z.ltb_spec b OSPFS_NDIRECT) as [L | L]; [reflexivity |].
destruct (Z.ltb_spec b (OSPFS_NDIRECT + OSPFS_NINDIRECT)) as [L2 | L2].
- assert (E : oi_indirect d' dir_oi = oi_indirect d dir_oi)
by (apply frame_inode_word; unfold OI_INDIRECT; consts; lia).
now rewrite E.
- cbv zeta.
assert (E : oi_indirect2 d' dir_oi = oi_indirect2 d dir_oi)
by (apply frame_inode_word; unfold OI_INDIRECT2; consts; lia).
rewrite E.
assert (E2 : word_at d' (ospfs_block (oi_indirect2 d dir_oi))
   ((b - (OSPFS_NDIRECT + OSPFS_NINDIRECT)) / OSPFS_NINDIRECT)
 = word_at d (ospfs_block (oi_indirect2 d dir_oi))
     ((b - (OSPFS_NDIRECT + OSPFS_NINDIRECT)) / OSPFS_NINDIRECT)).
{ apply load32_agree. intros x Hx.
apply (frame_map_word b
 (ospfs_block (oi_indirect2 d dir_oi)
+ 4 * ((b - (OSPFS_NDIRECT + OSPFS_NINDIRECT)) / OSPFS_NINDIRECT))
 x Hb); [| exact Hx].
unfold map_words.
destruct (Z.ltb_spec b OSPFS_NDIRECT); [lia |].
destruct (Z.ltb_spec b (OSPFS_NDIRECT + OSPFS_NINDIRECT)); [lia |].
right; left; reflexivity. }
now rewrite E2.
Qed.

Lemma frame_in_meta a :
in_meta d' dir_oi f_oi n a <-> in_meta d dir_oi f_oi n a.
Proof.
unfold in_meta. split.
- intros [H | [H | [H | (b & w & Hb & Hw & Ha)]]]; auto.
right; right; right. exists b, w. rewrite <- frame_map_words by exact Hb.
now repeat split.
- intros [H | [H | [H | (b & w & Hb & Hw & Ha)]]]; auto.
right; right; right. exists b, w. rewrite frame_map_words by exact Hb.
now repeat split.
Qed.

(** Separation survives such writes. *)
Lemma frame_sep : dir_sep d' dir_oi f_oi.
Proof.
destruct Hsep as [T A S B D L I U].
constructor; rewrite ?frame_size, ?frame_ftype; try assumption.
- intros b Hb. rewrite frame_file_block by lia.
destruct (B b Hb) as [R M]. split; [exact R |].
intros a Ha Hm. apply (M a Ha). now apply frame_in_meta.
- intros b b' Hb Hb' Hne. rewrite !frame_file_block by lia. now apply D.
- intros a Ha. destruct (L a Ha) as (L1 & L2 & L3).
split; [exact L1 |]. split; [exact L2 |].
intros b w Hb Hw. apply (L3 b w Hb).
rewrite <- frame_map_words by exact Hb. exact Hw.
- intros b w Hb Hw. apply (I b w Hb).
rewrite <- frame_map_words by exact Hb. exact Hw.
Qed.

Lemma frame_data_or_nlink a :
data_or_nlink d' dir_oi f_oi a <-> data_or_nlink d dir_oi f_oi a.
Proof.
unfold data_or_nlink. rewrite frame_size. split.
- intros [H | (b & Hb & Hr)]; [now left |].
right. exists b. rewrite frame_file_block in Hr by lia. now split.
- intros [H | (b & Hb & Hr)]; [now left |].
right. exists b. rewrite frame_file_block by lia. now split.
Qed.

Lemma frame_entry_off off : entry_off d' dir_oi off <-> entry_off d dir_oi off.
Proof. unfold entry_off. now rewrite frame_size. Qed.

End Frame.

(** ** The scans in terms of entry offsets *)

Section ScanOffsets.

Variables (d : image) (dir_oi : Z).
Hypothesis Haligned : oi_size d dir_oi mod OSPFS_DIRENTRY_SIZE = 0.

Lemma entry_off_index off :
entry_off d dir_oi off ->
exists i : nat,
off = 0 + OSPFS_DIRENTRY_SIZE * Z.of_nat i /\ (i < dir_rounds d dir_oi)%nat.
Proof.
intros [Ho Ha]. exists (Z.to_nat (off / OSPFS_DIRENTRY_SIZE)).
unfold dir_rounds.
pose proof (load32_range d (dir_oi + OI_SIZE)) as R. fold (oi_size d dir_oi) in R.
consts.
pose proof (Z.div_mod off 128 ltac:(lia)) as D.
pose proof (Z.div_mod (oi_size d dir_oi) 128 ltac:(lia)) as Ds.
assert (0 <= off / 128) by (apply Z.div_pos; lia).
assert (E : (oi_size d dir_oi + 128 - 1) / 128 = oi_size d dir_oi / 128).
{ symmetry. apply (Z.div_unique _ _ _ 127); lia. }
rewrite E. split; [lia |].
assert (off / 128 < oi_size d dir_oi / 128)
by (apply Z.div_lt_upper_bound; lia).
lia.
Qed.

Lemma index_entry_off (i : nat) :
0 + OSPFS_DIRENTRY_SIZE * Z.of_nat i < oi_size d dir_oi ->
entry_off d dir_oi (0 + OSPFS_DIRENTRY_SIZE * Z.of_nat i).
Proof.
intros H. split; [consts; lia |].
rewrite Z.add_0_l, Z.mul_comm. apply Z.mod_mul. consts. lia.
Qed.

Lemma find_direntry_none_off name off :
find_direntry d dir_oi name = None ->
entry_off d dir_oi off -> entry_matches d dir_oi name off = false.
Proof.
intros H He. destruct (entry_off_index off He) as (i & -> & Hi).
apply (find_loop_none_inv d dir_oi name _ _ H i Hi). apply He.
Qed.

Lemma find_direntry_some_off name od :
find_direntry d dir_oi name = Some od ->
exists off,
entry_off d dir_oi off
/\ (forall off', entry_off d dir_oi off' -> off' < off ->
     entry_matches d dir_oi name off' = false)
/\ entry_matches d dir_oi name off = true
/\ od = slot d dir_oi off.
Proof.
intros H.
destruct (find_loop_some_inv d dir_oi name _ _ _ H)
as (i & Hi & Hlt & Hno & Hyes & Hod).
exists (0 + OSPFS_DIRENTRY_SIZE * Z.of_nat i).
split; [now apply index_entry_off |].
split; [| now split].
intros off' He' Hlt'. destruct (entry_off_index off' He') as (j & -> & Hj).
apply Hno. consts. lia.
Qed.

Lemma find_direntry_first_off name off :
entry_off d dir_oi off ->
(forall off', entry_off d dir_oi off' -> off' < off ->
entry_matches d dir_oi name off' = false) ->
entry_matches d dir_oi name off = true ->
find_direntry d dir_oi name = Some (slot d dir_oi off).
Proof.
intros He Hno Hyes. destruct (entry_off_index off He) as (i & -> & Hi).
apply find_loop_first; [exact Hi | apply He | | exact Hyes].
intros j Hj. apply Hno; [| consts; lia].
apply index_entry_off. destruct He. consts. lia.
Qed.

Lemma unlink_scan_first_off name off :
entry_off d dir_oi off ->
(forall off', entry_off d dir_oi off' -> off' < off ->
entry_matches d dir_oi name off' = false) ->
entry_matches d dir_oi name off = true ->
unlink_scan (dir_rounds d dir_oi) d dir_oi name 0 None
= (off, Some (slot d dir_oi off)).
Proof.
intros He Hno Hyes. destruct (entry_off_index off He) as (i & E & Hi).
rewrite E in *.
apply unlink_scan_first; [exact Hi | apply He | | exact Hyes].
intros j Hj. apply Hno; [| consts; lia].
apply index_entry_off. destruct He. consts. lia.
Qed.

End ScanOffsets.

(** ** Names stored in entries *)

Section Names.

Implicit Types (d : image) (od : Z) (name : list Z).

Lemma name_chars_bytes name : name_chars name -> Forall (fun b => 0 <= b < 256) name.
Proof. apply Forall_impl. intros c Hc. lia. Qed.

Lemma name_chars_nonzero name :
name_chars name -> forallb (fun b => negb (b =? 0)) name = true.
Proof.
induction 1 as [| c name Hc _ IH]; [reflexivity |].
cbn [forallb]. rewrite IH. destruct (Z.eqb_spec c 0); [lia | reflexivity].
Qed.

Lemma set_od_name_outside d od name a :
a < od + OD_NAME \/ od + OD_NAME + Z.of_nat (length name) < a ->
set_od_name d od name a = d a.
Proof.
intros H. unfold set_od_name. rewrite store8_outside by lia.
apply store_bytes_outside. lia.
Qed.

Lemma set_od_name_stored d od name :
name_chars name ->
load_bytes (set_od_name d od name) (od + OD_NAME) (length name) = name
/\ load8 (set_od_name d od name) (od + OD_NAME + Z.of_nat (length name)) = 0.
Proof.
intros Hn. unfold set_od_name. split.
- rewrite (load_bytes_agree (store_bytes d (od + OD_NAME) name)).
+ apply load_store_bytes. now apply name_chars_bytes.
+ intros x Hx. apply store8_outside. lia.
- apply load8_store8_same.
Qed.

(** An entry holding [name] matches [name] and no other name. *)
Lemma name_matches_stored d od name name' :
name_chars name -> name_chars name' ->
load_bytes d (od + OD_NAME) (length name) = name ->
load8 d (od + OD_NAME + Z.of_nat (length name)) = 0 ->
name_matches d od name' = true <-> name' = name.
Proof.
intros Hn Hn' Hs Hz. unfold name_matches, strlen_is. split.
- rewrite !andb_true_iff. intros [[Hnz Hend] Heq].
apply bytes_eqb_eq in Heq. apply Z.eqb_eq in Hend.
destruct (Nat.lt_trichotomy (length name') (length name)) as [L | [L | L]].
+ exfalso.
assert (In (load8 d (od + OD_NAME + Z.of_nat (length name'))) name).
{ rewrite <- Hs.
replace (length name) with (length name' + S (length name - S (length name')))%nat
by lia.
rewrite load_bytes_app. apply in_or_app. right. now left. }
rewrite Hend in H. unfold name_chars in Hn.
rewrite Forall_forall in Hn. specialize (Hn 0 H). lia.
+ rewrite L in Heq. now rewrite <- Heq, Hs.
+ exfalso.
assert (In (load8 d (od + OD_NAME + Z.of_nat (length name))) name').
{ rewrite <- Heq.
replace (length name') with (length name + S (length name' - S (length name)))%nat
by lia.
rewrite load_bytes_app. apply in_or_app. right. now left. }
rewrite Hz in H. unfold name_chars in Hn'.
rewrite Forall_forall in Hn'. specialize (Hn' 0 H). lia.
- intros ->. rewrite Hs, Hz, name_chars_nonzero by exact Hn.
cbn [andb]. rewrite Z.eqb_refl. cbn [andb]. now apply bytes_eqb_eq.
Qed.

(** What [entry_matches] reads of an entry. *)
Lemma entry_matches_agree d d' dir_oi name off :
slot d' dir_oi off = slot d dir_oi off ->
(forall a, slot d dir_oi off <= a
 <= slot d dir_oi off + OD_NAME + Z.of_nat (length name) ->
 d' a = d a) ->
entry_matches d' dir_oi name off = entry_matches d dir_oi name off.
Proof.
intros Es Ha. unfold entry_matches. rewrite Es.
unfold od_ino, name_matches, strlen_is, OD_INO, OD_NAME in *.
rewrite (load32_agree d d') by (intros x Hx; apply Ha; lia).
rewrite (load_bytes_agree d d') by (intros x Hx; apply Ha; lia).
rewrite (load8_agree d d') by (apply Ha; lia).
reflexivity.
Qed.

End Names.

(** ** Linking a second name and unlinking the first *)

Section HardLinkCore.

Variables (d1 : image) (dir_ino dir_oi f_ino f_oi off_b off_f : Z).
Variables (f g : list Z).

Hypothesis Hsep : dir_sep d1 dir_oi f_oi.
Hypothesis Hdir : ospfs_inode d1 dir_ino = Some dir_oi.
Hypothesis Hfile : ospfs_inode d1 f_ino = Some f_oi.
Hypothesis Hb : entry_off d1 dir_oi off_b.
Hypothesis Hf : entry_off d1 dir_oi off_f.
Hypothesis Hbf : off_b <> off_f.
Hypothesis Hf_first :
forall off, entry_off d1 dir_oi off -> off < off_f ->
entry_matches d1 dir_oi f off = false.
Hypothesis Hf_match : entry_matches d1 dir_oi f off_f = true.
Hypothesis Hf_ino : od_ino d1 (slot d1 dir_oi off_f) = f_ino.
Hypothesis Hg_none :
forall off, entry_off d1 dir_oi off -> off <> off_b ->
entry_matches d1 dir_oi g off = false.
Hypothesis Hnl : oi_nlink d1 f_oi = 1.
Hypothesis Hfc : name_chars f.
Hypothesis Hgc : name_chars g.
Hypothesis Hlen_f : Z.of_nat (length f) <= OSPFS_DIRENTRY_SIZE - 5.
Hypothesis Hlen_g : Z.of_nat (length g) <= OSPFS_MAXNAMELEN.
Hypothesis Hfg : f <> g.

Let od_b := slot d1 dir_oi off_b.
Let od_f := slot d1 dir_oi off_f.
Let nlink_word a := f_oi + OI_NLINK <= a < f_oi + OI_NLINK + 4.

(** The image after [ospfs_link] has filled the entry at [off_b]. *)
Let d3 := set_od_ino (set_od_name d1 od_b g) od_b f_ino.
Let dl := set_oi_nlink d3 f_oi (oi_nlink d3 f_oi + 1).

(** The image after [ospfs_unlink] has cleared the entry at [off_f]. *)
Let u1 := set_od_ino dl od_f 0.
Let du := set_oi_nlink u1 f_oi (oi_nlink u1 f_oi - 1).

Lemma f_ino_range : 0 < f_ino < 4294967296.
Proof.
pose proof (load32_range d1 (slot d1 dir_oi off_f + OD_INO)) as R.
fold (od_ino d1 (slot d1 dir_oi off_f)) in R. rewrite Hf_ino in R.
unfold entry_matches in Hf_match. rewrite Hf_ino in Hf_match.
destruct (Z.eqb_spec f_ino 0); [discriminate | lia].
Qed.

Lemma d3_outside a :
~ (od_b <= a <= od_b + OD_NAME + Z.of_nat (length g)) -> d3 a = d1 a.
Proof.
intros H. subst d3. unfold set_od_ino, OD_INO, OD_NAME in *.
rewrite store32_outside by lia. apply set_od_name_outside.
unfold OD_NAME. lia.
Qed.

Lemma slot_b_not_nlink a :
od_b <= a < od_b + OSPFS_DIRENTRY_SIZE -> ~ nlink_word a.
Proof. apply (slot_not_nlink d1 dir_oi f_oi Hsep off_b a Hb). Qed.

Lemma slot_f_not_nlink a :
od_f <= a < od_f + OSPFS_DIRENTRY_SIZE -> ~ nlink_word a.
Proof. apply (slot_not_nlink d1 dir_oi f_oi Hsep off_f a Hf). Qed.

Lemma g_in_slot : OD_NAME + Z.of_nat (length g) < OSPFS_DIRENTRY_SIZE.
Proof. unfold OD_NAME, OSPFS_MAXNAMELEN in *. consts. lia. Qed.

Lemma d3_nlink : oi_nlink d3 f_oi = 1.
Proof.
rewrite <- Hnl. unfold oi_nlink. apply load32_agree. intros x Hx.
apply d3_outside. intros Hin.
apply (slot_b_not_nlink x); [pose proof g_in_slot; lia | exact Hx].
Qed.

Lemma dl_outside a :
~ (od_b <= a <= od_b + OD_NAME + Z.of_nat (length g)) -> ~ nlink_word a ->
dl a = d1 a.
Proof.
intros Hs Hn. subst dl. unfold set_oi_nlink.
rewrite store32_outside by (unfold nlink_word in Hn; lia).
now apply d3_outside.
Qed.

Lemma dl_slot_b a :
od_b <= a < od_b + OSPFS_DIRENTRY_SIZE -> dl a = d3 a.
Proof.
intros Ha. subst dl. unfold set_oi_nlink. apply store32_outside.
pose proof (slot_b_not_nlink a Ha) as N. unfold nlink_word in N. lia.
Qed.

Lemma dl_nlink : oi_nlink dl f_oi = 2.
Proof.
subst dl. unfold set_oi_nlink, oi_nlink at 1.
rewrite load32_store32_same, d3_nlink. reflexivity.
Qed.

Lemma dl_ino : od_ino dl od_b = f_ino.
Proof.
unfold od_ino, OD_INO. rewrite Z.add_0_r.
rewrite (load32_agree d3 dl) by (intros x Hx; apply dl_slot_b; consts; lia).
subst d3. unfold set_od_ino, OD_INO. rewrite Z.add_0_r.
rewrite load32_store32_same. apply u32_small.
pose proof f_ino_range. lia.
Qed.

Lemma dl_name :
load_bytes dl (od_b + OD_NAME) (length g) = g
/\ load8 dl (od_b + OD_NAME + Z.of_nat (length g)) = 0.
Proof.
pose proof g_in_slot as G.
destruct (set_od_name_stored d1 od_b g Hgc) as [S Z0].
assert (E : forall x, od_b + OD_NAME <= x <= od_b + OD_NAME + Z.of_nat (length g) ->
        dl x = set_od_name d1 od_b g x).
{ intros x Hx. unfold OD_NAME in *. rewrite dl_slot_b by lia.
subst d3. unfold set_od_ino, OD_INO. apply store32_outside. lia. }
split.
- etransitivity; [| exact S].
apply load_bytes_agree. intros x Hx. apply E. lia.
- etransitivity; [| exact Z0].
apply load8_agree. apply E. unfold OD_NAME. lia.
Qed.

Lemma dl_frame a : ~ data_or_nlink d1 dir_oi f_oi a -> dl a = d1 a.
Proof.
intros H. apply dl_outside.
- intros Hin. apply H.
apply (slot_data d1 dir_oi f_oi Hsep off_b a Hb).
pose proof g_in_slot. fold od_b. lia.
- intros Hn. apply H. now left.
Qed.

Lemma dl_slot off : 0 <= off -> slot dl dir_oi off = slot d1 dir_oi off.
Proof. apply (frame_slot d1 dl dir_oi f_oi Hsep dl_frame). Qed.

Lemma dl_entry_off off : entry_off dl dir_oi off <-> entry_off d1 dir_oi off.
Proof. apply (frame_entry_off d1 dl dir_oi f_oi Hsep dl_frame). Qed.

Lemma dl_sep : dir_sep dl dir_oi f_oi.
Proof. apply (frame_sep d1 dl dir_oi f_oi Hsep dl_frame). Qed.

(** Reading a name of at most [len] characters in another entry. *)
Lemma other_slot_apart off a (name : list Z) :
entry_off d1 dir_oi off -> off <> off_b ->
Z.of_nat (length name) <= OSPFS_DIRENTRY_SIZE - 5 ->
slot d1 dir_oi off <= a <= slot d1 dir_oi off + OD_NAME + Z.of_nat (length name) ->
~ (od_b <= a < od_b + OSPFS_DIRENTRY_SIZE) /\ ~ nlink_word a.
Proof.
intros He Hne Hlen Ha. unfold OD_NAME in *.
split.
- destruct (slots_apart d1 dir_oi f_oi Hsep off off_b He Hb Hne) as [S | S];
fold od_b in S; consts; lia.
- apply (slot_not_nlink d1 dir_oi f_oi Hsep off a He). consts. lia.
Qed.

Lemma dl_other (name : list Z) off :
entry_off d1 dir_oi off -> off <> off_b ->
Z.of_nat (length name) <= OSPFS_DIRENTRY_SIZE - 5 ->
entry_matches dl dir_oi name off = entry_matches d1 dir_oi name off.
Proof.
intros He Hne Hlen. apply entry_matches_agree.
- apply dl_slot. apply He.
- intros a Ha.
destruct (other_slot_apart off a name He Hne Hlen Ha) as [N1 N2].
apply dl_outside; [| exact N2].
pose proof g_in_slot. lia.
Qed.

Lemma dl_matches (name : list Z) :
name_chars name ->
entry_matches dl dir_oi name off_b = true <-> name = g.
Proof.
intros Hn. unfold entry_matches.
rewrite dl_slot by apply Hb. fold od_b. rewrite dl_ino.
destruct dl_name as [S Z0].
rewrite andb_true_iff, (name_matches_stored dl od_b g name Hgc Hn S Z0).
pose proof f_ino_range.
destruct (Z.eqb_spec f_ino 0); [lia |]. cbn [negb]. tauto.
Qed.

Lemma len_g_slot : Z.of_nat (length g) <= OSPFS_DIRENTRY_SIZE - 5.
Proof. unfold OSPFS_MAXNAMELEN in *. consts. lia. Qed.

(** The new name is found, with the inode number of the old one. *)
Lemma dl_find_g : find_direntry dl dir_oi g = Some od_b.
Proof.
unfold od_b. rewrite <- (dl_slot off_b) by apply Hb.
apply find_direntry_first_off.
- apply (sep_aligned _ _ _ dl_sep).
- now apply dl_entry_off.
- intros off He Hlt. apply dl_entry_off in He.
rewrite dl_other by (try assumption; try lia; apply len_g_slot).
apply Hg_none; [exact He | lia].
- now apply dl_matches.
Qed.

Lemma dl_first_f :
(forall off, entry_off dl dir_oi off -> off < off_f ->
 entry_matches dl dir_oi f off = false)
/\ entry_matches dl dir_oi f off_f = true.
Proof.
split.
- intros off He Hlt. apply dl_entry_off in He.
destruct (Z.eq_dec off off_b) as [-> | Hne].
+ destruct (entry_matches dl dir_oi f off_b) eqn:M; [| reflexivity].
apply dl_matches in M; [contradiction | exact Hfc].
+ rewrite dl_other by assumption. now apply Hf_first.
- rewrite dl_other by (try assumption; auto). exact Hf_match.
Qed.

Lemma dl_unlink : ospfs_unlink dl dir_ino f_ino f = Some (0, du).
Proof.
unfold ospfs_unlink.
rewrite (frame_inode d1 dl dir_oi f_oi Hsep dl_frame), Hdir.
destruct dl_first_f as [Hno Hyes].
rewrite (unlink_scan_first_off dl dir_oi (sep_aligned _ _ _ dl_sep) f off_f);
[| now apply dl_entry_off | exact Hno | exact Hyes].
assert (Hlt : off_f < oi_size dl dir_oi) by (apply dl_entry_off in Hf; apply Hf).
destruct (Z.eqb_spec off_f (oi_size dl dir_oi)); [lia |].
rewrite (frame_inode d1 dl dir_oi f_oi Hsep dl_frame), Hfile.
rewrite dl_slot by apply Hf. reflexivity.
Qed.

Lemma du_outside a :
~ (od_f <= a < od_f + 4) -> ~ nlink_word a -> du a = dl a.
Proof.
intros Hs Hn. subst du u1. unfold set_oi_nlink, set_od_ino, OD_INO.
rewrite store32_outside by (unfold nlink_word in Hn; lia).
apply store32_outside. lia.
Qed.

Lemma du_nlink : oi_nlink du f_oi = 1.
Proof.
subst du. unfold set_oi_nlink, oi_nlink at 1.
rewrite load32_store32_same.
assert (E : oi_nlink u1 f_oi = 2).
{ rewrite <- dl_nlink. unfold oi_nlink. apply load32_agree. intros x Hx.
subst u1. unfold set_od_ino, OD_INO. apply store32_outside.
assert (N : ~ (od_f <= x < od_f + OSPFS_DIRENTRY_SIZE))
by (intros Hin; now apply (slot_f_not_nlink x Hin)).
consts. lia. }
rewrite E. reflexivity.
Qed.

Lemma du_ino_f : od_ino du od_f = 0.
Proof.
unfold od_ino, OD_INO. rewrite Z.add_0_r.
assert (E : load32 du od_f = load32 u1 od_f).
{ apply load32_agree. intros x Hx. subst du. unfold set_oi_nlink.
apply store32_outside.
assert (N : ~ nlink_word x) by (apply slot_f_not_nlink; consts; lia).
unfold nlink_word in N. lia. }
rewrite E. subst u1. unfold set_od_ino, OD_INO. rewrite Z.add_0_r.
now rewrite load32_store32_same.
Qed.

Lemma du_frame a : ~ data_or_nlink d1 dir_oi f_oi a -> du a = d1 a.
Proof.
intros H. rewrite du_outside; [now apply dl_frame | |].
- intros Hin. apply H.
apply (slot_data d1 dir_oi f_oi Hsep off_f a Hf). fold od_f. consts. lia.
- intros Hn. apply H. now left.
Qed.

Lemma du_slot off : 0 <= off -> slot du dir_oi off = slot d1 dir_oi off.
Proof. apply (frame_slot d1 du dir_oi f_oi Hsep du_frame). Qed.

Lemma du_entry_off off : entry_off du dir_oi off <-> entry_off d1 dir_oi off.
Proof. apply (frame_entry_off d1 du dir_oi f_oi Hsep du_frame). Qed.

Lemma du_sep : dir_sep du dir_oi f_oi.
Proof. apply (frame_sep d1 du dir_oi f_oi Hsep du_frame). Qed.

Lemma du_slot_b a :
od_b <= a < od_b + OSPFS_DIRENTRY_SIZE -> du a = dl a.
Proof.
intros Ha. apply du_outside.
- destruct (slots_apart d1 dir_oi f_oi Hsep off_b off_f Hb Hf Hbf) as [S | S];
fold od_b od_f in S; consts; lia.
- now apply slot_b_not_nlink.
Qed.

Lemma du_ino_g : od_ino du od_b = f_ino.
Proof.
rewrite <- dl_ino. unfold od_ino, OD_INO. rewrite Z.add_0_r.
apply load32_agree. intros x Hx. apply du_slot_b. consts. lia.
Qed.

Lemma du_find_g : find_direntry du dir_oi g = Some od_b.
Proof.
unfold od_b. rewrite <- (du_slot off_b) by apply Hb.
apply find_direntry_first_off.
- apply (sep_aligned _ _ _ du_sep).
- now apply du_entry_off.
- intros off He Hlt. apply du_entry_off in He.
destruct (Z.eq_dec off off_f) as [-> | Hne].
+ unfold entry_matches. rewrite du_slot by apply Hf. fold od_f.
now rewrite du_ino_f.
+ assert (E : entry_matches du dir_oi g off = entry_matches dl dir_oi g off).
{ apply entry_matches_agree.
- rewrite du_slot, dl_slot by apply He. reflexivity.
- intros a Ha. rewrite dl_slot in Ha by apply He.
apply du_outside.
+ destruct (slots_apart d1 dir_oi f_oi Hsep off off_f He Hf Hne)
as [S | S];
fold od_f in S; pose proof len_g_slot;
unfold OD_NAME in *; consts; lia.
+ apply (slot_not_nlink d1 dir_oi f_oi Hsep off a He).
pose proof len_g_slot. unfold OD_NAME in *. consts. lia. }
rewrite E, dl_other by (try assumption; try lia; apply len_g_slot).
apply Hg_none; [exact He | lia].
- assert (E : entry_matches du dir_oi g off_b = entry_matches dl dir_oi g off_b).
{ apply entry_matches_agree.
- rewrite du_slot, dl_slot by apply Hb. reflexivity.
- intros a Ha. rewrite dl_slot in Ha by apply Hb. apply du_slot_b.
fold od_b in Ha. pose proof g_in_slot. lia. }
rewrite E. now apply dl_matches.
Qed.

(** All of it together. *)
Lemma hard_link_core :
find_direntry dl dir_oi g = Some od_b
/\ od_ino dl od_b = f_ino
/\ oi_nlink dl f_oi = 2
/\ ospfs_unlink dl dir_ino f_ino f = Some (0, du)
/\ od_ino du od_f = 0
/\ find_direntry du dir_oi g = Some od_b
/\ od_ino du od_b = f_ino
/\ oi_nlink du f_oi = 1.
Proof.
repeat split.
- exact dl_find_g.
- exact dl_ino.
- exact dl_nlink.
- exact dl_unlink.
- exact du_ino_f.
- exact du_find_g.
- exact du_ino_g.
- exact du_nlink.
Qed.

End HardLinkCore.

(** ** A directory that has grown by one entry *)

Section Extend.

Variables (d d' : image) (dir_oi f_oi : Z).
Hypothesis Hsep : dir_sep d dir_oi f_oi.

Let n := ospfs_size2nblocks (oi_size d dir_oi).
Let n' := ospfs_size2nblocks (oi_size d' dir_oi).

Hypothesis HE_type : oi_ftype d' dir_oi = oi_ftype d dir_oi.
Hypothesis HE_words :
forall b w x, 0 <= b < n -> In w (map_words d dir_oi b) ->
w <= x < w + 4 -> d' x = d x.
Hypothesis HE_super :
forall x, ospfs_super + OS_NINODES <= x < ospfs_super + OS_FIRSTINOB + 4
\/ f_oi + OI_NLINK <= x < f_oi + OI_NLINK + 4 -> d' x = d x.
Hypothesis HE_data :
forall b x, 0 <= b < n ->
ospfs_block (file_block d dir_oi b) <= x
< ospfs_block (file_block d dir_oi b) + OSPFS_BLKSIZE -> d' x = d x.
Hypothesis HE_size : oi_size d' dir_oi = oi_size d dir_oi + OSPFS_DIRENTRY_SIZE.
Hypothesis HE_small :
oi_size d dir_oi + OSPFS_DIRENTRY_SIZE <= 4294967296 - OSPFS_BLKSIZE.
Hypothesis HE_new :
n' = n
\/ (n' = n + 1
/\ (forall w, In w (tl (map_words d' dir_oi n)) ->
w + 4 <= dir_oi \/ dir_oi + OSPFS_INODESIZE <= w)
/\ (forall w x, In w (map_words d' dir_oi n) -> w <= x < w + 4 ->
~ (f_oi + OI_NLINK <= x < f_oi + OI_NLINK + 4)
/\ forall b, 0 <= b < n ->
 ~ (ospfs_block (file_block d dir_oi b) <= x
    < ospfs_block (file_block d dir_oi b) + OSPFS_BLKSIZE))
/\ 0 < file_block d' dir_oi n < 4194304
/\ (forall b, 0 <= b < n -> file_block d dir_oi b <> file_block d' dir_oi n)
/\ forall a, ospfs_block (file_block d' dir_oi n) <= a
   < ospfs_block (file_block d' dir_oi n) + OSPFS_BLKSIZE ->
   ~ in_meta d dir_oi f_oi n a
   /\ forall w, In w (map_words d' dir_oi n) -> ~ (w <= a < w + 4)).

Lemma ext_size_range : 0 <= oi_size d dir_oi.
Proof. apply load32_range. Qed.

Lemma ext_n : n = (oi_size d dir_oi + OSPFS_BLKSIZE - 1) / OSPFS_BLKSIZE.
Proof. apply (sep_nblocks d dir_oi f_oi Hsep). Qed.

Lemma ext_n' :
n' = (oi_size d dir_oi + OSPFS_DIRENTRY_SIZE + OSPFS_BLKSIZE - 1) / OSPFS_BLKSIZE.
Proof.
subst n'. rewrite HE_size. apply size2nblocks_ceil.
pose proof ext_size_range. consts. lia.
Qed.

Lemma ext_n_le : 0 <= n <= n'.
Proof.
rewrite ext_n, ext_n'. pose proof ext_size_range. split.
- apply Z.div_pos; consts; lia.
- apply Z.div_le_mono; consts; lia.
Qed.

Lemma ext_block_below off :
0 <= off < oi_size d dir_oi -> 0 <= off / OSPFS_BLKSIZE < n.
Proof.
intros Ho. rewrite ext_n. split; [apply Z.div_pos; consts; lia |].
apply Z.div_lt_upper_bound; [consts; lia |].
pose proof (Z.div_mod (oi_size d dir_oi + OSPFS_BLKSIZE - 1) OSPFS_BLKSIZE
ltac:(consts; lia)) as D.
pose proof (Z.mod_pos_bound (oi_size d dir_oi + OSPFS_BLKSIZE - 1) OSPFS_BLKSIZE
ltac:(consts; lia)) as B.
consts. lia.
Qed.

Lemma ext_blockno off :
0 <= off < oi_size d dir_oi ->
ospfs_inode_blockno d' dir_oi off = ospfs_inode_blockno d dir_oi off.
Proof.
intros Ho. apply blockno_agree; [| exact HE_type |].
- rewrite HE_size.
destruct (Z.geb_spec off (oi_size d dir_oi + OSPFS_DIRENTRY_SIZE));
destruct (Z.geb_spec off (oi_size d dir_oi)); try reflexivity; consts; lia.
- intros _ w x Hw Hx.
apply (HE_words (off / OSPFS_BLKSIZE) w x); [| exact Hw | exact Hx].
now apply ext_block_below.
Qed.

Lemma ext_slot off :
0 <= off < oi_size d dir_oi -> slot d' dir_oi off = slot d dir_oi off.
Proof. intros Ho. unfold slot, ospfs_inode_data. now rewrite ext_blockno. Qed.

Lemma ext_file_block b : 0 <= b < n -> file_block d' dir_oi b = file_block d dir_oi b.
Proof.
intros Hb. unfold file_block. apply ext_blockno.
rewrite ext_n in Hb. pose proof ext_size_range as R.
pose proof (Z.div_mod (oi_size d dir_oi + OSPFS_BLKSIZE - 1) OSPFS_BLKSIZE
ltac:(consts; lia)) as D.
pose proof (Z.mod_pos_bound (oi_size d dir_oi + OSPFS_BLKSIZE - 1) OSPFS_BLKSIZE
ltac:(consts; lia)) as B.
consts. nia.
Qed.

Lemma ext_map_words b : 0 <= b < n -> map_words d' dir_oi b = map_words d dir_oi b.
Proof.
intros Hb. unfold map_words.
destruct (Z.ltb_spec b OSPFS_NDIRECT) as [L | L]; [reflexivity |].
assert (Hw : forall w, In w (map_words d dir_oi b) -> load32 d' w = load32 d w).
{ intros w Hw. apply load32_agree. intros x Hx. now apply (HE_words b w x). }
unfold map_words in Hw.
destruct (Z.ltb_spec b OSPFS_NDIRECT) as [L' | _]; [lia |].
destruct (Z.ltb_spec b (OSPFS_NDIRECT + OSPFS_NINDIRECT)) as [L2 | L2].
- unfold oi_indirect. rewrite (Hw (dir_oi + OI_INDIRECT)) by now left.
reflexivity.
- cbv zeta in *. unfold oi_indirect2, word_at in *.
rewrite (Hw (dir_oi + OI_INDIRECT2)) by now left.
rewrite (Hw (ospfs_block (load32 d (dir_oi + OI_INDIRECT2))
 + 4 * ((b - (OSPFS_NDIRECT + OSPFS_NINDIRECT)) / OSPFS_NINDIRECT)))
by (right; now left).
reflexivity.
Qed.

Lemma ext_in_meta a :
in_meta d' dir_oi f_oi n' a ->
in_meta d dir_oi f_oi n a
\/ (n' = n + 1 /\ exists w, In w (map_words d' dir_oi n) /\ w <= a < w + 4).
Proof.
pose proof ext_n_le as Hle. unfold in_meta.
intros [H | [H | [H | (b & w & Hb & Hw & Ha)]]]; auto.
destruct (Z_lt_ge_dec b n) as [Lb | Lb].
- left. right; right; right. exists b, w.
rewrite <- ext_map_words by lia. repeat split; try lia; assumption.
- right. destruct HE_new as [E | (E & _)]; [lia |].
assert (b = n) by lia. subst b. split; [exact E |]. now exists w.
Qed.

(** Separation holds for the grown directory. *)
Lemma ext_sep : dir_sep d' dir_oi f_oi.
Proof.
pose proof ext_n_le as Hle.
destruct Hsep as [T A S B D L I U].
constructor; fold n'.
- now rewrite HE_type.
- rewrite HE_size. rewrite <- Z.add_mod_idemp_l by (consts; lia).
rewrite A. reflexivity.
- rewrite HE_size. exact HE_small.
- intros b Hb. destruct (Z_lt_ge_dec b n) as [Lb | Lb].
+ rewrite ext_file_block by lia.
destruct (B b ltac:(fold n; lia)) as [R M]. split; [exact R |].
intros a Ha Hm. destruct (ext_in_meta a Hm) as [Hm' | (E & w & Hw & Hin)].
* apply (M a Ha). exact Hm'.
* destruct HE_new as [E' | (_ & _ & W & _)]; [lia |].
destruct (W w a Hw Hin) as (_ & Wd).
apply (Wd b); [lia | exact Ha].
+ destruct HE_new as [E | (E & _ & W & R & _ & M)]; [lia |].
assert (b = n) by lia. subst b. split; [exact R |].
intros a Ha Hm. destruct (M a Ha) as [M1 M2].
destruct (ext_in_meta a Hm) as [Hm' | (_ & w & Hw & Hin)].
* now apply M1.
* now apply (M2 w Hw).
- intros b b' Hb Hb' Hne.
destruct (Z_lt_ge_dec b n) as [Lb | Lb];
destruct (Z_lt_ge_dec b' n) as [Lb' | Lb'].
+ rewrite !ext_file_block by lia. apply D; fold n; lia.
+ destruct HE_new as [E | (E & _ & _ & _ & Hd & _)]; [lia |].
assert (b' = n) by lia. subst b'.
rewrite (ext_file_block b) by lia. apply Hd. lia.
+ destruct HE_new as [E | (E & _ & _ & _ & Hd & _)]; [lia |].
assert (b = n) by lia. subst b.
rewrite (ext_file_block b') by lia.
intros C. symmetry in C. revert C. apply Hd. lia.
+ destruct HE_new as [E | (E & _)]; lia.
- intros a Ha. destruct (L a Ha) as (L1 & L2 & L3).
split; [exact L1 |]. split; [exact L2 |].
intros b w Hb Hw Hin.
destruct (Z_lt_ge_dec b n) as [Lb | Lb].
+ rewrite ext_map_words in Hw by lia. apply (L3 b w); fold n; try lia; assumption.
+ destruct HE_new as [E | (E & _ & W & _)]; [lia |].
assert (b = n) by lia. subst b.
destruct (W w a Hw Hin) as (Wn & _).
now apply Wn.
- intros b w Hb Hw.
destruct (Z_lt_ge_dec b n) as [Lb | Lb].
+ rewrite ext_map_words in Hw by lia. apply (I b w); fold n; try lia; assumption.
+ destruct HE_new as [E | (E & W & _)]; [lia |].
assert (b = n) by lia. subst b. exact (W w Hw).
- exact U.
Qed.

Lemma ext_inode ino : ospfs_inode d' ino = ospfs_inode d ino.
Proof.
unfold ospfs_inode, os_ninodes, os_firstinob.
rewrite (load32_agree d d' (ospfs_super + OS_NINODES)),
(load32_agree d d' (ospfs_super + OS_FIRSTINOB)); [reflexivity | |];
intros x Hx; apply HE_super; left;
unfold OS_NINODES, OS_FIRSTINOB in *; lia.
Qed.

Lemma ext_nlink : oi_nlink d' f_oi = oi_nlink d f_oi.
Proof.
unfold oi_nlink. apply load32_agree. intros x Hx. apply HE_super. now right.
Qed.

(** The old entries are where they were and read as before. *)
Lemma ext_entry_old off :
entry_off d dir_oi off ->
entry_off d' dir_oi off
/\ slot d' dir_oi off = slot d dir_oi off
/\ od_ino d' (slot d dir_oi off) = od_ino d (slot d dir_oi off)
/\ forall name : list Z,
 Z.of_nat (length name) <= OSPFS_DIRENTRY_SIZE - 5 ->
 entry_matches d' dir_oi name off = entry_matches d dir_oi name off.
Proof.
intros He. pose proof He as [Ho Ha].
destruct (entry_off_block d dir_oi f_oi Hsep off He) as [Hb _].
destruct (slot_in_block d dir_oi f_oi Hsep off He) as (_ & _ & Lo & Up).
split; [split; [rewrite HE_size; consts; lia | exact Ha] |].
split; [now apply ext_slot |].
split.
- unfold od_ino, OD_INO. apply load32_agree. intros x Hx.
apply (HE_data (off / OSPFS_BLKSIZE) x Hb). consts. lia.
- intros name Hlen. apply entry_matches_agree; [now apply ext_slot |].
intros a Hin.
apply (HE_data (off / OSPFS_BLKSIZE) a Hb).
unfold OD_NAME in *. consts. lia.
Qed.

Lemma ext_entry_new off :
entry_off d' dir_oi off -> entry_off d dir_oi off \/ off = oi_size d dir_oi.
Proof.
intros [Ho Ha]. rewrite HE_size in Ho.
destruct (Z_lt_ge_dec off (oi_size d dir_oi)) as [L | G].
- left. split; [lia | exact Ha].
- right. pose proof (sep_aligned _ _ _ Hsep) as A. consts.
pose proof (Z.div_mod off 128 ltac:(lia)).
pose proof (Z.div_mod (oi_size d dir_oi) 128 ltac:(lia)).
lia.
Qed.

Lemma ext_last_entry : entry_off d' dir_oi (oi_size d dir_oi).
Proof.
split; [rewrite HE_size; pose proof ext_size_range; consts; lia |].
apply (sep_aligned _ _ _ Hsep).
Qed.

(** The grown directory meets the obligations of
[create_blank_direntry], with the new entry at the old size. *)
Lemma extend_post :
blank_post d d' dir_oi f_oi (slot d' dir_oi (oi_size d dir_oi)).
Proof.
exists (oi_size d dir_oi).
split; [exact ext_last_entry |]. split; [reflexivity |].
split; [exact ext_sep |]. split; [exact ext_inode |].
split; [exact ext_nlink |].
split; [| split; [exact ext_entry_new | split]].
- intros off He. exact (ext_entry_old off He).
- intros [Ho _]. lia.
- intros _ off [Ho _]. lia.
Qed.

End Extend.

(** ** What [create_blank_direntry] leaves behind *)

Lemma bitvector_clear_outside (d : image) (vector i a : Z) :
  0 <= i ->
  ~ (vector + 4 * (i / 32) <= a < vector + 4 * (i / 32) + 4) ->
  bitvector_clear d vector i a = d a.
Proof.
  intros Hi Ha. unfold bitvector_clear.
  rewrite Z.quot_div_nonneg by lia. apply store32_outside. lia.
Qed.

Lemma zero_block_outside (d : image) (blk a : Z) :
  ~ (blk <= a < blk + OSPFS_BLKSIZE) -> zero_block d blk a = d a.
Proof.
  intros Ha. unfold zero_block. apply store_bytes_outside.
  rewrite repeat_length. consts. lia.
Qed.

(** The two outcomes of [allocate_block] on a one-block bitmap. *)
Lemma allocate_block_cases (d : image) :
  os_nblocks d <= OSPFS_BLKBITSIZE ->
  allocate_block d = (0, d)
  \/ exists b,
       os_firstinob d <= b < os_nblocks d
       /\ block_is_free d b = true
       /\ allocate_block d = (b, bitvector_clear d freemap0 b).
Proof.
  intros Hn. unfold allocate_block, block_is_free.
  pose proof (load32_range d (ospfs_super + OS_FIRSTINOB)) as Hf.
  fold (os_firstinob d) in Hf.
  destruct (Z_le_gt_dec (os_nblocks d) (os_firstinob d)) as [Hempty | Hsome].
  { left. replace (Z.to_nat (os_nblocks d - os_firstinob d)) with O by lia.
    reflexivity. }
  assert (Hle : os_firstinob d + Z.of_nat (Z.to_nat (os_nblocks d - os_firstinob d))
                <= OSPFS_BLKBITSIZE) by lia.
  destruct (allocate_block_scan_first
              (Z.to_nat (os_nblocks d - os_firstinob d)) d
              freemap0 0 (os_firstinob d) (proj1 Hf) Hle)
    as [(b & Hb & Tb & _ & Hres) | (_ & Hres)].
  - right. exists b. split; [lia |]. now split.
  - now left.
Qed.

(** Handing out a block leaves the superblock as it is. *)
Lemma claim_super (d : image) (b : Z) :
  0 <= b < OSPFS_BLKBITSIZE ->
  os_nblocks (bitvector_clear d freemap0 b) = os_nblocks d
  /\ os_firstinob (bitvector_clear d freemap0 b) = os_firstinob d.
Proof.
  intros Hb. unfold os_nblocks, os_firstinob.
  split; apply load32_agree; intros x Hx;
    (apply bitvector_clear_outside; [lia |]);
    unfold freemap0, ospfs_super, OS_NBLOCKS, OS_FIRSTINOB in *; consts;
    pose proof (Z.div_mod b 32 ltac:(lia));
    pose proof (Z.mod_pos_bound b 32 ltac:(lia)); lia.
Qed.

(** The allocation loop of [add_block] on a one-block bitmap: it gives
    up, or it hands out as many distinct free blocks as were asked for. *)
Lemma allocate_all_cases (k : nat) :
  forall (e : image) (acc : list Z),
    os_nblocks e <= OSPFS_BLKBITSIZE ->
    fst (allocate_all k e acc) = None
    \/ exists bs,
         length bs = k /\ fresh_blocks e bs
         /\ allocate_all k e acc
            = (Some (acc ++ bs),
               fold_left (fun e' b => bitvector_clear e' freemap0 b) bs e).
Proof.
  induction k as [| k IH]; intros e acc Hn.
  - right. exists []. split; [reflexivity |]. split.
    + split; [constructor | intros b []].
    + cbn. now rewrite app_nil_r.
  - cbn [allocate_all].
    destruct (allocate_block_cases e Hn) as [-> | (b & Hb & Hfree & ->)].
    + left. reflexivity.
    + destruct (Z.eqb_spec b 0) as [-> | Hnz]; [left; reflexivity |].
      pose proof (load32_range e (ospfs_super + OS_FIRSTINOB)) as Hf.
      fold (os_firstinob e) in Hf.
      destruct (claim_super e b ltac:(lia)) as [En Ef].
      destruct (IH (bitvector_clear e freemap0 b) (acc ++ [b])
                  ltac:(rewrite En; exact Hn))
        as [Hnone | (bs & Hlen & [Hnd Hin] & Hres)]; [now left |].
      right. exists (b :: bs). split; [cbn; now rewrite Hlen |].
      assert (Hold : forall b', In b' bs ->
                b' <> b /\ b' <> 0 /\ os_firstinob e <= b' < os_nblocks e
                /\ block_is_free e b' = true).
      { intros b' Hb'. destruct (Hin b' Hb') as (Z0 & R & F).
        rewrite En, Ef in R. unfold block_is_free in F.
        rewrite bitvector_test_clear in F by lia.
        apply andb_true_iff in F. destruct F as [F1 F2].
        apply negb_true_iff, Z.eqb_neq in F2. repeat split; try assumption; lia. }
      split; [split |].
      * constructor; [| exact Hnd]. intros C. now destruct (Hold b C).
      * intros b' [<- | Hb']; [repeat split; try assumption; lia |].
        now destruct (Hold b' Hb') as (_ & H).
      * rewrite Hres, <- app_assoc. reflexivity.
Qed.

Lemma claimed_outside (bs : list Z) (d : image) (a : Z) :
  (forall b, In b bs -> 0 <= b < OSPFS_BLKBITSIZE) ->
  ~ (freemap0 <= a < freemap0 + OSPFS_BLKSIZE) ->
  (forall b, In b bs -> ~ (ospfs_block b <= a < ospfs_block b + OSPFS_BLKSIZE)) ->
  claimed d bs a = d a.
Proof.
  intros Hr Hm Hb. unfold claimed.
  assert (Z1 : forall l e, (forall b, In b l -> In b bs) ->
            fold_left (fun e' b => zero_block e' (ospfs_block b)) l e a = e a).
  { induction l as [| b l IH]; intros e Hl; [reflexivity |].
    cbn [fold_left]. rewrite IH by (intros; apply Hl; now right).
    apply zero_block_outside. apply Hb, Hl. now left. }
  assert (C1 : forall l e, (forall b, In b l -> In b bs) ->
            fold_left (fun e' b => bitvector_clear e' freemap0 b) l e a = e a).
  { induction l as [| b l IH]; intros e Hl; [reflexivity |].
    cbn [fold_left]. rewrite IH by (intros; apply Hl; now right).
    specialize (Hr b (Hl b (or_introl eq_refl))).
    apply bitvector_clear_outside; [lia |].
    intros Hin. apply Hm. unfold freemap0 in *. consts.
    pose proof (Z.div_mod b 32 ltac:(lia)).
    pose proof (Z.mod_pos_bound b 32 ltac:(lia)). lia. }
  rewrite Z1 by auto. apply C1. auto.
Qed.

(** Evaluation of the index functions of [add_block]. *)
Ltac idx :=
  unfold indir2_index, indir_index, direct_index;
  repeat match goal with
         | |- context [?a <? ?b] => destruct (Z.ltb_spec a b); try (consts; lia)
         end;
  try reflexivity.

(** The three shapes of [add_block] on a file that has a block already:
    one, two or three new blocks. *)
Lemma add_block_one (e : image) (oi : Z) :
  let k := ospfs_size2nblocks (oi_size e oi) in
  0 < k < 4294967296 -> os_nblocks e <= OSPFS_BLKBITSIZE ->
  indir2_index k = indir2_index (k - 1) ->
  indir_index k = indir_index (k - 1) ->
  fst (add_block e oi) = - ENOSPC
  \/ exists a0,
       fresh_blocks e [a0]
       /\ add_block e oi
          = (0,
             let d2 := claimed e [a0] in
             let d3 :=
               if indir2_index k =? 0 then
                 store32 d2
                   (ospfs_block
                      (word_at d2 (ospfs_block (oi_indirect2 d2 oi)) (indir_index k))
                    + 4 * direct_index k) a0
               else if negb (indir_index k =? -1) then
                 store32 d2 (ospfs_block (oi_indirect d2 oi) + 4 * direct_index k) a0
               else store32 d2 (oi + OI_DIRECT + 4 * direct_index k) a0 in
             set_oi_size d3 oi (oi_size d3 oi + OSPFS_BLKSIZE)).
Proof.
  intros k Hk Hn H2 H1. unfold add_block. fold k.
  destruct (Z.eqb_spec k 0) as [E | _]; [lia |].
  rewrite (u32_small (k - 1)) by lia.
  rewrite <- H2, <- H1, !Z.eqb_refl. cbn [negb].
  destruct (allocate_all_cases 1 e [] Hn) as [Hnone | (bs & Hlen & Hfresh & Hres)].
  - left. destruct (allocate_all 1 e []) as [[l |] e1];
      [cbn in Hnone; discriminate | reflexivity].
  - destruct bs as [| a0 [| ? ?]]; try discriminate.
    right. exists a0. split; [exact Hfresh |]. rewrite Hres. reflexivity.
Qed.

Lemma add_block_two (e : image) (oi : Z) :
  let k := ospfs_size2nblocks (oi_size e oi) in
  0 < k < 4294967296 -> os_nblocks e <= OSPFS_BLKBITSIZE ->
  indir2_index k = indir2_index (k - 1) ->
  indir_index k <> indir_index (k - 1) ->
  fst (add_block e oi) = - ENOSPC
  \/ exists a0 a1,
       fresh_blocks e [a0; a1]
       /\ add_block e oi
          = (0,
             let d2 := claimed e [a0; a1] in
             let d3 :=
               let e1 := store32 d2 (ospfs_block a1) a0 in
               if indir2_index k =? 0 then
                 store32 e1 (ospfs_block (oi_indirect2 e1 oi) + 4 * indir_index k) a1
               else store32 e1 (ospfs_block (oi_indirect e1 oi)) a1 in
             set_oi_size d3 oi (oi_size d3 oi + OSPFS_BLKSIZE)).
Proof.
  intros k Hk Hn H2 H1. unfold add_block. fold k.
  destruct (Z.eqb_spec k 0) as [E | _]; [lia |].
  rewrite (u32_small (k - 1)) by lia.
  rewrite <- H2, Z.eqb_refl.
  destruct (Z.eqb_spec (indir_index k) (indir_index (k - 1))) as [E | _];
    [contradiction |].
  cbn [negb].
  destruct (allocate_all_cases 2 e [] Hn) as [Hnone | (bs & Hlen & Hfresh & Hres)].
  - left. destruct (allocate_all 2 e []) as [[l |] e1];
      [cbn in Hnone; discriminate | reflexivity].
  - destruct bs as [| a0 [| a1 [| ? ?]]]; try discriminate.
    right. exists a0, a1. split; [exact Hfresh |]. rewrite Hres. reflexivity.
Qed.

Lemma add_block_three (e : image) (oi : Z) :
  let k := ospfs_size2nblocks (oi_size e oi) in
  0 < k < 4294967296 -> os_nblocks e <= OSPFS_BLKBITSIZE ->
  indir2_index k <> indir2_index (k - 1) ->
  fst (add_block e oi) = - ENOSPC
  \/ exists a0 a1 a2,
       fresh_blocks e [a0; a1; a2]
       /\ add_block e oi
          = (0,
             let d2 := claimed e [a0; a1; a2] in
             let d3 :=
               let e1 := store32 d2 (oi + OI_INDIRECT2) a2 in
               let e2 := store32 e1 (ospfs_block a2) a1 in
               store32 e2 (ospfs_block a1) a0 in
             set_oi_size d3 oi (oi_size d3 oi + OSPFS_BLKSIZE)).
Proof.
  intros k Hk Hn H2. unfold add_block. fold k.
  destruct (Z.eqb_spec k 0) as [E | _]; [lia |].
  rewrite (u32_small (k - 1)) by lia.
  destruct (Z.eqb_spec (indir2_index k) (indir2_index (k - 1))) as [E | _];
    [contradiction |].
  cbn [negb].
  destruct (allocate_all_cases 3 e [] Hn) as [Hnone | (bs & Hlen & Hfresh & Hres)].
  - left. destruct (allocate_all 3 e []) as [[l |] e1];
      [cbn in Hnone; discriminate | reflexivity].
  - destruct bs as [| a0 [| a1 [| a2 [| ? ?]]]]; try discriminate.
    right. exists a0, a1, a2. split; [exact Hfresh |]. rewrite Hres. reflexivity.
Qed.

(** The block map returns the word it reads last. *)
Lemma file_block_last (e : image) (oi b : Z) :
  0 <= b -> b * OSPFS_BLKSIZE < oi_size e oi ->
  oi_ftype e oi <> OSPFS_FTYPE_SYMLINK ->
  file_block e oi b = load32 e (last (map_words e oi b) 0).
Proof.
  intros Hb Hs Ht. unfold file_block, ospfs_inode_blockno, map_words.
  rewrite Z.div_mul by (consts; lia).
  destruct (Z.geb_spec (b * OSPFS_BLKSIZE) (oi_size e oi)); [lia |].
  destruct (Z.eqb_spec (oi_ftype e oi) OSPFS_FTYPE_SYMLINK); [contradiction |].
  cbn [orb].
  destruct (Z.geb_spec b (OSPFS_NDIRECT + OSPFS_NINDIRECT));
    destruct (Z.geb_spec b OSPFS_NDIRECT);
    destruct (Z.ltb_spec b OSPFS_NDIRECT);
    destruct (Z.ltb_spec b (OSPFS_NDIRECT + OSPFS_NINDIRECT));
    try (consts; lia); reflexivity.
Qed.

(** Block indices past the indirect block, by row [q] and column [r]
    of the doubly indirect block. *)
Lemma indirect2_split (b q r : Z) :
  b = OSPFS_NDIRECT + OSPFS_NINDIRECT + OSPFS_NINDIRECT * q + r ->
  0 <= r < OSPFS_NINDIRECT ->
  (b - (OSPFS_NDIRECT + OSPFS_NINDIRECT)) / OSPFS_NINDIRECT = q
  /\ (b - (OSPFS_NDIRECT + OSPFS_NINDIRECT)) mod OSPFS_NINDIRECT = r.
Proof.
  intros Hb Hr. split; symmetry.
  - apply (Z.div_unique_pos _ _ _ r); [exact Hr | lia].
  - apply (Z.mod_unique_pos _ _ q); [exact Hr | lia].
Qed.

Lemma map_words_indirect2 (e : image) (oi b q r : Z) :
  b = OSPFS_NDIRECT + OSPFS_NINDIRECT + OSPFS_NINDIRECT * q + r ->
  0 <= q -> 0 <= r < OSPFS_NINDIRECT ->
  map_words e oi b
  = [oi + OI_INDIRECT2;
     ospfs_block (oi_indirect2 e oi) + 4 * q;
     ospfs_block (word_at e (ospfs_block (oi_indirect2 e oi)) q) + 4 * r].
Proof.
  intros Hb Hq Hr. destruct (indirect2_split b q r Hb Hr) as [Eq Er].
  unfold map_words.
  destruct (Z.ltb_spec b OSPFS_NDIRECT); [consts; lia |].
  destruct (Z.ltb_spec b (OSPFS_NDIRECT + OSPFS_NINDIRECT)); [consts; lia |].
  cbv zeta. rewrite Eq, Er. reflexivity.
Qed.

Lemma indices_indirect2 (b q r : Z) :
  b = OSPFS_NDIRECT + OSPFS_NINDIRECT + OSPFS_NINDIRECT * q + r ->
  0 <= q < OSPFS_NINDIRECT -> 0 <= r < OSPFS_NINDIRECT ->
  indir2_index b = 0 /\ indir_index b = q /\ direct_index b = r.
Proof.
  intros Hb Hq Hr. destruct (indirect2_split b q r Hb Hr) as [Eq Er].
  split; [idx |]. split.
  - unfold indir_index.
    destruct (Z.ltb_spec b OSPFS_NDIRECT); [consts; lia |].
    destruct (Z.ltb_spec b (OSPFS_NINDIRECT + OSPFS_NDIRECT)); [consts; lia |].
    destruct (Z.ltb_spec b (OSPFS_NINDIRECT * OSPFS_NINDIRECT + OSPFS_NINDIRECT
                            + OSPFS_NDIRECT)); [| consts; lia].
    rewrite (Z.add_comm OSPFS_NINDIRECT OSPFS_NDIRECT). exact Eq.
  - unfold direct_index.
    destruct (Z.ltb_spec b OSPFS_NDIRECT); [consts; lia |].
    destruct (Z.ltb_spec b (OSPFS_NDIRECT + OSPFS_NINDIRECT)); [consts; lia |].
    destruct (Z.ltb_spec b (OSPFS_NDIRECT + OSPFS_NINDIRECT
                            + OSPFS_NINDIRECT * OSPFS_NINDIRECT)); [| consts; lia].
    rewrite <- Z.sub_add_distr. exact Er.
Qed.

(** An entry more in a block that is not full keeps the block count. *)
Lemma same_block_count (s : Z) :
  0 <= s -> s + OSPFS_DIRENTRY_SIZE <= 4294967296 - 2 * OSPFS_BLKSIZE ->
  s mod OSPFS_DIRENTRY_SIZE = 0 -> s mod OSPFS_BLKSIZE <> 0 ->
  ospfs_size2nblocks (s + OSPFS_DIRENTRY_SIZE) = ospfs_size2nblocks s.
Proof.
  intros H0 Hr A Hm. unfold ospfs_size2nblocks.
  rewrite !u32_small by (consts; lia). consts.
  pose proof (Z.div_mod s 1024 ltac:(lia)) as D.
  pose proof (Z.mod_pos_bound s 1024 ltac:(lia)) as B.
  pose proof (Z.div_mod s 128 ltac:(lia)) as D8.
  assert (M : s mod 1024 = 128 * ((s / 128) mod 8)).
  { replace 1024 with (128 * 8) by reflexivity.
    rewrite Z.rem_mul_r by lia. lia. }
  pose proof (Z.mod_pos_bound (s / 128) 8 ltac:(lia)) as B8.
  rewrite <- (Z.div_unique (s + 128 + 1024 - 1) 1024 (s / 1024 + 1)
                (s mod 1024 + 127)) by lia.
  rewrite <- (Z.div_unique (s + 1024 - 1) 1024 (s / 1024 + 1)
                (s mod 1024 - 1)) by lia.
  reflexivity.
Qed.

Section CreateBlank.

Variables (d : image) (dir_oi f_oi : Z).
Hypothesis Hsep : dir_sep d dir_oi f_oi.
Hypothesis Hroom :
oi_size d dir_oi + OSPFS_DIRENTRY_SIZE <= 4294967296 - 2 * OSPFS_BLKSIZE.
Hypothesis Hgrow : dir_full d dir_oi -> can_grow d dir_oi f_oi.

Let size := oi_size d dir_oi.
Let n := ospfs_size2nblocks size.

Lemma cb_size_range :
0 <= size /\ size + OSPFS_DIRENTRY_SIZE <= 4294967296 - 2 * OSPFS_BLKSIZE.
Proof. split; [apply load32_range | exact Hroom]. Qed.

Lemma cb_blockno_nonzero off :
0 <= off < size -> ospfs_inode_blockno d dir_oi off <> 0.
Proof.
intros Ho. rewrite (blockno_file_block d dir_oi off Ho).
assert (Hb : 0 <= off / OSPFS_BLKSIZE < ospfs_size2nblocks (oi_size d dir_oi)).
{ rewrite (sep_nblocks d dir_oi f_oi Hsep). fold size.
split; [apply Z.div_pos; consts; lia |].
apply Z.div_lt_upper_bound; [consts; lia |].
pose proof (Z.div_mod (size + OSPFS_BLKSIZE - 1) OSPFS_BLKSIZE
  ltac:(consts; lia)) as D.
pose proof (Z.mod_pos_bound (size + OSPFS_BLKSIZE - 1) OSPFS_BLKSIZE
  ltac:(consts; lia)) as B.
consts. lia. }
destruct (sep_blocks _ _ _ Hsep _ Hb) as [R _]. lia.
Qed.

Lemma cb_rounds : Z.of_nat (dir_rounds d dir_oi) * OSPFS_DIRENTRY_SIZE = size.
Proof.
unfold dir_rounds. fold size. pose proof cb_size_range as R.
pose proof (sep_aligned _ _ _ Hsep) as A. fold size in A. consts.
pose proof (Z.div_mod size 128 ltac:(lia)) as D.
assert (E : (size + 128 - 1) / 128 = size / 128).
{ symmetry. apply (Z.div_unique _ _ _ 127); lia. }
rewrite E. assert (0 <= size / 128) by (apply Z.div_pos; lia). lia.
Qed.

(** A blank entry that is already there. *)
Lemma cb_found od :
blank_scan (S (dir_rounds d dir_oi)) d dir_oi 0 = inl od ->
blank_post d d dir_oi f_oi od.
Proof.
intros H. pose proof cb_size_range as R.
destruct (blank_scan_inl d dir_oi _ _ _ (Z.le_refl 0)
ltac:(fold size; consts; lia) H) as (i & Hlt & Hod & Hz).
exists (0 + OSPFS_DIRENTRY_SIZE * Z.of_nat i).
pose proof (index_entry_off d dir_oi i Hlt) as He.
split; [exact He |]. split; [exact Hod |]. split; [exact Hsep |].
split; [reflexivity |]. split; [reflexivity |].
split; [| split; [| split]].
- intros off Hoff. repeat split; try apply Hoff; reflexivity.
- intros off Hoff. now left.
- intros _. now rewrite <- Hod.
- intros C. contradiction.
Qed.

(** Without a blank entry the search ends at the size, past taken
entries. *)
Lemma cb_not_found p :
blank_scan (S (dir_rounds d dir_oi)) d dir_oi 0 = inr p ->
p = size
/\ forall off, entry_off d dir_oi off -> od_ino d (slot d dir_oi off) <> 0.
Proof.
intros H. pose proof cb_size_range as R. pose proof cb_rounds as Hr.
pose proof (sep_aligned _ _ _ Hsep) as A. fold size in A.
destruct (blank_scan_inr d dir_oi _ _ _ (Z.le_refl 0)
ltac:(fold size; consts; lia) H) as (i & Hp & Hi & Hnz & Hz).
assert (Hbelow : forall j : nat, (j < i)%nat ->
     0 + OSPFS_DIRENTRY_SIZE * Z.of_nat j < size).
{ intros j Hj. destruct (Hnz j Hj) as [B _].
unfold ospfs_inode_blockno in B. fold size in B.
destruct (Z.geb_spec (0 + OSPFS_DIRENTRY_SIZE * Z.of_nat j) size);
[now contradiction B | assumption]. }
assert (Hi' : (i <= dir_rounds d dir_oi)%nat).
{ destruct (Nat.le_gt_cases i (dir_rounds d dir_oi)) as [L | L]; [exact L |].
specialize (Hbelow (dir_rounds d dir_oi) L). consts. lia. }
assert (Hge : size <= p).
{ destruct (Z_le_gt_dec size p) as [L | L]; [exact L |].
exfalso. apply (cb_blockno_nonzero p); [consts; lia |].
apply Hz. lia. }
assert (Hp_eq : p = size) by (consts; lia).
split; [exact Hp_eq |].
intros off He. destruct (entry_off_index d dir_oi A off He) as (j & Ej & Hj).
rewrite Ej. apply Hnz.
assert (Z.of_nat i * OSPFS_DIRENTRY_SIZE = size) by (consts; lia).
consts. nia.
Qed.

(** The last block has room: only the size changes. *)
Lemma cb_same_block :
size mod OSPFS_BLKSIZE <> 0 ->
blank_post d (set_oi_size d dir_oi (size + OSPFS_DIRENTRY_SIZE)) dir_oi f_oi
(slot (set_oi_size d dir_oi (size + OSPFS_DIRENTRY_SIZE)) dir_oi size).
Proof.
intros Hm. pose proof cb_size_range as R.
pose proof (sep_aligned _ _ _ Hsep) as A. fold size in A.
set (d1 := set_oi_size d dir_oi (size + OSPFS_DIRENTRY_SIZE)).
assert (Hout : forall a, ~ (dir_oi <= a < dir_oi + 4) -> d1 a = d a).
{ intros a Ha. subst d1. unfold set_oi_size, OI_SIZE.
apply store32_outside. lia. }
assert (Hsz : oi_size d1 dir_oi = size + OSPFS_DIRENTRY_SIZE).
{ subst d1. unfold oi_size at 1, set_oi_size.
rewrite load32_store32_same.
rewrite !(u32_small (size + OSPFS_DIRENTRY_SIZE)) by (consts; lia).
reflexivity. }
apply extend_post; [exact Hsep | | | | | exact Hsz | |].
- unfold oi_ftype, OI_FTYPE. apply load32_agree. intros x Hx.
apply Hout. lia.
- intros b w x Hb Hw Hx. apply Hout.
destruct (map_word_place d dir_oi f_oi Hsep b w Hb Hw) as [I | I];
unfold OI_DIRECT in *; consts; lia.
- intros x [Hx | Hx]; apply Hout.
+ destruct (sep_super _ _ _ Hsep);
unfold OS_NINODES, OS_FIRSTINOB in *; consts; lia.
+ destruct (sep_nlink _ _ _ Hsep x Hx) as (_ & N & _). consts. lia.
- intros b x Hb Hx. apply Hout. intros Hin.
destruct (sep_blocks _ _ _ Hsep b Hb) as [_ M].
apply (M x Hx). right; left. consts. lia.
- fold size. consts. lia.
- left. rewrite Hsz. apply same_block_count; try assumption; apply R.
Qed.


Section NewBlock.

(** The directory is full: the next entry needs a block. *)
Hypothesis Hfull : dir_full d dir_oi.
Hypothesis Hpos : 0 < size.

Lemma nb_grow : can_grow d dir_oi f_oi.
Proof. exact (Hgrow Hfull). Qed.

Lemma nb_n : size = n * OSPFS_BLKSIZE /\ 0 < n < 65802.
Proof.
pose proof cb_size_range as R. destruct Hfull as [M _]. fold size in M.
pose proof (grow_max _ _ _ nb_grow) as Dn. fold size n in Dn.
assert (E : n = (size + OSPFS_BLKSIZE - 1) / OSPFS_BLKSIZE)
by apply (sep_nblocks d dir_oi f_oi Hsep).
consts.
pose proof (Z.div_mod size 1024 ltac:(lia)) as D.
assert (E' : (size + 1024 - 1) / 1024 = size / 1024).
{ symmetry. apply (Z.div_unique _ _ _ 1023); lia. }
lia.
Qed.

Lemma nb_n1 : ospfs_size2nblocks (size + OSPFS_DIRENTRY_SIZE) = n + 1.
Proof.
pose proof cb_size_range as R. destruct nb_n as [En Rn].
rewrite size2nblocks_ceil by (consts; lia). rewrite En. consts.
symmetry. apply (Z.div_unique _ _ _ 127); lia.
Qed.

Lemma nb_free b :
os_firstinob d <= b < os_nblocks d -> block_is_free d b = true ->
(OSPFS_FREEMAP_BLK < b < 8192 /\ ospfs_block b = b * OSPFS_BLKSIZE)
/\ (forall a, ospfs_block b <= a < ospfs_block b + OSPFS_BLKSIZE ->
~ in_meta d dir_oi f_oi n a)
/\ forall b', 0 <= b' < n ->
 forall a, ospfs_block (file_block d dir_oi b') <= a
 < ospfs_block (file_block d dir_oi b') + OSPFS_BLKSIZE ->
 ~ (ospfs_block b <= a < ospfs_block b + OSPFS_BLKSIZE).
Proof.
intros Hb Hfree.
destruct (grow_free _ _ _ nb_grow b Hb Hfree) as (L & M & Dd).
pose proof (grow_bitmap _ _ _ nb_grow) as U.
assert (Rb : OSPFS_FREEMAP_BLK < b < 8192) by (consts; lia).
assert (Eb : ospfs_block b = b * OSPFS_BLKSIZE)
by (apply block_no_wrap; consts; lia).
split; [now split |]. split; [exact M |].
intros b' Hb' a Ha. fold size n in Dd. specialize (Dd b' Hb').
destruct (sep_blocks _ _ _ Hsep b' Hb') as [Rf _].
rewrite block_no_wrap in Ha by lia. rewrite Eb. consts. lia.
Qed.

(** The bitmap block holds none of the bytes of [in_meta] and none of
the directory's entries. *)
Lemma nb_map a :
freemap0 <= a < freemap0 + OSPFS_BLKSIZE ->
~ in_meta d dir_oi f_oi n a
/\ forall b', 0 <= b' < n ->
 ~ (ospfs_block (file_block d dir_oi b') <= a
< ospfs_block (file_block d dir_oi b') + OSPFS_BLKSIZE).
Proof.
intros Ha. destruct (grow_map _ _ _ nb_grow a Ha) as [M Dm].
split; [exact M |]. intros b' Hb'. fold size n in Dm. specialize (Dm b' Hb').
destruct (sep_blocks _ _ _ Hsep b' Hb') as [Rf _].
rewrite block_no_wrap by lia. unfold freemap0 in *. consts. lia.
Qed.

Section Grown.

(** [bs] are the blocks handed out, [lw] is the word outside them that
  is set, and [d3] is the image before the size is written. *)
Variables (bs : list Z) (lw : Z) (d3 : image).

Let d4 := set_oi_size d3 dir_oi (oi_size d3 dir_oi + OSPFS_BLKSIZE).
Let d1 := set_oi_size d4 dir_oi (size + OSPFS_DIRENTRY_SIZE).

Hypothesis Hbs :
forall b, In b bs -> os_firstinob d <= b < os_nblocks d /\ block_is_free d b = true.
Hypothesis Hout3 :
forall a, ~ (freemap0 <= a < freemap0 + OSPFS_BLKSIZE) ->
  (forall b, In b bs -> ~ (ospfs_block b <= a < ospfs_block b + OSPFS_BLKSIZE)) ->
  ~ (lw <= a < lw + 4) -> d3 a = d a.
Hypothesis Hlw : inode_word_new d dir_oi lw \/ In lw (next_words d dir_oi n).
Hypothesis Hwords :
forall w, In w (tl (map_words d1 dir_oi n)) ->
  (exists b, 0 <= b < n /\ In w (tl (map_words d dir_oi b)))
  \/ (w = lw /\ In lw (next_words d dir_oi n))
  \/ exists b, In b bs /\ b <> file_block d1 dir_oi n
   /\ ospfs_block b <= w /\ w + 4 <= ospfs_block b + OSPFS_BLKSIZE.
Hypothesis Hnb : In (file_block d1 dir_oi n) bs.

(** Where the word [lw] is not. *)
Lemma nb_lw x :
lw <= x < lw + 4 ->
~ (dir_oi <= x < dir_oi + OI_DIRECT)
/\ ~ (ospfs_super + OS_NINODES <= x < ospfs_super + OS_FIRSTINOB + 4)
/\ ~ (f_oi + OI_NLINK <= x < f_oi + OI_NLINK + 4)
/\ (forall b w, 0 <= b < n -> In w (map_words d dir_oi b) -> ~ (w <= x < w + 4))
/\ (forall b, 0 <= b < n ->
  ~ (ospfs_block (file_block d dir_oi b) <= x
 < ospfs_block (file_block d dir_oi b) + OSPFS_BLKSIZE))
/\ forall b, os_firstinob d <= b < os_nblocks d -> block_is_free d b = true ->
 ~ (ospfs_block b <= x < ospfs_block b + OSPFS_BLKSIZE).
Proof.
intros Hx. destruct Hlw as [(L1 & L2 & L3) | Hnext].
- fold size n in L3.
  assert (Hm : in_meta d dir_oi f_oi n x)
by (right; left; unfold OI_DIRECT in *; consts; lia).
  split; [unfold OI_DIRECT in *; lia |].
  split.
  { destruct (sep_super _ _ _ Hsep);
  unfold OS_NINODES, OS_FIRSTINOB, OI_DIRECT in *; consts; lia. }
  split.
  { intros C. destruct (sep_nlink _ _ _ Hsep x C) as (_ & N & _).
apply N. unfold OI_DIRECT in *; consts; lia. }
  split; [intros b w Hb Hw; specialize (L3 b w Hb Hw); lia |].
  split.
  + intros b Hb C. destruct (sep_blocks _ _ _ Hsep b Hb) as [_ M].
now apply (M x C).
  + intros b Hb Hfree C. destruct (nb_free b Hb Hfree) as (_ & M & _).
now apply (M x C).
- destruct (grow_next _ _ _ nb_grow lw x Hnext Hx) as (M & Dn & Fn).
  fold size n in M, Dn.
  split; [intros C; apply M; right; left; unfold OI_DIRECT in *; consts; lia |].
  split; [intros C; apply M; now left |].
  split; [intros C; apply M; right; right; now left |].
  split; [| split; [exact Dn | exact Fn]].
  intros b w Hb Hw C. apply M. right; right; right. now exists b, w.
Qed.

Lemma nb_lw_index :
(dir_oi + OI_DIRECT <= lw /\ lw + 4 <= dir_oi + OSPFS_INODESIZE)
\/ lw + 4 <= dir_oi \/ dir_oi + OSPFS_INODESIZE <= lw.
Proof.
destruct Hlw as [(L1 & L2 & _) | Hnext]; [left; now split | right].
destruct (grow_next _ _ _ nb_grow lw lw Hnext ltac:(lia)) as (M0 & _).
destruct (grow_next _ _ _ nb_grow lw (lw + 3) Hnext ltac:(lia)) as (M3 & _).
fold size n in M0, M3.
assert (~ (dir_oi <= lw < dir_oi + OSPFS_INODESIZE))
  by (intros C; apply M0; right; now left).
assert (~ (dir_oi <= lw + 3 < dir_oi + OSPFS_INODESIZE))
  by (intros C; apply M3; right; now left).
consts. lia.
Qed.

(** Bytes of [in_meta] outside the word [lw] are as before. *)
Lemma nb_meta3 a :
in_meta d dir_oi f_oi n a -> ~ (lw <= a < lw + 4) -> d3 a = d a.
Proof.
intros Hm Hl. apply Hout3; [| | exact Hl].
- intros C. destruct (nb_map a C) as [M _]. now apply M.
- intros b Hb C. destruct (Hbs b Hb) as [Rb Fb].
  destruct (nb_free b Rb Fb) as (_ & M & _). now apply (M a C).
Qed.

Lemma nb_word3 w :
(forall x, w <= x < w + 4 ->
   in_meta d dir_oi f_oi n x /\ ~ (lw <= x < lw + 4)) ->
load32 d3 w = load32 d w.
Proof.
intros H. apply load32_agree. intros x Hx.
destruct (H x Hx) as [Hm Hl]. now apply nb_meta3.
Qed.

Lemma nb_size3 : oi_size d3 dir_oi = size.
Proof.
unfold size, oi_size, OI_SIZE. apply nb_word3. intros x Hx.
split; [right; left; consts; lia |].
intros C. destruct (nb_lw x C) as (H & _). unfold OI_DIRECT in *. lia.
Qed.

Lemma nb_outside1 a : ~ (dir_oi <= a < dir_oi + 4) -> d1 a = d3 a.
Proof.
intros H. subst d1 d4. unfold set_oi_size, OI_SIZE.
rewrite !store32_outside by lia. reflexivity.
Qed.

Lemma nb_size1 : oi_size d1 dir_oi = size + OSPFS_DIRENTRY_SIZE.
Proof.
pose proof cb_size_range as R.
subst d1. unfold oi_size at 1, set_oi_size.
rewrite load32_store32_same.
rewrite !(u32_small (size + OSPFS_DIRENTRY_SIZE)) by (consts; lia).
reflexivity.
Qed.

(** The bytes the directory reads that are as before. *)
Lemma nb_kept a :
in_meta d dir_oi f_oi n a
\/ (exists b, 0 <= b < n
  /\ ospfs_block (file_block d dir_oi b) <= a
 < ospfs_block (file_block d dir_oi b) + OSPFS_BLKSIZE) ->
~ (dir_oi <= a < dir_oi + 4) -> ~ (lw <= a < lw + 4) ->
d1 a = d a.
Proof.
intros H Hs Hl. rewrite nb_outside1 by exact Hs.
destruct H as [Hm | (b & Hb & Ha)]; [now apply nb_meta3 |].
apply Hout3; [| | exact Hl].
- intros C. destruct (nb_map a C) as [_ M]. now apply (M b Hb).
- intros b' Hb' C. destruct (Hbs b' Hb') as [Rb Fb].
  destruct (nb_free b' Rb Fb) as (_ & _ & M). now apply (M b Hb a Ha).
Qed.

Lemma nb_ftype1 : oi_ftype d1 dir_oi = oi_ftype d dir_oi.
Proof.
unfold oi_ftype, OI_FTYPE. apply load32_agree. intros x Hx.
apply nb_kept; [left; right; left; consts; lia | lia |].
intros C. destruct (nb_lw x C) as (H & _). unfold OI_DIRECT in *. lia.
Qed.

Lemma nb_read1 w :
w + 4 <= dir_oi \/ dir_oi + 4 <= w -> load32 d1 w = load32 d3 w.
Proof. intros H. apply load32_agree. intros x Hx. apply nb_outside1. lia. Qed.

(** A word of [in_meta] that is neither the size nor [lw] reads as
  before. *)
Lemma nb_read_meta w :
(forall x, w <= x < w + 4 -> in_meta d dir_oi f_oi n x) ->
w + 4 <= dir_oi \/ dir_oi + 4 <= w ->
w + 4 <= lw \/ lw + 4 <= w ->
load32 d1 w = load32 d w.
Proof.
intros Hm Hs Hl. rewrite nb_read1 by exact Hs.
apply nb_word3. intros x Hx. split; [now apply Hm | lia].
Qed.

(** The new block is the one named by the last word of the map. *)
Lemma nb_new_block w :
last (map_words d1 dir_oi n) 0 = w ->
w + 4 <= dir_oi \/ dir_oi + 4 <= w ->
file_block d1 dir_oi n = load32 d3 w.
Proof.
intros Hl Hw. pose proof cb_size_range as R. destruct nb_n as [En Rn].
rewrite file_block_last.
- rewrite Hl. now apply nb_read1.
- lia.
- rewrite nb_size1, En. consts. lia.
- rewrite nb_ftype1. apply (sep_type _ _ _ Hsep).
Qed.

(** The image after [change_size] has added the block. *)
Lemma nb_post :
blank_post d d1 dir_oi f_oi (slot d1 dir_oi size).
Proof.
pose proof cb_size_range as R. destruct nb_n as [En Rn].
apply extend_post; [exact Hsep | | | | | | |].
- unfold oi_ftype, OI_FTYPE. apply load32_agree. intros x Hx.
  apply nb_kept; [left; right; left; consts; lia | lia |].
  intros C. destruct (nb_lw x C) as (H & _). unfold OI_DIRECT in *. lia.
- intros b w x Hb Hw Hx. fold size n in Hb.
  apply nb_kept.
  + left. right; right; right. now exists b, w.
  + destruct (map_word_place d dir_oi f_oi Hsep b w Hb Hw) as [I | I];
  unfold OI_DIRECT in *; consts; lia.
  + intros C. destruct (nb_lw x C) as (_ & _ & _ & H & _).
now apply (H b w Hb Hw).
- intros x Hx. apply nb_kept.
  + left. destruct Hx as [Hx | Hx]; [now left | right; right; now left].
  + destruct Hx as [Hx | Hx].
* destruct (sep_super _ _ _ Hsep);
unfold OS_NINODES, OS_FIRSTINOB in *; consts; lia.
* destruct (sep_nlink _ _ _ Hsep x Hx) as (_ & N & _). consts; lia.
  + intros C. destruct (nb_lw x C) as (_ & H1 & H2 & _).
destruct Hx; contradiction.
- intros b x Hb Hx. fold size n in Hb. apply nb_kept.
  + right. now exists b.
  + intros C. destruct (sep_blocks _ _ _ Hsep b Hb) as [_ M].
apply (M x Hx). right; left. consts. lia.
  + intros C. destruct (nb_lw x C) as (_ & _ & _ & _ & H & _).
now apply (H b Hb).
- exact nb_size1.
- fold size. consts. lia.
- right. fold size n. rewrite nb_size1. split; [exact nb_n1 |].
  destruct (Hbs _ Hnb) as [Rnb Fnb].
  destruct (nb_free _ Rnb Fnb) as ((Rb & Eb) & Mnb & Dnb).
  assert (Hfree_out : forall b w, In b bs ->
ospfs_block b <= w -> w + 4 <= ospfs_block b + OSPFS_BLKSIZE ->
w + 4 <= dir_oi \/ dir_oi + OSPFS_INODESIZE <= w).
  { intros b w Hb Lo Up. destruct (Hbs b Hb) as [Rb' Fb'].
destruct (nb_free b Rb' Fb') as (_ & M & _).
assert (~ (dir_oi <= w < dir_oi + OSPFS_INODESIZE))
  by (intros C; apply (M w); [lia | right; now left]).
assert (~ (dir_oi <= w + 3 < dir_oi + OSPFS_INODESIZE))
  by (intros C; apply (M (w + 3)); [lia | right; now left]).
consts. lia. }
  assert (Hall : forall w, In w (map_words d1 dir_oi n) ->
(dir_oi + OI_DIRECT <= w /\ w + 4 <= dir_oi + OSPFS_INODESIZE)
\/ (exists b, 0 <= b < n /\ In w (map_words d dir_oi b))
\/ (w = lw /\ In lw (next_words d dir_oi n))
\/ exists b, In b bs /\ b <> file_block d1 dir_oi n
 /\ ospfs_block b <= w /\ w + 4 <= ospfs_block b + OSPFS_BLKSIZE).
  { intros w Hw.
destruct (map_words_hd d1 dir_oi n w ltac:(lia) Hw) as [I | T]; [now left |].
right. destruct (Hwords w T) as [(b & Hb & Hwb) | [H | H]]; auto.
left. exists b. split; [exact Hb |].
destruct (map_words d dir_oi b); [destruct Hwb | now right]. }
  split; [| split; [| split; [consts; lia | split]]].
  + intros w Hw.
destruct (Hwords w Hw) as [(b & Hb & Hwb) | [[-> Hn] | (b & Hb & _ & Lo & Up)]].
* exact (sep_index _ _ _ Hsep b w Hb Hwb).
* destruct nb_lw_index as [[I1 I2] | I]; [| exact I].
  exfalso.
  destruct (grow_next _ _ _ nb_grow lw lw Hn ltac:(lia)) as (M0 & _).
  apply M0. right; left. unfold OI_DIRECT in *. consts. lia.
* now apply (Hfree_out b).
  + intros w x Hw Hx.
destruct (Hall w Hw) as [I | [(b & Hb & Hwb) | [[-> _] | (b & Hb & _ & Lo & Up)]]].
* split.
  -- intros C. destruct (sep_nlink _ _ _ Hsep x C) as (_ & N & _).
 apply N. unfold OI_DIRECT in *. consts. lia.
  -- intros b Hb C. destruct (sep_blocks _ _ _ Hsep b Hb) as [_ M].
 apply (M x C). right; left. unfold OI_DIRECT in *. consts. lia.
* split.
  -- intros C. destruct (sep_nlink _ _ _ Hsep x C) as (_ & _ & N).
 now apply (N b w Hb Hwb).
  -- intros b' Hb' C. destruct (sep_blocks _ _ _ Hsep b' Hb') as [_ M].
 apply (M x C). right; right; right. now exists b, w.
* destruct (nb_lw x Hx) as (_ & _ & H2 & _ & H4 & _).
  split; [exact H2 | exact H4].
* destruct (Hbs b Hb) as [Rb' Fb'].
  destruct (nb_free b Rb' Fb') as (_ & M & Dd).
  split.
  -- intros C. apply (M x); [lia | right; right; now left].
  -- intros b' Hb' C. apply (Dd b' Hb' x C). lia.
  + intros b Hb C. destruct (grow_free _ _ _ nb_grow _ Rnb Fnb) as (_ & _ & Dd).
fold size n in Dd. now apply (Dd b Hb).
  + intros a Ha. split; [now apply Mnb |].
intros w Hw Hin.
destruct (Hall w Hw) as [I | [(b & Hb & Hwb) | [[-> _] | (b & Hb & Hne & Lo & Up)]]].
* apply (Mnb a Ha). right; left. unfold OI_DIRECT in *. consts. lia.
* apply (Mnb a Ha). right; right; right. now exists b, w.
* destruct (nb_lw a Hin) as (_ & _ & _ & _ & _ & H). now apply (H _ Rnb Fnb).
* destruct (Hbs b Hb) as [Rb' Fb'].
  destruct (nb_free b Rb' Fb') as ((Rb2 & Eb2) & _).
  rewrite Eb2 in Lo, Up. rewrite Eb in Ha. consts. lia.
Qed.

(** [change_size] produces that image. *)
Lemma nb_change_size :
add_block d dir_oi = (0, d4) ->
change_size d dir_oi (size + OSPFS_DIRENTRY_SIZE) = Some (0, d1).
Proof.
intros Hadd. pose proof cb_size_range as R. destruct nb_n as [En Rn].
pose proof nb_n1 as N1.
assert (S4 : oi_size d4 dir_oi = size + OSPFS_BLKSIZE).
{ subst d4. unfold oi_size at 1, set_oi_size.
  rewrite load32_store32_same, nb_size3.
  rewrite !(u32_small (size + OSPFS_BLKSIZE)) by (consts; lia).
  reflexivity. }
assert (N4 : ospfs_size2nblocks (oi_size d4 dir_oi) = n + 1).
{ rewrite S4, size2nblocks_ceil by (consts; lia). rewrite En. consts.
  symmetry. apply (Z.div_unique _ _ _ 1023); lia. }
unfold change_size. fold size n. rewrite N1.
replace (Z.to_nat (Z.abs (n + 1 - n))) with 1%nat by lia.
cbn [change_size_grow]. fold size n. rewrite N1.
destruct (Z.ltb_spec n (n + 1)); [| lia].
rewrite Hadd. cbn [Z.ltb Z.compare]. rewrite N4, Z.ltb_irrefl.
cbn [change_size_shrink]. rewrite ?N4, ?N1, ?Z.gtb_ltb, ?Z.ltb_irrefl.
reflexivity.
Qed.

(** Both together, as [create_blank_direntry] uses them. *)
Lemma nb_grown :
add_block d dir_oi = (0, d4) ->
exists e,
  change_size d dir_oi (size + OSPFS_DIRENTRY_SIZE) = Some (0, e)
  /\ blank_post d e dir_oi f_oi (slot e dir_oi size).
Proof.
intros Hadd. exists d1. split; [now apply nb_change_size | exact nb_post].
Qed.

End Grown.

(** What the allocator hands out is small and apart from what the
  directory reads; handing it out and zeroing it changes the bitmap
  and the new blocks only. *)
Lemma nb_fresh bs :
fresh_blocks d bs ->
(forall b, In b bs ->
   os_firstinob d <= b < os_nblocks d /\ block_is_free d b = true)
/\ (forall b, In b bs ->
      0 <= b < 4294967296 /\ ospfs_block b = b * OSPFS_BLKSIZE)
/\ (forall a, ~ (freemap0 <= a < freemap0 + OSPFS_BLKSIZE) ->
      (forall b, In b bs ->
         ~ (ospfs_block b <= a < ospfs_block b + OSPFS_BLKSIZE)) ->
      claimed d bs a = d a)
/\ forall a, in_meta d dir_oi f_oi n a -> claimed d bs a = d a.
Proof.
intros [_ H].
assert (Hbs : forall b, In b bs ->
          os_firstinob d <= b < os_nblocks d /\ block_is_free d b = true).
{ intros b Hb. now destruct (H b Hb) as (_ & R & F). }
assert (Hr : forall b, In b bs -> 0 <= b < OSPFS_BLKBITSIZE).
{ intros b Hb. destruct (Hbs b Hb) as [R F].
  destruct (nb_free b R F) as ((Rb & _) & _). consts. lia. }
assert (Hc : forall a, ~ (freemap0 <= a < freemap0 + OSPFS_BLKSIZE) ->
          (forall b, In b bs ->
             ~ (ospfs_block b <= a < ospfs_block b + OSPFS_BLKSIZE)) ->
          claimed d bs a = d a).
{ intros a Hm Hb. now apply claimed_outside. }
split; [exact Hbs |]. split; [| split; [exact Hc |]].
- intros b Hb. destruct (Hbs b Hb) as [R F].
  destruct (nb_free b R F) as ((Rb & Eb) & _). split; [consts; lia | exact Eb].
- intros a Hm. apply Hc.
  + intros C. destruct (nb_map a C) as [M _]. now apply M.
  + intros b Hb C. destruct (Hbs b Hb) as [Rb Fb].
    destruct (nb_free b Rb Fb) as (_ & M & _). now apply (M a C).
Qed.

(** A word of [in_meta] is apart from a free block. *)
Lemma nb_free_word b w :
os_firstinob d <= b < os_nblocks d -> block_is_free d b = true ->
(forall x, w <= x < w + 4 -> in_meta d dir_oi f_oi n x) ->
w + 4 <= ospfs_block b \/ ospfs_block b + OSPFS_BLKSIZE <= w.
Proof.
intros Rb Fb Hm. destruct (nb_free b Rb Fb) as (_ & M & _).
assert (~ (ospfs_block b <= w < ospfs_block b + OSPFS_BLKSIZE))
  by (intros C; apply (M w C); apply Hm; lia).
assert (~ (ospfs_block b <= w + 3 < ospfs_block b + OSPFS_BLKSIZE))
  by (intros C; apply (M (w + 3) C); apply Hm; lia).
consts. lia.
Qed.

(** The word of [next_words] lies outside the inode, apart from the
  words of the old block map and apart from the free blocks. *)
Lemma nb_next_out lw :
In lw (next_words d dir_oi n) ->
lw + 4 <= dir_oi \/ dir_oi + OSPFS_INODESIZE <= lw.
Proof.
intros Hnext.
destruct (grow_next _ _ _ nb_grow lw lw Hnext ltac:(lia)) as (M0 & _).
destruct (grow_next _ _ _ nb_grow lw (lw + 3) Hnext ltac:(lia)) as (M3 & _).
fold size n in M0, M3.
assert (~ (dir_oi <= lw < dir_oi + OSPFS_INODESIZE))
  by (intros C; apply M0; right; now left).
assert (~ (dir_oi <= lw + 3 < dir_oi + OSPFS_INODESIZE))
  by (intros C; apply M3; right; now left).
consts. lia.
Qed.

Lemma nb_next_apart lw b w :
In lw (next_words d dir_oi n) -> 0 <= b < n -> In w (map_words d dir_oi b) ->
w + 4 <= lw \/ lw + 4 <= w.
Proof.
intros Hnext Hb Hw.
destruct (grow_next _ _ _ nb_grow lw lw Hnext ltac:(lia)) as (M0 & _).
destruct (grow_next _ _ _ nb_grow lw (lw + 3) Hnext ltac:(lia)) as (M3 & _).
fold size n in M0, M3.
assert (~ (w <= lw < w + 4))
  by (intros C; apply M0; right; right; right; now exists b, w).
assert (~ (w <= lw + 3 < w + 4))
  by (intros C; apply M3; right; right; right; now exists b, w).
lia.
Qed.

Lemma nb_next_free lw b :
In lw (next_words d dir_oi n) ->
os_firstinob d <= b < os_nblocks d -> block_is_free d b = true ->
lw + 4 <= ospfs_block b \/ ospfs_block b + OSPFS_BLKSIZE <= lw.
Proof.
intros Hnext Rb Fb.
destruct (grow_next _ _ _ nb_grow lw lw Hnext ltac:(lia)) as (_ & _ & F0).
destruct (grow_next _ _ _ nb_grow lw (lw + 3) Hnext ltac:(lia)) as (_ & _ & F3).
specialize (F0 b Rb Fb). specialize (F3 b Rb Fb). consts. lia.
Qed.

(** The new pointer goes into the inode. *)
Lemma nb_tier_direct :
n < OSPFS_NDIRECT ->
fst (add_block d dir_oi) = - ENOSPC
\/ exists e,
     change_size d dir_oi (size + OSPFS_DIRENTRY_SIZE) = Some (0, e)
     /\ blank_post d e dir_oi f_oi (slot e dir_oi size).
Proof.
intros Hlt. destruct nb_n as [En Rn].
pose proof (grow_bitmap _ _ _ nb_grow) as Hbm.
assert (I2 : indir2_index n = -1 /\ indir2_index (n - 1) = -1) by (split; idx).
assert (I1 : indir_index n = -1 /\ indir_index (n - 1) = -1) by (split; idx).
assert (D : direct_index n = n) by idx.
destruct (add_block_one d dir_oi ltac:(fold size n; lia) Hbm)
  as [Hfail | (a0 & Hfresh & Hadd)].
{ fold size n. destruct I2 as [-> ->]. reflexivity. }
{ fold size n. destruct I1 as [-> ->]. reflexivity. }
{ now left. }
right. destruct (nb_fresh _ Hfresh) as (Hbs & Hr & Hc & Hcm).
destruct (Hr a0 (or_introl eq_refl)) as [R0 _].
fold size n in Hadd. destruct I2 as [I2 _]. destruct I1 as [I1 _].
rewrite I2, I1, D in Hadd.
change (-1 =? 0) with false in Hadd. change (-1 =? -1) with true in Hadd.
cbn [negb] in Hadd. cbv zeta in Hadd.
remember (claimed d [a0]) as d2 eqn:Ed2. clear Ed2.
remember (dir_oi + OI_DIRECT + 4 * n) as lw eqn:Elw.
remember (store32 d2 lw a0) as d3 eqn:Ed3.
assert (Hout3 : forall a, ~ (freemap0 <= a < freemap0 + OSPFS_BLKSIZE) ->
          (forall b, In b [a0] ->
             ~ (ospfs_block b <= a < ospfs_block b + OSPFS_BLKSIZE)) ->
          ~ (lw <= a < lw + 4) -> d3 a = d a).
{ intros a Hm Hb Hl. subst d3. rewrite store32_outside by lia. now apply Hc. }
assert (Hlw : inode_word_new d dir_oi lw
              \/ In lw (next_words d dir_oi n)).
{ left. subst lw. unfold inode_word_new. fold size n.
  split; [lia |]. split; [unfold OI_DIRECT; consts; lia |].
  intros b w Hb Hw. unfold map_words in Hw.
  destruct (Z.ltb_spec b OSPFS_NDIRECT); [| lia].
  destruct Hw as [<- | []]. lia. }
assert (Hmw : map_words (set_oi_size
                (set_oi_size d3 dir_oi (oi_size d3 dir_oi + OSPFS_BLKSIZE))
                dir_oi (size + OSPFS_DIRENTRY_SIZE)) dir_oi n = [lw]).
{ unfold map_words. destruct (Z.ltb_spec n OSPFS_NDIRECT); [| lia].
  now rewrite Elw. }
apply (nb_grown [a0] lw d3 Hbs Hout3 Hlw).
- rewrite Hmw. intros w [].
- rewrite (nb_new_block [a0] lw d3 Hbs Hout3 Hlw lw);
    [| now rewrite Hmw | subst lw; unfold OI_DIRECT; lia].
  subst d3. rewrite load32_store32_same, u32_small by lia. now left.
- exact Hadd.
Qed.

(** The new pointer goes into the indirect block. *)
Lemma nb_tier_indirect :
OSPFS_NDIRECT < n < OSPFS_NDIRECT + OSPFS_NINDIRECT ->
fst (add_block d dir_oi) = - ENOSPC
\/ exists e,
     change_size d dir_oi (size + OSPFS_DIRENTRY_SIZE) = Some (0, e)
     /\ blank_post d e dir_oi f_oi (slot e dir_oi size).
Proof.
intros Hlt. destruct nb_n as [En Rn].
pose proof (grow_bitmap _ _ _ nb_grow) as Hbm.
assert (I2 : indir2_index n = -1 /\ indir2_index (n - 1) = -1) by (split; idx).
assert (I1 : indir_index n = 0 /\ indir_index (n - 1) = 0) by (split; idx).
assert (D : direct_index n = n - OSPFS_NDIRECT) by idx.
destruct (add_block_one d dir_oi ltac:(fold size n; lia) Hbm)
  as [Hfail | (a0 & Hfresh & Hadd)].
{ fold size n. destruct I2 as [-> ->]. reflexivity. }
{ fold size n. destruct I1 as [-> ->]. reflexivity. }
{ now left. }
right. destruct (nb_fresh _ Hfresh) as (Hbs & Hr & Hc & Hcm).
destruct (Hr a0 (or_introl eq_refl)) as [R0 _].
fold size n in Hadd. destruct I2 as [I2 _]. destruct I1 as [I1 _].
rewrite I2, I1, D in Hadd.
change (-1 =? 0) with false in Hadd. change (0 =? -1) with false in Hadd.
cbn [negb] in Hadd. cbv zeta in Hadd.
remember (claimed d [a0]) as d2 eqn:Ed2. clear Ed2.
assert (EI : oi_indirect d2 dir_oi = oi_indirect d dir_oi).
{ unfold oi_indirect. apply load32_agree. intros x Hx. apply Hcm.
  right; left. unfold OI_INDIRECT in *. consts. lia. }
rewrite EI in Hadd.
remember (ospfs_block (oi_indirect d dir_oi) + 4 * (n - OSPFS_NDIRECT))
  as lw eqn:Elw.
remember (store32 d2 lw a0) as d3 eqn:Ed3.
assert (Hnext : In lw (next_words d dir_oi n)).
{ unfold next_words. destruct (Z.ltb_spec n OSPFS_NDIRECT); [lia |].
  destruct (Z.ltb_spec n (OSPFS_NDIRECT + OSPFS_NINDIRECT)); [| lia].
  left. now rewrite Elw. }
pose proof (nb_next_out lw Hnext) as Hlo.
assert (Hout3 : forall a, ~ (freemap0 <= a < freemap0 + OSPFS_BLKSIZE) ->
          (forall b, In b [a0] ->
             ~ (ospfs_block b <= a < ospfs_block b + OSPFS_BLKSIZE)) ->
          ~ (lw <= a < lw + 4) -> d3 a = d a).
{ intros a Hm Hb Hl. subst d3. rewrite store32_outside by lia. now apply Hc. }
assert (Hlw : inode_word_new d dir_oi lw
              \/ In lw (next_words d dir_oi n)) by now right.
assert (Hmw : map_words (set_oi_size
                (set_oi_size d3 dir_oi (oi_size d3 dir_oi + OSPFS_BLKSIZE))
                dir_oi (size + OSPFS_DIRENTRY_SIZE)) dir_oi n
              = [dir_oi + OI_INDIRECT; lw]).
{ unfold map_words. destruct (Z.ltb_spec n OSPFS_NDIRECT); [lia |].
  destruct (Z.ltb_spec n (OSPFS_NDIRECT + OSPFS_NINDIRECT)); [| lia].
  unfold oi_indirect.
  rewrite (nb_read_meta [a0] lw d3 Hbs Hout3 (dir_oi + OI_INDIRECT)).
  - now rewrite Elw.
  - intros x Hx. right; left. unfold OI_INDIRECT in *. consts. lia.
  - unfold OI_INDIRECT. lia.
  - unfold OI_INDIRECT. consts. lia. }
apply (nb_grown [a0] lw d3 Hbs Hout3 Hlw).
- rewrite Hmw. intros w [<- | []]. right; left. now split.
- rewrite (nb_new_block [a0] lw d3 Hbs Hout3 Hlw lw);
    [| now rewrite Hmw | consts; lia].
  subst d3. rewrite load32_store32_same, u32_small by lia. now left.
- exact Hadd.
Qed.

(** The new pointer goes into an indirect block that the doubly indirect
  block names already. *)
Lemma nb_tier_indirect2 q r :
n = OSPFS_NDIRECT + OSPFS_NINDIRECT + OSPFS_NINDIRECT * q + r ->
0 <= q -> 0 < r < OSPFS_NINDIRECT ->
fst (add_block d dir_oi) = - ENOSPC
\/ exists e,
     change_size d dir_oi (size + OSPFS_DIRENTRY_SIZE) = Some (0, e)
     /\ blank_post d e dir_oi f_oi (slot e dir_oi size).
Proof.
intros Hn Hq Hr. destruct nb_n as [En Rn].
pose proof (grow_bitmap _ _ _ nb_grow) as Hbm.
assert (Hq' : 0 <= q < OSPFS_NINDIRECT) by (consts; lia).
destruct (indices_indirect2 n q r Hn Hq' ltac:(lia)) as (I2 & I1 & D).
destruct (indices_indirect2 (n - 1) q (r - 1) ltac:(lia) Hq' ltac:(lia))
  as (I2' & I1' & _).
destruct (add_block_one d dir_oi ltac:(fold size n; lia) Hbm)
  as [Hfail | (a0 & Hfresh & Hadd)].
{ fold size n. now rewrite I2, I2'. }
{ fold size n. now rewrite I1, I1'. }
{ now left. }
right. destruct (nb_fresh _ Hfresh) as (Hbs & Hr0 & Hc & Hcm).
destruct (Hr0 a0 (or_introl eq_refl)) as [R0 _].
fold size n in Hadd. rewrite I2, I1, D in Hadd.
change (0 =? 0) with true in Hadd. cbv zeta in Hadd.
remember (claimed d [a0]) as d2 eqn:Ed2. clear Ed2.
assert (EI : oi_indirect2 d2 dir_oi = oi_indirect2 d dir_oi).
{ unfold oi_indirect2. apply load32_agree. intros x Hx. apply Hcm.
  right; left. unfold OI_INDIRECT2 in *. consts. lia. }
remember (ospfs_block (oi_indirect2 d dir_oi) + 4 * q) as w2 eqn:Ew2.
remember (OSPFS_NDIRECT + OSPFS_NINDIRECT + OSPFS_NINDIRECT * q + 0)
  as b0 eqn:Eb0.
assert (Hb0 : 0 <= b0 < n) by (consts; lia).
assert (Hmw0 : map_words d dir_oi b0
               = [dir_oi + OI_INDIRECT2; w2;
                  ospfs_block (word_at d (ospfs_block (oi_indirect2 d dir_oi)) q)
                  + 4 * 0]).
{ rewrite (map_words_indirect2 d dir_oi b0 q 0 Eb0 Hq ltac:(consts; lia)).
  now rewrite Ew2. }
assert (Hw2 : In w2 (tl (map_words d dir_oi b0))) by (rewrite Hmw0; now left).
assert (Hw2' : In w2 (map_words d dir_oi b0))
  by (rewrite Hmw0; right; now left).
assert (Hw2m : forall x, w2 <= x < w2 + 4 -> in_meta d dir_oi f_oi n x).
{ intros x Hx. right; right; right. now exists b0, w2. }
assert (EX : word_at d2 (ospfs_block (oi_indirect2 d dir_oi)) q
             = word_at d (ospfs_block (oi_indirect2 d dir_oi)) q).
{ unfold word_at. rewrite <- Ew2. apply load32_agree. intros x Hx.
  apply Hcm. now apply Hw2m. }
rewrite EI, EX in Hadd.
remember (ospfs_block (word_at d (ospfs_block (oi_indirect2 d dir_oi)) q)
          + 4 * r) as lw eqn:Elw.
remember (store32 d2 lw a0) as d3 eqn:Ed3.
assert (Hnext : In lw (next_words d dir_oi n)).
{ destruct (indirect2_split n q r Hn ltac:(lia)) as [Eq Er].
  unfold next_words. destruct (Z.ltb_spec n OSPFS_NDIRECT); [consts; lia |].
  destruct (Z.ltb_spec n (OSPFS_NDIRECT + OSPFS_NINDIRECT)); [consts; lia |].
  cbv zeta. rewrite Eq, Er.
  destruct (Z.eqb_spec (n - (OSPFS_NDIRECT + OSPFS_NINDIRECT)) 0);
    [consts; lia |].
  destruct (Z.eqb_spec r 0); [lia |]. left. now rewrite Elw. }
pose proof (nb_next_out lw Hnext) as Hlo.
pose proof (nb_next_apart lw b0 w2 Hnext Hb0 Hw2') as Hap.
pose proof (sep_index _ _ _ Hsep b0 w2 Hb0 Hw2) as Hw2o.
assert (Hout3 : forall a, ~ (freemap0 <= a < freemap0 + OSPFS_BLKSIZE) ->
          (forall b, In b [a0] ->
             ~ (ospfs_block b <= a < ospfs_block b + OSPFS_BLKSIZE)) ->
          ~ (lw <= a < lw + 4) -> d3 a = d a).
{ intros a Hm Hb Hl. subst d3. rewrite store32_outside by lia. now apply Hc. }
assert (Hlw : inode_word_new d dir_oi lw
              \/ In lw (next_words d dir_oi n)) by now right.
assert (Hmw : map_words (set_oi_size
                (set_oi_size d3 dir_oi (oi_size d3 dir_oi + OSPFS_BLKSIZE))
                dir_oi (size + OSPFS_DIRENTRY_SIZE)) dir_oi n
              = [dir_oi + OI_INDIRECT2; w2; lw]).
{ rewrite (map_words_indirect2 _ dir_oi n q r Hn Hq ltac:(lia)).
  unfold oi_indirect2 at 1 2.
  rewrite (nb_read_meta [a0] lw d3 Hbs Hout3 (dir_oi + OI_INDIRECT2));
    [| intros x Hx; right; left; unfold OI_INDIRECT2 in *; consts; lia
     | unfold OI_INDIRECT2; lia
     | unfold OI_INDIRECT2; consts; lia].
  fold (oi_indirect2 d dir_oi). rewrite <- Ew2.
  unfold word_at. rewrite <- Ew2.
  rewrite (nb_read_meta [a0] lw d3 Hbs Hout3 w2);
    [| exact Hw2m | consts; lia | exact Hap].
  rewrite Elw. unfold word_at. now rewrite <- Ew2. }
apply (nb_grown [a0] lw d3 Hbs Hout3 Hlw).
- rewrite Hmw. intros w [<- | [<- | []]].
  + left. now exists b0.
  + right; left. now split.
- rewrite (nb_new_block [a0] lw d3 Hbs Hout3 Hlw lw);
    [| now rewrite Hmw | consts; lia].
  subst d3. rewrite load32_store32_same, u32_small by lia. now left.
- exact Hadd.
Qed.

(** Two blocks that the allocator handed out do not overlap. *)
Lemma nb_blocks_apart bs a b :
fresh_blocks d bs -> In a bs -> In b bs -> a <> b ->
ospfs_block a + OSPFS_BLKSIZE <= ospfs_block b
\/ ospfs_block b + OSPFS_BLKSIZE <= ospfs_block a.
Proof.
intros Hf Ha Hb Hne. destruct (nb_fresh _ Hf) as (_ & Hr & _).
destruct (Hr a Ha) as [_ ->]. destruct (Hr b Hb) as [_ ->]. consts. lia.
Qed.

(** The tenth block: [add_block] takes two blocks and sets entry 0 of
  the block that [oi_indirect] names to the second one. *)
Lemma nb_tier_first_indirect :
n = OSPFS_NDIRECT ->
fst (add_block d dir_oi) = - ENOSPC
\/ exists e,
     change_size d dir_oi (size + OSPFS_DIRENTRY_SIZE) = Some (0, e)
     /\ blank_post d e dir_oi f_oi (slot e dir_oi size).
Proof.
intros Hn. destruct nb_n as [En Rn].
pose proof (grow_bitmap _ _ _ nb_grow) as Hbm.
assert (I2 : indir2_index n = -1 /\ indir2_index (n - 1) = -1) by (split; idx).
assert (I1 : indir_index n = 0 /\ indir_index (n - 1) = -1) by (split; idx).
destruct (add_block_two d dir_oi ltac:(fold size n; lia) Hbm)
  as [Hfail | (a0 & a1 & Hfresh & Hadd)].
{ fold size n. destruct I2 as [-> ->]. reflexivity. }
{ fold size n. destruct I1 as [-> ->]. discriminate. }
{ now left. }
right. destruct (nb_fresh _ Hfresh) as (Hbs & Hr & Hc & Hcm).
destruct (Hr a0 (or_introl eq_refl)) as [R0 _].
destruct (Hr a1 (or_intror (or_introl eq_refl))) as [R1 _].
destruct (Hbs a1 (or_intror (or_introl eq_refl))) as [Rb1 Fb1].
fold size n in Hadd. destruct I2 as [I2 _]. rewrite I2 in Hadd.
change (-1 =? 0) with false in Hadd. cbv zeta in Hadd.
remember (claimed d [a0; a1]) as d2 eqn:Ed2. clear Ed2.
assert (Hiw : forall x, dir_oi + OI_INDIRECT <= x < dir_oi + OI_INDIRECT + 4 ->
                in_meta d dir_oi f_oi n x).
{ intros x Hx. right; left. unfold OI_INDIRECT in *. consts. lia. }
pose proof (nb_free_word a1 (dir_oi + OI_INDIRECT) Rb1 Fb1 Hiw) as Hfi.
assert (EI : oi_indirect (store32 d2 (ospfs_block a1) a0) dir_oi
             = oi_indirect d dir_oi).
{ unfold oi_indirect. rewrite load32_store32_other by (consts; lia).
  apply load32_agree. intros x Hx. apply Hcm. now apply Hiw. }
rewrite EI in Hadd.
remember (ospfs_block (oi_indirect d dir_oi) + 4 * (n - OSPFS_NDIRECT))
  as lw eqn:Elw.
assert (Elw' : ospfs_block (oi_indirect d dir_oi) = lw) by lia.
rewrite Elw' in Hadd.
remember (store32 (store32 d2 (ospfs_block a1) a0) lw a1) as d3 eqn:Ed3.
assert (Hnext : In lw (next_words d dir_oi n)).
{ unfold next_words. destruct (Z.ltb_spec n OSPFS_NDIRECT); [lia |].
  destruct (Z.ltb_spec n (OSPFS_NDIRECT + OSPFS_NINDIRECT)); [| consts; lia].
  left. now rewrite Elw. }
pose proof (nb_next_out lw Hnext) as Hlo.
assert (Hout3 : forall a, ~ (freemap0 <= a < freemap0 + OSPFS_BLKSIZE) ->
          (forall b, In b [a0; a1] ->
             ~ (ospfs_block b <= a < ospfs_block b + OSPFS_BLKSIZE)) ->
          ~ (lw <= a < lw + 4) -> d3 a = d a).
{ intros a Hm Hb Hl. subst d3. rewrite store32_outside by lia.
  pose proof (Hb a1 (or_intror (or_introl eq_refl))).
  rewrite store32_outside by (consts; lia). now apply Hc. }
assert (Hlw : inode_word_new d dir_oi lw
              \/ In lw (next_words d dir_oi n)) by now right.
assert (Hmw : map_words (set_oi_size
                (set_oi_size d3 dir_oi (oi_size d3 dir_oi + OSPFS_BLKSIZE))
                dir_oi (size + OSPFS_DIRENTRY_SIZE)) dir_oi n
              = [dir_oi + OI_INDIRECT; lw]).
{ unfold map_words. destruct (Z.ltb_spec n OSPFS_NDIRECT); [lia |].
  destruct (Z.ltb_spec n (OSPFS_NDIRECT + OSPFS_NINDIRECT)); [| consts; lia].
  unfold oi_indirect.
  rewrite (nb_read_meta [a0; a1] lw d3 Hbs Hout3 (dir_oi + OI_INDIRECT));
    [| exact Hiw | unfold OI_INDIRECT; lia | unfold OI_INDIRECT; consts; lia].
  now rewrite Elw. }
apply (nb_grown [a0; a1] lw d3 Hbs Hout3 Hlw).
- rewrite Hmw. intros w [<- | []]. right; left. now split.
- rewrite (nb_new_block [a0; a1] lw d3 Hbs Hout3 Hlw lw);
    [| now rewrite Hmw | consts; lia].
  subst d3. rewrite load32_store32_same, u32_small by lia. right; now left.
- exact Hadd.
Qed.

(** A new row of the doubly indirect block: [add_block] takes a data
  block and an indirect block. *)
Lemma nb_tier_new_row q :
n = OSPFS_NDIRECT + OSPFS_NINDIRECT + OSPFS_NINDIRECT * q + 0 ->
0 < q ->
fst (add_block d dir_oi) = - ENOSPC
\/ exists e,
     change_size d dir_oi (size + OSPFS_DIRENTRY_SIZE) = Some (0, e)
     /\ blank_post d e dir_oi f_oi (slot e dir_oi size).
Proof.
intros Hn Hq. destruct nb_n as [En Rn].
pose proof (grow_bitmap _ _ _ nb_grow) as Hbm.
assert (Hq' : 0 <= q < OSPFS_NINDIRECT) by (consts; lia).
destruct (indices_indirect2 n q 0 Hn Hq' ltac:(consts; lia)) as (I2 & I1 & D).
destruct (indices_indirect2 (n - 1) (q - 1) (OSPFS_NINDIRECT - 1)
            ltac:(lia) ltac:(lia) ltac:(consts; lia)) as (I2' & I1' & _).
destruct (add_block_two d dir_oi ltac:(fold size n; lia) Hbm)
  as [Hfail | (a0 & a1 & Hfresh & Hadd)].
{ fold size n. now rewrite I2, I2'. }
{ fold size n. rewrite I1, I1'. lia. }
{ now left. }
right. destruct (nb_fresh _ Hfresh) as (Hbs & Hr & Hc & Hcm).
destruct (Hr a0 (or_introl eq_refl)) as [R0 _].
destruct (Hr a1 (or_intror (or_introl eq_refl))) as [R1 E1].
destruct (Hbs a1 (or_intror (or_introl eq_refl))) as [Rb1 Fb1].
assert (Hne : a1 <> a0).
{ destruct Hfresh as [Hnd _]. inversion Hnd as [| ? ? Hni _]; subst.
  intros C. apply Hni. now left. }
fold size n in Hadd. rewrite I2, I1 in Hadd.
change (0 =? 0) with true in Hadd. cbv zeta in Hadd.
remember (claimed d [a0; a1]) as d2 eqn:Ed2. clear Ed2.
assert (Hiw : forall x, dir_oi + OI_INDIRECT2 <= x < dir_oi + OI_INDIRECT2 + 4 ->
                in_meta d dir_oi f_oi n x).
{ intros x Hx. right; left. unfold OI_INDIRECT2 in *. consts. lia. }
pose proof (nb_free_word a1 (dir_oi + OI_INDIRECT2) Rb1 Fb1 Hiw) as Hfi.
assert (EI : oi_indirect2 (store32 d2 (ospfs_block a1) a0) dir_oi
             = oi_indirect2 d dir_oi).
{ unfold oi_indirect2. rewrite load32_store32_other by (consts; lia).
  apply load32_agree. intros x Hx. apply Hcm. now apply Hiw. }
rewrite EI in Hadd.
remember (ospfs_block (oi_indirect2 d dir_oi) + 4 * q) as lw eqn:Elw.
remember (store32 (store32 d2 (ospfs_block a1) a0) lw a1) as d3 eqn:Ed3.
assert (Hnext : In lw (next_words d dir_oi n)).
{ destruct (indirect2_split n q 0 Hn ltac:(consts; lia)) as [Eq Er].
  unfold next_words. destruct (Z.ltb_spec n OSPFS_NDIRECT); [consts; lia |].
  destruct (Z.ltb_spec n (OSPFS_NDIRECT + OSPFS_NINDIRECT)); [consts; lia |].
  cbv zeta. rewrite Eq, Er.
  destruct (Z.eqb_spec (n - (OSPFS_NDIRECT + OSPFS_NINDIRECT)) 0);
    [consts; lia |].
  change (0 =? 0) with true. cbv iota. left. now rewrite Elw. }
pose proof (nb_next_out lw Hnext) as Hlo.
pose proof (nb_next_free lw a1 Hnext Rb1 Fb1) as Hlf.
assert (Hout3 : forall a, ~ (freemap0 <= a < freemap0 + OSPFS_BLKSIZE) ->
          (forall b, In b [a0; a1] ->
             ~ (ospfs_block b <= a < ospfs_block b + OSPFS_BLKSIZE)) ->
          ~ (lw <= a < lw + 4) -> d3 a = d a).
{ intros a Hm Hb Hl. subst d3. rewrite store32_outside by lia.
  pose proof (Hb a1 (or_intror (or_introl eq_refl))).
  rewrite store32_outside by (consts; lia). now apply Hc. }
assert (Hlw : inode_word_new d dir_oi lw
              \/ In lw (next_words d dir_oi n)) by now right.
assert (Hfo : ospfs_block a1 + 4 <= dir_oi \/ dir_oi + 4 <= ospfs_block a1).
{ assert (Hs : forall x, dir_oi <= x < dir_oi + 4 ->
                 in_meta d dir_oi f_oi n x)
    by (intros x Hx; right; left; consts; lia).
  pose proof (nb_free_word a1 dir_oi Rb1 Fb1 Hs). consts. lia. }
assert (Hmw : map_words (set_oi_size
                (set_oi_size d3 dir_oi (oi_size d3 dir_oi + OSPFS_BLKSIZE))
                dir_oi (size + OSPFS_DIRENTRY_SIZE)) dir_oi n
              = [dir_oi + OI_INDIRECT2; lw; ospfs_block a1 + 4 * 0]).
{ rewrite (map_words_indirect2 _ dir_oi n q 0 Hn ltac:(lia) ltac:(consts; lia)).
  unfold oi_indirect2 at 1 2.
  rewrite (nb_read_meta [a0; a1] lw d3 Hbs Hout3 (dir_oi + OI_INDIRECT2));
    [| exact Hiw | unfold OI_INDIRECT2; lia | unfold OI_INDIRECT2; consts; lia].
  fold (oi_indirect2 d dir_oi). rewrite <- Elw.
  unfold word_at. rewrite <- Elw.
  rewrite (nb_read1 d3 lw) by (consts; lia).
  rewrite Ed3 at 1. rewrite load32_store32_same, u32_small by lia.
  reflexivity. }
assert (Efb : file_block (set_oi_size
                (set_oi_size d3 dir_oi (oi_size d3 dir_oi + OSPFS_BLKSIZE))
                dir_oi (size + OSPFS_DIRENTRY_SIZE)) dir_oi n = a0).
{ rewrite (nb_new_block [a0; a1] lw d3 Hbs Hout3 Hlw (ospfs_block a1 + 4 * 0));
    [| now rewrite Hmw | lia].
  rewrite Z.mul_0_r, Z.add_0_r. subst d3.
  rewrite load32_store32_other by (consts; lia).
  rewrite load32_store32_same. now apply u32_small. }
apply (nb_grown [a0; a1] lw d3 Hbs Hout3 Hlw).
- rewrite Hmw, Efb. intros w [<- | [<- | []]].
  + right; left. now split.
  + right; right. exists a1. split; [right; now left |].
    split; [exact Hne |]. consts. lia.
- rewrite Efb. now left.
- exact Hadd.
Qed.

(** The first block past the indirect block: [add_block] takes a data
  block, an indirect block and a doubly indirect block. *)
Lemma nb_tier_first_indirect2 :
n = OSPFS_NDIRECT + OSPFS_NINDIRECT ->
fst (add_block d dir_oi) = - ENOSPC
\/ exists e,
     change_size d dir_oi (size + OSPFS_DIRENTRY_SIZE) = Some (0, e)
     /\ blank_post d e dir_oi f_oi (slot e dir_oi size).
Proof.
intros Hn. destruct nb_n as [En Rn].
pose proof (grow_bitmap _ _ _ nb_grow) as Hbm.
assert (I2 : indir2_index n = 0 /\ indir2_index (n - 1) = -1) by (split; idx).
destruct (add_block_three d dir_oi ltac:(fold size n; lia) Hbm)
  as [Hfail | (a0 & a1 & a2 & Hfresh & Hadd)].
{ fold size n. destruct I2 as [-> ->]. discriminate. }
{ now left. }
right. destruct (nb_fresh _ Hfresh) as (Hbs & Hr & Hc & Hcm).
assert (In0 : In a0 [a0; a1; a2]) by now left.
assert (In1 : In a1 [a0; a1; a2]) by (right; now left).
assert (In2 : In a2 [a0; a1; a2]) by (right; right; now left).
destruct (Hr a0 In0) as [R0 _]. destruct (Hr a1 In1) as [R1 _].
destruct (Hr a2 In2) as [R2 _].
destruct (Hbs a1 In1) as [Rb1 Fb1]. destruct (Hbs a2 In2) as [Rb2 Fb2].
assert (Hne : a1 <> a0 /\ a2 <> a0 /\ a1 <> a2).
{ destruct Hfresh as [Hnd _]. inversion Hnd as [| ? ? Hni Hnd']; subst.
  inversion Hnd' as [| ? ? Hni' _]; subst.
  split; [intros C; apply Hni; now left |].
  split; [intros C; apply Hni; right; now left |].
  intros C. apply Hni'. now left. }
destruct Hne as (N10 & N20 & N12).
pose proof (nb_blocks_apart _ a1 a2 Hfresh In1 In2 N12) as Hap.
cbv zeta in Hadd.
remember (claimed d [a0; a1; a2]) as d2 eqn:Ed2. clear Ed2.
remember (dir_oi + OI_INDIRECT2) as lw eqn:Elw.
remember (store32 (store32 (store32 d2 lw a2) (ospfs_block a2) a1)
            (ospfs_block a1) a0) as d3 eqn:Ed3.
assert (Hiw : forall x, lw <= x < lw + 4 -> in_meta d dir_oi f_oi n x).
{ intros x Hx. right; left. unfold OI_INDIRECT2 in *. consts. lia. }
pose proof (nb_free_word a1 lw Rb1 Fb1 Hiw) as Hf1.
pose proof (nb_free_word a2 lw Rb2 Fb2 Hiw) as Hf2.
assert (Hout3 : forall a, ~ (freemap0 <= a < freemap0 + OSPFS_BLKSIZE) ->
          (forall b, In b [a0; a1; a2] ->
             ~ (ospfs_block b <= a < ospfs_block b + OSPFS_BLKSIZE)) ->
          ~ (lw <= a < lw + 4) -> d3 a = d a).
{ intros a Hm Hb Hl. subst d3.
  pose proof (Hb a1 In1). pose proof (Hb a2 In2).
  rewrite !store32_outside by (consts; lia). now apply Hc. }
assert (Hlw : inode_word_new d dir_oi lw
              \/ In lw (next_words d dir_oi n)).
{ left. unfold inode_word_new. fold size n.
  split; [unfold OI_DIRECT, OI_INDIRECT2 in *; lia |].
  split; [unfold OI_INDIRECT2 in *; consts; lia |].
  intros b w Hb Hw.
  pose proof (sep_index _ _ _ Hsep b w Hb) as Ht.
  unfold map_words in Hw, Ht.
  destruct (Z.ltb_spec b OSPFS_NDIRECT).
  - destruct Hw as [<- | []].
    unfold OI_DIRECT, OI_INDIRECT2 in *. consts. lia.
  - destruct (Z.ltb_spec b (OSPFS_NDIRECT + OSPFS_NINDIRECT)); [| lia].
    destruct Hw as [<- | Hw].
    + unfold OI_INDIRECT, OI_INDIRECT2 in *. lia.
    + specialize (Ht Hw). unfold OI_INDIRECT2 in *. consts. lia. }
assert (Hfo : forall b, In b [a0; a1; a2] ->
          ospfs_block b + OSPFS_BLKSIZE <= dir_oi
          \/ dir_oi + 4 <= ospfs_block b).
{ intros b Hb. destruct (Hbs b Hb) as [Rb Fb].
  assert (Hs : forall x, dir_oi <= x < dir_oi + 4 ->
                 in_meta d dir_oi f_oi n x)
    by (intros x Hx; right; left; consts; lia).
  pose proof (nb_free_word b dir_oi Rb Fb Hs). consts. lia. }
pose proof (Hfo a1 In1) as Hfo1. pose proof (Hfo a2 In2) as Hfo2.
assert (Hmw : map_words (set_oi_size
                (set_oi_size d3 dir_oi (oi_size d3 dir_oi + OSPFS_BLKSIZE))
                dir_oi (size + OSPFS_DIRENTRY_SIZE)) dir_oi n
              = [lw; ospfs_block a2 + 4 * 0; ospfs_block a1 + 4 * 0]).
{ rewrite (map_words_indirect2 _ dir_oi n 0 0 ltac:(lia) ltac:(lia)
             ltac:(consts; lia)).
  assert (E2 : oi_indirect2 (set_oi_size
                 (set_oi_size d3 dir_oi (oi_size d3 dir_oi + OSPFS_BLKSIZE))
                 dir_oi (size + OSPFS_DIRENTRY_SIZE)) dir_oi = a2).
  { unfold oi_indirect2. rewrite <- Elw.
    rewrite (nb_read1 d3 lw) by (unfold OI_INDIRECT2 in *; lia).
    rewrite Ed3. rewrite !load32_store32_other by (consts; lia).
    rewrite load32_store32_same. now apply u32_small. }
  rewrite E2, <- Elw. unfold word_at.
  rewrite (nb_read1 d3 (ospfs_block a2 + 4 * 0)) by (consts; lia).
  rewrite Z.mul_0_r, !Z.add_0_r.
  rewrite Ed3 at 1. rewrite load32_store32_other by (consts; lia).
  rewrite load32_store32_same, u32_small by lia.
  reflexivity. }
assert (Efb : file_block (set_oi_size
                (set_oi_size d3 dir_oi (oi_size d3 dir_oi + OSPFS_BLKSIZE))
                dir_oi (size + OSPFS_DIRENTRY_SIZE)) dir_oi n = a0).
{ rewrite (nb_new_block [a0; a1; a2] lw d3 Hbs Hout3 Hlw
             (ospfs_block a1 + 4 * 0));
    [| now rewrite Hmw | consts; lia].
  rewrite Z.mul_0_r, Z.add_0_r. subst d3.
  rewrite load32_store32_same. now apply u32_small. }
apply (nb_grown [a0; a1; a2] lw d3 Hbs Hout3 Hlw).
- rewrite Hmw, Efb. intros w [<- | [<- | []]].
  + right; right. exists a2. split; [exact In2 |].
    split; [exact N20 |]. consts. lia.
  + right; right. exists a1. split; [exact In1 |].
    split; [exact N10 |]. consts. lia.
- rewrite Efb. exact In0.
- exact Hadd.
Qed.

(** Whatever the number of blocks of the full directory, [add_block]
  gives up or leaves the directory as [blank_post] says. *)
Lemma nb_tiers :
fst (add_block d dir_oi) = - ENOSPC
\/ exists e,
     change_size d dir_oi (size + OSPFS_DIRENTRY_SIZE) = Some (0, e)
     /\ blank_post d e dir_oi f_oi (slot e dir_oi size).
Proof.
destruct nb_n as [En Rn].
destruct (Z_lt_ge_dec n OSPFS_NDIRECT) as [L1 | G1];
  [now apply nb_tier_direct |].
destruct (Z.eq_dec n OSPFS_NDIRECT) as [E1 | N1];
  [now apply nb_tier_first_indirect |].
destruct (Z_lt_ge_dec n (OSPFS_NDIRECT + OSPFS_NINDIRECT)) as [L2 | G2];
  [apply nb_tier_indirect; lia |].
destruct (Z.eq_dec n (OSPFS_NDIRECT + OSPFS_NINDIRECT)) as [E2 | N2];
  [now apply nb_tier_first_indirect2 |].
remember (n - (OSPFS_NDIRECT + OSPFS_NINDIRECT)) as k eqn:Ek.
pose proof (Z.div_mod k OSPFS_NINDIRECT ltac:(consts; lia)) as Dk.
pose proof (Z.mod_pos_bound k OSPFS_NINDIRECT ltac:(consts; lia)) as Bk.
assert (Hq : 0 <= k / OSPFS_NINDIRECT) by (apply Z.div_pos; consts; lia).
destruct (Z.eq_dec (k mod OSPFS_NINDIRECT) 0) as [Er | Nr].
- apply (nb_tier_new_row (k / OSPFS_NINDIRECT)); consts; lia.
- apply (nb_tier_indirect2 (k / OSPFS_NINDIRECT) (k mod OSPFS_NINDIRECT));
    consts; lia.
Qed.

End NewBlock.

(** [create_blank_direntry] keeps its promise whenever it returns an
    entry of a directory that is not empty. *)
Lemma create_blank_direntry_post (od : Z) (d1 : image) :
  0 < size ->
  create_blank_direntry d dir_oi = Some (Ptr od, d1) ->
  blank_post d d1 dir_oi f_oi od.
Proof.
  intros Hpos H. pose proof cb_size_range as R.
  unfold create_blank_direntry in H.
  destruct (blank_scan (S (dir_rounds d dir_oi)) d dir_oi 0) as [od' | p] eqn:Hscan.
  - injection H as <- <-. now apply cb_found.
  - destruct (cb_not_found p Hscan) as [-> Htaken].
    rewrite u32_small in H by (consts; lia).
    destruct (Z.eq_dec (size mod OSPFS_BLKSIZE) 0) as [Hm | Hm].
    + assert (Hfull : dir_full d dir_oi) by (split; assumption).
      destruct (nb_tiers Hfull Hpos) as [Hfail | (e & Hcs & Hpost)].
      * exfalso. unfold change_size in H. fold size n in H.
        rewrite (nb_n1 Hfull Hpos) in H.
        replace (Z.to_nat (Z.abs (n + 1 - n))) with 1%nat in H by lia.
        cbn [change_size_grow] in H. fold size n in H.
        rewrite (nb_n1 Hfull Hpos) in H.
        destruct (Z.ltb_spec n (n + 1)); [| lia].
        destruct (add_block d dir_oi) as [r e]. cbn [fst] in Hfail. subst r.
        cbn in H. discriminate.
      * rewrite Hcs in H. cbn [Z.ltb Z.compare] in H.
        injection H as <- <-. exact Hpost.
    + rewrite change_size_idle in H.
      * cbn [Z.ltb Z.compare] in H. injection H as <- <-.
        now apply cb_same_block.
      * fold size. apply same_block_count; try assumption; try apply R.
        apply (sep_aligned _ _ _ Hsep).
Qed.

End CreateBlank.

(** ** Hard links *)

Lemma entry_off_dec (d : image) (dir_oi off : Z) :
  {entry_off d dir_oi off} + {~ entry_off d dir_oi off}.
Proof.
  unfold entry_off.
  destruct (Z_le_gt_dec 0 off); [| right; lia].
  destruct (Z_lt_ge_dec off (oi_size d dir_oi)); [| right; lia].
  destruct (Z.eq_dec (off mod OSPFS_DIRENTRY_SIZE) 0); [left | right]; lia.
Qed.

Lemma create_blank_direntry_errno (d d1 : image) (dir_oi e : Z) :
  create_blank_direntry d dir_oi = Some (ErrPtr e, d1) -> e = - ENOSPC.
Proof.
  unfold create_blank_direntry.
  destruct (blank_scan _ d dir_oi 0); [discriminate |].
  destruct (change_size d dir_oi _) as [[r d2] |]; [| discriminate].
  destruct (r <? 0); [| discriminate].
  intros H. injection H as <- _. reflexivity.
Qed.

(** C9 (as amended).  In a directory whose blocks are its own
    ([dir_sep]), with room for one more entry and, when the next entry
    needs a new block, with free blocks that nothing uses ([can_grow]),
    and that holds the name [f] for an inode with one link: a successful
    [ospfs_link] of that inode under the name [g] makes the entry [g]
    carry the inode number of [f] and raises the link count to 2; the
    following [ospfs_unlink] of [f] succeeds, sets the inode number of
    the entry of [f] to 0, and leaves [g] resolving to the same inode
    with link count 1. *)
Theorem link_then_unlink (d dl : image)
    (dir_ino dir_oi f_ino f_oi od_f : Z) (f g : list Z) :
  dir_sep d dir_oi f_oi ->
  oi_size d dir_oi + OSPFS_DIRENTRY_SIZE <= 4294967296 - 2 * OSPFS_BLKSIZE ->
  (dir_full d dir_oi -> can_grow d dir_oi f_oi) ->
  ospfs_inode d dir_ino = Some dir_oi ->
  ospfs_inode d f_ino = Some f_oi ->
  name_chars f -> name_chars g ->
  Z.of_nat (length f) <= OSPFS_MAXNAMELEN ->
  find_direntry d dir_oi f = Some od_f ->
  od_ino d od_f = f_ino ->
  oi_nlink d f_oi = 1 ->
  ospfs_link d f_ino dir_ino g = Some (0, dl) ->
  exists od_g du,
    find_direntry dl dir_oi g = Some od_g
    /\ od_ino dl od_g = f_ino
    /\ oi_nlink dl f_oi = 2
    /\ ospfs_unlink dl dir_ino f_ino f = Some (0, du)
    /\ od_ino du od_f = 0
    /\ find_direntry du dir_oi g = Some od_g
    /\ od_ino du od_g = f_ino
    /\ oi_nlink du f_oi = 1.
Proof.
  intros Hsep Hroom Hgrow Hdir Hfile Hfc Hgc Hlen_f Hfind Hino Hnl Hlink.
  pose proof (sep_aligned _ _ _ Hsep) as Hal.
  destruct (find_direntry_some_off d dir_oi Hal f od_f Hfind)
    as (off_f & Hef & Hfirst & Hmatch & Hod).
  assert (Hpos : 0 < oi_size d dir_oi) by (destruct Hef; lia).
  unfold ospfs_link in Hlink.
  destruct (Z.gtb_spec (Z.of_nat (length g)) OSPFS_MAXNAMELEN) as [Hlong | Hlen_g];
    [discriminate |].
  rewrite Hdir in Hlink.
  destruct (find_direntry d dir_oi g) eqn:Hfind_g; [discriminate |].
  destruct (create_blank_direntry d dir_oi) as [[[od | e] d1] |] eqn:Hcb;
    [| | discriminate].
  2:{ apply create_blank_direntry_errno in Hcb. subst e. discriminate. }
  rewrite Hfile in Hlink. injection Hlink as <-.
  destruct (create_blank_direntry_post d dir_oi f_oi Hsep Hroom Hgrow od d1 Hpos Hcb)
    as (off_b & Heb & -> & Hsep1 & Hinode & Hnl1 & Hold & Hnew & Hblank & Hlast).
  destruct (Hold off_f Hef) as (Hef1 & Hslot_f & Hino_f & Hmatch_f).
  assert (Hlen_f' : Z.of_nat (length f) <= OSPFS_DIRENTRY_SIZE - 5)
    by (unfold OSPFS_MAXNAMELEN in *; consts; lia).
  assert (Hlen_g' : Z.of_nat (length g) <= OSPFS_DIRENTRY_SIZE - 5)
    by (unfold OSPFS_MAXNAMELEN in *; consts; lia).
  assert (Hfz : od_ino d (slot d dir_oi off_f) <> 0).
  { unfold entry_matches in Hmatch.
    destruct (od_ino d (slot d dir_oi off_f) =? 0) eqn:E; [discriminate |].
    now apply Z.eqb_neq. }
  assert (Hbf : off_b <> off_f).
  { intros ->. apply Hfz. now apply Hblank. }
  assert (Hfg : f <> g).
  { intros ->.
    rewrite (find_direntry_none_off d dir_oi Hal g off_f Hfind_g Hef) in Hmatch.
    discriminate. }
  assert (Hf_first : forall off, entry_off d1 dir_oi off -> off < off_f ->
                                 entry_matches d1 dir_oi f off = false).
  { intros off He Hlt. destruct (entry_off_dec d dir_oi off) as [Hd | Hd].
    - destruct (Hold off Hd) as (_ & _ & _ & Hm). rewrite Hm by exact Hlen_f'.
      now apply Hfirst.
    - destruct (Hnew off He) as [Hd' | ->]; [contradiction |].
      specialize (Hlast Hd off_f Hef). lia. }
  assert (Hg_none : forall off, entry_off d1 dir_oi off -> off <> off_b ->
                                entry_matches d1 dir_oi g off = false).
  { intros off He Hne. destruct (Hnew off He) as [Hd | ->]; [| contradiction].
    destruct (Hold off Hd) as (_ & _ & _ & Hm). rewrite Hm by exact Hlen_g'.
    now apply (find_direntry_none_off d dir_oi Hal g off Hfind_g). }
  assert (Hf_ino : od_ino d1 (slot d1 dir_oi off_f) = f_ino).
  { rewrite Hslot_f, Hino_f, <- Hod. exact Hino. }
  assert (Hf_match : entry_matches d1 dir_oi f off_f = true).
  { rewrite Hmatch_f by exact Hlen_f'. exact Hmatch. }
  assert (Hdir1 : ospfs_inode d1 dir_ino = Some dir_oi) by now rewrite Hinode.
  assert (Hfile1 : ospfs_inode d1 f_ino = Some f_oi) by now rewrite Hinode.
  assert (Hnl1' : oi_nlink d1 f_oi = 1) by now rewrite Hnl1.
  destruct (hard_link_core d1 dir_ino dir_oi f_ino f_oi off_b off_f f g
              Hsep1 Hdir1 Hfile1 Heb Hef1 Hbf Hf_first Hf_match Hf_ino
              Hg_none Hnl1' Hfc Hgc Hlen_f' Hlen_g Hfg)
    as (C1 & C2 & C3 & C4 & C5 & C6 & C7 & C8).
  rewrite Hslot_f, <- Hod in C4, C5, C6, C7, C8.
  eexists. eexists.
  split; [exact C1 |]. split; [exact C2 |]. split; [exact C3 |].
  split; [exact C4 |]. split; [exact C5 |]. split; [exact C6 |].
  split; [exact C7 | exact C8].
Qed.

(** ** The operations on the sample images *)

Section Samples.

Import Sample.

(** C1 (code at the failing input).  With block 4 the only free block,
growing the empty file to two blocks fails with [-ENOSPC] on the
second block; at return the file is one block long, [direct[0]] is 4
and the bitmap has lost block 4.  On entry the size and the pointers
were 0 and the bitmap word was 16. *)
Theorem change_size_enospc_not_rolled_back :
view one_free file_oi = (0, 0, 0, 0, 0, 16)
/\ option_map (fun '(r, d') => (r, view d' file_oi))
 (change_size one_free file_oi 2048)
 = Some (- ENOSPC, (1024, 4, 0, 0, 0, 0)).
Proof. split; vm_compute; reflexivity. Qed.

(** C2 (code at the failing input).  Growing the empty file to 1025
bytes and shrinking it back to 0 returns 0 twice, but leaves
[direct[0]] = 4 and [direct[1]] = 5 where 0 stood, and block 4 still
marked in use: the bitmap word is 4294967264, not 4294967280. *)
Theorem grow_then_shrink_not_restored :
view with_file file_oi = (0, 0, 0, 0, 0, 4294967280)
/\ match change_size with_file file_oi 1025 with
 | Some (r1, d1) =>
 option_map (fun '(r2, d2) => (r1, r2, view d2 file_oi))
 (change_size d1 file_oi 0)
 | None => None
 end = Some (0, 0, (0, 4, 5, 0, 0, 4294967264)).
Proof. split; vm_compute; reflexivity. Qed.

(** C3 (counterexample).  [change_size] to 4294967295 bytes succeeds on
the empty regular file without allocating anything, after which
offset 0 lies below the file size and is mapped to block 0. *)
Lemma blockno_zero_below_size :
match change_size with_file file_oi 4294967295 with
| Some (r, d1) =>
Some (r, oi_ftype d1 file_oi, oi_size d1 file_oi,
ospfs_inode_blockno d1 file_oi 0)
| None => None
end = Some (0, OSPFS_FTYPE_REG, 4294967295, 0).
Proof. vm_compute. reflexivity. Qed.

(** C4 (code at the failing input).  Writing "hello" at position 5 of
the empty file returns 5; reading 5 bytes back from position 5
returns 5 and the bytes 0 0 0 0 0, the start of the block. *)
Theorem write_then_read_unaligned :
match ospfs_write with_file file_ino false hello 5 with
| Some (w, d1, _) =>
option_map (fun '(r, buf, _) => (w, r, buf)) (ospfs_read d1 file_ino 5 5)
| None => None
end = Some (5, 5, [0; 0; 0; 0; 0]).
Proof. vm_compute. reflexivity. Qed.

(** C6 (code at the failing input).  In the file "0123456789", reading
5 bytes at position 5 returns "01234", and reading 5 bytes at
position 20, past the end, returns [-EIO]. *)
Theorem read_unaligned_or_past_end :
match ospfs_write with_file file_ino false digits 0 with
| Some (_, d1, _) =>
Some (option_map (fun '(r, buf, _) => (r, buf)) (ospfs_read d1 file_ino 5 5),
option_map (fun '(r, buf, _) => (r, buf)) (ospfs_read d1 file_ino 5 20))
| None => None
end = Some (Some (5, [48; 49; 50; 51; 52]), Some (- EIO, [])).
Proof. vm_compute. reflexivity. Qed.

(** C7 (code at the failing input).  Creating a file with a name of 57
characters in the empty root directory returns [-ENAMETOOLONG]
after the directory has grown to one entry in block 4 and inode 2
has received a link: link count, directory size and bitmap word
were 0, 0 and 4294967280 before. *)
Theorem create_long_name_mutates :
(oi_nlink mkfs file_oi, oi_size mkfs root_oi, load32 mkfs freemap0)
= (0, 0, 4294967280)
/\ option_map
 (fun '(r, d') =>
(r, oi_nlink d' file_oi, oi_size d' root_oi, load32 d' freemap0))
 (ospfs_create mkfs root_ino long_name 420 true)
 = Some (- ENAMETOOLONG, 1, 128, 4294967264).
Proof. split; vm_compute; reflexivity. Qed.

(** C5 (counterexample).  The inode table of the sample image is block
3.  When the bit of block 3 is set, [allocate_block] returns 3,
although block 4, the first block past the inode table, is free. *)
Lemma allocate_block_returns_inode_block :
(os_firstinob inode_block_free, os_ninodes inode_block_free) = (3, 16)
/\ block_is_free inode_block_free 4 = true
/\ fst (allocate_block inode_block_free) = 3.
Proof. repeat split; vm_compute; reflexivity. Qed.

(** C9 (counterexample).  In [reused] block 4 is marked free while it is
the first block of the root directory.  The file "a" is created
there as inode 9, a regular file with one link, in the last entry of
that block.  Linking it as "h" returns 0, after which "h" is found
with inode number 9 and the link count is 2; but the link has taken
block 4 as the second block of the directory and erased it, so the
following unlink of "a" returns [-ENOENT] and the link count stays
2. *)
Lemma link_then_unlink_block_reused :
(block_is_free reused 4, oi_ftype reused root_oi, file_block reused root_oi 0)
= (true, OSPFS_FTYPE_DIR, 4)
/\ match ospfs_create reused root_ino [97] 420 true with
| Some (c, d) =>
match ospfs_link d ninth_ino root_ino [104] with
| Some (l, dl) =>
option_map
(fun '(u, du) =>
 (c, option_map (od_ino d) (find_direntry d root_oi [97]),
oi_ftype d ninth_oi, oi_nlink d ninth_oi,
l, option_map (od_ino dl) (find_direntry dl root_oi [104]),
oi_nlink dl ninth_oi,
u, oi_nlink du ninth_oi))
(ospfs_unlink dl root_ino ninth_ino [97])
| None => None
end
| None => None
end = Some (0, Some 9, OSPFS_FTYPE_REG, 1, 0, Some 9, 2, - ENOENT, 2).
Proof. split; vm_compute; reflexivity. Qed.

End Samples.

(** ** The theorems at sample inputs *)

Section Witnesses.

Import Sample.

(** Closes [~ In x l] for an explicit list of numbers. *)
Ltac not_among :=
vm_compute; intros Hin;
repeat (destruct Hin as [Hin | Hin]; [discriminate Hin |]);
exact Hin.

(** The block map on the 5-byte file whose block is number 7. *)
Lemma ospfs_inode_blockno_tiers_witness :
let b := 3 / OSPFS_BLKSIZE in
(b < OSPFS_NDIRECT ->
 ospfs_inode_blockno five_bytes file_oi 3 = oi_direct five_bytes file_oi b)
/\ (OSPFS_NDIRECT <= b < OSPFS_NDIRECT + OSPFS_NINDIRECT ->
ospfs_inode_blockno five_bytes file_oi 3 =
word_at five_bytes (ospfs_block (oi_indirect five_bytes file_oi))
(b - OSPFS_NDIRECT))
/\ (OSPFS_NDIRECT + OSPFS_NINDIRECT <= b
< OSPFS_NDIRECT + OSPFS_NINDIRECT + OSPFS_NINDIRECT * OSPFS_NINDIRECT ->
ospfs_inode_blockno five_bytes file_oi 3 =
word_at five_bytes
(ospfs_block
 (word_at five_bytes (ospfs_block (oi_indirect2 five_bytes file_oi))
((b - OSPFS_NDIRECT - OSPFS_NINDIRECT) / OSPFS_NINDIRECT)))
((b - OSPFS_NDIRECT - OSPFS_NINDIRECT) mod OSPFS_NINDIRECT)).
Proof.
apply (ospfs_inode_blockno_tiers five_bytes file_oi 3).
- vm_compute. reflexivity.
- vm_compute. split; [discriminate | reflexivity].
Defined.

(** A 5-byte file set to 9 bytes. *)
Lemma change_size_same_block_count_witness :
exists d',
change_size five_bytes file_oi 9 = Some (0, d')
/\ oi_size d' file_oi = 9
/\ forall a, a < file_oi + OI_SIZE \/ file_oi + OI_SIZE + 4 <= a ->
 d' a = five_bytes a.
Proof.
apply (change_size_same_block_count five_bytes file_oi 9).
- lia.
- vm_compute. reflexivity.
Defined.

(** Allocation on the sample image with its 28 free blocks. *)
Lemma allocate_block_first_free_witness :
(exists b,
os_firstinob with_file <= b < os_nblocks with_file
/\ block_is_free with_file b = true
/\ (forall i, os_firstinob with_file <= i < b ->
    block_is_free with_file i = false)
/\ allocate_block with_file = (b, bitvector_clear with_file freemap0 b)
/\ block_is_free (bitvector_clear with_file freemap0 b) b = false
/\ (forall j, 0 <= j -> j <> b ->
    block_is_free (bitvector_clear with_file freemap0 b) j
    = block_is_free with_file j))
\/ ((forall i, os_firstinob with_file <= i < os_nblocks with_file ->
 block_is_free with_file i = false)
/\ allocate_block with_file = (0, with_file)).
Proof.
apply (allocate_block_first_free with_file).
vm_compute. discriminate.
Defined.

(** The links [root?/etc/a:/home/u/a] (inode 3) and [/tmp/x] (inode 4)
followed by uid 0 and by uid 1000. *)
Lemma follow_link_by_uid_witness :
ospfs_follow_link 64 with_links 3 0 = Some (Buffer etc_a)
/\ ospfs_follow_link 64 with_links 3 1000 = Some (Buffer home_u_a)
/\ ospfs_follow_link 64 with_links 4 1000
 = Some (Stored (link_oi 4 + OI_SYMLINK))
/\ link_text 64 with_links (Stored (link_oi 4 + OI_SYMLINK)) = Some tmp_x.
Proof.
assert (H3 : ospfs_inode with_links 3 = Some (link_oi 3))
by (vm_compute; reflexivity).
assert (H4 : ospfs_inode with_links 4 = Some (link_oi 4))
by (vm_compute; reflexivity).
destruct (follow_link_by_uid with_links 3 (link_oi 3) H3) as [C3 _].
destruct (follow_link_by_uid with_links 4 (link_oi 4) H4) as [_ P4].
split; [| split].
- apply (C3 etc_a home_u_a 0 64%nat);
try (vm_compute; reflexivity); try discriminate; try not_among.
vm_compute. lia.
- apply (C3 etc_a home_u_a 1000 64%nat);
try (vm_compute; reflexivity); try discriminate; try not_among.
vm_compute. lia.
- apply (P4 tmp_x 1000 64%nat);
try (vm_compute; reflexivity); try discriminate; try not_among.
vm_compute. lia.
Defined.

End Witnesses.

Section HardLinkSample.

Import Sample.

Lemma crowded_size : oi_size crowded root_oi = 1024.
Proof. vm_compute. reflexivity. Qed.

Lemma crowded_block : file_block crowded root_oi 0 = 4.
Proof. vm_compute. reflexivity. Qed.

Lemma crowded_map_words b :
0 <= b < 1 -> map_words crowded root_oi b = [root_oi + OI_DIRECT + 4 * b].
Proof.
intros Hb. unfold map_words.
destruct (Z.ltb_spec b OSPFS_NDIRECT); [reflexivity | consts; lia].
Qed.

(** The bitmap block and the blocks from 4 on hold none of the bytes of
[in_meta]. *)
Lemma crowded_no_meta a :
2048 <= a < 3072 \/ 4096 <= a ->
~ in_meta crowded root_oi file_oi 1 a.
Proof.
intros Ha [H | [H | [H | (b & w & Hb & Hw & Hx)]]].
- unfold ospfs_super, OS_NINODES, OS_FIRSTINOB in H. consts. lia.
- unfold root_oi in H. consts. lia.
- unfold file_oi, OI_NLINK in H. consts. lia.
- rewrite crowded_map_words in Hw by exact Hb. destruct Hw as [<- | []].
unfold root_oi, OI_DIRECT in Hx. consts. lia.
Qed.

(** The full root directory is separated. *)
Lemma crowded_sep : dir_sep crowded root_oi file_oi.
Proof.
assert (N : ospfs_size2nblocks (oi_size crowded root_oi) = 1)
by (vm_compute; reflexivity).
constructor; rewrite ?N.
- vm_compute. discriminate.
- vm_compute. reflexivity.
- vm_compute. discriminate.
- intros b Hb. assert (b = 0) by lia. subst b. rewrite crowded_block.
split; [lia |]. intros a Ha. apply crowded_no_meta.
change (ospfs_block 4) with 4096 in Ha. consts. lia.
- intros b b' Hb Hb' Hne. lia.
- intros a Ha. unfold file_oi, OI_NLINK in Ha.
split; [unfold ospfs_super, OS_NINODES, OS_FIRSTINOB; consts; lia |].
split; [unfold root_oi; consts; lia |].
intros b w Hb Hw Hx. rewrite crowded_map_words in Hw by exact Hb.
destruct Hw as [<- | []]. unfold root_oi, OI_DIRECT in Hx. consts. lia.
- intros b w Hb Hw. rewrite crowded_map_words in Hw by exact Hb.
destruct Hw.
- right. unfold root_oi, ospfs_super, OS_FIRSTINOB. consts. lia.
Qed.

(** Its free blocks are the blocks from 5 on. *)
Lemma crowded_free b :
3 <= b < 32 -> block_is_free crowded b = true -> 5 <= b.
Proof.
intros Hb Hf.
assert (C : b = 3 \/ b = 4 \/ 5 <= b) by lia.
destruct C as [-> | [-> | C]]; [| | exact C]; vm_compute in Hf; discriminate.
Qed.

(** It is full, and it can grow. *)
Lemma crowded_can_grow : can_grow crowded root_oi file_oi.
Proof.
assert (N : ospfs_size2nblocks (oi_size crowded root_oi) = 1)
by (vm_compute; reflexivity).
assert (Nb : os_nblocks crowded = 32) by (vm_compute; reflexivity).
assert (Nf : os_firstinob crowded = 3) by (vm_compute; reflexivity).
constructor; rewrite ?N, ?Nb, ?Nf.
- vm_compute. discriminate.
- vm_compute. reflexivity.
- intros b Hb Hf. pose proof (crowded_free b Hb Hf) as H5.
split; [consts; lia |]. split.
+ intros a Ha. apply crowded_no_meta. right.
rewrite block_no_wrap in Ha by lia. consts. lia.
+ intros b' Hb'. assert (b' = 0) by lia. subst b'.
rewrite crowded_block. lia.
- intros a Ha. split.
+ apply crowded_no_meta. left. unfold freemap0 in Ha. consts. lia.
+ intros b' Hb'. assert (b' = 0) by lia. subst b'.
rewrite crowded_block. consts. lia.
- intros w x Hw. unfold next_words in Hw.
destruct (Z.ltb_spec 1 OSPFS_NDIRECT); [destruct Hw | consts; lia].
Qed.

(** "hello" linked as "0123456789" and then unlinked, in the full
sample root directory: the link needs a new block. *)
Lemma link_then_unlink_witness :
exists od_g du,
find_direntry linked root_oi digits = Some od_g
/\ od_ino linked od_g = file_ino
/\ oi_nlink linked file_oi = 2
/\ ospfs_unlink linked root_ino file_ino hello = Some (0, du)
/\ od_ino du 4096 = 0
/\ find_direntry du root_oi digits = Some od_g
/\ od_ino du od_g = file_ino
/\ oi_nlink du file_oi = 1.
Proof.
assert (Hchars : forall l : list Z,
 forallb (fun c => (0 <? c) && (c <? 256)) l = true -> name_chars l).
{ intros l H. unfold name_chars. apply Forall_forall. intros c Hc.
rewrite forallb_forall in H. specialize (H c Hc).
apply andb_true_iff in H. destruct H as [H1 H2].
apply Z.ltb_lt in H1. apply Z.ltb_lt in H2. lia. }
apply (link_then_unlink crowded linked root_ino root_oi file_ino file_oi 4096
 hello digits).
- exact crowded_sep.
- rewrite crowded_size. vm_compute. discriminate.
- intros _. exact crowded_can_grow.
- vm_compute. reflexivity.
- vm_compute. reflexivity.
- apply Hchars. vm_compute. reflexivity.
- apply Hchars. vm_compute. reflexivity.
- vm_compute. discriminate.
- vm_compute. reflexivity.
- vm_compute. reflexivity.
- vm_compute. reflexivity.
- unfold linked.
destruct (ospfs_link crowded file_ino root_ino digits) as [[r e] |] eqn:E.
+ cbn [image_of]. apply (f_equal (option_map fst)) in E.
vm_compute in E. injection E as <-. reflexivity.
+ apply (f_equal (option_map fst)) in E. vm_compute in E. discriminate.
Defined.

End HardLinkSample.

(** * Further properties of the code *)

(** ** Bits, block counts and block indices *)

(** X1.  The bitvector operations behave as an array of bits: after
    [bitvector_set(vector, i)] the test of bit [i] is true, after
    [bitvector_clear(vector, i)] it is false, and the test of every
    other bit [j] is as before, for indices that are not negative. *)
Theorem bitvector_set_clear_test (d : image) (vector i j : Z) :
  0 <= i -> 0 <= j ->
  bitvector_test (bitvector_set d vector i) vector j
  = (if j =? i then true else bitvector_test d vector j)
  /\ bitvector_test (bitvector_clear d vector i) vector j
     = (if j =? i then false else bitvector_test d vector j).
Proof.
  intros Hi Hj.
  rewrite bitvector_test_set, bitvector_test_clear by assumption.
  destruct (Z.eqb_spec j i); cbn [negb].
  - now rewrite orb_true_r, andb_false_r.
  - now rewrite orb_false_r, andb_true_r.
Qed.

Lemma bitvector_set_clear_test_witness :
  bitvector_test (bitvector_set Sample.mkfs freemap0 37) freemap0 37
  = (if 37 =? 37 then true else bitvector_test Sample.mkfs freemap0 37)
  /\ bitvector_test (bitvector_clear Sample.mkfs freemap0 37) freemap0 37
     = (if 37 =? 37 then false else bitvector_test Sample.mkfs freemap0 37).
Proof. apply (bitvector_set_clear_test Sample.mkfs freemap0 37 37); lia. Defined.

(** X2.  [ospfs_size2nblocks] rounds the size up to whole blocks as long
    as [size + OSPFS_BLKSIZE - 1] fits 32 bits; for the larger sizes the
    sum wraps around and the result is 0. *)
Theorem size2nblocks_rounds_up_or_wraps (size : Z) :
  0 <= size < 4294967296 ->
  ospfs_size2nblocks size
  = (if size <=? 4294967296 - OSPFS_BLKSIZE
     then (size + OSPFS_BLKSIZE - 1) / OSPFS_BLKSIZE
     else 0).
Proof.
  intros H.
  destruct (Z.leb_spec size (4294967296 - OSPFS_BLKSIZE)).
  - apply size2nblocks_ceil. lia.
  - apply size2nblocks_wrapped. lia.
Qed.

Lemma size2nblocks_rounds_up_or_wraps_witness :
  ospfs_size2nblocks 4294967295
  = (if 4294967295 <=? 4294967296 - OSPFS_BLKSIZE
     then (4294967295 + OSPFS_BLKSIZE - 1) / OSPFS_BLKSIZE
     else 0).
Proof. apply (size2nblocks_rounds_up_or_wraps 4294967295). lia. Defined.

(** X3.  The index functions of [add_block] and [remove_block] name the
    words that [ospfs_inode_blockno] reads: for a file block [b] below the
    largest file size and an offset [o] of that block below the file
    size, the block map returns entry [direct_index b] of the inode's
    direct pointers, of the indirect block, or of the indirect block that
    entry [indir_index b] of the doubly indirect block names, according
    to [indir2_index b] and [indir_index b]. *)
Theorem block_indices_address_block_map (d : image) (oi o : Z) :
  0 <= o < oi_size d oi ->
  oi_ftype d oi <> OSPFS_FTYPE_SYMLINK ->
  o / OSPFS_BLKSIZE
  < OSPFS_NDIRECT + OSPFS_NINDIRECT + OSPFS_NINDIRECT * OSPFS_NINDIRECT ->
  let b := o / OSPFS_BLKSIZE in
  ospfs_inode_blockno d oi o
  = (if indir2_index b =? 0 then
       word_at d
         (ospfs_block (word_at d (ospfs_block (oi_indirect2 d oi)) (indir_index b)))
         (direct_index b)
     else if indir_index b =? 0 then
       word_at d (ospfs_block (oi_indirect d oi)) (direct_index b)
     else oi_direct d oi (direct_index b)).
Proof.
  intros Ho Ht Hb b.
  assert (Hb0 : 0 <= b) by (apply Z.div_pos; consts; lia).
  destruct (Z_lt_ge_dec b OSPFS_NDIRECT) as [L1 | G1].
  - rewrite blockno_direct by (try assumption; lia). fold b.
    assert (E2 : indir2_index b = -1) by idx.
    assert (E1 : indir_index b = -1) by idx.
    assert (E0 : direct_index b = b) by idx.
    now rewrite E2, E1, E0.
  - destruct (Z_lt_ge_dec b (OSPFS_NDIRECT + OSPFS_NINDIRECT)) as [L2 | G2].
    + rewrite blockno_indirect by (try assumption; fold b; lia). fold b.
      assert (E2 : indir2_index b = -1) by idx.
      assert (E1 : indir_index b = 0) by idx.
      assert (E0 : direct_index b = b - OSPFS_NDIRECT) by idx.
      now rewrite E2, E1, E0.
    + rewrite blockno_indirect2 by (try assumption; fold b; lia). fold b.
      pose proof (Z.div_mod (b - (OSPFS_NDIRECT + OSPFS_NINDIRECT)) OSPFS_NINDIRECT
                    ltac:(consts; lia)) as D.
      pose proof (Z.mod_pos_bound (b - (OSPFS_NDIRECT + OSPFS_NINDIRECT))
                    OSPFS_NINDIRECT ltac:(consts; lia)) as B.
      assert (Q : 0 <= (b - (OSPFS_NDIRECT + OSPFS_NINDIRECT)) / OSPFS_NINDIRECT
                  < OSPFS_NINDIRECT).
      { split; [apply Z.div_pos; consts; lia |].
        apply Z.div_lt_upper_bound; consts; lia. }
      destruct (indices_indirect2 b
                  ((b - (OSPFS_NDIRECT + OSPFS_NINDIRECT)) / OSPFS_NINDIRECT)
                  ((b - (OSPFS_NDIRECT + OSPFS_NINDIRECT)) mod OSPFS_NINDIRECT)
                  ltac:(lia) Q B) as (E2 & E1 & E0).
      rewrite E2, E1, E0. change (0 =? 0) with true. cbv iota.
      now rewrite <- !Z.sub_add_distr.
Qed.

Lemma block_indices_address_block_map_witness :
  let b := 3 / OSPFS_BLKSIZE in
  ospfs_inode_blockno Sample.five_bytes Sample.file_oi 3
  = (if indir2_index b =? 0 then
       word_at Sample.five_bytes
         (ospfs_block (word_at Sample.five_bytes
                         (ospfs_block (oi_indirect2 Sample.five_bytes Sample.file_oi))
                         (indir_index b)))
         (direct_index b)
     else if indir_index b =? 0 then
       word_at Sample.five_bytes
         (ospfs_block (oi_indirect Sample.five_bytes Sample.file_oi))
         (direct_index b)
     else oi_direct Sample.five_bytes Sample.file_oi (direct_index b)).
Proof.
  apply (block_indices_address_block_map Sample.five_bytes Sample.file_oi 3).
  - vm_compute. split; [discriminate | reflexivity].
  - vm_compute. discriminate.
  - vm_compute. reflexivity.
Defined.

(** ** The results of [change_size] *)

Lemma add_block_codes (d : image) (oi : Z) :
  fst (add_block d oi) = 0 \/ fst (add_block d oi) = - ENOSPC.
Proof.
  unfold add_block.
  destruct (ospfs_size2nblocks (oi_size d oi) =? 0).
  - destruct (allocate_block d) as [b d1].
    destruct (b =? 0); [now right | now left].
  - match goal with
    | |- context [allocate_all ?k d []] =>
        destruct (allocate_all k d []) as [[bs |] d1]
    end; [now left | now right].
Qed.

Lemma remove_block_code (d : image) (oi : Z) : fst (remove_block d oi) = 0.
Proof. reflexivity. Qed.

Lemma change_size_grow_codes (oi new_size : Z) :
  forall fuel d r d1,
    change_size_grow fuel d oi new_size = Some (r, d1) ->
    r = 0 \/ r = - ENOSPC.
Proof.
  induction fuel as [| fuel IH]; intros d r d1 H; cbn [change_size_grow] in H;
    destruct (ospfs_size2nblocks (oi_size d oi) <? ospfs_size2nblocks new_size);
    try discriminate; try (injection H as <- _; now left).
  pose proof (add_block_codes d oi) as C.
  destruct (add_block d oi) as [r0 e]. cbn [fst] in C.
  destruct (r0 <? 0); [injection H as <- _; exact C | exact (IH _ _ _ H)].
Qed.

Lemma change_size_shrink_codes (oi new_size : Z) :
  forall fuel d r d1,
    change_size_shrink fuel d oi new_size = Some (r, d1) -> r = 0.
Proof.
  induction fuel as [| fuel IH]; intros d r d1 H; cbn [change_size_shrink] in H;
    destruct (ospfs_size2nblocks (oi_size d oi) >? ospfs_size2nblocks new_size);
    try discriminate; try (injection H as <- _; reflexivity).
  pose proof (remove_block_code d oi) as C.
  destruct (remove_block d oi) as [r0 e]. cbn [fst] in C. subst r0.
  cbn [Z.ltb Z.compare] in H. exact (IH _ _ _ H).
Qed.


(** ** Searching a directory *)

Lemma ino_positive (d : image) (od : Z) :
  (od_ino d od >? 0) = negb (od_ino d od =? 0).
Proof.
  pose proof (load32_range d (od + OD_INO)) as R. unfold od_ino.
  destruct (Z.gtb_spec (load32 d (od + OD_INO)) 0);
    destruct (Z.eqb_spec (load32 d (od + OD_INO)) 0); try reflexivity; lia.
Qed.

Lemma rounds_cover (d : image) (dir_oi : Z) (i : nat) :
  OSPFS_DIRENTRY_SIZE * Z.of_nat i < oi_size d dir_oi ->
  (i < dir_rounds d dir_oi)%nat.
Proof.
  intros H. unfold dir_rounds. consts.
  assert (Z.of_nat i + 1 <= (oi_size d dir_oi + 128 - 1) / 128); [| lia].
  apply Z.div_le_lower_bound; lia.
Qed.

Lemma lookup_scan_find (d : image) (dir_oi : Z) (name : list Z) :
  forall left off,
    lookup_scan left d dir_oi name off = find_direntry_loop left d dir_oi name off.
Proof.
  induction left as [| left IH]; intros off; [reflexivity |].
  cbn [lookup_scan find_direntry_loop]. rewrite ino_positive, IH. reflexivity.
Qed.

(** The scan of [ospfs_unlink] when no entry matches: it stops at the
    first offset that is not below the size, or after [left] rounds. *)
Lemma unlink_scan_none (d : image) (dir_oi : Z) (name : list Z) :
  forall left off od0,
    (forall i : nat, (i < left)%nat ->
       off + OSPFS_DIRENTRY_SIZE * Z.of_nat i < oi_size d dir_oi ->
       entry_matches d dir_oi name (off + OSPFS_DIRENTRY_SIZE * Z.of_nat i) = false) ->
    exists (k : nat) od1,
      unlink_scan left d dir_oi name off od0
      = (off + OSPFS_DIRENTRY_SIZE * Z.of_nat k, od1)
      /\ (k <= left)%nat
      /\ ((k < left)%nat ->
          oi_size d dir_oi <= off + OSPFS_DIRENTRY_SIZE * Z.of_nat k).
Proof.
  induction left as [| left IH]; intros off od0 Hno.
  - exists O, od0. cbn [unlink_scan]. rewrite Z.mul_0_r, Z.add_0_r.
    repeat split; lia.
  - cbn [unlink_scan].
    destruct (Z.ltb_spec off (oi_size d dir_oi)) as [L | L].
    + pose proof (Hno O ltac:(lia)) as H0.
      rewrite Z.mul_0_r, Z.add_0_r in H0. specialize (H0 L).
      unfold entry_matches, slot in H0. rewrite ino_positive, H0.
      destruct (IH (off + OSPFS_DIRENTRY_SIZE)
                  (Some (ospfs_inode_data d dir_oi off))) as (k & od1 & E & Hk & Hend).
      { intros i Hi Hlt.
        replace (off + OSPFS_DIRENTRY_SIZE + OSPFS_DIRENTRY_SIZE * Z.of_nat i)
          with (off + OSPFS_DIRENTRY_SIZE * Z.of_nat (S i)) in * by lia.
        apply Hno; [lia | exact Hlt]. }
      exists (S k), od1. rewrite E.
      replace (off + OSPFS_DIRENTRY_SIZE + OSPFS_DIRENTRY_SIZE * Z.of_nat k)
        with (off + OSPFS_DIRENTRY_SIZE * Z.of_nat (S k)) in * by lia.
      repeat split; [lia |]. intros Hlt. apply Hend. lia.
    + exists O, od0. rewrite Z.mul_0_r, Z.add_0_r. repeat split; lia.
Qed.

(** X5.  [find_direntry] returns the first entry of the directory, in
    steps of [OSPFS_DIRENTRY_SIZE] below the size, whose inode number is
    not 0 and whose name is [name]; it returns the null pointer exactly
    when no entry below the size is such. *)
Theorem find_direntry_first_match (d : image) (dir_oi : Z) (name : list Z) :
  match find_direntry d dir_oi name with
  | Some od =>
      exists i : nat,
        OSPFS_DIRENTRY_SIZE * Z.of_nat i < oi_size d dir_oi
        /\ od = ospfs_inode_data d dir_oi (OSPFS_DIRENTRY_SIZE * Z.of_nat i)
        /\ entry_matches d dir_oi name (OSPFS_DIRENTRY_SIZE * Z.of_nat i) = true
        /\ forall j : nat, (j < i)%nat ->
             entry_matches d dir_oi name (OSPFS_DIRENTRY_SIZE * Z.of_nat j) = false
  | None =>
      forall i : nat,
        OSPFS_DIRENTRY_SIZE * Z.of_nat i < oi_size d dir_oi ->
        entry_matches d dir_oi name (OSPFS_DIRENTRY_SIZE * Z.of_nat i) = false
  end.
Proof.
  destruct (find_direntry d dir_oi name) as [od |] eqn:E; unfold find_direntry in E.
  - destruct (find_loop_some_inv d dir_oi name _ _ _ E)
      as (i & _ & Hlt & Hno & Hyes & Hod).
    rewrite Z.add_0_l in *. exists i.
    split; [exact Hlt |]. split; [exact Hod |]. split; [exact Hyes |].
    intros j Hj. specialize (Hno j Hj). now rewrite Z.add_0_l in Hno.
  - intros i Hi.
    pose proof (find_loop_none_inv d dir_oi name _ _ E i
                  (rounds_cover d dir_oi i Hi)) as H.
    rewrite Z.add_0_l in H. now apply H.
Qed.

(** X6.  For a name of at most [OSPFS_MAXNAMELEN] characters
    [ospfs_dir_lookup] finds what [find_direntry] finds: a negative
    dentry when [find_direntry] returns null, else the inode whose number
    the entry found holds, or [-EINVAL] when [ospfs_mk_linux_inode]
    returns null for it; where [ospfs_mk_linux_inode] panics, on an
    inode of unknown type, the lookup does not return. *)
Theorem dir_lookup_as_find_direntry (d : image) (dir_ino dir_oi : Z)
    (name : list Z) (new_inode_ok : bool) :
  Z.of_nat (length name) <= OSPFS_MAXNAMELEN ->
  ospfs_inode d dir_ino = Some dir_oi ->
  ospfs_dir_lookup d dir_ino name new_inode_ok
  = match find_direntry d dir_oi name with
    | None => Some LookupNegative
    | Some od =>
        match ospfs_mk_linux_inode d (od_ino d od) new_inode_ok with
        | None => None
        | Some true => Some (LookupFound (od_ino d od))
        | Some false => Some (LookupErr (- EINVAL))
        end
    end.
Proof.
  intros Hlen Hoi. unfold ospfs_dir_lookup, find_direntry.
  destruct (Z.gtb_spec (Z.of_nat (length name)) OSPFS_MAXNAMELEN); [lia |].
  rewrite Hoi, lookup_scan_find.
  destruct (find_direntry_loop _ d dir_oi name 0) as [od |]; reflexivity.
Qed.

Lemma dir_lookup_as_find_direntry_witness :
  ospfs_dir_lookup Sample.crowded Sample.root_ino [100] true
  = match find_direntry Sample.crowded Sample.root_oi [100]
      return option lookup_result with
    | None => Some LookupNegative
    | Some od =>
        match ospfs_mk_linux_inode Sample.crowded (od_ino Sample.crowded od) true with
        | None => None
        | Some true => Some (LookupFound (od_ino Sample.crowded od))
        | Some false => Some (LookupErr (- EINVAL))
        end
    end.
Proof.
  apply (dir_lookup_as_find_direntry Sample.crowded Sample.root_ino
           Sample.root_oi [100] true).
  - vm_compute. discriminate.
  - vm_compute. reflexivity.
Defined.

(** X7.  In a directory whose size is a whole number of entries
    [ospfs_unlink] acts on the entry [find_direntry] returns for the
    name: it sets that entry's inode number to 0, takes one from the link
    count of the file and returns 0; when [find_direntry] returns null it
    returns [-ENOENT] and changes nothing. *)
Theorem unlink_as_find_direntry (d : image) (dir_ino ino dir_oi oi : Z)
    (name : list Z) :
  ospfs_inode d dir_ino = Some dir_oi ->
  ospfs_inode d ino = Some oi ->
  oi_size d dir_oi mod OSPFS_DIRENTRY_SIZE = 0 ->
  ospfs_unlink d dir_ino ino name
  = match find_direntry d dir_oi name with
    | None => Some (- ENOENT, d)
    | Some od =>
        let d1 := set_od_ino d od 0 in
        Some (0, set_oi_nlink d1 oi (oi_nlink d1 oi - 1))
    end.
Proof.
  intros Hdir Hoi Hal. unfold ospfs_unlink. rewrite Hdir.
  destruct (find_direntry d dir_oi name) as [od |] eqn:E; unfold find_direntry in E.
  - destruct (find_loop_some_inv d dir_oi name _ _ _ E)
      as (i & Hi & Hlt & Hno & Hyes & Hod).
    rewrite (unlink_scan_first d dir_oi name _ 0 i None Hi Hlt Hno Hyes).
    destruct (Z.eqb_spec (0 + OSPFS_DIRENTRY_SIZE * Z.of_nat i) (oi_size d dir_oi));
      [lia |].
    rewrite Hoi, <- Hod. reflexivity.
  - destruct (unlink_scan_none d dir_oi name (dir_rounds d dir_oi) 0 None)
      as (k & od1 & Es & Hk & Hend).
    { intros i Hi Hlt. now apply (find_loop_none_inv d dir_oi name _ _ E). }
    rewrite Es.
    assert (Hsize : OSPFS_DIRENTRY_SIZE * Z.of_nat (dir_rounds d dir_oi)
                    = oi_size d dir_oi).
    { unfold dir_rounds.
      pose proof (load32_range d (dir_oi + OI_SIZE)) as R.
      fold (oi_size d dir_oi) in R. consts.
      pose proof (Z.div_mod (oi_size d dir_oi) 128 ltac:(lia)) as D.
      assert (Eq : (oi_size d dir_oi + 128 - 1) / 128 = oi_size d dir_oi / 128).
      { symmetry. apply (Z.div_unique _ _ _ 127); lia. }
      rewrite Eq, Z2Nat.id by (apply Z.div_pos; lia). lia. }
    destruct (Nat.eq_dec k (dir_rounds d dir_oi)) as [-> | Hne].
    + rewrite Z.add_0_l, Hsize, Z.eqb_refl. reflexivity.
    + specialize (Hend ltac:(lia)). exfalso.
      assert (Z.of_nat k < Z.of_nat (dir_rounds d dir_oi)) by lia.
      consts. nia.
Qed.

Lemma unlink_as_find_direntry_witness :
  ospfs_unlink Sample.crowded Sample.root_ino Sample.file_ino Sample.hello
  = match find_direntry Sample.crowded Sample.root_oi Sample.hello
          return option (Z * image) with
    | None => Some (- ENOENT, Sample.crowded)
    | Some od =>
        let d1 := set_od_ino Sample.crowded od 0 in
        Some (0, set_oi_nlink d1 Sample.file_oi (oi_nlink d1 Sample.file_oi - 1))
    end.
Proof.
  apply (unlink_as_find_direntry Sample.crowded Sample.root_ino Sample.file_ino
           Sample.root_oi Sample.file_oi Sample.hello).
  - vm_compute. reflexivity.
  - vm_compute. reflexivity.
  - vm_compute. reflexivity.
Defined.

(** ** The allocator: blocks handed out and given back *)

Lemma same_bytes_refl (d : image) : same_bytes d d.
Proof. intros a. reflexivity. Qed.

Lemma same_bytes_trans (d e f : image) :
  same_bytes d e -> same_bytes e f -> same_bytes d f.
Proof. intros H1 H2 a. now rewrite H1. Qed.

Lemma same_bytes_load32 (d e : image) (a : Z) :
  same_bytes d e -> load32 d a = load32 e a.
Proof. intros H. unfold load32. now rewrite !H. Qed.

Lemma same_bytes_store32 (d e : image) (a v : Z) :
  same_bytes d e -> same_bytes (store32 d a v) (store32 e a v).
Proof.
  intros H x. specialize (H x). unfold load8, store32, store8 in *.
  repeat match goal with
         | |- context [?p =? ?q] => destruct (Z.eqb_spec p q)
         end; try reflexivity; exact H.
Qed.

Lemma same_bytes_set (d e : image) (vector i : Z) :
  same_bytes d e -> same_bytes (bitvector_set d vector i) (bitvector_set e vector i).
Proof.
  intros H. unfold bitvector_set. rewrite (same_bytes_load32 d e) by exact H.
  now apply same_bytes_store32.
Qed.

Lemma same_bytes_free (d e : image) (b : Z) :
  same_bytes d e -> same_bytes (free_block d b) (free_block e b).
Proof. intros H. unfold free_block. now apply same_bytes_set. Qed.

Lemma same_bytes_free_all (bs : list Z) :
  forall d e, same_bytes d e ->
    same_bytes (fold_left free_block bs d) (fold_left free_block bs e).
Proof.
  induction bs as [| b bs IH]; intros d e H; [exact H |].
  cbn [fold_left]. apply IH. now apply same_bytes_free.
Qed.

(** Two images that hold the same word at [w] and the same bytes
    elsewhere read the same. *)
Lemma same_word (d e : image) (w : Z) :
  (forall x, x < w \/ w + 4 <= x -> load8 e x = load8 d x) ->
  load32 e w = load32 d w -> same_bytes e d.
Proof.
  intros Hout Hw x.
  destruct (Z_lt_ge_dec x w) as [L | G]; [apply Hout; lia |].
  destruct (Z_lt_ge_dec x (w + 4)) as [L' | G']; [| apply Hout; lia].
  unfold load32 in Hw.
  pose proof (load8_range d w). pose proof (load8_range d (w + 1)).
  pose proof (load8_range d (w + 2)). pose proof (load8_range d (w + 3)).
  pose proof (load8_range e w). pose proof (load8_range e (w + 1)).
  pose proof (load8_range e (w + 2)). pose proof (load8_range e (w + 3)).
  assert (C : x = w \/ x = w + 1 \/ x = w + 2 \/ x = w + 3) by lia.
  destruct C as [-> | [-> | [-> | ->]]]; lia.
Qed.

Lemma word_bits_eq (x y : Z) :
  0 <= x < 4294967296 -> 0 <= y < 4294967296 ->
  (forall k, 0 <= k < 32 -> Z.testbit x k = Z.testbit y k) -> x = y.
Proof.
  intros Hx Hy H.
  rewrite <- (Z.mod_small x 4294967296), <- (Z.mod_small y 4294967296) by lia.
  change 4294967296 with (2 ^ 32).
  apply Z.bits_inj'. intros k Hk.
  destruct (Z_lt_ge_dec k 32) as [L | G].
  - rewrite !Z.mod_pow2_bits_low by lia. apply H. lia.
  - now rewrite !Z.mod_pow2_bits_high by lia.
Qed.

(** Setting a bit that was set before it was cleared gives the bitmap
    back. *)
Lemma set_clear_restores (d : image) (vector i : Z) :
  0 <= i -> bitvector_test d vector i = true ->
  same_bytes (bitvector_set (bitvector_clear d vector i) vector i) d.
Proof.
  intros Hi Ht. rewrite bitvector_test_bit in Ht by exact Hi.
  pose proof (Z.mod_pos_bound i 32 ltac:(lia)) as Bi.
  apply (same_word _ _ (vector + 4 * (i / 32))).
  - intros x Hx. unfold bitvector_set, bitvector_clear.
    rewrite Z.quot_div_nonneg by lia.
    now rewrite !load8_store32_other by lia.
  - unfold bitvector_set, bitvector_clear.
    rewrite Z.quot_div_nonneg, Z.rem_mod_nonneg by lia.
    rewrite !load32_store32_same.
    apply word_bits_eq; [apply Z.mod_pos_bound; lia | apply load32_range |].
    intros k Hk.
    rewrite u32_testbit, Z.lor_spec, !u32_testbit, Z.land_spec, u32_testbit,
      Z.lnot_spec by lia.
    rewrite Z.shiftl_1_l, Z.pow2_bits_eqb by lia.
    destruct (Z.eqb_spec (i mod 32) k) as [<- | N]; cbn [negb].
    + now rewrite Ht, orb_true_r.
    + now rewrite andb_true_r, orb_false_r.
Qed.

Lemma free_block_small (d : image) (b : Z) :
  0 <= b < OSPFS_BLKBITSIZE -> free_block d b = bitvector_set d freemap0 b.
Proof.
  intros Hb. unfold free_block, freemap0.
  now rewrite Z.div_small, Z.mod_small, Z.add_0_r by exact Hb.
Qed.

Lemma free_super (d : image) (b : Z) :
  0 <= b < OSPFS_BLKBITSIZE ->
  os_nblocks (free_block d b) = os_nblocks d
  /\ os_firstinob (free_block d b) = os_firstinob d.
Proof.
  intros Hb. rewrite free_block_small by exact Hb.
  unfold os_nblocks, os_firstinob, bitvector_set.
  rewrite Z.quot_div_nonneg by lia.
  split; apply load32_store32_other;
    unfold freemap0, ospfs_super, OS_NBLOCKS, OS_FIRSTINOB in *; consts;
    pose proof (Z.div_mod b 32 ltac:(lia));
    pose proof (Z.mod_pos_bound b 32 ltac:(lia)); lia.
Qed.

(** X8.  On an image whose bitmap fits one block, giving back the block
    that [allocate_block] has just handed out leaves every byte of the
    image as it was before the allocation. *)
Theorem allocate_then_free_restores (d d1 : image) (b : Z) :
  os_nblocks d <= OSPFS_BLKBITSIZE ->
  allocate_block d = (b, d1) -> b <> 0 ->
  same_bytes (free_block d1 b) d.
Proof.
  intros Hn Ha Hb.
  pose proof (load32_range d (ospfs_super + OS_FIRSTINOB)) as Hf.
  fold (os_firstinob d) in Hf.
  destruct (allocate_block_cases d Hn) as [E | (b' & Hr & Hfree & E)];
    rewrite E in Ha; injection Ha as <- <-; [contradiction |].
  rewrite free_block_small by lia.
  apply set_clear_restores; [lia | exact Hfree].
Qed.

Lemma allocate_then_free_restores_witness :
  same_bytes
    (free_block (snd (allocate_block Sample.with_file))
       (fst (allocate_block Sample.with_file)))
    Sample.with_file.
Proof.
  apply (allocate_then_free_restores Sample.with_file).
  - vm_compute. discriminate.
  - apply surjective_pairing.
  - vm_compute. discriminate.
Defined.

(** [allocate_block] on a one-block bitmap hands out the lowest free
    block of its range. *)
Lemma allocate_block_lowest (d : image) :
  os_nblocks d <= OSPFS_BLKBITSIZE ->
  (exists c,
      os_firstinob d <= c < os_nblocks d
      /\ block_is_free d c = true
      /\ (forall i, os_firstinob d <= i < c -> block_is_free d i = false)
      /\ allocate_block d = (c, bitvector_clear d freemap0 c))
  \/ ((forall i, os_firstinob d <= i < os_nblocks d -> block_is_free d i = false)
      /\ allocate_block d = (0, d)).
Proof.
  intros Hn. unfold allocate_block, block_is_free.
  pose proof (load32_range d (ospfs_super + OS_FIRSTINOB)) as Hf.
  fold (os_firstinob d) in Hf.
  destruct (Z_le_gt_dec (os_nblocks d) (os_firstinob d)) as [Hempty | Hsome].
  { right. split; [intros i Hi; lia |].
    replace (Z.to_nat (os_nblocks d - os_firstinob d)) with O by lia.
    reflexivity. }
  assert (Hle : os_firstinob d + Z.of_nat (Z.to_nat (os_nblocks d - os_firstinob d))
                <= OSPFS_BLKBITSIZE) by lia.
  destruct (allocate_block_scan_first
              (Z.to_nat (os_nblocks d - os_firstinob d)) d
              freemap0 0 (os_firstinob d) (proj1 Hf) Hle)
    as [(c & Hc & Tc & Hlow & Hres) | (Hnone & Hres)].
  - left. exists c. split; [lia |]. now repeat split.
  - right. split; [| exact Hres]. intros i Hi. apply Hnone. lia.
Qed.

(** X9.  On an image whose bitmap fits one block, [allocate_block] right
    after [free_block(b)], for a block [b] from [os_firstinob] on and
    below [os_nblocks], hands out a block: [b] itself, or a block below
    [b] that was free before. *)
Theorem free_then_allocate (d : image) (b : Z) :
  os_firstinob d <= b < os_nblocks d ->
  os_nblocks d <= OSPFS_BLKBITSIZE ->
  let b' := fst (allocate_block (free_block d b)) in
  os_firstinob d <= b' <= b
  /\ (b' = b \/ block_is_free d b' = true).
Proof.
  intros Hb Hn b'.
  pose proof (load32_range d (ospfs_super + OS_FIRSTINOB)) as Hf.
  fold (os_firstinob d) in Hf.
  destruct (free_super d b ltac:(lia)) as [En Ef].
  destruct (allocate_block_lowest (free_block d b)) as
    [(c & Hc & Hfree & Hlow & E) | (Hnone & E)]; [rewrite En; exact Hn | |].
  - subst b'. rewrite E. cbn [fst]. rewrite En, Ef in Hc.
    rewrite Ef in Hlow.
    unfold block_is_free in *. rewrite free_block_small in * by lia.
    destruct (Z_le_gt_dec c b) as [L | G].
    + split; [lia |].
      rewrite bitvector_test_set in Hfree by lia.
      destruct (Z.eqb_spec c b); [now left | right].
      now rewrite orb_false_r in Hfree.
    + specialize (Hlow b ltac:(lia)).
      rewrite bitvector_test_set, Z.eqb_refl, orb_true_r in Hlow by lia.
      discriminate.
  - rewrite En, Ef in Hnone. specialize (Hnone b Hb).
    unfold block_is_free in Hnone. rewrite free_block_small in Hnone by lia.
    rewrite bitvector_test_set, Z.eqb_refl, orb_true_r in Hnone by lia.
    discriminate.
Qed.

Lemma free_then_allocate_witness :
  let b' := fst (allocate_block (free_block Sample.one_free 9)) in
  os_firstinob Sample.one_free <= b' <= 9
  /\ (b' = 9 \/ block_is_free Sample.one_free b' = true).
Proof.
  apply (free_then_allocate Sample.one_free 9).
  - vm_compute. split; [discriminate | reflexivity].
  - vm_compute. discriminate.
Defined.

(** The allocation loop of [add_block] when it gives up: the blocks it
    had obtained are free again. *)
Lemma allocate_all_gives_back (k : nat) :
  forall (e : image) (acc : list Z),
    os_nblocks e <= OSPFS_BLKBITSIZE -> 0 < os_firstinob e ->
    fst (allocate_all k e acc) = None ->
    same_bytes (snd (allocate_all k e acc)) (fold_left free_block (rev acc) e).
Proof.
  induction k as [| k IH]; intros e acc Hn Hf Hnone; [discriminate |].
  cbn [allocate_all] in *.
  destruct (allocate_block_cases e Hn) as [E | (b & Hr & Hfree & E)];
    rewrite E in *.
  - cbn [Z.eqb snd]. apply same_bytes_refl.
  - destruct (Z.eqb_spec b 0) as [Hz | Hnz]; [lia |].
    destruct (claim_super e b ltac:(lia)) as [En Ef].
    eapply same_bytes_trans.
    + apply IH; [rewrite En; exact Hn | rewrite Ef; exact Hf | exact Hnone].
    + rewrite rev_app_distr. cbn [rev app fold_left].
      apply same_bytes_free_all.
      rewrite free_block_small by lia.
      apply set_clear_restores; [lia | exact Hfree].
Qed.

(** X10.  On an image whose bitmap fits one block and whose
    [os_firstinob] is not 0, [add_block] on a file that has a block
    already returns 0 or [-ENOSPC], and when it returns [-ENOSPC] every
    byte of the image is as before: the blocks it had allocated are free
    again and the inode is untouched. *)
Theorem add_block_enospc_restores (d : image) (oi : Z) :
  os_nblocks d <= OSPFS_BLKBITSIZE -> 0 < os_firstinob d ->
  ospfs_size2nblocks (oi_size d oi) <> 0 ->
  fst (add_block d oi) = 0
  \/ fst (add_block d oi) = - ENOSPC /\ same_bytes (snd (add_block d oi)) d.
Proof.
  intros Hn Hf Hk. unfold add_block.
  destruct (Z.eqb_spec (ospfs_size2nblocks (oi_size d oi)) 0); [contradiction |].
  set (k := if negb (indir2_index _ =? indir2_index _) then 3%nat
            else if negb (indir_index _ =? indir_index _) then 2%nat else 1%nat).
  pose proof (allocate_all_gives_back k d [] Hn Hf) as H.
  destruct (allocate_all k d []) as [[bs |] d1]; [now left | right].
  cbn [fst snd] in *. split; [reflexivity |]. now apply H.
Qed.

Lemma add_block_enospc_restores_witness :
  fst (add_block Sample.ten_blocks Sample.file_oi) = 0
  \/ fst (add_block Sample.ten_blocks Sample.file_oi) = - ENOSPC
     /\ same_bytes (snd (add_block Sample.ten_blocks Sample.file_oi))
          Sample.ten_blocks.
Proof.
  apply (add_block_enospc_restores Sample.ten_blocks Sample.file_oi).
  - vm_compute. discriminate.
  - vm_compute. reflexivity.
  - vm_compute. discriminate.
Defined.

(** ** The entry [create_blank_direntry] returns *)

(** X11.  In a separated directory that is not empty, with room for one
    more entry below the largest size and, when every entry of its last
    block is taken, free blocks apart from its own, [create_blank_direntry]
    returns: either the error [-ENOSPC], or an entry of the directory as
    it is afterwards, one that was there with inode number 0 or else a
    new last entry.  In the second case the entries that were there keep
    their place, inode number and name, the inode numbering and the link
    count stay, and the directory is still separated. *)
Theorem create_blank_direntry_outcome (d : image) (dir_oi f_oi : Z) :
  dir_sep d dir_oi f_oi ->
  oi_size d dir_oi + OSPFS_DIRENTRY_SIZE <= 4294967296 - 2 * OSPFS_BLKSIZE ->
  (dir_full d dir_oi -> can_grow d dir_oi f_oi) ->
  0 < oi_size d dir_oi ->
  exists res d1,
    create_blank_direntry d dir_oi = Some (res, d1)
    /\ match res with
       | Ptr od => blank_post d d1 dir_oi f_oi od
       | ErrPtr e => e = - ENOSPC
       end.
Proof.
  intros Hsep Hroom Hgrow Hpos.
  pose proof (cb_size_range d dir_oi Hroom) as R.
  unfold create_blank_direntry.
  destruct (blank_scan (S (dir_rounds d dir_oi)) d dir_oi 0) as [od | p] eqn:Hscan.
  - exists (Ptr od), d. split; [reflexivity |].
    exact (cb_found d dir_oi f_oi Hsep Hroom od Hscan).
  - destruct (cb_not_found d dir_oi f_oi Hsep Hroom p Hscan) as [-> Htaken].
    rewrite u32_small by (consts; lia).
    destruct (Z.eq_dec (oi_size d dir_oi mod OSPFS_BLKSIZE) 0) as [Hm | Hm].
    + assert (Hfull : dir_full d dir_oi) by (split; assumption).
      pose proof (nb_n1 d dir_oi f_oi Hsep Hroom Hgrow Hfull Hpos) as N1.
      destruct (nb_tiers d dir_oi f_oi Hsep Hroom Hgrow Hfull Hpos)
        as [Hfail | (e & Hcs & Hpost)].
      * unfold change_size. rewrite N1.
        replace (Z.to_nat (Z.abs (ospfs_size2nblocks (oi_size d dir_oi) + 1
                                  - ospfs_size2nblocks (oi_size d dir_oi))))
          with 1%nat by lia.
        cbn [change_size_grow]. rewrite N1.
        destruct (Z.ltb_spec (ospfs_size2nblocks (oi_size d dir_oi))
                    (ospfs_size2nblocks (oi_size d dir_oi) + 1)); [| lia].
        destruct (add_block d dir_oi) as [r e]. cbn [fst] in Hfail. subst r.
        exists (ErrPtr (- ENOSPC)), e. split; reflexivity.
      * rewrite Hcs. cbn [Z.ltb Z.compare].
        exists (Ptr (ospfs_inode_data e dir_oi (oi_size d dir_oi))), e.
        split; [reflexivity | exact Hpost].
    + rewrite change_size_idle.
      * cbn [Z.ltb Z.compare].
        eexists _, _. split; [reflexivity |].
        exact (cb_same_block d dir_oi f_oi Hsep Hroom Hm).
      * apply same_block_count; try assumption; try apply R.
        apply (sep_aligned _ _ _ Hsep).
Qed.

Lemma create_blank_direntry_outcome_witness :
  exists res d1,
    create_blank_direntry Sample.crowded Sample.root_oi = Some (res, d1)
    /\ match res with
       | Ptr od => blank_post Sample.crowded d1 Sample.root_oi Sample.file_oi od
       | ErrPtr e => e = - ENOSPC
       end.
Proof.
  apply (create_blank_direntry_outcome Sample.crowded Sample.root_oi
           Sample.file_oi).
  - exact crowded_sep.
  - rewrite crowded_size. vm_compute. discriminate.
  - intros _. exact crowded_can_grow.
  - vm_compute. reflexivity.
Defined.

(** ** Reading and writing a file *)

Lemma load_bytes_map (d : image) (n : nat) :
  forall a, load_bytes d a n = map (fun i => load8 d (a + Z.of_nat i)) (seq 0 n).
Proof.
  induction n as [| n IH]; intros a; [reflexivity |].
  cbn [load_bytes seq map]. rewrite Z.add_0_r, IH, <- seq_shift, map_map.
  f_equal. apply map_ext. intros i. f_equal. lia.
Qed.

Lemma map_seq_from (A : Type) (f : nat -> A) (n m : nat) :
  forall s, map f (seq (n + s) m) = map (fun i => f (n + i)%nat) (seq s m).
Proof.
  induction m as [| m IH]; intros s; [reflexivity |].
  cbn [seq map]. f_equal. rewrite <- IH. now rewrite Nat.add_succ_r.
Qed.

Lemma file_bytes_app (d : image) (oi pos : Z) (n m : nat) :
  file_bytes d oi pos (n + m)
  = file_bytes d oi pos n ++ file_bytes d oi (pos + Z.of_nat n) m.
Proof.
  unfold file_bytes. rewrite seq_app, map_app. f_equal.
  rewrite Nat.add_0_l, <- (Nat.add_0_r n) at 1. rewrite map_seq_from.
  apply map_ext. intros i. f_equal. lia.
Qed.

(** The block map looks at an offset below the size through its block
    index only. *)
Lemma blockno_same_block (d : image) (oi o o' : Z) :
  o < oi_size d oi -> o' < oi_size d oi ->
  o / OSPFS_BLKSIZE = o' / OSPFS_BLKSIZE ->
  ospfs_inode_blockno d oi o = ospfs_inode_blockno d oi o'.
Proof.
  intros Ho Ho' E. unfold ospfs_inode_blockno. rewrite E.
  destruct (Z.geb_spec o (oi_size d oi)); [lia |].
  destruct (Z.geb_spec o' (oi_size d oi)); [lia | reflexivity].
Qed.

(** The first [n] bytes of a block of the file are [n] bytes of the
    file. *)
Lemma block_bytes (d : image) (oi pos : Z) (n : nat) :
  0 <= pos -> pos mod OSPFS_BLKSIZE = 0 ->
  Z.of_nat n <= OSPFS_BLKSIZE -> pos + Z.of_nat n <= oi_size d oi ->
  load_bytes d (ospfs_block (ospfs_inode_blockno d oi pos)) n
  = file_bytes d oi pos n.
Proof.
  intros Hp Ha Hn Hs. rewrite load_bytes_map. unfold file_bytes.
  apply map_ext_in. intros i Hi. apply in_seq in Hi.
  unfold file_byte, ospfs_inode_data.
  pose proof (Z.div_mod pos OSPFS_BLKSIZE ltac:(consts; lia)) as D.
  rewrite Ha, Z.add_0_r in D.
  assert (Q : (pos + Z.of_nat i) / OSPFS_BLKSIZE = pos / OSPFS_BLKSIZE).
  { symmetry. apply (Z.div_unique _ _ _ (Z.of_nat i)); [consts; lia | lia]. }
  assert (R : (pos + Z.of_nat i) mod OSPFS_BLKSIZE = Z.of_nat i).
  { symmetry. apply (Z.mod_unique _ _ (pos / OSPFS_BLKSIZE)); [consts; lia | lia]. }
  rewrite R, (blockno_same_block d oi (pos + Z.of_nat i) pos) by lia.
  reflexivity.
Qed.

(** The copy loop of [ospfs_read] from a block boundary on. *)
Lemma read_loop_aligned (d : image) (oi count : Z) :
  forall (left : nat) (amount f_pos : Z) (buffer : list Z),
    0 <= amount <= count -> 0 <= f_pos -> f_pos mod OSPFS_BLKSIZE = 0 ->
    f_pos + (count - amount) <= oi_size d oi ->
    (count - amount) / OSPFS_BLKSIZE + 1 <= Z.of_nat left ->
    (forall o, f_pos <= o < f_pos + (count - amount) ->
               ospfs_inode_blockno d oi o <> 0) ->
    ospfs_read_loop left d oi count amount f_pos buffer
    = (count, buffer ++ file_bytes d oi f_pos (Z.to_nat (count - amount)),
       f_pos + (count - amount)).
Proof.
  pose proof (load32_range d (oi + OI_SIZE)) as Rs. fold (oi_size d oi) in Rs.
  induction left as [| left IH]; intros amount f_pos buffer Ha Hp Hal Hs Hl Hb.
  { assert (0 <= (count - amount) / OSPFS_BLKSIZE)
      by (apply Z.div_pos; consts; lia). lia. }
  cbn [ospfs_read_loop].
  destruct (Z.ltb_spec amount count) as [L | G].
  - rewrite u32_small by lia.
    destruct (Z.eqb_spec (ospfs_inode_blockno d oi f_pos) 0) as [E | _];
      [exfalso; apply (Hb f_pos); [lia | exact E] |].
    destruct (Z.gtb_spec (count - amount) OSPFS_BLKSIZE) as [Big | Small].
    + rewrite IH.
      * rewrite <- app_assoc. f_equal; [| lia]. f_equal. f_equal.
        rewrite block_bytes by (try assumption; rewrite ?Z2Nat.id; consts; lia).
        replace (Z.to_nat (count - amount))
          with (Z.to_nat OSPFS_BLKSIZE
                + Z.to_nat (count - (amount + OSPFS_BLKSIZE)))%nat
          by (consts; lia).
        rewrite file_bytes_app. now rewrite Z2Nat.id by (consts; lia).
      * consts. lia.
      * consts. lia.
      * rewrite <- Z.add_mod_idemp_l, Hal by (consts; lia). reflexivity.
      * lia.
      * replace (count - amount)
          with (count - (amount + OSPFS_BLKSIZE) + 1 * OSPFS_BLKSIZE) in Hl by lia.
        rewrite Z.div_add in Hl by (consts; lia). lia.
      * intros o Ho. apply Hb. consts. lia.
    + rewrite block_bytes by (try assumption; rewrite ?Z2Nat.id; lia).
      replace (amount + (count - amount)) with count by lia.
      destruct left; cbn [ospfs_read_loop]; rewrite ?Z.ltb_irrefl; reflexivity.
  - replace (count - amount) with 0 by lia.
    cbn [Z.to_nat file_bytes seq map]. unfold file_bytes. cbn [seq map].
    rewrite app_nil_r, Z.add_0_r. f_equal. f_equal. lia.
Qed.

(** A request that ends within the file, from a block boundary. *)
Lemma read_within_file (d : image) (ino oi count pos : Z) :
  ospfs_inode d ino = Some oi ->
  0 <= count -> 0 <= pos -> pos + count <= oi_size d oi ->
  pos mod OSPFS_BLKSIZE = 0 ->
  (forall o, pos <= o < pos + count -> ospfs_inode_blockno d oi o <> 0) ->
  ospfs_read d ino count pos
  = Some (count, file_bytes d oi pos (Z.to_nat count), pos + count).
Proof.
  intros Hoi Hc Hp Hs Hal Hb.
  pose proof (load32_range d (oi + OI_SIZE)) as Rs. fold (oi_size d oi) in Rs.
  unfold ospfs_read. rewrite Hoi.
  rewrite (u32_small pos) by lia.
  rewrite (u32_small (oi_size d oi - pos)) by lia.
  assert (E' : (if count <? oi_size d oi - pos then count else oi_size d oi - pos)
               = count).
  { destruct (Z.ltb_spec count (oi_size d oi - pos)); lia. }
  rewrite E'. f_equal.
  rewrite (read_loop_aligned d oi count _ 0 pos []); rewrite ?Z.sub_0_r;
    try assumption; try lia.
  reflexivity.
Qed.

(** X12.  From a position on a block boundary and not past the end,
    [ospfs_read] returns [count] or the number of bytes up to the end of
    the file, whichever is less; it copies out that many bytes of the
    file from the position on and moves the position past them, when the
    block map gives a block for each of them. *)
Theorem read_aligned (d : image) (ino oi count pos : Z) :
  ospfs_inode d ino = Some oi ->
  0 <= count -> 0 <= pos <= oi_size d oi -> pos mod OSPFS_BLKSIZE = 0 ->
  (forall o, pos <= o < pos + Z.min count (oi_size d oi - pos) ->
             ospfs_inode_blockno d oi o <> 0) ->
  let n := Z.min count (oi_size d oi - pos) in
  ospfs_read d ino count pos
  = Some (n, file_bytes d oi pos (Z.to_nat n), pos + n).
Proof.
  intros Hoi Hc Hp Hal Hb n.
  pose proof (load32_range d (oi + OI_SIZE)) as Rs. fold (oi_size d oi) in Rs.
  unfold ospfs_read. rewrite Hoi.
  rewrite (u32_small pos) by lia.
  rewrite (u32_small (oi_size d oi - pos)) by lia.
  assert (E : (if count <? oi_size d oi - pos then count else oi_size d oi - pos) = n).
  { subst n. destruct (Z.ltb_spec count (oi_size d oi - pos)); lia. }
  rewrite E. f_equal.
  rewrite (read_loop_aligned d oi n _ 0 pos []); rewrite ?Z.sub_0_r;
    try assumption; try lia.
  reflexivity.
Qed.

Lemma read_aligned_witness :
  let n := Z.min 8 (oi_size Sample.five_bytes Sample.file_oi - 0) in
  ospfs_read Sample.five_bytes Sample.file_ino 8 0
  = Some (n, file_bytes Sample.five_bytes Sample.file_oi 0 (Z.to_nat n), 0 + n).
Proof.
  apply (read_aligned Sample.five_bytes Sample.file_ino Sample.file_oi 8 0).
  - vm_compute. reflexivity.
  - lia.
  - vm_compute. split; discriminate.
  - reflexivity.
  - intros o Ho.
    assert (Es : oi_size Sample.five_bytes Sample.file_oi = 5)
      by (vm_compute; reflexivity).
    rewrite Es in Ho.
    rewrite (blockno_same_block _ _ o 0); [vm_compute; discriminate | | |].
    + rewrite Es. lia.
    + rewrite Es. lia.
    + rewrite Z.div_small by (consts; lia). reflexivity.
Defined.

(** [ospfs_write] of at most a block that ends below the size of the
    file: no change of size, and one round of the copy loop. *)
Lemma write_one_round (d : image) (ino oi : Z) (buffer : list Z) (pos : Z) :
  ospfs_inode d ino = Some oi ->
  0 <= pos ->
  pos + Z.of_nat (length buffer) < oi_size d oi ->
  Z.of_nat (length buffer) <= OSPFS_BLKSIZE ->
  ospfs_inode_blockno d oi pos <> 0 ->
  ospfs_write d ino false buffer pos
  = Some (Z.of_nat (length buffer),
          store_bytes d (ospfs_inode_data d oi pos) buffer,
          pos + Z.of_nat (length buffer)).
Proof.
  intros Hoi Hp Hs Hc Hb.
  pose proof (load32_range d (oi + OI_SIZE)) as Rs. fold (oi_size d oi) in Rs.
  unfold ospfs_write. rewrite Hoi. cbv zeta.
  rewrite (u32_small (Z.of_nat (length buffer))) by (consts; lia).
  rewrite (u32_small pos) by lia.
  rewrite u32_small by lia.
  destruct (Z.geb_spec (Z.of_nat (length buffer) + pos) (oi_size d oi)); [lia |].
  f_equal.
  assert (F : exists k, Z.to_nat (Z.of_nat (length buffer) / OSPFS_BLKSIZE + 1) = S k).
  { assert (0 <= Z.of_nat (length buffer) / OSPFS_BLKSIZE)
      by (apply Z.div_pos; consts; lia).
    exists (Z.to_nat (Z.of_nat (length buffer) / OSPFS_BLKSIZE)). lia. }
  destruct F as [k ->]. cbn [ospfs_write_loop].
  destruct (Z.ltb_spec 0 (Z.of_nat (length buffer))) as [L | G].
  - rewrite u32_small by lia.
    destruct (Z.eqb_spec (ospfs_inode_blockno d oi pos) 0); [contradiction |].
    rewrite Z.sub_0_r.
    destruct (Z.gtb_spec (Z.of_nat (length buffer)) OSPFS_BLKSIZE); [lia |].
    rewrite Nat2Z.id, firstn_all, Z.add_0_l.
    destruct k; cbn [ospfs_write_loop]; rewrite ?Z.ltb_irrefl; reflexivity.
  - destruct buffer; [| cbn [length] in G; lia].
    cbn [store_bytes length Z.of_nat]. now rewrite Z.add_0_r.
Qed.

(** X13.  [ospfs_write] without [O_APPEND] of a buffer that ends below
    the size of the file and within the block of its position returns
    the length of the buffer, moves the position past it, and stores the
    bytes of the buffer at the addresses of the file's bytes from the
    position on; the size stays. *)
Theorem write_within_block (d : image) (ino oi : Z) (buffer : list Z) (pos : Z) :
  ospfs_inode d ino = Some oi ->
  0 <= pos ->
  pos + Z.of_nat (length buffer) < oi_size d oi ->
  pos mod OSPFS_BLKSIZE + Z.of_nat (length buffer) <= OSPFS_BLKSIZE ->
  ospfs_inode_blockno d oi pos <> 0 ->
  ospfs_write d ino false buffer pos
  = Some (Z.of_nat (length buffer),
          store_bytes d (ospfs_inode_data d oi pos) buffer,
          pos + Z.of_nat (length buffer))
  /\ forall i, 0 <= i < Z.of_nat (length buffer) ->
       ospfs_inode_data d oi (pos + i) = ospfs_inode_data d oi pos + i.
Proof.
  intros Hoi Hp Hs Hc Hb.
  pose proof (Z.mod_pos_bound pos OSPFS_BLKSIZE ltac:(consts; lia)) as Bm.
  pose proof (Z.div_mod pos OSPFS_BLKSIZE ltac:(consts; lia)) as D.
  split; [apply write_one_round; try assumption; lia |].
  intros i Hi. unfold ospfs_inode_data.
  assert (Q : (pos + i) / OSPFS_BLKSIZE = pos / OSPFS_BLKSIZE).
  { symmetry. apply (Z.div_unique _ _ _ (pos mod OSPFS_BLKSIZE + i)); lia. }
  assert (R : (pos + i) mod OSPFS_BLKSIZE = pos mod OSPFS_BLKSIZE + i).
  { symmetry. apply (Z.mod_unique _ _ (pos / OSPFS_BLKSIZE)); lia. }
  rewrite R, (blockno_same_block d oi (pos + i) pos) by lia. lia.
Qed.

Lemma write_within_block_witness :
  ospfs_write Sample.five_bytes Sample.file_ino false [104; 105] 2
  = Some (Z.of_nat (length [104; 105]),
          store_bytes Sample.five_bytes
            (ospfs_inode_data Sample.five_bytes Sample.file_oi 2) [104; 105],
          2 + Z.of_nat (length [104; 105]))
  /\ forall i, 0 <= i < Z.of_nat (length [104; 105]) ->
       ospfs_inode_data Sample.five_bytes Sample.file_oi (2 + i)
       = ospfs_inode_data Sample.five_bytes Sample.file_oi 2 + i.
Proof.
  apply (write_within_block Sample.five_bytes Sample.file_ino Sample.file_oi
           [104; 105] 2).
  - vm_compute. reflexivity.
  - lia.
  - vm_compute. reflexivity.
  - vm_compute. discriminate.
  - vm_compute. discriminate.
Defined.

(** X14.  Write then read: when a buffer of bytes is written at a block
    boundary, ends below the size of the file and is at most a block
    long, and the bytes it is stored in are none of the superblock's
    inode counts, of the file's inode or of the words of its block map,
    then [ospfs_read] of as many bytes from the same position returns
    the buffer. *)
Theorem write_then_read_aligned (d : image) (ino oi : Z) (buffer : list Z)
    (pos : Z) :
  ospfs_inode d ino = Some oi ->
  Forall (fun b => 0 <= b < 256) buffer ->
  0 <= pos -> pos mod OSPFS_BLKSIZE = 0 ->
  pos + Z.of_nat (length buffer) < oi_size d oi ->
  Z.of_nat (length buffer) <= OSPFS_BLKSIZE ->
  ospfs_inode_blockno d oi pos <> 0 ->
  (forall a, ospfs_inode_data d oi pos <= a
             < ospfs_inode_data d oi pos + Z.of_nat (length buffer) ->
             ~ in_meta d oi oi (pos / OSPFS_BLKSIZE + 1) a) ->
  exists d1,
    ospfs_write d ino false buffer pos
    = Some (Z.of_nat (length buffer), d1, pos + Z.of_nat (length buffer))
    /\ ospfs_read d1 ino (Z.of_nat (length buffer)) pos
       = Some (Z.of_nat (length buffer), buffer, pos + Z.of_nat (length buffer)).
Proof.
  intros Hoi Hbytes Hp Hal Hs Hc Hb Hsep.
  pose proof (load32_range d (oi + OI_SIZE)) as Rs. fold (oi_size d oi) in Rs.
  set (count := Z.of_nat (length buffer)) in *.
  set (data := ospfs_inode_data d oi pos) in *.
  exists (store_bytes d data buffer).
  split; [now apply write_one_round |].
  set (d1 := store_bytes d data buffer).
  assert (Hout : forall x, in_meta d oi oi (pos / OSPFS_BLKSIZE + 1) x -> d1 x = d x).
  { intros x Hx. apply store_bytes_outside.
    destruct (Z_lt_ge_dec x data) as [L | G]; [now left | right].
    destruct (Z_lt_ge_dec x (data + count)) as [L' | G']; [| subst count; lia].
    exfalso. apply (Hsep x); [lia | exact Hx]. }
  assert (Hino : ospfs_inode d1 ino = Some oi).
  { rewrite <- Hoi. unfold ospfs_inode, os_ninodes, os_firstinob.
    rewrite (load32_agree d d1 (ospfs_super + OS_NINODES)),
      (load32_agree d d1 (ospfs_super + OS_FIRSTINOB)); [reflexivity | |];
      intros x Hx; apply Hout; left;
      unfold OS_NINODES, OS_FIRSTINOB in *; lia. }
  assert (Hsize : oi_size d1 oi = oi_size d oi).
  { apply load32_agree. intros x Hx. apply Hout. right; left.
    unfold OI_SIZE in Hx. consts. lia. }
  assert (Htype : oi_ftype d1 oi = oi_ftype d oi).
  { apply load32_agree. intros x Hx. apply Hout. right; left.
    unfold OI_FTYPE in Hx. consts. lia. }
  pose proof (Z.div_mod pos OSPFS_BLKSIZE ltac:(consts; lia)) as D.
  rewrite Hal, Z.add_0_r in D.
  assert (Hmap : forall o, pos <= o < pos + count ->
            ospfs_inode_blockno d1 oi o = ospfs_inode_blockno d oi pos).
  { intros o Ho.
    assert (Q : o / OSPFS_BLKSIZE = pos / OSPFS_BLKSIZE).
    { symmetry. apply (Z.div_unique _ _ _ (o - pos)); lia. }
    rewrite (blockno_agree d d1 oi o).
    - apply blockno_same_block; [lia | lia | exact Q].
    - now rewrite Hsize.
    - exact Htype.
    - intros _ w x Hw Hx. apply Hout. right; right; right.
      exists (pos / OSPFS_BLKSIZE), w. rewrite Q in Hw.
      split; [| now split].
      assert (0 <= pos / OSPFS_BLKSIZE) by (apply Z.div_pos; consts; lia). lia. }
  rewrite (read_within_file d1 ino oi count pos Hino);
    [| lia | lia | rewrite Hsize; lia | exact Hal |].
  - f_equal. f_equal. f_equal.
    destruct (Z.eq_dec count 0) as [Z0 | NZ].
    { rewrite Z0. unfold count in Z0.
      destruct buffer; [reflexivity | cbn [length] in Z0; lia]. }
    rewrite <- block_bytes by (rewrite ?Z2Nat.id, ?Hsize; try assumption; lia).
    rewrite Hmap by lia. subst count. rewrite Nat2Z.id.
    assert (Ed : ospfs_block (ospfs_inode_blockno d oi pos) = data).
    { unfold data, ospfs_inode_data. rewrite Hal. lia. }
    rewrite Ed. now apply load_store_bytes.
  - intros o Ho. rewrite Hmap by exact Ho. exact Hb.
Qed.

Lemma write_then_read_aligned_witness :
  exists d1,
    ospfs_write Sample.five_bytes Sample.file_ino false [104; 105; 33] 0
    = Some (Z.of_nat (length [104; 105; 33]), d1,
            0 + Z.of_nat (length [104; 105; 33]))
    /\ ospfs_read d1 Sample.file_ino (Z.of_nat (length [104; 105; 33])) 0
       = Some (Z.of_nat (length [104; 105; 33]), [104; 105; 33],
               0 + Z.of_nat (length [104; 105; 33])).
Proof.
  apply (write_then_read_aligned Sample.five_bytes Sample.file_ino
           Sample.file_oi [104; 105; 33] 0).
  - vm_compute. reflexivity.
  - repeat constructor; lia.
  - lia.
  - reflexivity.
  - vm_compute. reflexivity.
  - vm_compute. discriminate.
  - vm_compute. discriminate.
  - intros a Ha.
    change (ospfs_inode_data Sample.five_bytes Sample.file_oi 0) with 7168 in Ha.
    change (Z.of_nat (length [104; 105; 33])) with 3 in Ha.
    change (0 / OSPFS_BLKSIZE + 1) with 1.
    intros [H | [H | [H | (b & w & Hb & Hw & Hx)]]].
    + unfold ospfs_super, OS_NINODES, OS_FIRSTINOB in H. consts. lia.
    + unfold Sample.file_oi in H. consts. lia.
    + unfold Sample.file_oi, OI_NLINK in H. consts. lia.
    + unfold map_words in Hw.
      destruct (Z.ltb_spec b OSPFS_NDIRECT); [| consts; lia].
      destruct Hw as [<- | []].
      unfold Sample.file_oi, OI_DIRECT in Hx. consts. lia.
Defined.

(** ** Listing a directory *)

Lemma cstring_more_fuel (d : image) :
  forall (f f' : nat) (s : Z) (l : list Z),
    cstring f d s = Some l -> (f <= f')%nat -> cstring f' d s = Some l.
Proof.
  induction f as [| f IH]; intros f' s l H Hle; [discriminate |].
  destruct f' as [| f']; [lia |].
  cbn [cstring] in *.
  destruct (load8 d s =? 0); [exact H |].
  destruct (cstring f d (s + 1)) as [l' |] eqn:E; [| discriminate].
  now rewrite (IH f' (s + 1) l' E ltac:(lia)).
Qed.

Section Readdir.

Variables (S : Type) (filldir : S -> dirent_call -> Z * S).
Hypothesis Haccept : forall s c, 0 <= fst (filldir s c).

Variables (d : image) (dir_oi : Z) (k m : nat).
Hypothesis Hsize : oi_size d dir_oi = OSPFS_DIRENTRY_SIZE * Z.of_nat k.
Hypothesis Hblocks :
forall i : nat, (i < k)%nat ->
ospfs_inode_blockno d dir_oi (OSPFS_DIRENTRY_SIZE * Z.of_nat i) <> 0.
Hypothesis Hentries :
forall i : nat, (i < k)%nat ->
let od := ospfs_inode_data d dir_oi (OSPFS_DIRENTRY_SIZE * Z.of_nat i) in
od_ino d od <> 0 ->
ospfs_inode d (od_ino d od) <> None /\ cstring m d (od + OD_NAME) <> None.

(** The entry loop from entry [i] on, with [j] entries to go. *)
Lemma readdir_loop_lists :
forall (j i fuel : nat) (st : S),
(i + j = k)%nat -> (j + m < fuel)%nat ->
readdir_loop S filldir fuel d dir_oi (2 + Z.of_nat i) st
= Some (1, 2 + Z.of_nat k,
fold_left (fun s c => snd (filldir s c))
  (flat_map (entry_call m d dir_oi) (seq i j)) st).
Proof.
pose proof (load32_range d (dir_oi + OI_SIZE)) as Rs.
fold (oi_size d dir_oi) in Rs. rewrite Hsize in Rs.
induction j as [| j IH]; intros i fuel st Hij Hfuel;
(destruct fuel as [| fuel]; [lia |]); cbn [readdir_loop].
- assert (i = k) by lia. subst i.
destruct (Z.geb_spec (2 + Z.of_nat k) 2); [| lia].
replace ((2 + Z.of_nat k - 2) * OSPFS_DIRENTRY_SIZE)
with (OSPFS_DIRENTRY_SIZE * Z.of_nat k) by lia.
rewrite u32_small by lia.
unfold ospfs_inode_blockno at 1. rewrite Hsize.
destruct (Z.geb_spec (OSPFS_DIRENTRY_SIZE * Z.of_nat k)
    (OSPFS_DIRENTRY_SIZE * Z.of_nat k)); [| lia].
reflexivity.
- destruct (Z.geb_spec (2 + Z.of_nat i) 2); [| lia].
replace ((2 + Z.of_nat i - 2) * OSPFS_DIRENTRY_SIZE)
with (OSPFS_DIRENTRY_SIZE * Z.of_nat i) by lia.
rewrite u32_small by (consts; lia).
destruct (Z.eqb_spec (ospfs_inode_blockno d dir_oi
                (OSPFS_DIRENTRY_SIZE * Z.of_nat i)) 0) as [E | _];
[exfalso; apply (Hblocks i); [lia | exact E] |].
replace (u32 (2 + Z.of_nat i + 1)) with (2 + Z.of_nat (Datatypes.S i))
by (rewrite u32_small; consts; lia).
cbn [seq flat_map]. rewrite fold_left_app.
pose proof (Hentries i ltac:(lia)) as He. cbv zeta in He.
unfold entry_call at 2.
set (od := ospfs_inode_data d dir_oi (OSPFS_DIRENTRY_SIZE * Z.of_nat i)) in *.
pose proof (load32_range d (od + OD_INO)) as Ri. fold (od_ino d od) in Ri.
destruct (Z.eqb_spec (od_ino d od) 0) as [Z0 | NZ].
+ destruct (Z.leb_spec (od_ino d od) 0); [| lia].
cbn [fold_left]. apply IH; lia.
+ destruct (Z.leb_spec (od_ino d od) 0); [lia |].
destruct (He NZ) as [Hi Hn].
destruct (ospfs_inode d (od_ino d od)) as [entry_oi |]; [| contradiction].
destruct (cstring m d (od + OD_NAME)) as [name |] eqn:En; [| contradiction].
rewrite (cstring_more_fuel d m (Datatypes.S fuel) _ name En) by lia.
cbn [fold_left].
pose proof (Haccept st {| fc_name := name; fc_pos := 2 + Z.of_nat i;
                    fc_ino := od_ino d od;
                    fc_type := dirent_type_of d entry_oi |}) as Hok.
destruct (filldir st _) as [ok st'] eqn:Ef. cbn [fst snd] in *.
destruct (Z.geb_spec ok 0); [| lia].
apply IH; lia.
Qed.

End Readdir.

(** X15.  Listing from position 0 with a callback that accepts every
    entry: for a directory of [k] entries whose offsets the block map
    gives a block for, and whose taken entries name an inode and carry a
    name that ends, [ospfs_dir_readdir] calls [filldir] for ".", for ".."
    and for every entry with a nonzero inode number, in order, with the
    entry's name, position, inode number and type; it skips the blank
    entries, returns 1 and leaves the position at [2 + k]. *)
Theorem readdir_lists_directory (S : Type) (filldir : S -> dirent_call -> Z * S)
    (fuel m k : nat) (d : image) (dir_ino parent_ino dir_oi : Z) (st : S) :
  (forall s c, 0 <= fst (filldir s c)) ->
  ospfs_inode d dir_ino = Some dir_oi ->
  oi_size d dir_oi = OSPFS_DIRENTRY_SIZE * Z.of_nat k ->
  (forall i : nat, (i < k)%nat ->
     ospfs_inode_blockno d dir_oi (OSPFS_DIRENTRY_SIZE * Z.of_nat i) <> 0) ->
  (forall i : nat, (i < k)%nat ->
     let od := ospfs_inode_data d dir_oi (OSPFS_DIRENTRY_SIZE * Z.of_nat i) in
     od_ino d od <> 0 ->
     ospfs_inode d (od_ino d od) <> None /\ cstring m d (od + OD_NAME) <> None) ->
  (k + m < fuel)%nat ->
  ospfs_dir_readdir S filldir fuel d dir_ino parent_ino 0 st
  = Some (1, 2 + Z.of_nat k,
          fold_left (fun s c => snd (filldir s c))
            (dir_listing m d dir_ino parent_ino dir_oi k) st).
Proof.
  intros Haccept Hoi Hsize Hblocks Hentries Hfuel.
  unfold ospfs_dir_readdir, dir_listing. cbv zeta.
  change (u32 0) with 0. change (0 =? 0) with true. cbv iota.
  cbn [fold_left].
  pose proof (Haccept st {| fc_name := dot; fc_pos := 0; fc_ino := dir_ino;
                            fc_type := DT_DIR |}) as H1.
  destruct (filldir st _) as [ok1 st1]. cbn [fst snd] in *.
  destruct (Z.geb_spec ok1 0); [| lia].
  change (u32 (0 + 1)) with 1. change (1 =? 1) with true. cbn [andb].
  pose proof (Haccept st1 {| fc_name := dotdot; fc_pos := 1; fc_ino := parent_ino;
                             fc_type := DT_DIR |}) as H2.
  destruct (filldir st1 _) as [ok2 st2]. cbn [fst snd] in *.
  destruct (Z.geb_spec ok2 0); [| lia].
  change (u32 (1 + 1)) with 2. change (2 >=? 2) with true. cbn [andb].
  rewrite Hoi.
  exact (readdir_loop_lists S filldir Haccept d dir_oi k m Hsize Hblocks Hentries
           k 0%nat fuel st2 eq_refl Hfuel).
Qed.

Lemma readdir_lists_directory_witness :
  ospfs_dir_readdir (list dirent_call) (fun s c => (0, s ++ [c])) 100
    Sample.crowded Sample.root_ino Sample.root_ino 0 []
  = Some (1, 2 + Z.of_nat 8,
          fold_left (fun s c => snd ((fun s c => (0, s ++ [c])) s c))
            (dir_listing 57 Sample.crowded Sample.root_ino Sample.root_ino
               Sample.root_oi 8) []).
Proof.
  apply (readdir_lists_directory (list dirent_call) (fun s c => (0, s ++ [c]))
           100 57 8 Sample.crowded Sample.root_ino Sample.root_ino
           Sample.root_oi []).
  - intros s c. cbn [fst]. lia.
  - vm_compute. reflexivity.
  - vm_compute. reflexivity.
  - intros i Hi.
    do 8 (destruct i as [| i]; [vm_compute; discriminate |]). lia.
  - intros i Hi.
    do 8 (destruct i as [| i];
          [intros od _; split; vm_compute; discriminate |]). lia.
  - lia.
Defined.

(** X18.  Listing resumes where it stopped: from the position [2 + i] of
    entry [i], under the same conditions, [ospfs_dir_readdir] makes no
    call for "." and "..", and calls [filldir] for the entries from [i]
    on that have a nonzero inode number; it returns 1 and leaves the
    position at [2 + k]. *)
Theorem readdir_resumes (S : Type) (filldir : S -> dirent_call -> Z * S)
    (fuel m k i : nat) (d : image) (dir_ino parent_ino dir_oi : Z) (st : S) :
  (forall s c, 0 <= fst (filldir s c)) ->
  ospfs_inode d dir_ino = Some dir_oi ->
  oi_size d dir_oi = OSPFS_DIRENTRY_SIZE * Z.of_nat k ->
  (forall i : nat, (i < k)%nat ->
     ospfs_inode_blockno d dir_oi (OSPFS_DIRENTRY_SIZE * Z.of_nat i) <> 0) ->
  (forall i : nat, (i < k)%nat ->
     let od := ospfs_inode_data d dir_oi (OSPFS_DIRENTRY_SIZE * Z.of_nat i) in
     od_ino d od <> 0 ->
     ospfs_inode d (od_ino d od) <> None /\ cstring m d (od + OD_NAME) <> None) ->
  (k + m < fuel)%nat -> (i <= k)%nat ->
  ospfs_dir_readdir S filldir fuel d dir_ino parent_ino (2 + Z.of_nat i) st
  = Some (1, 2 + Z.of_nat k,
          fold_left (fun s c => snd (filldir s c))
            (flat_map (entry_call m d dir_oi) (seq i (k - i))) st).
Proof.
  intros Haccept Hoi Hsize Hblocks Hentries Hfuel Hi.
  pose proof (load32_range d (dir_oi + OI_SIZE)) as Rs.
  fold (oi_size d dir_oi) in Rs. rewrite Hsize in Rs.
  unfold ospfs_dir_readdir. cbv zeta.
  rewrite u32_small by (consts; lia).
  destruct (Z.eqb_spec (2 + Z.of_nat i) 0); [lia |].
  change (0 >=? 0) with true. cbn [andb].
  destruct (Z.eqb_spec (2 + Z.of_nat i) 1); [lia |].
  destruct (Z.geb_spec (2 + Z.of_nat i) 2); [| lia].
  rewrite Hoi.
  apply (readdir_loop_lists S filldir Haccept d dir_oi k m Hsize Hblocks Hentries);
    lia.
Qed.

Lemma readdir_resumes_witness :
  ospfs_dir_readdir (list dirent_call) (fun s c => (0, s ++ [c])) 100
    Sample.crowded Sample.root_ino Sample.root_ino (2 + Z.of_nat 5) []
  = Some (1, 2 + Z.of_nat 8,
          fold_left (fun s c => snd ((fun s c => (0, s ++ [c])) s c))
            (flat_map (entry_call 57 Sample.crowded Sample.root_oi)
               (seq 5 (8 - 5))) []).
Proof.
  apply (readdir_resumes (list dirent_call) (fun s c => (0, s ++ [c]))
           100 57 8 5 Sample.crowded Sample.root_ino Sample.root_ino
           Sample.root_oi []).
  - intros s c. cbn [fst]. lia.
  - vm_compute. reflexivity.
  - vm_compute. reflexivity.
  - intros i Hi.
    do 8 (destruct i as [| i]; [vm_compute; discriminate |]). lia.
  - intros i Hi.
    do 8 (destruct i as [| i];
          [intros od _; split; vm_compute; discriminate |]). lia.
  - lia.
  - lia.
Defined.

(** ** Giving up the last block of a file *)

(** The block count of a file that has a block: no wrap-around, and the
    first byte of the last block lies below the size. *)
Lemma last_block_below_size (s : Z) :
  0 <= s < 4294967296 -> 1 <= ospfs_size2nblocks s ->
  ospfs_size2nblocks s = (s + OSPFS_BLKSIZE - 1) / OSPFS_BLKSIZE
  /\ (ospfs_size2nblocks s - 1) * OSPFS_BLKSIZE < s
  /\ s <= ospfs_size2nblocks s * OSPFS_BLKSIZE.
Proof.
  intros Hs Hn.
  destruct (Z_le_gt_dec s (4294967296 - OSPFS_BLKSIZE)) as [L | G].
  - rewrite size2nblocks_ceil in * by lia.
    pose proof (Z.div_mod (s + OSPFS_BLKSIZE - 1) OSPFS_BLKSIZE
                  ltac:(consts; lia)) as D.
    pose proof (Z.mod_pos_bound (s + OSPFS_BLKSIZE - 1) OSPFS_BLKSIZE
                  ltac:(consts; lia)) as B.
    split; [reflexivity |]. consts. lia.
  - rewrite size2nblocks_wrapped in Hn by lia. lia.
Qed.

(** In its one-block branch [remove_block] frees the block that the block
    map gives for the last block of the file. *)
Lemma remove_block_frees_last (d : image) (oi : Z) :
  let n := ospfs_size2nblocks (oi_size d oi) in
  1 <= n < OSPFS_NDIRECT + OSPFS_NINDIRECT + OSPFS_NINDIRECT * OSPFS_NINDIRECT ->
  indir2_index n = indir2_index (n - 1) ->
  indir_index n = indir_index (n - 1) ->
  oi_ftype d oi <> OSPFS_FTYPE_SYMLINK ->
  (if indir2_index n =? 0 then
     word_at d (ospfs_block (word_at d (ospfs_block (oi_indirect2 d oi))
                               (indir_index (n - 1))))
       (direct_index (n - 1))
   else if negb (indir_index n =? -1) then
     word_at d (ospfs_block (oi_indirect d oi)) (direct_index (n - 1))
   else oi_direct d oi (direct_index (n - 1)))
  = file_block d oi (n - 1).
Proof.
  intros n Hn E2 E1 Ht.
  pose proof (load32_range d (oi + OI_SIZE)) as Rs. fold (oi_size d oi) in Rs.
  destruct (last_block_below_size (oi_size d oi) Rs ltac:(fold n; lia))
    as (_ & Hlt & _). fold n in Hlt.
  unfold file_block.
  assert (Q : (n - 1) * OSPFS_BLKSIZE / OSPFS_BLKSIZE = n - 1)
    by (apply Z.div_mul; consts; lia).
  destruct (Z_lt_ge_dec n OSPFS_NDIRECT) as [L1 | G1].
  - rewrite blockno_direct by (try assumption; rewrite ?Q; lia). rewrite Q.
    replace (indir2_index n) with (-1) by (symmetry; idx).
    replace (indir_index n) with (-1) by (symmetry; idx).
    replace (direct_index (n - 1)) with (n - 1) by (symmetry; idx).
    reflexivity.
  - destruct (Z.eq_dec n OSPFS_NDIRECT) as [E | N].
    { exfalso. rewrite E in E1. vm_compute in E1. discriminate. }
    destruct (Z_lt_ge_dec n (OSPFS_NDIRECT + OSPFS_NINDIRECT)) as [L2 | G2].
    + rewrite blockno_indirect by (try assumption; rewrite ?Q; lia). rewrite Q.
      replace (indir2_index n) with (-1) by (symmetry; idx).
      replace (indir_index n) with 0 by (symmetry; idx).
      replace (direct_index (n - 1)) with (n - 1 - OSPFS_NDIRECT)
        by (symmetry; idx).
      reflexivity.
    + destruct (Z.eq_dec n (OSPFS_NDIRECT + OSPFS_NINDIRECT)) as [E | N2].
      { exfalso. rewrite E in E2. vm_compute in E2. discriminate. }
      rewrite blockno_indirect2 by (try assumption; rewrite ?Q; lia). rewrite Q.
      replace (indir2_index n) with 0 by (symmetry; idx).
      change (0 =? 0) with true. cbv iota.
      unfold indir_index, direct_index.
      destruct (Z.ltb_spec (n - 1) OSPFS_NDIRECT); [consts; lia |].
      destruct (Z.ltb_spec (n - 1) (OSPFS_NINDIRECT + OSPFS_NDIRECT));
        [consts; lia |].
      destruct (Z.ltb_spec (n - 1) (OSPFS_NDIRECT + OSPFS_NINDIRECT));
        [consts; lia |].
      destruct (Z.ltb_spec (n - 1) (OSPFS_NINDIRECT * OSPFS_NINDIRECT
                                    + OSPFS_NINDIRECT + OSPFS_NDIRECT));
        [| consts; lia].
      destruct (Z.ltb_spec (n - 1) (OSPFS_NDIRECT + OSPFS_NINDIRECT
                                    + OSPFS_NINDIRECT * OSPFS_NINDIRECT));
        [| consts; lia].
      rewrite (Z.add_comm OSPFS_NINDIRECT OSPFS_NDIRECT), Z.sub_add_distr.
      reflexivity.
Qed.

Lemma block_is_free_store32 (d : image) (a v j : Z) :
  0 <= j < OSPFS_BLKBITSIZE ->
  a + 4 <= freemap0 \/ freemap0 + OSPFS_BLKSIZE <= a ->
  block_is_free (store32 d a v) j = block_is_free d j.
Proof.
  intros Hj Ha. unfold block_is_free. rewrite !bitvector_test_bit by lia.
  rewrite load32_store32_other; [reflexivity |].
  pose proof (Z.div_mod j 32 ltac:(lia)).
  pose proof (Z.mod_pos_bound j 32 ltac:(lia)).
  unfold freemap0 in *. consts. lia.
Qed.

(** The one-block branch of [remove_block], with a one-block bitmap that
    does not hold the size word of the inode. *)
Lemma remove_block_one_block (d : image) (oi : Z) :
  let n := ospfs_size2nblocks (oi_size d oi) in
  let last := file_block d oi (n - 1) in
  let d1 := snd (remove_block d oi) in
  1 <= n < OSPFS_NDIRECT + OSPFS_NINDIRECT + OSPFS_NINDIRECT * OSPFS_NINDIRECT ->
  indir2_index n = indir2_index (n - 1) ->
  indir_index n = indir_index (n - 1) ->
  oi_ftype d oi <> OSPFS_FTYPE_SYMLINK ->
  0 <= last < OSPFS_BLKBITSIZE ->
  oi + OI_SIZE + 4 <= freemap0 \/ freemap0 + OSPFS_BLKSIZE <= oi + OI_SIZE ->
  (forall j, 0 <= j < OSPFS_BLKBITSIZE ->
     block_is_free d1 j = block_is_free d j || (j =? last))
  /\ oi_size d1 oi
     = (if oi_size d oi <? OSPFS_BLKSIZE then 0
        else oi_size d oi - oi_size d oi mod OSPFS_BLKSIZE - OSPFS_BLKSIZE).
Proof.
  intros n last d1 Hn E2 E1 Ht Hlast Hsep.
  pose proof (load32_range d (oi + OI_SIZE)) as Rs. fold (oi_size d oi) in Rs.
  pose proof (remove_block_frees_last d oi Hn E2 E1 Ht) as Hfree.
  fold n last in Hfree.
  subst d1. unfold remove_block. fold n.
  rewrite (u32_small (n - 1)) by (consts; lia).
  destruct (Z.eqb_spec (indir2_index n) (indir2_index (n - 1))) as [_ | C];
    [| contradiction].
  destruct (Z.eqb_spec (indir_index n) (indir_index (n - 1))) as [_ | C];
    [| contradiction].
  cbn [negb]. rewrite Hfree.
  rewrite free_block_small by exact Hlast.
  set (e := bitvector_set d freemap0 last).
  assert (He : oi_size e oi = oi_size d oi).
  { unfold e, oi_size, bitvector_set. apply load32_store32_other.
    rewrite Z.quot_div_nonneg by lia.
    pose proof (Z.div_mod last 32 ltac:(lia)).
    pose proof (Z.mod_pos_bound last 32 ltac:(lia)).
    unfold freemap0 in *. consts. lia. }
  cbn [snd]. rewrite He.
  pose proof (Z.mod_pos_bound (oi_size d oi) OSPFS_BLKSIZE ltac:(consts; lia)) as Bm.
  pose proof (Z.div_mod (oi_size d oi) OSPFS_BLKSIZE ltac:(consts; lia)) as Dm.
  set (s2 := oi_size d oi - oi_size d oi mod OSPFS_BLKSIZE).
  assert (R2 : 0 <= s2 < 4294967296) by (unfold s2; consts; lia).
  assert (Es : oi_size (set_oi_size e oi s2) oi = s2).
  { unfold oi_size at 1, set_oi_size.
    rewrite load32_store32_same, !(u32_small s2) by exact R2. reflexivity. }
  rewrite Es.
  assert (Em : s2 mod OSPFS_BLKSIZE = 0).
  { replace s2 with (oi_size d oi / OSPFS_BLKSIZE * OSPFS_BLKSIZE)
      by (unfold s2; consts; lia).
    apply Z.mod_mul. consts. lia. }
  rewrite Em, Z.eqb_refl. cbn [andb].
  assert (Hbits : forall v w j, 0 <= j < OSPFS_BLKBITSIZE ->
            block_is_free (set_oi_size (set_oi_size e oi v) oi w) j
            = block_is_free d j || (j =? last)
            /\ block_is_free (set_oi_size e oi v) j
               = block_is_free d j || (j =? last)).
  { intros v w j Hj. unfold set_oi_size.
    rewrite !block_is_free_store32 by (try assumption; lia).
    unfold block_is_free, e. rewrite bitvector_test_set by lia. now split. }
  destruct (Z.ltb_spec (oi_size d oi) OSPFS_BLKSIZE) as [Small | Big].
  - assert (Z0 : s2 = 0).
    { unfold s2. rewrite Z.mod_small by lia. lia. }
    rewrite Z0 in *. cbn [Z.eqb negb]. split; [| exact Es].
    intros j Hj. apply (Hbits 0 0 j Hj).
  - destruct (Z.eqb_spec s2 0) as [Z0 | NZ]; [unfold s2 in Z0; consts; lia |].
    cbn [negb]. split.
    + intros j Hj. apply (Hbits _ _ j Hj).
    + assert (R3 : 0 <= s2 - OSPFS_BLKSIZE < 4294967296)
        by (unfold s2; consts; lia).
      unfold oi_size at 1, set_oi_size.
      rewrite load32_store32_same, !(u32_small (s2 - OSPFS_BLKSIZE)) by exact R3.
      reflexivity.
Qed.

(** X17.  When [remove_block] takes its one-block branch on a file of
    [n] blocks ([n] and [n - 1] have the same indirect indices), with a
    one-block bitmap that does not hold the size word of the inode, it
    returns 0, marks free the block that the block map gives for the last
    block of the file and no other, and sets the size: to 0 when it was
    below one block, and else to the size rounded down to a whole number
    of blocks less one block. *)
Theorem remove_block_last_block (d d1 : image) (oi r : Z) :
  let n := ospfs_size2nblocks (oi_size d oi) in
  let last := file_block d oi (n - 1) in
  1 <= n < OSPFS_NDIRECT + OSPFS_NINDIRECT + OSPFS_NINDIRECT * OSPFS_NINDIRECT ->
  indir2_index n = indir2_index (n - 1) ->
  indir_index n = indir_index (n - 1) ->
  oi_ftype d oi <> OSPFS_FTYPE_SYMLINK ->
  0 <= last < OSPFS_BLKBITSIZE ->
  oi + OI_SIZE + 4 <= freemap0 \/ freemap0 + OSPFS_BLKSIZE <= oi + OI_SIZE ->
  remove_block d oi = (r, d1) ->
  r = 0
  /\ (forall j, 0 <= j < OSPFS_BLKBITSIZE ->
        block_is_free d1 j = block_is_free d j || (j =? last))
  /\ oi_size d1 oi
     = (if oi_size d oi <? OSPFS_BLKSIZE then 0
        else oi_size d oi - oi_size d oi mod OSPFS_BLKSIZE - OSPFS_BLKSIZE).
Proof.
  intros n last Hn E2 E1 Ht Hlast Hsep H.
  pose proof (remove_block_one_block d oi Hn E2 E1 Ht Hlast Hsep) as P.
  cbv zeta in P. rewrite H in P. cbn [snd] in P.
  split; [| exact P].
  apply (f_equal fst) in H. cbn [fst] in H. rewrite <- H.
  apply remove_block_code.
Qed.

Lemma remove_block_last_block_witness :
  0 = 0
  /\ (forall j, 0 <= j < OSPFS_BLKBITSIZE ->
        block_is_free (snd (remove_block Sample.two_blocks Sample.file_oi)) j
        = block_is_free Sample.two_blocks j
          || (j =? file_block Sample.two_blocks Sample.file_oi
                     (ospfs_size2nblocks
                        (oi_size Sample.two_blocks Sample.file_oi) - 1)))
  /\ oi_size (snd (remove_block Sample.two_blocks Sample.file_oi)) Sample.file_oi
     = (if oi_size Sample.two_blocks Sample.file_oi <? OSPFS_BLKSIZE then 0
        else oi_size Sample.two_blocks Sample.file_oi
             - oi_size Sample.two_blocks Sample.file_oi mod OSPFS_BLKSIZE
             - OSPFS_BLKSIZE).
Proof.
  apply (remove_block_last_block Sample.two_blocks _ Sample.file_oi 0).
  - vm_compute. split; [discriminate | reflexivity].
  - vm_compute. reflexivity.
  - vm_compute. reflexivity.
  - vm_compute. discriminate.
  - vm_compute. split; [discriminate | reflexivity].
  - right. vm_compute. discriminate.
  - reflexivity.
Defined.

(** X19.  Appending within the last block: on a file whose size is not a
    whole number of blocks, below the ten direct blocks, [ospfs_write]
    with [O_APPEND] of a buffer that fits the rest of the last block
    ignores the position it is given, sets the size to the old size plus
    the length of the buffer, stores the buffer at the address that
    follows the last byte of the file, returns the length and leaves the
    position at the new size. *)
Theorem append_within_last_block (d : image) (ino oi : Z) (buffer : list Z)
    (pos : Z) :
  let s := oi_size d oi in
  let count := Z.of_nat (length buffer) in
  ospfs_inode d ino = Some oi ->
  oi_ftype d oi <> OSPFS_FTYPE_SYMLINK ->
  s < OSPFS_NDIRECT * OSPFS_BLKSIZE ->
  0 < s mod OSPFS_BLKSIZE ->
  s mod OSPFS_BLKSIZE + count <= OSPFS_BLKSIZE ->
  ospfs_inode_blockno d oi (s - 1) <> 0 ->
  ospfs_write d ino true buffer pos
  = Some (count,
          store_bytes (set_oi_size d oi (s + count))
            (ospfs_inode_data d oi (s - 1) + 1) buffer,
          s + count).
Proof.
  intros s count Hoi Ht Hs Hm Hc Hb.
  pose proof (load32_range d (oi + OI_SIZE)) as Rs. fold (oi_size d oi) in Rs.
  fold s in Rs.
  pose proof (Z.div_mod s OSPFS_BLKSIZE ltac:(consts; lia)) as D.
  pose proof (Z.mod_pos_bound s OSPFS_BLKSIZE ltac:(consts; lia)) as Bm.
  assert (Hq : 0 <= s / OSPFS_BLKSIZE < OSPFS_NDIRECT).
  { split; [apply Z.div_pos; consts; lia |].
    apply Z.div_lt_upper_bound; consts; lia. }
  assert (Q1 : (s - 1) / OSPFS_BLKSIZE = s / OSPFS_BLKSIZE).
  { symmetry. apply (Z.div_unique _ _ _ (s mod OSPFS_BLKSIZE - 1)); lia. }
  assert (R1 : (s - 1) mod OSPFS_BLKSIZE = s mod OSPFS_BLKSIZE - 1).
  { symmetry. apply (Z.mod_unique _ _ (s / OSPFS_BLKSIZE)); lia. }
  assert (Hold : ospfs_inode_blockno d oi (s - 1)
                 = oi_direct d oi (s / OSPFS_BLKSIZE)).
  { rewrite blockno_direct by (try assumption; fold s; lia). now rewrite Q1. }
  unfold ospfs_write. rewrite Hoi. cbv zeta. fold s count.
  rewrite (u32_small count) by (unfold count in *; consts; lia).
  rewrite (u32_small s) by lia.
  rewrite (u32_small (count + s)) by (unfold count in *; consts; lia).
  destruct (Z.geb_spec (count + s) s); [| unfold count in *; lia].
  rewrite change_size_idle.
  2: { fold s. rewrite !size2nblocks_ceil by (unfold count in *; consts; lia).
       unfold count in *. consts.
       symmetry. apply (Z.div_unique _ _ _ ((s + 1024 - 1) mod 1024 + Z.of_nat (length buffer)));
         [| pose proof (Z.div_mod (s + 1024 - 1) 1024 ltac:(lia)); lia].
       assert ((s + 1024 - 1) mod 1024 = s mod 1024 - 1).
       { symmetry. apply (Z.mod_unique _ _ (s / 1024 + 1)); lia. }
       lia. }
  cbn [Z.ltb Z.compare]. f_equal.
  set (d1 := set_oi_size d oi (count + s)).
  assert (Hsize1 : oi_size d1 oi = count + s).
  { unfold d1, oi_size, set_oi_size.
    rewrite load32_store32_same, !(u32_small (count + s))
      by (unfold count in *; consts; lia).
    reflexivity. }
  assert (Hnew : 0 < count -> ospfs_inode_blockno d1 oi s
                              = oi_direct d oi (s / OSPFS_BLKSIZE)).
  { intros Hpos. rewrite blockno_direct.
    - unfold d1, oi_direct, set_oi_size. apply load32_store32_other.
      unfold OI_SIZE, OI_DIRECT. lia.
    - rewrite Hsize1. lia.
    - unfold d1, oi_ftype, set_oi_size.
      rewrite load32_store32_other by (unfold OI_SIZE, OI_FTYPE; lia).
      exact Ht.
    - lia. }
  replace (ospfs_inode_data d oi (s - 1) + 1)
    with (ospfs_block (oi_direct d oi (s / OSPFS_BLKSIZE)) + s mod OSPFS_BLKSIZE)
    by (unfold ospfs_inode_data; rewrite Hold, R1; lia).
  replace (s + count) with (count + s) by lia. fold d1.
  assert (F : exists k, Z.to_nat (count / OSPFS_BLKSIZE + 1) = S k).
  { assert (0 <= count / OSPFS_BLKSIZE)
      by (apply Z.div_pos; unfold count; consts; lia).
    exists (Z.to_nat (count / OSPFS_BLKSIZE)). lia. }
  destruct F as [k ->]. cbn [ospfs_write_loop].
  destruct (Z.ltb_spec 0 count) as [L | G].
  - rewrite u32_small by lia. rewrite (Hnew L).
    destruct (Z.eqb_spec (oi_direct d oi (s / OSPFS_BLKSIZE)) 0) as [E | _];
      [exfalso; apply Hb; now rewrite Hold |].
    rewrite Z.sub_0_r.
    destruct (Z.gtb_spec count OSPFS_BLKSIZE); [lia |].
    replace (Z.to_nat count) with (length buffer) by (unfold count; lia).
    rewrite firstn_all, Z.add_0_l.
    replace (s + count) with (count + s) by lia.
    destruct k; cbn [ospfs_write_loop]; rewrite ?Z.ltb_irrefl; reflexivity.
  - destruct buffer; [| unfold count in G; cbn [length] in G; lia].
    reflexivity.
Qed.

Lemma append_within_last_block_witness :
  ospfs_write Sample.five_bytes Sample.file_ino true [33; 33] 0
  = Some (Z.of_nat (length [33; 33]),
          store_bytes
            (set_oi_size Sample.five_bytes Sample.file_oi
               (oi_size Sample.five_bytes Sample.file_oi
                + Z.of_nat (length [33; 33])))
            (ospfs_inode_data Sample.five_bytes Sample.file_oi
               (oi_size Sample.five_bytes Sample.file_oi - 1) + 1) [33; 33],
          oi_size Sample.five_bytes Sample.file_oi + Z.of_nat (length [33; 33])).
Proof.
  apply (append_within_last_block Sample.five_bytes Sample.file_ino
           Sample.file_oi [33; 33] 0).
  - vm_compute. reflexivity.
  - vm_compute. discriminate.
  - vm_compute. reflexivity.
  - vm_compute. reflexivity.
  - vm_compute. discriminate.
  - vm_compute. discriminate.
Defined.

(** ** Growing a file within its direct blocks *)

Lemma zero_block_inside (d : image) (blk a : Z) :
  blk <= a < blk + OSPFS_BLKSIZE -> load8 (zero_block d blk) a = 0.
Proof.
  intros Ha. unfold zero_block.
  set (zs := repeat 0 (Z.to_nat OSPFS_BLKSIZE)).
  assert (Hz : Forall (fun b => 0 <= b < 256) zs).
  { apply Forall_forall. intros b Hb. apply repeat_spec in Hb. lia. }
  pose proof (load_store_bytes zs d blk Hz) as L.
  rewrite load_bytes_map in L.
  apply (f_equal (fun l => nth (Z.to_nat (a - blk)) l 0)) in L.
  assert (Hlen : length zs = Z.to_nat OSPFS_BLKSIZE) by apply repeat_length.
  rewrite (nth_indep _ 0 (load8 (store_bytes d blk zs) (blk + Z.of_nat 0))) in L
    by (rewrite length_map, length_seq, Hlen; consts; lia).
  rewrite (map_nth (fun i => load8 (store_bytes d blk zs) (blk + Z.of_nat i))) in L.
  rewrite seq_nth in L by (rewrite Hlen; consts; lia).
  replace (blk + Z.of_nat (0 + Z.to_nat (a - blk))) with a in L by lia.
  rewrite L. unfold zs. apply nth_repeat.
Qed.

Section AddDirect.

Variables (d : image) (oi : Z).

Let k := ospfs_size2nblocks (oi_size d oi).

Hypothesis Hk : 1 <= k < OSPFS_NDIRECT.
Hypothesis Htype : oi_ftype d oi <> OSPFS_FTYPE_SYMLINK.
Hypothesis Hapart : inode_apart d oi.

Variable a0 : Z.
Hypothesis Hfresh : fresh_blocks d [a0].

Let d2 := claimed d [a0].
Let d3 := store32 d2 (oi + OI_DIRECT + 4 * k) a0.
Let d4 := set_oi_size d3 oi (oi_size d3 oi + OSPFS_BLKSIZE).

Lemma ad_block : 
OSPFS_FREEMAP_BLK < a0 < OSPFS_BLKBITSIZE
/\ block_is_free d a0 = true
/\ ospfs_block a0 = a0 * OSPFS_BLKSIZE
/\ (ospfs_block a0 + OSPFS_BLKSIZE <= oi
\/ oi + OSPFS_INODESIZE <= ospfs_block a0).
Proof.
destruct Hapart as (Hn & _ & Hf). destruct Hfresh as [_ Hin].
destruct (Hin a0 (or_introl eq_refl)) as (_ & Hr & Hfr).
destruct (Hf a0 Hr Hfr) as [H2 Hap].
split; [lia |]. split; [exact Hfr |]. split; [| exact Hap].
apply block_no_wrap. consts. lia.
Qed.

Lemma ad_size_range :
0 <= oi_size d oi /\ (k - 1) * OSPFS_BLKSIZE < oi_size d oi
/\ oi_size d oi <= k * OSPFS_BLKSIZE.
Proof.
pose proof (load32_range d (oi + OI_SIZE)) as Rs. fold (oi_size d oi) in Rs.
destruct (last_block_below_size (oi_size d oi) Rs ltac:(fold k; lia))
as (_ & Hlt & Hle).
fold k in Hlt, Hle. lia.
Qed.

(** The bytes of the inode other than the new pointer and the size are
as before, after each step. *)
Lemma ad_inode2 (a : Z) : oi <= a < oi + OSPFS_INODESIZE -> d2 a = d a.
Proof.
intros Ha. destruct ad_block as (Hr & _ & Eb & Hap).
destruct Hapart as (_ & Hm & _).
unfold d2, claimed. cbn [fold_left].
rewrite zero_block_outside by (consts; lia).
apply bitvector_clear_outside; [consts; lia |].
consts.
pose proof (Z.div_mod a0 32 ltac:(lia)).
pose proof (Z.mod_pos_bound a0 32 ltac:(lia)).
unfold freemap0 in *. consts. lia.
Qed.

Lemma ad_word4 (w : Z) :
oi <= w -> w + 4 <= oi + OSPFS_INODESIZE ->
w + 4 <= oi + OI_DIRECT + 4 * k \/ oi + OI_DIRECT + 4 * k + 4 <= w ->
OI_SIZE + 4 <= w - oi ->
load32 d4 w = load32 d w.
Proof.
intros H1 H2 H3 H4. unfold d4, set_oi_size, d3.
rewrite !load32_store32_other by (unfold OI_SIZE in *; lia).
apply load32_agree. intros x Hx. apply ad_inode2. lia.
Qed.

Lemma ad_size3 : oi_size d3 oi = oi_size d oi.
Proof.
unfold oi_size, d3. rewrite load32_store32_other
by (unfold OI_SIZE, OI_DIRECT; lia).
apply load32_agree. intros x Hx. apply ad_inode2.
unfold OI_SIZE in Hx. consts. lia.
Qed.

Lemma ad_size4 : oi_size d4 oi = oi_size d oi + OSPFS_BLKSIZE.
Proof.
pose proof ad_size_range as R.
unfold d4, oi_size at 1, set_oi_size. rewrite load32_store32_same, ad_size3.
rewrite !(u32_small (oi_size d oi + OSPFS_BLKSIZE)) by (consts; lia).
reflexivity.
Qed.

Lemma ad_ftype4 : oi_ftype d4 oi = oi_ftype d oi.
Proof.
unfold oi_ftype. apply ad_word4; unfold OI_FTYPE, OI_DIRECT, OI_SIZE; consts; lia.
Qed.

Lemma ad_direct4 (j : Z) :
0 <= j < OSPFS_NDIRECT ->
oi_direct d4 oi j = if j =? k then a0 else oi_direct d oi j.
Proof.
intros Hj. destruct ad_block as (Hr & _ & _ & _).
destruct (Z.eqb_spec j k) as [-> | N].
- unfold oi_direct, d4, set_oi_size.
rewrite load32_store32_other by (unfold OI_SIZE, OI_DIRECT; lia).
unfold d3. rewrite load32_store32_same. apply u32_small. consts. lia.
- unfold oi_direct. apply ad_word4; unfold OI_DIRECT, OI_SIZE; consts; lia.
Qed.

Lemma ad_file_block (j : Z) :
0 <= j <= k ->
file_block d4 oi j = if j =? k then a0 else file_block d oi j.
Proof.
intros Hj. pose proof ad_size_range as R. unfold file_block.
assert (Q : j * OSPFS_BLKSIZE / OSPFS_BLKSIZE = j)
by (apply Z.div_mul; consts; lia).
rewrite blockno_direct;
[| rewrite ad_size4; consts; lia | rewrite ad_ftype4; exact Htype
 | rewrite Q; lia].
rewrite Q, ad_direct4 by lia.
destruct (Z.eqb_spec j k); [reflexivity |].
rewrite blockno_direct by (try assumption; rewrite ?Q; consts; lia).
now rewrite Q.
Qed.

Lemma ad_bits (j : Z) :
0 <= j < OSPFS_BLKBITSIZE ->
block_is_free d4 j = block_is_free d j && negb (j =? a0).
Proof.
intros Hj. destruct ad_block as (Hr & _ & Eb & _).
destruct Hapart as (_ & Hm & _).
unfold d4, set_oi_size, d3.
rewrite !block_is_free_store32
by (try assumption; unfold OI_SIZE, OI_DIRECT; consts; lia).
unfold d2, claimed. cbn [fold_left].
unfold block_is_free. rewrite bitvector_test_bit by lia.
rewrite (load32_agree (bitvector_clear d freemap0 a0)).
- rewrite <- bitvector_test_bit by lia.
apply bitvector_test_clear; consts; lia.
- intros x Hx. apply zero_block_outside. consts.
pose proof (Z.div_mod j 32 ltac:(lia)).
pose proof (Z.mod_pos_bound j 32 ltac:(lia)).
unfold freemap0 in *. consts. lia.
Qed.

Lemma ad_zero (a : Z) :
ospfs_block a0 <= a < ospfs_block a0 + OSPFS_BLKSIZE -> load8 d4 a = 0.
Proof.
intros Ha. destruct ad_block as (_ & _ & _ & Hap).
unfold d4, set_oi_size, d3.
rewrite !load8_store32_other by (unfold OI_SIZE, OI_DIRECT; consts; lia).
unfold d2, claimed. cbn [fold_left]. now apply zero_block_inside.
Qed.

(** All of it together. *)
Lemma ad_post :
(forall j, 0 <= j < OSPFS_BLKBITSIZE ->
 block_is_free d4 j = block_is_free d j && negb (j =? a0))
/\ oi_size d4 oi = oi_size d oi + OSPFS_BLKSIZE
/\ (forall j, 0 <= j <= k ->
file_block d4 oi j = if j =? k then a0 else file_block d oi j)
/\ forall a, ospfs_block a0 <= a < ospfs_block a0 + OSPFS_BLKSIZE ->
     load8 d4 a = 0.
Proof.
split; [exact ad_bits |]. split; [exact ad_size4 |].
split; [exact ad_file_block | exact ad_zero].
Qed.

(** [remove_block] on the file that has just grown from a whole number
of blocks, at most eight. *)
Lemma ad_remove :
k < OSPFS_NDIRECT - 1 -> oi_size d oi mod OSPFS_BLKSIZE = 0 ->
oi_size (snd (remove_block d4 oi)) oi = oi_size d oi
/\ forall j, 0 <= j < OSPFS_BLKBITSIZE ->
 block_is_free (snd (remove_block d4 oi)) j = block_is_free d j.
Proof.
intros Hk8 Hal. pose proof ad_size_range as Rs.
pose proof (ad_file_block k ltac:(lia)) as F1. rewrite Z.eqb_refl in F1.
destruct ad_block as (Hr & Hfr & _ & _).
pose proof (Z.div_mod (oi_size d oi) OSPFS_BLKSIZE ltac:(consts; lia)) as D.
rewrite Hal, Z.add_0_r in D.
assert (Es : oi_size d oi = k * OSPFS_BLKSIZE) by (consts; nia).
assert (N1 : ospfs_size2nblocks (oi_size d4 oi) = k + 1).
{ rewrite ad_size4, Es, size2nblocks_ceil by (consts; lia).
symmetry. apply (Z.div_unique _ _ _ (OSPFS_BLKSIZE - 1)); consts; lia. }
pose proof Hapart as (_ & Hm & _).
destruct (remove_block_one_block d4 oi) as [Hbits Hsize];
rewrite ?N1, ?Z.add_simpl_r, ?F1.
- consts. lia.
- idx.
- idx.
- now rewrite ad_ftype4.
- consts. lia.
- unfold OI_SIZE. consts. lia.
- cbv zeta in Hbits, Hsize. rewrite N1, Z.add_simpl_r, F1 in Hbits.
split.
+ rewrite Hsize, ad_size4, Es.
destruct (Z.ltb_spec (k * OSPFS_BLKSIZE + OSPFS_BLKSIZE) OSPFS_BLKSIZE);
[consts; lia |].
replace (k * OSPFS_BLKSIZE + OSPFS_BLKSIZE) with ((k + 1) * OSPFS_BLKSIZE)
by lia.
rewrite Z.mod_mul by (consts; lia). lia.
+ intros j Hj. rewrite (Hbits j Hj), (ad_bits j Hj).
destruct (Z.eqb_spec j a0) as [-> | N]; cbn [negb].
* now rewrite Hfr.
* now rewrite andb_true_r, orb_false_r.
Qed.

End AddDirect.

(** The shape of a successful [add_block] within the direct blocks. *)
Lemma add_block_direct_shape (d : image) (oi : Z) :
  let k := ospfs_size2nblocks (oi_size d oi) in
  1 <= k < OSPFS_NDIRECT -> os_nblocks d <= OSPFS_BLKBITSIZE ->
  fst (add_block d oi) = 0 ->
  exists a0,
    fresh_blocks d [a0]
    /\ snd (add_block d oi)
       = let d3 := store32 (claimed d [a0]) (oi + OI_DIRECT + 4 * k) a0 in
         set_oi_size d3 oi (oi_size d3 oi + OSPFS_BLKSIZE).
Proof.
  intros k Hk Hn Hz.
  assert (I2 : indir2_index k = -1) by idx.
  assert (I2' : indir2_index (k - 1) = -1) by idx.
  assert (I1 : indir_index k = -1) by idx.
  assert (I1' : indir_index (k - 1) = -1) by idx.
  assert (I0 : direct_index k = k) by idx.
  destruct (add_block_one d oi ltac:(fold k; consts; lia) Hn
              ltac:(fold k; congruence) ltac:(fold k; congruence))
    as [Hfail | (a0 & Hfresh & Hres)].
  - rewrite Hfail in Hz. discriminate.
  - exists a0. split; [exact Hfresh |]. rewrite Hres. cbn [snd]. cbv zeta.
    fold k. rewrite I2, I1, I0. reflexivity.
Qed.

(** X20.  A successful [add_block] on a file of 1 to 9 blocks, with the
    bitmap in one block and the inode apart from the bitmap block and
    from the free blocks: the block it adds was free and is now in use,
    no other bit of the bitmap changes, the size grows by one block, the
    block map gives the new block for the next file block and the old
    blocks for the others, and every byte of the new block is 0. *)
Theorem add_block_direct (d : image) (oi : Z) :
  let k := ospfs_size2nblocks (oi_size d oi) in
  let d1 := snd (add_block d oi) in
  1 <= k < OSPFS_NDIRECT ->
  oi_ftype d oi <> OSPFS_FTYPE_SYMLINK ->
  inode_apart d oi ->
  fst (add_block d oi) = 0 ->
  exists b,
    os_firstinob d <= b < os_nblocks d
    /\ block_is_free d b = true
    /\ (forall j, 0 <= j < OSPFS_BLKBITSIZE ->
          block_is_free d1 j = block_is_free d j && negb (j =? b))
    /\ oi_size d1 oi = oi_size d oi + OSPFS_BLKSIZE
    /\ (forall j, 0 <= j <= k ->
          file_block d1 oi j = if j =? k then b else file_block d oi j)
    /\ forall a, ospfs_block b <= a < ospfs_block b + OSPFS_BLKSIZE ->
                 load8 d1 a = 0.
Proof.
  intros k d1 Hk Ht Hap Hz.
  destruct (add_block_direct_shape d oi Hk (proj1 Hap) Hz) as (a0 & Hfresh & Hres).
  exists a0. subst d1. rewrite Hres. cbv zeta.
  pose proof Hfresh as [Hnd Hin].
  destruct (Hin a0 (or_introl eq_refl)) as (_ & Hr & Hfr).
  split; [exact Hr |]. split; [exact Hfr |].
  exact (ad_post d oi Hk Ht Hap a0 Hfresh).
Qed.

Lemma two_full_free b :
  os_firstinob Sample.two_full <= b < os_nblocks Sample.two_full ->
  block_is_free Sample.two_full b = true -> 6 <= b.
Proof.
  intros Hb Hf.
  change (os_firstinob Sample.two_full) with 3 in Hb.
  assert (C : b = 3 \/ b = 4 \/ b = 5 \/ 6 <= b) by lia.
  destruct C as [-> | [-> | [-> | C]]]; [| | | exact C];
    vm_compute in Hf; discriminate.
Qed.

Lemma two_full_apart : inode_apart Sample.two_full Sample.file_oi.
Proof.
  split; [vm_compute; discriminate |].
  split; [right; vm_compute; discriminate |].
  intros b Hb Hf. pose proof (two_full_free b Hb Hf) as H6.
  change (os_nblocks Sample.two_full) with 32 in Hb.
  split; [consts; lia |]. right.
  rewrite block_no_wrap by lia. unfold Sample.file_oi. consts. lia.
Qed.

Lemma add_block_direct_witness :
  exists b,
    os_firstinob Sample.two_full <= b < os_nblocks Sample.two_full
    /\ block_is_free Sample.two_full b = true
    /\ (forall j, 0 <= j < OSPFS_BLKBITSIZE ->
          block_is_free (snd (add_block Sample.two_full Sample.file_oi)) j
          = block_is_free Sample.two_full j && negb (j =? b))
    /\ oi_size (snd (add_block Sample.two_full Sample.file_oi)) Sample.file_oi
       = oi_size Sample.two_full Sample.file_oi + OSPFS_BLKSIZE
    /\ (forall j,
          0 <= j <= ospfs_size2nblocks (oi_size Sample.two_full Sample.file_oi) ->
          file_block (snd (add_block Sample.two_full Sample.file_oi))
            Sample.file_oi j
          = if j =? ospfs_size2nblocks (oi_size Sample.two_full Sample.file_oi)
            then b else file_block Sample.two_full Sample.file_oi j)
    /\ forall a, ospfs_block b <= a < ospfs_block b + OSPFS_BLKSIZE ->
                 load8 (snd (add_block Sample.two_full Sample.file_oi)) a = 0.
Proof.
  apply (add_block_direct Sample.two_full Sample.file_oi).
  - vm_compute. split; [discriminate | reflexivity].
  - vm_compute. discriminate.
  - exact two_full_apart.
  - vm_compute. reflexivity.
Defined.

(** X21.  Add then remove: on a file of 1 to 8 whole blocks, under the
    same conditions, [remove_block] after a successful [add_block] gives
    the size and the bitmap back. *)
Theorem add_then_remove_block (d : image) (oi : Z) :
  let k := ospfs_size2nblocks (oi_size d oi) in
  let d2 := snd (remove_block (snd (add_block d oi)) oi) in
  1 <= k < OSPFS_NDIRECT - 1 ->
  oi_size d oi mod OSPFS_BLKSIZE = 0 ->
  oi_ftype d oi <> OSPFS_FTYPE_SYMLINK ->
  inode_apart d oi ->
  fst (add_block d oi) = 0 ->
  oi_size d2 oi = oi_size d oi
  /\ forall j, 0 <= j < OSPFS_BLKBITSIZE ->
       block_is_free d2 j = block_is_free d j.
Proof.
  intros k d2 Hk Hal Ht Hap Hz.
  assert (Hk' : 1 <= k < OSPFS_NDIRECT) by lia.
  destruct (add_block_direct_shape d oi Hk' (proj1 Hap) Hz) as (a0 & Hfresh & Hres).
  subst d2. rewrite Hres. cbv zeta.
  apply (ad_remove d oi Hk' Ht Hap a0 Hfresh); [fold k; lia | exact Hal].
Qed.

Lemma add_then_remove_block_witness :
  oi_size (snd (remove_block (snd (add_block Sample.two_full Sample.file_oi))
                  Sample.file_oi)) Sample.file_oi
  = oi_size Sample.two_full Sample.file_oi
  /\ forall j, 0 <= j < OSPFS_BLKBITSIZE ->
       block_is_free
         (snd (remove_block (snd (add_block Sample.two_full Sample.file_oi))
                 Sample.file_oi)) j
       = block_is_free Sample.two_full j.
Proof.
  apply (add_then_remove_block Sample.two_full Sample.file_oi).
  - vm_compute. split; [discriminate | reflexivity].
  - vm_compute. reflexivity.
  - vm_compute. discriminate.
  - exact two_full_apart.
  - vm_compute. reflexivity.
Defined.

(** ** A new name in a directory *)

Section MetaKept.

Variables (d d' : image) (dir_oi f_oi : Z).
Hypothesis Hsep : dir_sep d dir_oi f_oi.
Hypothesis Hkept : forall a, dir_meta d dir_oi a -> d' a = d a.

Lemma kept_inode_word w :
dir_oi <= w -> w + 4 <= dir_oi + OSPFS_INODESIZE -> load32 d' w = load32 d w.
Proof.
intros L U. apply load32_agree. intros x Hx. apply Hkept. right; left. lia.
Qed.

Lemma kept_size : oi_size d' dir_oi = oi_size d dir_oi.
Proof. apply kept_inode_word; unfold OI_SIZE; consts; lia. Qed.

Lemma kept_ftype : oi_ftype d' dir_oi = oi_ftype d dir_oi.
Proof. apply kept_inode_word; unfold OI_FTYPE; consts; lia. Qed.

Lemma kept_blockno off :
0 <= off -> ospfs_inode_blockno d' dir_oi off = ospfs_inode_blockno d dir_oi off.
Proof.
intros H0.
apply blockno_agree; [now rewrite kept_size | apply kept_ftype |].
intros Hlt w x Hw Hx. apply Hkept. right; right.
exists (off / OSPFS_BLKSIZE), w. split; [| now split].
split; [apply Z.div_pos; consts; lia |].
rewrite (sep_nblocks d dir_oi f_oi Hsep).
apply Z.div_lt_upper_bound; [consts; lia |].
pose proof (Z.div_mod (oi_size d dir_oi + OSPFS_BLKSIZE - 1) OSPFS_BLKSIZE
        ltac:(consts; lia)) as D.
pose proof (Z.mod_pos_bound (oi_size d dir_oi + OSPFS_BLKSIZE - 1) OSPFS_BLKSIZE
        ltac:(consts; lia)) as B.
consts. lia.
Qed.

Lemma kept_slot off : 0 <= off -> slot d' dir_oi off = slot d dir_oi off.
Proof. intros H0. unfold slot, ospfs_inode_data. now rewrite kept_blockno. Qed.

Lemma kept_inode ino : ospfs_inode d' ino = ospfs_inode d ino.
Proof.
unfold ospfs_inode, os_ninodes, os_firstinob.
rewrite (load32_agree d d' (ospfs_super + OS_NINODES)),
(load32_agree d d' (ospfs_super + OS_FIRSTINOB)); [reflexivity | |];
intros x Hx; apply Hkept; left; unfold OS_NINODES, OS_FIRSTINOB in *; lia.
Qed.

Lemma kept_entry_off off : entry_off d' dir_oi off <-> entry_off d dir_oi off.
Proof. unfold entry_off. now rewrite kept_size. Qed.

End MetaKept.

(** The bytes of an entry are none of [dir_meta]. *)
Lemma slot_not_meta (d : image) (dir_oi f_oi off a : Z) :
  dir_sep d dir_oi f_oi -> entry_off d dir_oi off ->
  slot d dir_oi off <= a < slot d dir_oi off + OSPFS_DIRENTRY_SIZE ->
  ~ dir_meta d dir_oi a.
Proof.
  intros Hsep He Ha Hm.
  destruct (entry_off_block d dir_oi f_oi Hsep off He) as [Hb _].
  destruct (slot_in_block d dir_oi f_oi Hsep off He) as (_ & _ & L & U).
  destruct (sep_blocks _ _ _ Hsep _ Hb) as [_ Hnot].
  apply (Hnot a); [lia |].
  destruct Hm as [H | [H | H]];
    [left | right; left | right; right; right]; exact H.
Qed.

(** A word that can play the part of the link count is none of
    [dir_meta] and lies in no entry. *)
Lemma word_apart (d : image) (dir_oi w a : Z) :
  dir_sep d dir_oi (w - OI_NLINK) -> w <= a < w + 4 ->
  ~ dir_meta d dir_oi a
  /\ forall off, entry_off d dir_oi off ->
       ~ (slot d dir_oi off <= a < slot d dir_oi off + OSPFS_DIRENTRY_SIZE).
Proof.
  intros Hsep Ha.
  assert (Hl : w - OI_NLINK + OI_NLINK <= a < w - OI_NLINK + OI_NLINK + 4) by lia.
  destruct (sep_nlink _ _ _ Hsep a Hl) as (N1 & N2 & N3).
  split.
  - intros [H | [H | (b & w' & Hb & Hw & Hx)]];
      [now apply N1 | now apply N2 | exact (N3 b w' Hb Hw Hx)].
  - intros off He Hs.
    exact (slot_not_nlink d dir_oi (w - OI_NLINK) Hsep off a He Hs Hl).
Qed.

Lemma inode_byte_word (oi a : Z) :
  oi <= a < oi + OSPFS_INODESIZE ->
  exists w, oi <= w /\ w + 4 <= oi + OSPFS_INODESIZE /\ w <= a < w + 4.
Proof.
  intros Ha. exists (oi + 4 * ((a - oi) / 4)).
  pose proof (Z.div_mod (a - oi) 4 ltac:(lia)).
  pose proof (Z.mod_pos_bound (a - oi) 4 ltac:(lia)).
  consts. lia.
Qed.

Section NewEntry.

Variables (d1 d' : image) (dir_oi f_oi off_b oi ino : Z) (name : list Z).

Let od := slot d1 dir_oi off_b.

Hypothesis Hsep : dir_sep d1 dir_oi f_oi.
Hypothesis Hb : entry_off d1 dir_oi off_b.
Hypothesis Hwords :
forall w, oi <= w -> w + 4 <= oi + OSPFS_INODESIZE ->
dir_sep d1 dir_oi (w - OI_NLINK).
Hypothesis Hch :
forall a, ~ (od <= a < od + OSPFS_DIRENTRY_SIZE) ->
~ (oi <= a < oi + OSPFS_INODESIZE) -> d' a = d1 a.
Hypothesis Hname : name_chars name.
Hypothesis Hlen : Z.of_nat (length name) <= OSPFS_MAXNAMELEN.
Hypothesis Hstored :
load_bytes d' (od + OD_NAME) (length name) = name
/\ load8 d' (od + OD_NAME + Z.of_nat (length name)) = 0.
Hypothesis Hino : od_ino d' od = ino.
Hypothesis Hnz : ino <> 0.
Hypothesis Hold :
forall off, entry_off d1 dir_oi off -> off < off_b ->
entry_matches d1 dir_oi name off = false.

Lemma ne_inode_apart a :
oi <= a < oi + OSPFS_INODESIZE ->
~ dir_meta d1 dir_oi a
/\ forall off, entry_off d1 dir_oi off ->
 ~ (slot d1 dir_oi off <= a < slot d1 dir_oi off + OSPFS_DIRENTRY_SIZE).
Proof.
intros Ha. destruct (inode_byte_word oi a Ha) as (w & L & U & Hw).
exact (word_apart d1 dir_oi w a (Hwords w L U) Hw).
Qed.

Lemma ne_kept a : dir_meta d1 dir_oi a -> d' a = d1 a.
Proof.
intros Hm. apply Hch.
- intros Ha. exact (slot_not_meta d1 dir_oi f_oi off_b a Hsep Hb Ha Hm).
- intros Ha. destruct (ne_inode_apart a Ha) as [N _]. exact (N Hm).
Qed.

Lemma ne_slot off : 0 <= off -> slot d' dir_oi off = slot d1 dir_oi off.
Proof. exact (kept_slot d1 d' dir_oi f_oi Hsep ne_kept off). Qed.

Lemma ne_inode ino' : ospfs_inode d' ino' = ospfs_inode d1 ino'.
Proof. exact (kept_inode d1 d' dir_oi ne_kept ino'). Qed.

Lemma ne_other off :
entry_off d1 dir_oi off -> off <> off_b ->
entry_matches d' dir_oi name off = entry_matches d1 dir_oi name off.
Proof.
intros He Hne. apply entry_matches_agree; [apply ne_slot; apply He |].
intros a Ha. apply Hch.
- destruct (slots_apart d1 dir_oi f_oi Hsep off off_b He Hb Hne) as [S | S];
fold od in S; unfold OD_NAME, OSPFS_MAXNAMELEN in *; consts; lia.
- intros Hi. destruct (ne_inode_apart a Hi) as [_ N].
apply (N off He). unfold OD_NAME, OSPFS_MAXNAMELEN in *. consts. lia.
Qed.

Lemma ne_find : find_direntry d' dir_oi name = Some od.
Proof.
assert (Hal : oi_size d' dir_oi mod OSPFS_DIRENTRY_SIZE = 0).
{ rewrite (kept_size d1 d' dir_oi ne_kept). apply (sep_aligned _ _ _ Hsep). }
assert (Hb' : entry_off d' dir_oi off_b)
by (apply (kept_entry_off d1 d' dir_oi ne_kept); exact Hb).
rewrite (find_direntry_first_off d' dir_oi Hal name off_b Hb').
- f_equal. apply ne_slot. apply Hb.
- intros off He Hlt.
apply (kept_entry_off d1 d' dir_oi ne_kept) in He.
rewrite ne_other by (try assumption; lia). now apply Hold.
- unfold entry_matches. rewrite ne_slot by apply Hb. fold od.
rewrite Hino. destruct (Z.eqb_spec ino 0); [contradiction |]. cbn [negb andb].
destruct Hstored as [Hs Hz].
now apply (name_matches_stored d' od name name Hname Hname Hs Hz).
Qed.

End NewEntry.

(** What [create_blank_direntry] leaves for an inode that is apart from
    the directory, when the name is not in the directory yet. *)
Lemma blank_for_inode (d d1 : image) (dir_ino dir_oi ino oi od : Z)
    (name : list Z) :
  inodes_apart d dir_ino dir_oi ->
  0 <= ino -> ino <> dir_ino -> ospfs_inode d ino = Some oi ->
  0 < oi_size d dir_oi ->
  oi_size d dir_oi + OSPFS_DIRENTRY_SIZE <= 4294967296 - 2 * OSPFS_BLKSIZE ->
  create_blank_direntry d dir_oi = Some (Ptr od, d1) ->
  find_direntry d dir_oi name = None ->
  Z.of_nat (length name) <= OSPFS_MAXNAMELEN ->
  exists off_b,
    entry_off d1 dir_oi off_b /\ od = slot d1 dir_oi off_b
    /\ dir_sep d1 dir_oi (oi - OI_NLINK)
    /\ (forall w, oi <= w -> w + 4 <= oi + OSPFS_INODESIZE ->
          dir_sep d1 dir_oi (w - OI_NLINK) /\ load32 d1 w = load32 d w)
    /\ (forall i, ospfs_inode d1 i = ospfs_inode d i)
    /\ (forall off, entry_off d1 dir_oi off -> off < off_b ->
          entry_matches d1 dir_oi name off = false).
Proof.
  intros Hapart Hi Hne Hoi Hpos Hroom Hcb Hfind Hlen.
  destruct (Hapart ino oi oi Hi Hne Hoi ltac:(lia) ltac:(consts; lia))
    as [Hsep0 Hgrow0].
  destruct (create_blank_direntry_post d dir_oi (oi - OI_NLINK) Hsep0 Hroom Hgrow0
              od d1 Hpos Hcb)
    as (off_b & Hb & Hod & Hsep1 & Hinode1 & _ & Hkeep & Hnew & _ & _).
  exists off_b. split; [exact Hb |]. split; [exact Hod |].
  split; [exact Hsep1 |]. split; [| split; [exact Hinode1 |]].
  - intros w L U.
    destruct (Hapart ino oi w Hi Hne Hoi L U) as [Hsepw Hgroww].
    destruct (create_blank_direntry_post d dir_oi (w - OI_NLINK) Hsepw Hroom Hgroww
                od d1 Hpos Hcb)
      as (_ & _ & _ & Hsep1w & _ & Hnl & _).
    split; [exact Hsep1w |].
    unfold oi_nlink in Hnl.
    now replace (w - OI_NLINK + OI_NLINK) with w in Hnl by lia.
  - intros off He Hlt.
    destruct (Hnew off He) as [Hd | ->]; [| lia].
    destruct (Hkeep off Hd) as (_ & _ & _ & Hm).
    rewrite Hm by (unfold OSPFS_MAXNAMELEN in Hlen; consts; lia).
    exact (find_direntry_none_off d dir_oi (sep_aligned _ _ _ Hsep0) name off
             Hfind Hd).
Qed.

Lemma create_inode_scan_found (d : image) :
  forall (left : nat) (i ino oi : Z),
    create_inode_scan left d i = Some (ino, oi) ->
    i <= ino /\ ospfs_inode d ino = Some oi /\ oi_nlink d oi = 0.
Proof.
  induction left as [| left IH]; intros i ino oi H; [discriminate |].
  cbn [create_inode_scan] in H.
  destruct (ospfs_inode d i) as [o |] eqn:E; [| discriminate].
  destruct (Z.eqb_spec (oi_nlink d o) 0) as [Z0 | NZ].
  - injection H as <- <-. split; [lia |]. now split.
  - destruct (IH _ _ _ H) as (L & Hoi & Hn). split; [lia |]. now split.
Qed.

Lemma inode_number_range (d : image) (ino oi : Z) :
  ospfs_inode d ino = Some oi -> ino < 4294967296.
Proof.
  unfold ospfs_inode. intros H.
  pose proof (load32_range d (ospfs_super + OS_NINODES)) as R.
  fold (os_ninodes d) in R.
  destruct (Z.geb_spec ino (os_ninodes d)); [discriminate | lia].
Qed.

(** X22.  Create then look up: in the root directory (inode 1), not
    empty, separated from the other inodes and with room for one more
    entry, a successful [ospfs_create] of a name that has no null
    character takes an inode from number 2 on that had no links; the
    inode now has one link, the type of a regular file and the given
    mode, and [ospfs_dir_lookup] of the name finds that inode. *)
Theorem create_then_lookup (d d7 : image) (dir_ino dir_oi : Z) (name : list Z)
    (mode : Z) :
  ospfs_inode d dir_ino = Some dir_oi ->
  0 < dir_ino < 2 ->
  inodes_apart d dir_ino dir_oi ->
  0 < oi_size d dir_oi ->
  oi_size d dir_oi + OSPFS_DIRENTRY_SIZE <= 4294967296 - 2 * OSPFS_BLKSIZE ->
  name_chars name ->
  ospfs_create d dir_ino name mode true = Some (0, d7) ->
  exists ino oi,
    2 <= ino /\ ospfs_inode d ino = Some oi /\ oi_nlink d oi = 0
    /\ ospfs_dir_lookup d7 dir_ino name true = Some (LookupFound ino)
    /\ oi_nlink d7 oi = 1
    /\ oi_ftype d7 oi = OSPFS_FTYPE_REG
    /\ oi_mode d7 oi = u32 mode.
Proof.
  intros Hdir Hroot Hapart Hpos Hroom Hname Hc.
  unfold ospfs_create in Hc. rewrite Hdir in Hc.
  destruct (find_direntry d dir_oi name) as [x |] eqn:Hfind;
    [injection Hc as E _; vm_compute in E; discriminate |].
  destruct (create_blank_direntry d dir_oi) as [[[od | e] d1] |] eqn:Hcb;
    try discriminate.
  cbv zeta in Hc.
  destruct (create_inode_scan _ (set_od_name d1 od name) 2) as [[ino oi] |] eqn:Hscan;
    [| injection Hc as E _; vm_compute in E; discriminate].
  destruct (Z.gtb_spec (Z.of_nat (length name)) OSPFS_MAXNAMELEN) as [Hlong | Hlen];
    [injection Hc as E _; vm_compute in E; discriminate |].
  destruct (ospfs_mk_linux_inode _ ino true) as [[|] |] eqn:Hmk;
    [| injection Hc as E _; vm_compute in E; discriminate | discriminate].
  injection Hc as Hd7.
  set (d2 := set_od_name d1 od name) in *.
  (* inode 0 is there and is not the directory *)
  assert (H0 : ospfs_inode d 0 = Some (ospfs_block (os_firstinob d))).
  { unfold ospfs_inode in *.
    destruct (Z.geb_spec dir_ino (os_ninodes d)); [discriminate |].
    destruct (Z.geb_spec 0 (os_ninodes d)); [lia |]. f_equal. lia. }
  destruct (blank_for_inode d d1 dir_ino dir_oi 0 _ od name Hapart
              ltac:(lia) ltac:(lia) H0 Hpos Hroom Hcb Hfind Hlen)
    as (off0 & Hb0 & Hod0 & Hsep0 & _ & Hinode0 & _).
  (* the superblock and the link counts after the name is stored *)
  assert (Hk2 : forall a, dir_meta d1 dir_oi a -> d2 a = d1 a).
  { intros a Hm. unfold d2. apply set_od_name_outside.
    pose proof (slot_not_meta d1 dir_oi _ off0 a Hsep0 Hb0) as N.
    rewrite <- Hod0 in N.
    unfold OD_NAME, OSPFS_MAXNAMELEN in *. consts.
    destruct (Z_lt_ge_dec a (od + 4)) as [L | G]; [now left | right].
    destruct (Z_lt_ge_dec (od + 4 + Z.of_nat (length name)) a) as [L' | G'];
      [exact L' |].
    exfalso. apply N; [lia | exact Hm]. }
  destruct (create_inode_scan_found d2 _ _ _ _ Hscan) as (L2 & Hoi2 & Hn2).
  assert (Hoi : ospfs_inode d ino = Some oi).
  { rewrite <- Hinode0, <- (kept_inode d1 d2 dir_oi Hk2). exact Hoi2. }
  destruct (blank_for_inode d d1 dir_ino dir_oi ino oi od name Hapart
              ltac:(lia) ltac:(lia) Hoi Hpos Hroom Hcb Hfind Hlen)
    as (off_b & Hb & Hod & Hsep1 & Hwords & Hinode1 & Hold).
  pose proof (inode_number_range d ino oi Hoi) as Rino.
  (* bytes of the inode lie in no entry *)
  assert (Hin_od : forall a, oi <= a < oi + OSPFS_INODESIZE ->
            ~ (od <= a < od + OSPFS_DIRENTRY_SIZE)).
  { intros a Ha.
    destruct (ne_inode_apart d1 dir_oi oi (fun w L U => proj1 (Hwords w L U)) a Ha)
      as [_ N].
    rewrite Hod. exact (N off_b Hb). }
  assert (Hw2 : forall w, oi <= w -> w + 4 <= oi + OSPFS_INODESIZE ->
            load32 d2 w = load32 d w).
  { intros w L U. rewrite <- (proj2 (Hwords w L U)).
    apply load32_agree. intros x Hx. unfold d2. apply set_od_name_outside.
    pose proof (Hin_od x ltac:(lia)) as N.
    unfold OD_NAME, OSPFS_MAXNAMELEN in *. consts. lia. }
  assert (Hn : oi_nlink d oi = 0).
  { rewrite <- Hn2. symmetry. apply Hw2; unfold OI_NLINK; consts; lia. }
  set (d3 := set_oi_nlink d2 oi (oi_nlink d2 oi + 1)) in *.
  set (d4 := store32 d3 (oi + OI_MODE) mode) in *.
  set (d5 := store32 d4 (oi + OI_FTYPE) OSPFS_FTYPE_REG) in *.
  set (d6 := set_od_name d5 od name) in *.
  (* the words of the inode after the entry is filled *)
  assert (Hw7 : forall w, oi <= w -> w + 4 <= oi + OSPFS_INODESIZE ->
            load32 d7 w = load32 d5 w).
  { intros w L U. apply load32_agree. intros x Hx. subst d7.
    pose proof (Hin_od x ltac:(lia)) as N.
    unfold set_od_ino. rewrite store32_outside
      by (unfold OD_INO; consts; lia).
    unfold d6. apply set_od_name_outside.
    unfold OD_NAME, OSPFS_MAXNAMELEN in *. consts. lia. }
  exists ino, oi. split; [exact L2 |]. split; [exact Hoi |]. split; [exact Hn |].
  assert (Hch : forall a, ~ (slot d1 dir_oi off_b <= a
                             < slot d1 dir_oi off_b + OSPFS_DIRENTRY_SIZE) ->
                 ~ (oi <= a < oi + OSPFS_INODESIZE) -> d7 a = d1 a).
  { rewrite <- Hod. intros a Ha Hi. subst d7.
    unfold set_od_ino. rewrite store32_outside by (unfold OD_INO; consts; lia).
    unfold d6. rewrite set_od_name_outside
      by (unfold OD_NAME, OSPFS_MAXNAMELEN in *; consts; lia).
    unfold d5, d4, d3, set_oi_nlink.
    rewrite !store32_outside
      by (unfold OI_FTYPE, OI_MODE, OI_NLINK; consts; lia).
    unfold d2. apply set_od_name_outside.
    unfold OD_NAME, OSPFS_MAXNAMELEN in *. consts. lia. }
  assert (Hstored :
            load_bytes d7 (slot d1 dir_oi off_b + OD_NAME) (length name) = name
            /\ load8 d7 (slot d1 dir_oi off_b + OD_NAME + Z.of_nat (length name)) = 0).
  { rewrite <- Hod. destruct (set_od_name_stored d5 od name Hname) as [Hs Hz].
    fold d6 in Hs, Hz. subst d7. unfold set_od_ino. split.
    - transitivity (load_bytes d6 (od + OD_NAME) (length name)); [| exact Hs].
      apply load_bytes_agree. intros x Hx.
      apply store32_outside. unfold OD_INO, OD_NAME in *. lia.
    - transitivity (load8 d6 (od + OD_NAME + Z.of_nat (length name)));
        [| exact Hz].
      apply load8_agree.
      apply store32_outside. unfold OD_INO, OD_NAME in *. lia. }
  assert (Hino : od_ino d7 (slot d1 dir_oi off_b) = ino).
  { rewrite <- Hod. subst d7. unfold od_ino, set_od_ino.
    rewrite load32_store32_same. apply u32_small. lia. }
  pose proof (ne_find d1 d7 dir_oi _ off_b oi ino name Hsep1 Hb
                (fun w L U => proj1 (Hwords w L U)) Hch Hname Hlen Hstored Hino
                ltac:(lia) Hold) as Hfound.
  pose proof (ne_inode d1 d7 dir_oi _ off_b oi Hsep1 Hb
                (fun w L U => proj1 (Hwords w L U)) Hch) as Hinode7.
  split; [| split; [| split]].
  - unfold ospfs_dir_lookup.
    destruct (Z.gtb_spec (Z.of_nat (length name)) OSPFS_MAXNAMELEN); [lia |].
    rewrite Hinode7, Hinode1, Hdir, lookup_scan_find.
    fold (find_direntry d7 dir_oi name). rewrite Hfound, Hino.
    rewrite Hd7 in Hmk. now rewrite Hmk.
  - unfold oi_nlink. rewrite Hw7 by (unfold OI_NLINK; consts; lia).
    unfold d5, d4.
    rewrite !load32_store32_other by (unfold OI_NLINK, OI_MODE, OI_FTYPE; lia).
    unfold d3, set_oi_nlink. rewrite load32_store32_same, Hn2.
    reflexivity.
  - unfold oi_ftype. rewrite Hw7 by (unfold OI_FTYPE; consts; lia).
    unfold d5. rewrite load32_store32_same. reflexivity.
  - unfold oi_mode. rewrite Hw7 by (unfold OI_MODE; consts; lia).
    unfold d5. rewrite load32_store32_other by (unfold OI_MODE, OI_FTYPE; lia).
    unfold d4. apply load32_store32_same.
Qed.

Section FullBlockSample.

Import Sample.

(** An image laid out as the sample images are: 32 blocks, the 16 inodes
in block 3, the root directory full with its eight entries in block
4, and the free blocks from 5 on. *)
Variable e : image.
Hypothesis Htype : oi_ftype e root_oi <> OSPFS_FTYPE_SYMLINK.
Hypothesis Hsize : oi_size e root_oi = 1024.
Hypothesis Hblock : file_block e root_oi 0 = 4.
Hypothesis Hnblocks : os_nblocks e = 32.
Hypothesis Hfirst : os_firstinob e = 3.
Hypothesis Hninodes : os_ninodes e = 16.
Hypothesis Hfree :
forall b, 3 <= b < 32 -> block_is_free e b = true -> 5 <= b.

Variable w : Z.
Hypothesis Hw : 3072 <= w /\ w + 4 <= 4096.
Hypothesis Hout : w + 4 <= 3136 \/ 3200 <= w.

Lemma full_nblocks : ospfs_size2nblocks (oi_size e root_oi) = 1.
Proof. rewrite Hsize. reflexivity. Qed.

Lemma full_map_words b :
0 <= b < 1 -> map_words e root_oi b = [root_oi + OI_DIRECT + 4 * b].
Proof.
intros Hb. unfold map_words.
destruct (Z.ltb_spec b OSPFS_NDIRECT); [reflexivity | consts; lia].
Qed.

Lemma full_no_meta_word a :
2048 <= a < 3072 \/ 4096 <= a ->
~ in_meta e root_oi (w - OI_NLINK) 1 a.
Proof.
intros Ha [H | [H | [H | (b & x & Hb & Hx & Hr)]]].
- unfold ospfs_super, OS_NINODES, OS_FIRSTINOB in H. consts. lia.
- unfold root_oi in H. consts. lia.
- unfold OI_NLINK in H. lia.
- rewrite full_map_words in Hx by exact Hb. destruct Hx as [<- | []].
unfold root_oi, OI_DIRECT in Hr. consts. lia.
Qed.

Lemma full_sep_word : dir_sep e root_oi (w - OI_NLINK).
Proof.
constructor; rewrite ?full_nblocks.
- exact Htype.
- rewrite Hsize. reflexivity.
- rewrite Hsize. consts. lia.
- intros b Hb. assert (b = 0) by lia. subst b. rewrite Hblock.
split; [lia |]. intros a Ha. apply full_no_meta_word.
change (ospfs_block 4) with 4096 in Ha. consts. lia.
- intros b b' Hb Hb' Hne. lia.
- intros a Ha. unfold OI_NLINK in Ha.
split; [unfold ospfs_super, OS_NINODES, OS_FIRSTINOB; consts; lia |].
split; [unfold root_oi; consts; lia |].
intros b x Hb Hx Hr. rewrite full_map_words in Hx by exact Hb.
destruct Hx as [<- | []]. unfold root_oi, OI_DIRECT in Hr. consts. lia.
- intros b x Hb Hx. rewrite full_map_words in Hx by exact Hb.
destruct Hx.
- right. unfold root_oi, ospfs_super, OS_FIRSTINOB. consts. lia.
Qed.

Lemma full_grow_word : can_grow e root_oi (w - OI_NLINK).
Proof.
constructor; rewrite ?full_nblocks, ?Hnblocks, ?Hfirst.
- consts. lia.
- consts. lia.
- intros b Hb Hf. pose proof (Hfree b Hb Hf) as H5.
split; [consts; lia |]. split.
+ intros a Ha. apply full_no_meta_word. right.
rewrite block_no_wrap in Ha by lia. consts. lia.
+ intros b' Hb'. assert (b' = 0) by lia. subst b'.
rewrite Hblock. lia.
- intros a Ha. split.
+ apply full_no_meta_word. left. unfold freemap0 in Ha. consts. lia.
+ intros b' Hb'. assert (b' = 0) by lia. subst b'.
rewrite Hblock. consts. lia.
- intros x y Hx. unfold next_words in Hx.
destruct (Z.ltb_spec 1 OSPFS_NDIRECT); [destruct Hx | consts; lia].
Qed.

End FullBlockSample.

(** The inodes of such an image are apart from its root directory. *)
Lemma full_apart (e : image) :
  oi_ftype e Sample.root_oi <> OSPFS_FTYPE_SYMLINK ->
  oi_size e Sample.root_oi = 1024 ->
  file_block e Sample.root_oi 0 = 4 ->
  os_nblocks e = 32 -> os_firstinob e = 3 -> os_ninodes e = 16 ->
  (forall b, 3 <= b < 32 -> block_is_free e b = true -> 5 <= b) ->
  inodes_apart e Sample.root_ino Sample.root_oi.
Proof.
  intros Ht Hs Hb Hnb Hf Hni Hfree ino oi w Hi Hne Hoi L U.
  unfold ospfs_inode in Hoi. rewrite Hni, Hf in Hoi.
  destruct (Z.geb_spec ino 16); [discriminate Hoi |].
  assert (Eoi : oi = ospfs_block 3 + ino * OSPFS_INODESIZE) by congruence.
  clear Hoi. subst oi. change (ospfs_block 3) with 3072 in *.
  unfold Sample.root_ino in Hne.
  assert (Hw : 3072 <= w /\ w + 4 <= 4096) by (consts; lia).
  assert (Hout : w + 4 <= 3136 \/ 3200 <= w) by (consts; lia).
  split; [exact (full_sep_word e Ht Hs Hb w Hw Hout) |].
  intros _. exact (full_grow_word e Hs Hb Hnb Hf Hfree w Hw Hout).
Qed.

Lemma crowded_apart :
  inodes_apart Sample.crowded Sample.root_ino Sample.root_oi.
Proof.
  apply full_apart.
  - vm_compute. discriminate.
  - exact crowded_size.
  - exact crowded_block.
  - vm_compute. reflexivity.
  - vm_compute. reflexivity.
  - vm_compute. reflexivity.
  - exact crowded_free.
Qed.

Lemma create_then_lookup_witness :
  exists ino oi,
    2 <= ino /\ ospfs_inode Sample.crowded ino = Some oi
    /\ oi_nlink Sample.crowded oi = 0
    /\ ospfs_dir_lookup
         (Sample.image_of (ospfs_create Sample.crowded Sample.root_ino [104] 420 true))
         Sample.root_ino [104] true = Some (LookupFound ino)
    /\ oi_nlink
         (Sample.image_of (ospfs_create Sample.crowded Sample.root_ino [104] 420 true))
         oi = 1
    /\ oi_ftype
         (Sample.image_of (ospfs_create Sample.crowded Sample.root_ino [104] 420 true))
         oi = OSPFS_FTYPE_REG
    /\ oi_mode
         (Sample.image_of (ospfs_create Sample.crowded Sample.root_ino [104] 420 true))
         oi = u32 420.
Proof.
  apply (create_then_lookup Sample.crowded _ Sample.root_ino Sample.root_oi
           [104] 420).
  - vm_compute. reflexivity.
  - vm_compute. split; reflexivity.
  - exact crowded_apart.
  - vm_compute. reflexivity.
  - rewrite crowded_size. vm_compute. discriminate.
  - repeat constructor; lia.
  - destruct (ospfs_create Sample.crowded Sample.root_ino [104] 420 true)
      as [[r e] |] eqn:E.
    + cbn [Sample.image_of]. apply (f_equal (option_map fst)) in E.
      vm_compute in E. injection E as <-. reflexivity.
    + apply (f_equal (option_map fst)) in E. vm_compute in E. discriminate.
Defined.

(** ** A new symbolic link *)

Lemma symlink_inode_scan_found (d : image) :
  forall (left : nat) (i : Z),
    let r := symlink_inode_scan left d i in
    i <= r
    /\ (r = i + Z.of_nat left
        \/ ospfs_inode d r = None
        \/ exists oi, ospfs_inode d r = Some oi /\ oi_nlink d oi = 0).
Proof.
  induction left as [| left IH]; intros i r; subst r; cbn [symlink_inode_scan].
  - split; [lia | left; lia].
  - destruct (ospfs_inode d i) as [oi |] eqn:E.
    + destruct (Z.eqb_spec (oi_nlink d oi) 0) as [Z0 | NZ].
      * split; [lia |]. right; right. now exists oi.
      * destruct (IH (i + 1)) as [L C]. split; [lia |].
        destruct C as [C | C]; [left; lia | right; exact C].
    + split; [lia |]. right; now left.
Qed.

Lemma store32_outside_3 (d : image) (a1 a2 a3 v1 v2 v3 x : Z) :
  x < a1 \/ a1 + 4 <= x -> x < a2 \/ a2 + 4 <= x -> x < a3 \/ a3 + 4 <= x ->
  store32 (store32 (store32 d a1 v1) a2 v2) a3 v3 x = d x.
Proof. intros H1 H2 H3. now rewrite !store32_outside. Qed.

(** X23.  Symlink then follow: in a directory that is not empty, is
    separated from the other inodes and has room for one more entry,
    when inode 0 and the directory's inode have links, a successful
    [ospfs_symlink] with a name and a link text that have no null
    character takes an inode that had no links; [ospfs_dir_lookup] of
    the name finds that inode, which is now a symbolic link with one
    link whose size is the length of the text and which holds the text
    and its terminator; and unless the text begins with "root?",
    [ospfs_follow_link] hands the stored text over, whoever asks. *)
Theorem symlink_then_follow (d d7 : image) (dir_ino dir_oi : Z)
    (name symname : list Z) :
  ospfs_inode d dir_ino = Some dir_oi ->
  inodes_apart d dir_ino dir_oi ->
  oi_nlink d dir_oi <> 0 ->
  (forall oi0, ospfs_inode d 0 = Some oi0 -> oi_nlink d oi0 <> 0) ->
  0 < oi_size d dir_oi ->
  oi_size d dir_oi + OSPFS_DIRENTRY_SIZE <= 4294967296 - 2 * OSPFS_BLKSIZE ->
  name_chars name -> name_chars symname ->
  ospfs_symlink d dir_ino name symname true = Some (0, d7) ->
  exists ino oi,
    0 < ino /\ ospfs_inode d ino = Some oi /\ oi_nlink d oi = 0
    /\ ospfs_dir_lookup d7 dir_ino name true = Some (LookupFound ino)
    /\ oi_ftype d7 oi = OSPFS_FTYPE_SYMLINK
    /\ oi_size d7 oi = Z.of_nat (length symname)
    /\ oi_nlink d7 oi = 1
    /\ load_bytes d7 (oi + OI_SYMLINK) (length symname) = symname
    /\ load8 d7 (oi + OI_SYMLINK + Z.of_nat (length symname)) = 0
    /\ (firstn 5 symname <> root_prefix ->
        forall (uid : Z) (fuel : nat), (length symname < fuel)%nat ->
          ospfs_follow_link fuel d7 ino uid = Some (Stored (oi + OI_SYMLINK))
          /\ link_text fuel d7 (Stored (oi + OI_SYMLINK)) = Some symname).
Proof.
  intros Hdir Hapart Hdirlink Hzero Hpos Hroom Hname Hsym Hc.
  unfold ospfs_symlink in Hc. cbv zeta in Hc.
  destruct (Z.gtb_spec (Z.of_nat (length symname)) OSPFS_MAXSYMLINKLEN)
    as [Hlong | Hslen];
    [injection Hc as E _; vm_compute in E; discriminate |].
  destruct (Z.gtb_spec (Z.of_nat (length name)) OSPFS_MAXSYMLINKLEN)
    as [Hlong | Hnlen];
    [injection Hc as E _; vm_compute in E; discriminate |].
  cbn [orb] in Hc. rewrite Hdir in Hc.
  destruct (find_direntry d dir_oi name) as [x |] eqn:Hfind;
    [injection Hc as E _; vm_compute in E; discriminate |].
  destruct (symlink_inode_scan_found d (Z.to_nat (os_ninodes d)) 0) as [L0 Hscan].
  set (ino := symlink_inode_scan (Z.to_nat (os_ninodes d)) d 0) in *.
  pose proof (load32_range d (ospfs_super + OS_NINODES)) as Rn.
  fold (os_ninodes d) in Rn.
  destruct (Z.eqb_spec ino (os_ninodes d)) as [Efull | Hfree];
    [injection Hc as E _; vm_compute in E; discriminate |].
  destruct (ospfs_inode d ino) as [oi |] eqn:Hoi; [| discriminate].
  destruct (create_blank_direntry d dir_oi) as [[[od | e] d1] |] eqn:Hcb;
    [| | discriminate].
  2: { injection Hc as E _. apply create_blank_direntry_errno in Hcb.
       subst e. vm_compute in E. discriminate. }
  destruct (ospfs_mk_linux_inode _ ino true) as [[|] |] eqn:Hmk;
    [| injection Hc as E _; vm_compute in E; discriminate | discriminate].
  injection Hc as Hd7.
  assert (Hn : oi_nlink d oi = 0).
  { destruct Hscan as [C | [C | (o & Ho & Hz)]];
      [lia | discriminate C | injection Ho as ->; exact Hz]. }
  assert (Hino0 : 0 < ino).
  { destruct (Z.eq_dec ino 0) as [E0 | N0]; [| lia].
    exfalso. rewrite E0 in Hoi. exact (Hzero oi Hoi Hn). }
  assert (Hne : ino <> dir_ino).
  { intros E. rewrite E, Hdir in Hoi. injection Hoi as <-. contradiction. }
  assert (Hlen : Z.of_nat (length name) <= OSPFS_MAXNAMELEN)
    by (unfold OSPFS_MAXNAMELEN, OSPFS_MAXSYMLINKLEN in *; consts; lia).
  destruct (blank_for_inode d d1 dir_ino dir_oi ino oi od name Hapart
              ltac:(lia) Hne Hoi Hpos Hroom Hcb Hfind Hlen)
    as (off_b & Hb & Hod & Hsep1 & Hwords & Hinode1 & Hold).
  pose proof (inode_number_range d ino oi Hoi) as Rino.
  assert (Hin_od : forall a, oi <= a < oi + OSPFS_INODESIZE ->
            ~ (od <= a < od + OSPFS_DIRENTRY_SIZE)).
  { intros a Ha.
    destruct (ne_inode_apart d1 dir_oi oi (fun w L U => proj1 (Hwords w L U)) a Ha)
      as [_ N].
    rewrite Hod. exact (N off_b Hb). }
  set (len := Z.of_nat (length symname)) in *.
  set (d2 := store32 d1 (oi + OI_SIZE) len) in *.
  set (d3 := store32 d2 (oi + OI_FTYPE) OSPFS_FTYPE_SYMLINK) in *.
  set (d4 := store32 d3 (oi + OI_NLINK) 1) in *.
  set (d5 := store8 (store_bytes d4 (oi + OI_SYMLINK) symname)
               (oi + OI_SYMLINK + len) 0) in *.
  set (d6 := set_od_name d5 od name) in *.
  assert (E5 : d5 = set_od_name d4 (oi + OI_SYMLINK - OD_NAME) symname).
  { unfold d5, set_od_name, len.
    now replace (oi + OI_SYMLINK - OD_NAME + OD_NAME) with (oi + OI_SYMLINK) by lia. }
  assert (H75 : forall a, oi <= a < oi + OSPFS_INODESIZE -> d7 a = d5 a).
  { intros a Ha. subst d7. pose proof (Hin_od a Ha) as N.
    unfold set_od_ino. rewrite store32_outside by (unfold OD_INO; consts; lia).
    unfold d6. apply set_od_name_outside.
    unfold OD_NAME, OSPFS_MAXNAMELEN in *. consts. lia. }
  exists ino, oi. split; [exact Hino0 |]. split; [exact Hoi |].
  split; [exact Hn |].
  assert (Hch : forall a, ~ (slot d1 dir_oi off_b <= a
                             < slot d1 dir_oi off_b + OSPFS_DIRENTRY_SIZE) ->
                 ~ (oi <= a < oi + OSPFS_INODESIZE) -> d7 a = d1 a).
  { rewrite <- Hod. intros a Ha Hi. subst d7.
    unfold set_od_ino. rewrite store32_outside by (unfold OD_INO; consts; lia).
    unfold d6. rewrite set_od_name_outside
      by (unfold OD_NAME, OSPFS_MAXNAMELEN in *; consts; lia).
    rewrite E5. rewrite set_od_name_outside
      by (unfold OD_NAME, OI_SYMLINK, OSPFS_MAXSYMLINKLEN, len in *; consts; lia).
    unfold d4, d3, d2.
    apply store32_outside_3; unfold OI_SIZE, OI_FTYPE, OI_NLINK; consts; lia. }
  assert (Hstored :
            load_bytes d7 (slot d1 dir_oi off_b + OD_NAME) (length name) = name
            /\ load8 d7 (slot d1 dir_oi off_b + OD_NAME + Z.of_nat (length name)) = 0).
  { rewrite <- Hod. destruct (set_od_name_stored d5 od name Hname) as [Hs Hz].
    fold d6 in Hs, Hz. subst d7. unfold set_od_ino. split.
    - transitivity (load_bytes d6 (od + OD_NAME) (length name)); [| exact Hs].
      apply load_bytes_agree. intros x Hx.
      apply store32_outside. unfold OD_INO, OD_NAME in *. lia.
    - transitivity (load8 d6 (od + OD_NAME + Z.of_nat (length name)));
        [| exact Hz].
      apply load8_agree.
      apply store32_outside. unfold OD_INO, OD_NAME in *. lia. }
  assert (Hino : od_ino d7 (slot d1 dir_oi off_b) = ino).
  { rewrite <- Hod. subst d7. unfold od_ino, set_od_ino.
    rewrite load32_store32_same. apply u32_small. lia. }
  pose proof (ne_find d1 d7 dir_oi _ off_b oi ino name Hsep1 Hb
                (fun w L U => proj1 (Hwords w L U)) Hch Hname Hlen Hstored Hino
                ltac:(lia) Hold) as Hfound.
  pose proof (ne_inode d1 d7 dir_oi _ off_b oi Hsep1 Hb
                (fun w L U => proj1 (Hwords w L U)) Hch) as Hinode7.
  assert (Hw75 : forall w, oi <= w -> w + 4 <= oi + OSPFS_INODESIZE ->
            load32 d7 w = load32 d5 w).
  { intros w L U. apply load32_agree. intros x Hx. apply H75. lia. }
  assert (Hw54 : forall w, oi <= w -> w + 4 <= oi + OI_SYMLINK ->
            load32 d5 w = load32 d4 w).
  { intros w L U. apply load32_agree. intros x Hx. rewrite E5.
    apply set_od_name_outside. left. lia. }
  destruct (set_od_name_stored d4 (oi + OI_SYMLINK - OD_NAME) symname Hsym)
    as [Hs5 Hz5].
  rewrite <- E5 in Hs5, Hz5.
  replace (oi + OI_SYMLINK - OD_NAME + OD_NAME) with (oi + OI_SYMLINK) in Hs5, Hz5
    by lia.
  assert (Htext : load_bytes d7 (oi + OI_SYMLINK) (length symname) = symname).
  { transitivity (load_bytes d5 (oi + OI_SYMLINK) (length symname)); [| exact Hs5].
    apply load_bytes_agree. intros x Hx. apply H75.
    unfold OI_SYMLINK, OSPFS_MAXSYMLINKLEN, len in *. consts. lia. }
  assert (Hend : load8 d7 (oi + OI_SYMLINK + len) = 0).
  { transitivity (load8 d5 (oi + OI_SYMLINK + len)); [| exact Hz5].
    apply load8_agree. apply H75.
    unfold OI_SYMLINK, OSPFS_MAXSYMLINKLEN, len in *. consts. lia. }
  assert (Hoi7 : ospfs_inode d7 ino = Some oi).
  { now rewrite Hinode7, Hinode1. }
  split; [| split; [| split; [| split; [| split; [| split]]]]].
  - unfold ospfs_dir_lookup.
    destruct (Z.gtb_spec (Z.of_nat (length name)) OSPFS_MAXNAMELEN); [lia |].
    rewrite Hinode7, Hinode1, Hdir, lookup_scan_find.
    fold (find_direntry d7 dir_oi name). rewrite Hfound, Hino.
    rewrite Hd7 in Hmk. now rewrite Hmk.
  - unfold oi_ftype.
    rewrite Hw75, Hw54 by (unfold OI_FTYPE, OI_SYMLINK; consts; lia).
    unfold d4. rewrite load32_store32_other by (unfold OI_NLINK, OI_FTYPE; lia).
    unfold d3. rewrite load32_store32_same. reflexivity.
  - unfold oi_size.
    rewrite Hw75, Hw54 by (unfold OI_SIZE, OI_SYMLINK; consts; lia).
    unfold d4, d3.
    rewrite !load32_store32_other by (unfold OI_NLINK, OI_FTYPE, OI_SIZE; lia).
    unfold d2. rewrite load32_store32_same. apply u32_small.
    unfold len, OSPFS_MAXSYMLINKLEN in *. consts. lia.
  - unfold oi_nlink.
    rewrite Hw75, Hw54 by (unfold OI_NLINK, OI_SYMLINK; consts; lia).
    unfold d4. rewrite load32_store32_same. reflexivity.
  - exact Htext.
  - exact Hend.
  - intros Hplain uid fuel Hfuel.
    assert (Hnz : ~ In 0 symname).
    { intros Hin. unfold name_chars in Hsym. rewrite Forall_forall in Hsym.
      specialize (Hsym 0 Hin). lia. }
    destruct (follow_link_plain d7 ino oi Hoi7 symname uid fuel Htext Hend Hnz
                Hplain) as [F1 F2].
    split; [exact F1 | exact (F2 Hfuel)].
Qed.

Lemma reserved_free b :
  3 <= b < 32 -> block_is_free Sample.reserved b = true -> 5 <= b.
Proof.
  intros Hb Hf.
  assert (C : b = 3 \/ b = 4 \/ 5 <= b) by lia.
  destruct C as [-> | [-> | C]]; [| | exact C]; vm_compute in Hf; discriminate.
Qed.

Lemma reserved_apart :
  inodes_apart Sample.reserved Sample.root_ino Sample.root_oi.
Proof.
  apply full_apart.
  - vm_compute. discriminate.
  - vm_compute. reflexivity.
  - vm_compute. reflexivity.
  - vm_compute. reflexivity.
  - vm_compute. reflexivity.
  - vm_compute. reflexivity.
  - exact reserved_free.
Qed.

Lemma symlink_then_follow_witness :
  exists ino oi,
    0 < ino /\ ospfs_inode Sample.reserved ino = Some oi
    /\ oi_nlink Sample.reserved oi = 0
    /\ ospfs_dir_lookup
         (Sample.image_of
            (ospfs_symlink Sample.reserved Sample.root_ino [108] Sample.tmp_x true))
         Sample.root_ino [108] true = Some (LookupFound ino)
    /\ oi_ftype
         (Sample.image_of
            (ospfs_symlink Sample.reserved Sample.root_ino [108] Sample.tmp_x true))
         oi = OSPFS_FTYPE_SYMLINK
    /\ oi_size
         (Sample.image_of
            (ospfs_symlink Sample.reserved Sample.root_ino [108] Sample.tmp_x true))
         oi = Z.of_nat (length Sample.tmp_x)
    /\ oi_nlink
         (Sample.image_of
            (ospfs_symlink Sample.reserved Sample.root_ino [108] Sample.tmp_x true))
         oi = 1
    /\ load_bytes
         (Sample.image_of
            (ospfs_symlink Sample.reserved Sample.root_ino [108] Sample.tmp_x true))
         (oi + OI_SYMLINK) (length Sample.tmp_x) = Sample.tmp_x
    /\ load8
         (Sample.image_of
            (ospfs_symlink Sample.reserved Sample.root_ino [108] Sample.tmp_x true))
         (oi + OI_SYMLINK + Z.of_nat (length Sample.tmp_x)) = 0
    /\ (firstn 5 Sample.tmp_x <> root_prefix ->
        forall (uid : Z) (fuel : nat), (length Sample.tmp_x < fuel)%nat ->
          ospfs_follow_link fuel
            (Sample.image_of
               (ospfs_symlink Sample.reserved Sample.root_ino [108] Sample.tmp_x
                  true)) ino uid
          = Some (Stored (oi + OI_SYMLINK))
          /\ link_text fuel
               (Sample.image_of
                  (ospfs_symlink Sample.reserved Sample.root_ino [108]
                     Sample.tmp_x true)) (Stored (oi + OI_SYMLINK))
             = Some Sample.tmp_x).
Proof.
  apply (symlink_then_follow Sample.reserved _ Sample.root_ino Sample.root_oi
           [108] Sample.tmp_x).
  - vm_compute. reflexivity.
  - exact reserved_apart.
  - vm_compute. discriminate.
  - intros oi0 H0. vm_compute in H0. injection H0 as <-.
    vm_compute. discriminate.
  - vm_compute. reflexivity.
  - vm_compute. discriminate.
  - repeat constructor; lia.
  - repeat constructor; lia.
  - destruct (ospfs_symlink Sample.reserved Sample.root_ino [108] Sample.tmp_x true)
      as [[r e] |] eqn:E.
    + cbn [Sample.image_of]. apply (f_equal (option_map fst)) in E.
      vm_compute in E. injection E as <-. reflexivity.
    + apply (f_equal (option_map fst)) in E. vm_compute in E. discriminate.
Defined.

(** ** [change_size] for any number of rounds *)

Lemma change_size_grow_more (oi new_size : Z) :
  forall (n m : nat) (d : image) x, (n <= m)%nat ->
    change_size_grow n d oi new_size = Some x ->
    change_size_grow m d oi new_size = Some x.
Proof.
  induction n as [| n IH]; intros m d x L H.
  - destruct m; cbn [change_size_grow] in *;
      destruct (ospfs_size2nblocks (oi_size d oi) <? ospfs_size2nblocks new_size);
      congruence.
  - destruct m as [| m]; [lia |]. cbn [change_size_grow] in *.
    destruct (ospfs_size2nblocks (oi_size d oi) <? ospfs_size2nblocks new_size);
      [| exact H].
    destruct (add_block d oi) as [r d1]. destruct (r <? 0); [exact H |].
    apply (IH m); [lia | exact H].
Qed.

Lemma change_size_shrink_more (oi new_size : Z) :
  forall (n m : nat) (d : image) x, (n <= m)%nat ->
    change_size_shrink n d oi new_size = Some x ->
    change_size_shrink m d oi new_size = Some x.
Proof.
  induction n as [| n IH]; intros m d x L H.
  - destruct m; cbn [change_size_shrink] in *;
      destruct (ospfs_size2nblocks (oi_size d oi) >? ospfs_size2nblocks new_size);
      congruence.
  - destruct m as [| m]; [lia |]. cbn [change_size_shrink] in *.
    destruct (ospfs_size2nblocks (oi_size d oi) >? ospfs_size2nblocks new_size);
      [| exact H].
    destruct (remove_block d oi) as [r d1]. destruct (r <? 0); [exact H |].
    apply (IH m); [lia | exact H].
Qed.

(** A result reached within [n] rounds is the result for every larger
    number of rounds. *)
Lemma change_size_rounds_more (n m : nat) (d : image) (oi new_size : Z) x :
  (n <= m)%nat ->
  change_size_rounds n d oi new_size = Some x ->
  change_size_rounds m d oi new_size = Some x.
Proof.
  intros L H. unfold change_size_rounds in *.
  destruct (change_size_grow n d oi new_size) as [[r d1] |] eqn:G; [| discriminate H].
  rewrite (change_size_grow_more oi new_size n m d _ L G).
  destruct (r <? 0); [exact H |].
  destruct (change_size_shrink n d1 oi new_size) as [[r' d2] |] eqn:S;
    [| discriminate H].
  rewrite (change_size_shrink_more oi new_size n m d1 _ L S). exact H.
Qed.

(** [change_size] is [change_size_rounds] at the difference of the block
    counts, so its results are results of the source. *)
Lemma change_size_as_rounds (d : image) (oi new_size : Z) x :
  change_size d oi new_size = Some x ->
  forall rounds,
    (Z.to_nat (Z.abs (ospfs_size2nblocks new_size
                      - ospfs_size2nblocks (oi_size d oi))) <= rounds)%nat ->
    change_size_rounds rounds d oi new_size = Some x.
Proof.
  intros H rounds L. exact (change_size_rounds_more _ rounds d oi new_size x L H).
Qed.

Lemma change_size_grow_done (rounds : nat) (d : image) (oi new_size : Z) :
  ospfs_size2nblocks new_size <= ospfs_size2nblocks (oi_size d oi) ->
  change_size_grow rounds d oi new_size = Some (0, d).
Proof.
  intros L. destruct rounds; cbn [change_size_grow];
    destruct (Z.ltb_spec (ospfs_size2nblocks (oi_size d oi))
                (ospfs_size2nblocks new_size)); (lia || reflexivity).
Qed.

Lemma change_size_shrink_done (rounds : nat) (d : image) (oi new_size : Z) :
  ospfs_size2nblocks (oi_size d oi) <= ospfs_size2nblocks new_size ->
  change_size_shrink rounds d oi new_size = Some (0, d).
Proof.
  intros L. rewrite <- Z.ltb_ge, <- Z.gtb_ltb in L.
  destruct rounds; cbn [change_size_shrink]; rewrite L; reflexivity.
Qed.

Lemma change_size_rounds_idle (rounds : nat) (d : image) (oi new_size : Z) :
  ospfs_size2nblocks new_size = ospfs_size2nblocks (oi_size d oi) ->
  change_size_rounds rounds d oi new_size = Some (0, set_oi_size d oi new_size).
Proof.
  intros E. unfold change_size_rounds.
  rewrite change_size_grow_done by lia. cbn [Z.ltb Z.compare].
  rewrite change_size_shrink_done by lia. reflexivity.
Qed.

Lemma change_size_rounds_codes (rounds : nat) (d d1 : image) (oi new_size r : Z) :
  0 <= new_size < 4294967296 ->
  change_size_rounds rounds d oi new_size = Some (r, d1) ->
  r = 0 /\ oi_size d1 oi = new_size \/ r = - ENOSPC.
Proof.
  intros Hs H. unfold change_size_rounds in H.
  destruct (change_size_grow rounds d oi new_size) as [[r1 e] |] eqn:G;
    [| discriminate H].
  destruct (change_size_grow_codes _ _ _ _ _ _ G) as [-> | ->].
  2: { cbn in H. injection H as <- _. now right. }
  cbn [Z.ltb Z.compare] in H.
  destruct (change_size_shrink rounds e oi new_size) as [[r2 e2] |] eqn:S;
    [| discriminate H].
  rewrite (change_size_shrink_codes _ _ _ _ _ _ S) in H.
  cbn [Z.ltb Z.compare] in H. injection H as <- <-. left. split; [reflexivity |].
  unfold oi_size, set_oi_size.
  rewrite load32_store32_same, !(u32_small new_size) by lia. reflexivity.
Qed.

(** Growing a file of one to nine blocks by one block takes one round:
    [add_block] either fails, or leaves the size one block larger. *)
Lemma change_size_rounds_one_block (rounds : nat) (d : image) (oi new_size : Z) :
  inode_apart d oi ->
  1 <= ospfs_size2nblocks (oi_size d oi) < OSPFS_NDIRECT ->
  ospfs_size2nblocks new_size = ospfs_size2nblocks (oi_size d oi) + 1 ->
  (1 <= rounds)%nat ->
  exists r d1, change_size_rounds rounds d oi new_size = Some (r, d1).
Proof.
  intros Hapart Hk Hn Hr.
  destruct rounds as [| n]; [lia |].
  unfold change_size_rounds. cbn [change_size_grow].
  destruct (Z.ltb_spec (ospfs_size2nblocks (oi_size d oi))
              (ospfs_size2nblocks new_size)); [| lia].
  pose proof (add_block_codes d oi) as C.
  pose proof (add_block_direct_shape d oi Hk (proj1 Hapart)) as Sh.
  destruct (add_block d oi) as [r0 e]. cbn [fst snd] in C, Sh.
  destruct C as [-> | ->].
  2: { cbn. eexists; eexists; reflexivity. }
  cbn [Z.ltb Z.compare].
  destruct (Sh eq_refl) as (a0 & Hfresh & He).
  assert (Hsize : oi_size e oi = oi_size d oi + OSPFS_BLKSIZE).
  { rewrite He. exact (ad_size4 d oi Hk Hapart a0 Hfresh). }
  assert (Hblocks : ospfs_size2nblocks (oi_size e oi) = ospfs_size2nblocks new_size).
  { pose proof (ad_size_range d oi Hk) as R.
    rewrite Hn, Hsize.
    remember (ospfs_size2nblocks (oi_size d oi)) as k eqn:Ek.
    rewrite size2nblocks_ceil by (consts; lia).
    revert Hk R. consts. intros Hk R.
    symmetry.
    apply (Z.div_unique _ _ _ (oi_size d oi + 1024 + 1024 - 1 - (k + 1) * 1024));
      lia. }
  rewrite change_size_grow_done by lia. cbn [Z.ltb Z.compare].
  rewrite change_size_shrink_done by lia. cbn [Z.ltb Z.compare].
  eexists; eexists; reflexivity.
Qed.

(** X4.  The result of [change_size], whatever the number of rounds its
    loops take: a run that returns gives 0, and then the file has the
    size that was asked for, or [-ENOSPC], never another error, and it
    gives the same result when more rounds are allowed; and the function
    does return, within one round, when a file of one to nine blocks
    whose inode lies apart from the bitmap and from the free blocks is
    to grow by one block. *)
Theorem change_size_result (rounds : nat) (d : image) (oi new_size : Z) :
  0 <= new_size < 4294967296 ->
  (forall r d1,
     change_size_rounds rounds d oi new_size = Some (r, d1) ->
     (r = 0 /\ oi_size d1 oi = new_size \/ r = - ENOSPC)
     /\ forall more, (rounds <= more)%nat ->
          change_size_rounds more d oi new_size = Some (r, d1))
  /\ (inode_apart d oi ->
      1 <= ospfs_size2nblocks (oi_size d oi) < OSPFS_NDIRECT ->
      ospfs_size2nblocks new_size = ospfs_size2nblocks (oi_size d oi) + 1 ->
      (1 <= rounds)%nat ->
      exists r d1, change_size_rounds rounds d oi new_size = Some (r, d1)).
Proof.
  intros Hs. split.
  - intros r d1 H. split.
    + exact (change_size_rounds_codes rounds d d1 oi new_size r Hs H).
    + intros more L. exact (change_size_rounds_more rounds more d oi new_size _ L H).
  - intros Hapart Hk Hn Hr.
    exact (change_size_rounds_one_block rounds d oi new_size Hapart Hk Hn Hr).
Qed.

Lemma change_size_result_witness :
  exists r d1,
    change_size_rounds 1 Sample.two_full Sample.file_oi 3000 = Some (r, d1)
    /\ (r = 0 /\ oi_size d1 Sample.file_oi = 3000 \/ r = - ENOSPC).
Proof.
  destruct (change_size_result 1 Sample.two_full Sample.file_oi 3000 ltac:(lia))
    as [Hcodes Hreturns].
  destruct Hreturns as (r & d1 & E).
  - exact two_full_apart.
  - vm_compute. split; [discriminate | reflexivity].
  - vm_compute. reflexivity.
  - lia.
  - exists r, d1. split; [exact E | exact (proj1 (Hcodes r d1 E))].
Defined.

(** ** Attribute changes *)

(** X16.  [ospfs_notify_change] with a new size and a new mode.  On a
    directory it returns [-EPERM] and changes nothing.  On another file,
    whatever the number of rounds [change_size] takes, a call that
    returns gives [-ENOSPC], or the file has the new size and the new
    mode and the result is that of the kernel's [inode_change_ok] when
    negative, else that of [inode_setattr].  The call does return: with
    the size and the mode stored and the kernel's result, when the new
    size needs as many blocks as the file has; and within one round,
    when a file of one to nine blocks whose inode lies apart from the
    bitmap and from the free blocks is to grow by one block. *)
Theorem notify_change_size_and_mode (rounds : nat) (d : image)
    (ino oi ia_size ia_mode change_ok setattr : Z) :
  ospfs_inode d ino = Some oi ->
  0 <= ia_size < 4294967296 -> 0 <= ia_mode < 4294967296 ->
  (oi_ftype d oi = OSPFS_FTYPE_DIR ->
   ospfs_notify_change rounds d ino (Some ia_size) (Some ia_mode) change_ok setattr
   = Some (- EPERM, d))
  /\ (oi_ftype d oi <> OSPFS_FTYPE_DIR ->
      (forall r d1,
         ospfs_notify_change rounds d ino (Some ia_size) (Some ia_mode)
           change_ok setattr = Some (r, d1) ->
         r = - ENOSPC
         \/ oi_size d1 oi = ia_size /\ oi_mode d1 oi = ia_mode
            /\ r = (if change_ok <? 0 then change_ok else setattr))
      /\ (ospfs_size2nblocks ia_size = ospfs_size2nblocks (oi_size d oi) ->
          ospfs_notify_change rounds d ino (Some ia_size) (Some ia_mode)
            change_ok setattr
          = Some (if change_ok <? 0 then change_ok else setattr,
                  store32 (set_oi_size d oi ia_size) (oi + OI_MODE) ia_mode))
      /\ (inode_apart d oi ->
          1 <= ospfs_size2nblocks (oi_size d oi) < OSPFS_NDIRECT ->
          ospfs_size2nblocks ia_size = ospfs_size2nblocks (oi_size d oi) + 1 ->
          (1 <= rounds)%nat ->
          exists r d1,
            ospfs_notify_change rounds d ino (Some ia_size) (Some ia_mode)
              change_ok setattr = Some (r, d1))).
Proof.
  intros Hoi Hs Hm. unfold ospfs_notify_change. rewrite Hoi.
  rewrite (u32_small ia_size) by exact Hs.
  split.
  { intros Hdir. rewrite Hdir, Z.eqb_refl. reflexivity. }
  intros Hfile. apply Z.eqb_neq in Hfile. rewrite Hfile.
  split; [| split].
  - intros r d1 H.
    destruct (change_size_rounds rounds d oi ia_size) as [[r1 e] |] eqn:C;
      [| discriminate H].
    destruct (change_size_rounds_codes rounds d e oi ia_size r1 Hs C)
      as [[-> Hsize] | ->].
    2: { cbn in H. injection H as <- _. now left. }
    cbn [Z.ltb Z.compare] in H. right.
    assert (E : d1 = store32 e (oi + OI_MODE) ia_mode
                /\ r = (if change_ok <? 0 then change_ok else setattr)).
    { destruct (change_ok <? 0); injection H as <- <-; now split. }
    destruct E as [-> ->]. split; [| split; [| reflexivity]].
    + rewrite <- Hsize. unfold oi_size.
      apply load32_store32_other. unfold OI_MODE, OI_SIZE. lia.
    + unfold oi_mode. rewrite load32_store32_same. now apply u32_small.
  - intros E. rewrite (change_size_rounds_idle rounds d oi ia_size E).
    cbn [Z.ltb Z.compare]. now destruct (change_ok <? 0).
  - intros Hapart Hk Hn Hr.
    destruct (change_size_rounds_one_block rounds d oi ia_size Hapart Hk Hn Hr)
      as (r1 & e & C).
    rewrite C. destruct (r1 <? 0); [eexists; eexists; reflexivity |].
    destruct (change_ok <? 0); eexists; eexists; reflexivity.
Qed.

Lemma notify_change_size_and_mode_witness :
  exists r d1,
    ospfs_notify_change 1 Sample.two_full Sample.file_ino (Some 3000) (Some 420) 0 0
    = Some (r, d1)
    /\ (r = - ENOSPC
        \/ oi_size d1 Sample.file_oi = 3000 /\ oi_mode d1 Sample.file_oi = 420
           /\ r = (if 0 <? 0 then 0 else 0)).
Proof.
  destruct (notify_change_size_and_mode 1 Sample.two_full Sample.file_ino
              Sample.file_oi 3000 420 0 0)
    as [_ Hfile].
  - vm_compute. reflexivity.
  - lia.
  - lia.
  - destruct Hfile as (Hcodes & _ & Hreturns).
    + vm_compute. discriminate.
    + destruct Hreturns as (r & d1 & E).
      * exact two_full_apart.
      * vm_compute. split; [discriminate | reflexivity].
      * vm_compute. reflexivity.
      * lia.
      * exists r, d1. split; [exact E | exact (Hcodes r d1 E)].
Defined.
